(* ===== verification/_CoqProject ===== *)
-Q . S2P
Prelude.v
Memory.v
Interfaces.v
Pmm.v
Paging.v
Process.v
Scheduler.v
Ownership.v
Spaces.v
Frames.v
Block.v
Fat32.v
Fat32Volume.v
Fat32Mount.v
Fat32Files.v
Io.v
Terminal.v
Keyboard.v
Ata.v
Gdt.v
Cpu.v
State.v
Timer.v
Syscall.v
Interrupts.v
Steps.v
Shell.v
User.v
Kernel.v
