(* ===== verification/Prelude.v ===== *)
(** * LevOS: a verification development

    LevOS is a 32-bit x86 kernel: a page-frame allocator and paging, processes with a
    round-robin scheduler driven by the timer interrupt, ring-3 processes with four
    system calls, a read-only FAT32 file system on an ATA disk, and a shell on the VGA
    text screen.  This library models the kernel's C and assembly code and proves it
    correct component by component, up to an invariant of the whole kernel from boot on.
    File names below are those of [src/].

    ** The files

    - [Prelude]: machine integers, C loops, byte lists, tactics and hints.  This file.
    - [Memory]: physical memory as bytes at addresses, little-endian accesses.
    - [Interfaces]: the classes between components: [PageAllocator] with its law
      [PageAllocatorSpec], [BlockDevice] with [BlockDeviceSpec], [Ports], and
      [KernelImage], the addresses the linker assigns.
    - [Pmm]: [memory/pmm.c]; the state is [pmm], one definition for every C function;
      it is an instance of [PageAllocatorSpec].
    - [Paging]: [memory/paging.c] and [memory/paging.asm], over any page allocator;
      [walk] is the translation of the processor.
    - [Process]: [process/process.c]; the state [psys] has the process table, the running
      process, and the machine of [Paging].
    - [Scheduler]: [process/scheduler.c], and the process table as a transition system.
    - [Ownership]: which process owns which page, along the steps of [Scheduler].
    - [Spaces]: the page directories of all processes together, the invariant [safe], and
      what user code can reach and change.
    - [Frames]: the interrupt frames that wait to be resumed, where the code they belong to
      has its stack, and that the return path writes there only.
    - [Block]: [drivers/block.c], a disk in memory as an instance, and one that records
      the sectors it is asked for; [reads] says which sectors an operation may ask for.
    - [Fat32]: all of [filesystem/fat32.c], over any block device; [Fat32Volume]
      and [Fat32Mount] have the theorems on mounting and on the file allocation table,
      [Fat32Files] those on directories, paths and files.
    - [Io]: [drivers/io.c] and [drivers/cmos.c]; the class [PcChips] has the interrupt
      controllers and the timer chip that the kernel programs.
    - [Terminal], [Keyboard]: [drivers/terminal.c], [drivers/keyboard.c].
    - [Ata]: [drivers/ata.c], over the class [AtaDrive] of drives that keep to the ATA
      standard: a command is taken by the device that is selected, when it is idle, in the
      addressing mode and for the number of sectors that the registers hold.  The driver is
      an instance of [BlockDeviceSpec], so that the FAT32 theorems hold on it.
    - [Gdt]: [memory/gdt.c] and [memory/gdt.asm], the busy bit that [ltr] sets included.
    - [Cpu]: [cpu/idt.asm], over the registers of the processor, the data segment registers
      included, which neither entry nor return saves or loads.
    - [State]: the record [kernel], which puts the states above together, with what the
      data segment registers hold.
    - [Timer], [Syscall], [Interrupts]: [cpu/timer.c], [syscall.c] (with [process_exit] of
      [process/process.c]), [cpu/interrupts.c].
    - [Steps]: the running kernel as a transition system of computation, interrupts,
      system calls and process creation, and its invariant [kernel_ok].
    - [Shell]: [shell/shell.c] on the driver and the file system.
    - [User]: [process/user_test.c], with the instructions of its image.
    - [Kernel]: [kernel.c], the boot.

    ** Conventions

    A C function that changes static variables is a function from the state to a result
    and the new state, by the name it has in the source; the static variables of a file
    are a record.  An unsigned integer of width w is a [Z], and [u8], [u16], [u32], [u64]
    convert where the compiler does; [+u], [-u] and [*u] are the 32-bit operations.  A
    [for] loop is [for_loop] (or [for_exit] when it can return) over [range]; a [while]
    loop recurses on what is left of its input, or has fuel and then gives [None] when the
    fuel runs out.  Null pointers are [None].  An array that is indexed is a list; reading
    outside it gives 0, and writing outside it makes the list longer, so that a theorem
    which says that an array keeps its length says that it is not overrun.

    Fuel: [lookup] takes the length of the path, as each round advances in it; the scans
    of [Fat32] take [chain_fuel], one more than there are clusters, and reading a file one
    more than that, as the code counts the clusters it visits; [user_range_valid] takes the number of pages below its limit;
    [ata_wait] the million polls of its loop; [print_number] eleven, for the ten digits of
    32 bits.
    That they are enough is part of the theorems.  Only [pmm_init] takes its fuel as an
    argument: it does not end on every input, see [pmm_init_oversized_tag_loops].

    ** How the parts interact

    [Kernel.kernel_main] runs the initialisations in the order of [kernel.c] and ends
    where the shell waits for its first key.  From there on [Steps.kstep] is the kernel:
    the running code computes, prints, takes keys, creates processes, or is interrupted.
    An interrupt builds the frame of [Cpu.interrupt] on the stack of the running process;
    if the data segments allow the handler to reach its variables ([Steps.handle]),
    [Interrupts.isr_common_handler] dispatches on its vector to [Timer.timer_handler] (and
    so to [Scheduler.schedule]), [Keyboard.keyboard_irq] or [Syscall.syscall_dispatch], and
    [Cpu.isr_return] resumes the frame the handler returns in the address space it
    published in [scheduler_next_directory].  The shell sees the keyboard as the
    characters [Keyboard.keyboard_getchar] gave it ([Shell.shell_keys]).  [shell_ata] of
    [shell.c] and the device of its FAT32 file system are one C object and one value here,
    the device of [shell_fat32].

    ** What the theorems show

    - The kernel as a whole: [kernel_boot_correct] (if [pmm_init] returns, the boot reaches
      the shell, then every step keeps the invariant of processes, memory, screen and
      keyboard, and interrupts are handled to their end, those of user code if it left
      usable data segments), [interrupt_return_correct] (entry and return restore the
      interrupted code, but for the registers the return path destroys and the data
      segments), [user_code_confined] (user code reaches the two user windows only, changes
      no memory of the kernel and breaks nothing), [user_test_correct].
    - Memory: [allocator_refines_page_set], [pmm_init_memory_map] and the boot on any
      input, [init_paging_identity_map], [map_page_in_translation] and its failure,
      [user_range_valid_correct].
    - Processes: creation on every branch, what a user process can read, the round robin
      and its fairness, [schedule_correct], [preempted_process_resumes].
    - System calls: [syscall_write_correct].
    - Files: mounting sound volumes and no others, every sector read lies inside the volume
      ([reads_inside_volume]), table links, [lookup_correct],
      [fat32_read_file_correct] and [fat32_read_file_complete], listing, termination on
      any device contents.
    - Drivers: the screen refines a sequence of cells, the keyboard a bounded queue; the ATA
      driver reads the sector asked for or says why not; the descriptor tables, controllers
      and timer after their set-up.
    - Shell: [shell_safe] (commands end, no array is overrun), [typed_cat_correct].
    - Where the code does not do what it means to, a theorem says what it does:
      [pmm_init_oversized_tag_loops], [process_create_user_captures],
      [process_pages_never_freed], [interrupt_return_correct], and
      [first_user_process_loses_segments]: the return to the first user process leaves null
      data segment registers, with which the handler of the next interrupt cannot run.
      The theorems on the handler, on system calls and on the code of the user program say
      what they do when the handler runs, as it does once user code has loaded a segment.

    ** Assumptions

    The kernel's own accesses go to physical memory.  Its page directory maps the first
    16 MiB to themselves ([init_paging_identity_map]), so this is how the machine behaves
    while the pages the kernel touches lie there and are not the two pages that
    [process_create_user] remaps ([process_create_user_captures]).  User accesses
    ([Syscall.read_virtual], [User]) go through [walk].

    The code and the static variables of the C files are not in the modelled memory,
    except for those whose address the code uses ([KernelImage]).  The stack frames of the
    C functions below an interrupt frame are not modelled either: running kernel code
    changes memory as [Spaces.computes_safely] allows, that is, outside page tables and
    directories and the saved contexts of other processes.  What entry, handler and return
    write is not assumed to: it is proved of them.  User code stores through [walk]
    wherever it can ([Spaces.user_code]); nothing is assumed of it.

    An interrupt comes while code runs that [Steps.may_run] allows: user code when a user
    process runs; or else kernel code, with its stack where the kernel put it, in the image
    for the first process and in the page of the process for others ([Frames.home]), and
    with its frame either at the saved context of the process or apart from it: the copy
    of a context onto an overlapping one is undefined in C.  What kernel code does between
    two interrupts, a line of output, a key taken, a process created, is one step: an
    interrupt inside of it, which destroys [eax], [ebx], [ecx] and [edi] of the code it
    interrupts ([interrupt_return_correct]), is outside the model.

    The drive is not busy with a command when the kernel starts ([Ata.quiet]), and the ports
    of the other devices do not disturb it.

    [kernel_boot_correct] supposes that [pmm_init] returns, which
    [pmm_init_oversized_tag_loops] shows it need not, and for what follows the boot that
    the last page of the 4 GiB is not usable memory.

    ** Not modelled

    [boot/boot.asm] (the multiboot header, and the stack pointer before [kernel_main]),
    [memory/multiboot.h] (declarations no source file uses), the linker script and the
    build files; the translation caches, and the accessed and dirty bits the processor sets
    in table entries; what other interrupts than those of its own
    chips do to the hardware; [hlt] and the instants at which interrupts arrive, beyond
    their order. *)

From stdpp Require Export base numbers list gmap.
From Stdlib Require Export ZArith Lia.

#[global] Open Scope Z_scope.

(** ** Machine integers

    A C unsigned integer of width [w] is a [Z] in [0, 2^w); an operation that
    may leave the range is followed by the conversion the compiler performs. *)

Definition u8 (x : Z) : Z := x mod 2 ^ 8.
Definition u16 (x : Z) : Z := x mod 2 ^ 16.
Definition u32 (x : Z) : Z := x mod 2 ^ 32.
Definition u64 (x : Z) : Z := x mod 2 ^ 64.

(** The value of an [int] whose 32 bits are those of [x]. *)
Definition i32 (x : Z) : Z :=
  let y := x mod 2 ^ 32 in if y <? 2 ^ 31 then y else y - 2 ^ 32.

(** The value of a (signed) [char] whose 8 bits are those of [x]. *)
Definition i8 (x : Z) : Z :=
  let y := x mod 2 ^ 8 in if y <? 2 ^ 7 then y else y - 2 ^ 8.

Declare Scope c_scope.
Delimit Scope c_scope with C.
Notation "a +u b" := (u32 (a + b)) (at level 50, left associativity) : c_scope.
Notation "a -u b" := (u32 (a - b)) (at level 50, left associativity) : c_scope.
Notation "a *u b" := (u32 (a * b)) (at level 40, left associativity) : c_scope.
Notation "a .& b" := (Z.land a b) (at level 46, left associativity) : c_scope.
Notation "a .| b" := (Z.lor a b) (at level 47, left associativity) : c_scope.
#[global] Open Scope c_scope.

(** ** State passing *)

(** A computation on a state [S] returning an [A]. *)
Definition M (S A : Type) : Type := S → A * S.
#[export] Instance M_ret S : MRet (M S) := λ A x s, (x, s).
#[export] Instance M_bind S : MBind (M S) :=
  λ A B f m s, let '(x, s') := m s in f x s'.

(** ** Loops

    [for_loop first last body] is [for (i = first; i < last; ++i) body], and
    [for_exit] is the same loop when the body may leave it (by [return] or
    [break]) with a value. *)

Fixpoint count_up (n : nat) (first : Z) : list Z :=
  match n with
  | O => []
  | S n => first :: count_up n (first + 1)
  end.
Definition range (first last : Z) : list Z := count_up (Z.to_nat (last - first)) first.

Definition for_loop {S} (first last : Z) (body : Z → S → S) (s : S) : S :=
  foldl (λ s i, body i s) s (range first last).

Fixpoint exit_loop {S R} (l : list Z) (body : Z → M S (option R)) : M S (option R) :=
  match l with
  | [] => mret None
  | i :: l' =>
      r ← body i;
      match r with
      | Some v => mret (Some v)
      | None => exit_loop l' body
      end
  end.

Definition for_exit {S R} (first last : Z) (body : Z → M S (option R)) : M S (option R) :=
  exit_loop (range first last) body.

(** ** Bytes *)

(** A byte value, and a buffer of bytes. *)
Definition is_byte (b : Z) : Prop := 0 ≤ b < 2 ^ 8.
Definition bytes (l : list Z) : Prop := Forall is_byte l.

(** [a[i]] for an array held as a list; an index outside the array reads 0.  A write
    outside the array makes the list longer.  No operation makes a list shorter, so an
    array that has its length has not been overrun; the theorems about the code that
    writes an array state that it keeps its length. *)
Definition lenZ (l : list Z) : Z := Z.of_nat (length l).
Definition nthZ (l : list Z) (i : Z) : Z := if i <? 0 then 0 else nth (Z.to_nat i) l 0.
Definition setZ (l : list Z) (i v : Z) : list Z :=
  if (0 <=? i) && (i <? lenZ l) then <[Z.to_nat i := v]> l else l ++ [v].

(** The characters of a string in an array, without its terminator. *)
Fixpoint c_string (l : list Z) : list Z :=
  match l with
  | [] => []
  | c :: l => if c =? 0 then [] else c :: c_string l
  end.

(** The value of [n] little-endian bytes. *)
Fixpoint le_value (l : list Z) : Z :=
  match l with
  | [] => 0
  | b :: l' => b + 2 ^ 8 * le_value l'
  end.

(** The [n] little-endian bytes of a value. *)
Fixpoint le_bytes (n : nat) (v : Z) : list Z :=
  match n with
  | O => []
  | S n' => v mod 2 ^ 8 :: le_bytes n' (v / 2 ^ 8)
  end.

(** ** Tactics and hint databases *)

Create HintDb levos.
Create Rewrite HintDb levos_u.

(** [lia] with division and modulo by constants turned into equations. *)
Ltac dlia := Z.to_euclidean_division_equations; lia.

(** Booleans of comparisons in hypotheses become propositions. *)
Ltac bool_hyps :=
  repeat match goal with
  | H : (_ && _)%bool = true |- _ => apply andb_prop in H; destruct H
  | H : (_ || _)%bool = false |- _ => apply orb_false_elim in H; destruct H
  | H : negb _ = true |- _ => apply negb_true_iff in H
  | H : negb _ = false |- _ => apply negb_false_iff in H
  | H : (_ =? _) = true |- _ => apply Z.eqb_eq in H
  | H : (_ =? _) = false |- _ => apply Z.eqb_neq in H
  | H : (_ <? _) = true |- _ => apply Z.ltb_lt in H
  | H : (_ <? _) = false |- _ => apply Z.ltb_ge in H
  | H : (_ <=? _) = true |- _ => apply Z.leb_le in H
  | H : (_ <=? _) = false |- _ => apply Z.leb_gt in H
  end.

(** Case analysis on the condition of the first [if] or [match] of the goal or of [H]. *)
Ltac case_if := case_match; bool_hyps; simplify_eq.
Ltac case_if_in H :=
  match type of H with
  | context [match ?x with _ => _ end] => destruct x eqn:?; bool_hyps; simplify_eq
  end.

(** ** Integer lemmas *)

Lemma u8_range x : 0 ≤ u8 x < 2 ^ 8.
Proof. apply Z.mod_pos_bound. lia. Qed.
Lemma u16_range x : 0 ≤ u16 x < 2 ^ 16.
Proof. apply Z.mod_pos_bound. lia. Qed.
Lemma u32_range x : 0 ≤ u32 x < 2 ^ 32.
Proof. apply Z.mod_pos_bound. lia. Qed.
Lemma u64_range x : 0 ≤ u64 x < 2 ^ 64.
Proof. apply Z.mod_pos_bound. lia. Qed.
Lemma u8_small x : 0 ≤ x < 2 ^ 8 → u8 x = x.
Proof. apply Z.mod_small. Qed.
Lemma u16_small x : 0 ≤ x < 2 ^ 16 → u16 x = x.
Proof. apply Z.mod_small. Qed.
Lemma u32_small x : 0 ≤ x < 2 ^ 32 → u32 x = x.
Proof. apply Z.mod_small. Qed.
Lemma u64_small x : 0 ≤ x < 2 ^ 64 → u64 x = x.
Proof. apply Z.mod_small. Qed.
Lemma i32_small x : 0 ≤ x < 2 ^ 31 → i32 x = x.
Proof.
  intros. unfold i32. rewrite Z.mod_small by lia. cbv zeta.
  by rewrite (proj2 (Z.ltb_lt x (2 ^ 31))) by lia.
Qed.
Lemma u32_u32 x : u32 (u32 x) = u32 x.
Proof. apply u32_small, u32_range. Qed.
Lemma u8_u8 x : u8 (u8 x) = u8 x.
Proof. apply u8_small, u8_range. Qed.

#[export] Hint Resolve u8_range u16_range u32_range u64_range : levos.
#[export] Hint Rewrite u32_u32 u8_u8 : levos_u.

(** Remove the conversions whose operand is in range. *)
Ltac u_small :=
  repeat match goal with
  | |- context [u8 ?x] => rewrite (u8_small x) by lia
  | |- context [u16 ?x] => rewrite (u16_small x) by lia
  | |- context [u32 ?x] => rewrite (u32_small x) by lia
  | |- context [u64 ?x] => rewrite (u64_small x) by lia
  end.
Ltac u_small_in H :=
  repeat match type of H with
  | context [u8 ?x] => rewrite (u8_small x) in H by lia
  | context [u16 ?x] => rewrite (u16_small x) in H by lia
  | context [u32 ?x] => rewrite (u32_small x) in H by lia
  | context [u64 ?x] => rewrite (u64_small x) in H by lia
  end.

(** A bitwise or of two numbers with no common bit is a sum. *)
Lemma lor_disjoint_add a b n :
  0 ≤ n → 0 ≤ b < 2 ^ n → Z.lor (a * 2 ^ n) b = a * 2 ^ n + b.
Proof.
  intros Hn Hb. destruct (decide (b = 0)) as [->|]; [by rewrite Z.lor_0_r, Z.add_0_r|].
  rewrite <- Z.add_lor_land.
  enough (Z.land (a * 2 ^ n) b = 0) as -> by lia.
  apply Z.bits_inj'. intros i Hi. rewrite Z.land_spec, Z.bits_0.
  destruct (decide (i < n)).
  - rewrite Z.mul_pow2_bits_low by lia. done.
  - rewrite (Z.bits_above_log2 b i); [by rewrite andb_false_r | lia |].
    apply Z.log2_lt_pow2; [lia|]. apply Z.lt_le_trans with (2 ^ n); [lia|].
    apply Z.pow_le_mono_r; lia.
Qed.

Lemma land_ones_mod a n : 0 ≤ n → Z.land a (2 ^ n - 1) = a mod 2 ^ n.
Proof. intros. rewrite <- Z.land_ones, Z.ones_equiv by lia. done. Qed.

Lemma land_mask a m n : 0 ≤ n → m = 2 ^ n - 1 → Z.land a m = a mod 2 ^ n.
Proof. intros ? ->. by apply land_ones_mod. Qed.

Lemma shiftr_div a n : 0 ≤ n → a ≫ n = a / 2 ^ n.
Proof. apply Z.shiftr_div_pow2. Qed.
Lemma shiftl_mul a n : 0 ≤ n → a ≪ n = a * 2 ^ n.
Proof. apply Z.shiftl_mul_pow2. Qed.

(** Testing a bit with a mask. *)
Lemma land_bit x k : 0 ≤ k → negb ((x .& (1 ≪ k)) =? 0) = Z.testbit x k.
Proof.
  intros Hk. destruct (Z.testbit x k) eqn:E.
  - apply negb_true_iff, Z.eqb_neq. intros H.
    assert (Z.testbit (x .& (1 ≪ k)) k = true) as H'.
    { rewrite Z.land_spec, E, Z.shiftl_spec, Z.sub_diag by lia. done. }
    by rewrite H, Z.bits_0 in H'.
  - apply negb_false_iff, Z.eqb_eq. apply Z.bits_inj'. intros i Hi.
    rewrite Z.land_spec, Z.bits_0, Z.shiftl_1_l, Z.pow2_bits_eqb by lia.
    destruct (Z.eqb_spec k i) as [->|]; [by rewrite E | by rewrite andb_false_r].
Qed.

(** Testing bits 0 and 2 at once. *)
Lemma land_5 x : ((x .& 5) =? 5) = (Z.testbit x 0 && Z.testbit x 2)%bool.
Proof.
  assert (Z.land x 5 = Z.land (x mod 2 ^ 3) 5) as ->.
  { rewrite <- Z.land_ones, <- Z.land_assoc by lia. done. }
  rewrite <- (Z.mod_pow2_bits_low x 3 0), <- (Z.mod_pow2_bits_low x 3 2) by lia.
  pose proof (Z.mod_pos_bound x (2 ^ 3) ltac:(lia)) as Hr.
  generalize dependent (x mod 2 ^ 3). intros r Hr.
  assert (r = 0 ∨ r = 1 ∨ r = 2 ∨ r = 3 ∨ r = 4 ∨ r = 5 ∨ r = 6 ∨ r = 7) as Hc by lia.
  repeat destruct Hc as [-> | Hc]; try reflexivity. by subst.
Qed.

(** A page-aligned address with flag bits in its low bits. *)
Lemma lor_flags a f :
  a mod 2 ^ 12 = 0 → 0 ≤ f < 2 ^ 12 → a .| f = a + f.
Proof.
  intros Ha Hf. rewrite <- (Z.div_exact a (2 ^ 12)) in Ha by lia.
  rewrite Ha, Z.mul_comm. by apply lor_disjoint_add.
Qed.

Lemma flags_testbit a f i :
  a mod 2 ^ 12 = 0 → 0 ≤ f < 2 ^ 12 → 0 ≤ i < 12 → Z.testbit (a + f) i = Z.testbit f i.
Proof.
  intros Ha Hf Hi. rewrite <- (Z.mod_pow2_bits_low (a + f) 12 i) by lia.
  f_equal. rewrite Z.add_mod, Ha, Z.add_0_l, Z.mod_mod by lia. by apply Z.mod_small.
Qed.

Lemma lor_4_high x : 0 ≤ x → (x .| 4) / 2 ^ 12 = x / 2 ^ 12.
Proof.
  intros. rewrite <- !Z.shiftr_div_pow2, Z.shiftr_lor by lia.
  change (Z.shiftr 4 12) with 0. apply Z.lor_0_r.
Qed.

Lemma lor_range a b n : 0 ≤ n → 0 ≤ a < 2 ^ n → 0 ≤ b < 2 ^ n → 0 ≤ a .| b < 2 ^ n.
Proof.
  intros Hn Ha Hb. enough ((a .| b) mod 2 ^ n = a .| b) as <- by (apply Z.mod_pos_bound; lia).
  rewrite <- !Z.land_ones, Z.land_lor_distr_l, !Z.land_ones, !Z.mod_small by lia. done.
Qed.

(** Masking the low [k] bits of a 32-bit value off. *)
Lemma land_align x m k :
  0 ≤ x < 2 ^ 32 → 0 ≤ k ≤ 32 → m = 2 ^ 32 - 2 ^ k → x .& m = x / 2 ^ k * 2 ^ k.
Proof.
  intros Hx Hk ->.
  replace (2 ^ 32 - 2 ^ k) with (Z.ones (32 - k) ≪ k); cycle 1.
  { rewrite shiftl_mul, Z.ones_equiv, <- Z.sub_1_r, Z.mul_sub_distr_r, <- Z.pow_add_r by lia.
    replace (32 - k + k) with 32 by lia. lia. }
  rewrite <- shiftl_mul, <- shiftr_div by lia.
  apply Z.bits_inj'. intros i Hi. rewrite Z.land_spec, !Z.shiftl_spec by lia.
  destruct (decide (i < k)).
  { rewrite !(Z.testbit_neg_r _ (i - k)), andb_false_r by lia. done. }
  rewrite Z.shiftr_spec by lia. replace (i - k + k) with i by lia.
  destruct (decide (i < 32)).
  { rewrite Z.ones_spec_low, andb_true_r by lia. done. }
  rewrite Z.ones_spec_high, andb_false_r by lia. symmetry.
  destruct (decide (x = 0)) as [->|]; [apply Z.bits_0|].
  apply Z.bits_above_log2; [lia|]. apply Z.lt_le_trans with 32; [|lia].
  apply Z.log2_lt_pow2; lia.
Qed.

(** ** Loops *)

Lemma range_nil a b : b ≤ a → range a b = [].
Proof. intros. unfold range. by replace (Z.to_nat (b - a)) with O by lia. Qed.

Lemma range_cons a b : a < b → range a b = a :: range (a + 1) b.
Proof.
  intros. unfold range.
  by replace (Z.to_nat (b - a)) with (S (Z.to_nat (b - (a + 1)))) by lia.
Qed.

Lemma range_snoc a b : a ≤ b → range a (b + 1) = range a b ++ [b].
Proof.
  intros. unfold range. replace (Z.to_nat (b + 1 - a)) with (S (Z.to_nat (b - a))) by lia.
  remember (Z.to_nat (b - a)) as n eqn:En. revert a H En.
  induction n as [|n IH]; intros a H En.
  - simpl. f_equal. lia.
  - change (count_up (S (S n)) a) with (a :: count_up (S n) (a + 1)).
    rewrite IH by lia. done.
Qed.

Lemma elem_of_range a b i : i ∈ range a b ↔ a ≤ i < b.
Proof.
  unfold range. remember (Z.to_nat (b - a)) as n eqn:En. revert a En.
  induction n as [|n IH]; intros a En; simpl.
  - rewrite elem_of_nil. lia.
  - rewrite elem_of_cons, IH by lia. lia.
Qed.

Lemma for_loop_nil {S} a b (body : Z → S → S) s : b ≤ a → for_loop a b body s = s.
Proof. intros. unfold for_loop. by rewrite range_nil. Qed.

Lemma for_loop_snoc {S} a b (body : Z → S → S) s :
  a ≤ b → for_loop a (b + 1) body s = body b (for_loop a b body s).
Proof. intros. unfold for_loop. rewrite range_snoc, foldl_app by lia. done. Qed.

Lemma for_loop_cons {S} a b (body : Z → S → S) s :
  a < b → for_loop a b body s = for_loop (a + 1) b body (body a s).
Proof. intros. unfold for_loop. by rewrite range_cons by lia. Qed.

(** The rule for a counted loop: an invariant indexed by the counter. *)
Lemma for_loop_ind {S} (P : Z → S → Prop) a b (body : Z → S → S) s :
  a ≤ b → P a s →
  (∀ i s, a ≤ i < b → P i s → P (i + 1) (body i s)) →
  P b (for_loop a b body s).
Proof.
  intros Hab Ha Hstep.
  enough (∀ k, a ≤ k → k ≤ b → P k (for_loop a k body s)) by auto with lia.
  refine (Zlt_lower_bound_ind _ a _). intros k IH Hk Hkb.
  destruct (decide (k = a)) as [->|]; [by rewrite for_loop_nil by lia|].
  replace k with (k - 1 + 1) by lia. rewrite for_loop_snoc by lia.
  apply Hstep; [lia|]. apply IH; lia.
Qed.

(** The rule for a loop with an early exit. *)
Lemma for_exit_ind {S R} (I : Z → S → Prop) (Q : R → S → Prop) a b body s :
  a ≤ b → I a s →
  (∀ i s, a ≤ i < b → I i s →
     match body i s with
     | (None, s') => I (i + 1) s'
     | (Some r, s') => Q r s'
     end) →
  match for_exit a b body s with
  | (None, s') => I b s'
  | (Some r, s') => Q r s'
  end.
Proof.
  intros Hab Ha Hstep. unfold for_exit.
  remember (range a b) as l eqn:El. revert a Hab El s Ha Hstep.
  induction l as [|i l IH]; intros a Hab El s Ha Hstep; simpl.
  - destruct (decide (a < b)); [by rewrite range_cons in El by lia|].
    by replace b with a by lia.
  - destruct (decide (a < b)); [|by rewrite range_nil in El by lia].
    rewrite range_cons in El by lia. injection El as -> El.
    specialize (Hstep a s) as Ha'. unfold mbind, M_bind.
    destruct (body a s) as [[r|] s']; [by apply Ha'; [lia|]|].
    apply (IH (a + 1)); [lia|done|by apply Ha'; [lia|]|].
    intros; apply Hstep; [lia|done].
Qed.

(** A search that passes over all places changes nothing. *)
Lemma for_exit_skip {S R} a b (body : Z → M S (option R)) s :
  (∀ j, a ≤ j < b → body j s = (None, s)) → for_exit a b body s = (None, s).
Proof.
  intros H. unfold for_exit. assert (∀ j, j ∈ range a b → body j s = (None, s)) as H'
    by (intros j Hj%elem_of_range; by apply H). clear H. revert H'.
  induction (range a b) as [|i l IH]; intros H; [done|]. cbn [exit_loop].
  unfold mbind, M_bind. rewrite (H i) by by left. apply IH. intros j Hj. apply H. by right.
Qed.

(** A search that passes over the first places and ends at place [i]. *)
Lemma for_exit_at {S R} a b i (body : Z → M S (option R)) s r s' :
  a ≤ i < b → (∀ j, a ≤ j < i → body j s = (None, s)) → body i s = (Some r, s') →
  for_exit a b body s = (Some r, s').
Proof.
  intros Hi H E. unfold for_exit. remember (Z.to_nat (i - a)) as n eqn:En.
  revert a Hi H En. induction n as [|n IH]; intros a Hi H En; rewrite range_cons by lia;
    cbn [exit_loop]; unfold mbind, M_bind.
  - replace a with i by lia. by rewrite E.
  - rewrite (H a) by lia. apply IH; [lia| |lia]. intros j Hj. apply H. lia.
Qed.

(** A loop that searches for the first index passing a test, acts on it and
    leaves. *)
Lemma for_exit_search {S R} (test : Z → S → bool) (act : Z → S → R * S) a b s :
  (for_exit a b (λ i s, if test i s then let '(r, s) := act i s in (Some r, s) else (None, s)) s
     = (None, s) ∧ ∀ i, a ≤ i < b → test i s = false) ∨
  ∃ i, a ≤ i < b ∧ test i s = true ∧ (∀ j, a ≤ j < i → test j s = false) ∧
    for_exit a b (λ i s, if test i s then let '(r, s) := act i s in (Some r, s) else (None, s)) s
     = (Some (fst (act i s)), snd (act i s)).
Proof.
  unfold for_exit. remember (range a b) as l eqn:El. revert a El.
  induction l as [|x l IH]; intros a El.
  - left. split; [done|]. intros i Hi. destruct (decide (a < b)); [|lia].
    by rewrite range_cons in El by lia.
  - destruct (decide (a < b)); [|by rewrite range_nil in El by lia].
    rewrite range_cons in El by lia. injection El as -> El. simpl.
    unfold mbind, M_bind. destruct (test a s) eqn:E.
    + right. exists a. split; [lia|split; [done|split; [lia|]]]. by destruct (act a s).
    + destruct (IH (a + 1) El) as [[-> Hn]|(i & Hi & Ht & Hn & ->)].
      * left. split; [done|]. intros i Hi. destruct (decide (i = a)) as [->|]; [done|].
        apply Hn. lia.
      * right. exists i. split; [lia|split; [done|split; [|done]]]. intros j Hj.
        destruct (decide (j = a)) as [->|]; [done|]. apply Hn. lia.
Qed.

(** ** Arrays *)

Lemma lenZ_nonneg l : 0 ≤ lenZ l.
Proof. unfold lenZ. lia. Qed.

Lemma setZ_in l i v : 0 ≤ i < lenZ l → setZ l i v = <[Z.to_nat i := v]> l.
Proof. intros. unfold setZ. by rewrite (proj2 (Z.leb_le 0 i)), (proj2 (Z.ltb_lt i _)) by lia. Qed.

Lemma lenZ_setZ l i v : 0 ≤ i < lenZ l → lenZ (setZ l i v) = lenZ l.
Proof. intros. rewrite setZ_in by done. unfold lenZ. by rewrite length_insert. Qed.

(** A write outside shows in the length. *)
Lemma lenZ_setZ_inv l i v : lenZ (setZ l i v) = lenZ l → 0 ≤ i < lenZ l.
Proof.
  unfold setZ. destruct (Z.leb_spec 0 i), (Z.ltb_spec i (lenZ l)); cbn [andb]; [lia|..];
    unfold lenZ; rewrite length_app; cbn [length]; lia.
Qed.

Lemma Forall_setZ (Q : Z → Prop) l i v : Q v → Forall Q l → Forall Q (setZ l i v).
Proof.
  intros. unfold setZ. case_if; [by apply Forall_insert|]. by apply Forall_app_2; [|apply Forall_singleton].
Qed.

Lemma nthZ_lookup l i x : l !! (Z.to_nat i) = Some x → 0 ≤ i → nthZ l i = x.
Proof.
  intros H Hi. unfold nthZ. rewrite (proj2 (Z.ltb_ge i 0)) by lia.
  rewrite nth_lookup, H. done.
Qed.

Lemma nthZ_ge l i : lenZ l ≤ i → nthZ l i = 0.
Proof.
  unfold lenZ, nthZ. intros. case_if; [done|]. apply nth_overflow. lia.
Qed.

Lemma nthZ_setZ_eq l i v : 0 ≤ i < lenZ l → nthZ (setZ l i v) i = v.
Proof.
  intros. rewrite setZ_in by done. unfold lenZ in *.
  apply nthZ_lookup; [|lia]. apply list_lookup_insert_eq. lia.
Qed.

Lemma nthZ_setZ_ne l i j v : 0 ≤ i < lenZ l → i ≠ j → nthZ (setZ l i v) j = nthZ l j.
Proof.
  intros. rewrite setZ_in by done. unfold nthZ. case_if; [done|].
  rewrite !nth_lookup, list_lookup_insert_ne by lia. done.
Qed.

Lemma nthZ_cons_S x l i : 0 ≤ i → nthZ (x :: l) (i + 1) = nthZ l i.
Proof.
  intros. unfold nthZ.
  rewrite (proj2 (Z.ltb_ge (i + 1) 0)), (proj2 (Z.ltb_ge i 0)) by lia.
  replace (Z.to_nat (i + 1)) with (S (Z.to_nat i)) by lia. done.
Qed.

Lemma nthZ_app_l l k i : i < lenZ l → nthZ (l ++ k) i = nthZ l i.
Proof.
  unfold lenZ, nthZ. intros. case_if; [done|]. apply app_nth1. lia.
Qed.

Lemma nthZ_app_r l k i : lenZ l ≤ i → nthZ (l ++ k) i = nthZ k (i - lenZ l).
Proof.
  unfold lenZ, nthZ. intros.
  rewrite (proj2 (Z.ltb_ge i 0)), (proj2 (Z.ltb_ge (i - _) 0)) by lia.
  rewrite app_nth2 by lia. f_equal. lia.
Qed.

Lemma nthZ_drop l n i : 0 ≤ i → nthZ (drop n l) i = nthZ l (Z.of_nat n + i).
Proof.
  unfold nthZ. intros.
  rewrite (proj2 (Z.ltb_ge i 0)), (proj2 (Z.ltb_ge (_ + i) 0)) by lia.
  rewrite !nth_lookup, lookup_drop. do 2 f_equal. lia.
Qed.

Lemma nthZ_take l n i : i < Z.of_nat n → nthZ (take n l) i = nthZ l i.
Proof.
  unfold nthZ. intros. case_if; [done|].
  rewrite !nth_lookup, lookup_take_lt by lia. done.
Qed.

Lemma nthZ_byte l i : bytes l → is_byte (nthZ l i).
Proof.
  intros Hl. unfold nthZ, is_byte. case_if; [lia|]. rewrite nth_lookup.
  destruct (l !! _) eqn:E; simpl; [|lia]. by apply (Forall_lookup_1 _ _ _ _ Hl E).
Qed.

Lemma setZ_bytes l i v : bytes l → is_byte v → bytes (setZ l i v).
Proof. intros. by apply Forall_setZ. Qed.

#[export] Hint Resolve nthZ_byte setZ_bytes lenZ_nonneg : levos.
#[export] Hint Rewrite lenZ_setZ using lia : levos_u.

(** ** Little-endian values *)

Lemma length_le_bytes n v : length (le_bytes n v) = n.
Proof. revert v; induction n; simpl; auto. Qed.

Lemma le_bytes_bytes n v : bytes (le_bytes n v).
Proof.
  revert v. induction n; simpl; constructor; [|apply IHn].
  apply Z.mod_pos_bound. lia.
Qed.

Lemma le_value_bytes n v : le_value (le_bytes n v) = v mod 2 ^ (8 * Z.of_nat n).
Proof.
  revert v. induction n as [|n IH]; intros v; simpl.
  - change (2 ^ (8 * Z.of_nat 0)) with 1. by rewrite Z.mod_1_r.
  - rewrite IH. replace (8 * Z.of_nat (S n)) with (8 + 8 * Z.of_nat n) by lia.
    rewrite Z.pow_add_r by lia.
    rewrite Z.rem_mul_r by lia. lia.
Qed.

Lemma le_value_range l : bytes l → 0 ≤ le_value l < 2 ^ (8 * lenZ l).
Proof.
  unfold lenZ. induction 1 as [|b l Hb _ IH]; simpl; [done|].
  replace (8 * Z.of_nat (S (length l))) with (8 + 8 * Z.of_nat (length l)) by lia.
  rewrite Z.pow_add_r by lia. unfold is_byte in Hb. nia.
Qed.

Lemma le_bytes_value l : bytes l → le_bytes (length l) (le_value l) = l.
Proof.
  induction 1 as [|b l Hb _ IH]; simpl; [done|]. unfold is_byte in Hb. f_equal.
  - rewrite Z.mul_comm, Z.mod_add by lia. apply Z.mod_small. lia.
  - rewrite Z.mul_comm, Z.div_add by lia. by rewrite Z.div_small by lia.
Qed.
