(* ===== verification/Memory.v ===== *)
(** Physical memory: bytes at addresses, the little-endian 32- and 64-bit
    accesses of the i386, and the two loops the kernel uses to fill memory
    (words of a page, bytes of an image).  Every pointer the kernel
    dereferences is a physical address here: the kernel runs identity mapped. *)

From S2P Require Import Prelude.

(** An address that was never written reads 0. *)
Abbreviation mem := (gmap Z Z).

Definition load8 (m : mem) (a : Z) : Z := default 0 (m !! a).
Definition store8 (m : mem) (a v : Z) : mem := <[a := u8 v]> m.

Definition load32 (m : mem) (a : Z) : Z :=
  le_value [load8 m a; load8 m (a + 1); load8 m (a + 2); load8 m (a + 3)].

Definition load64 (m : mem) (a : Z) : Z := load32 m a + 2 ^ 32 * load32 m (a + 4).

Definition store32 (m : mem) (a v : Z) : mem :=
  store8 (store8 (store8 (store8 m a v) (a + 1) (v ≫ 8)) (a + 2) (v ≫ 16)) (a + 3) (v ≫ 24).

(** [for (i = 0; i < n; ++i) ((uint32_t * )base)[i] = f(i);] where [f] may read
    the memory as it is when the element is written. *)
Definition fill32 (base n : Z) (f : mem → Z → Z) (m : mem) : mem :=
  for_loop 0 n (λ i m, store32 m (base + 4 * i) (f m i)) m.

(** [for (i = 0; i < n; ++i) ((uint8_t * )base)[i] = l[i];] *)
Definition copy_bytes (base n : Z) (l : list Z) (m : mem) : mem :=
  for_loop 0 n (λ i m, store8 m (base + i) (nthZ l i)) m.

(** Two memories that agree outside the bytes [a, a + n). *)
Definition same_outside (a n : Z) (m m' : mem) : Prop :=
  ∀ b, ¬ (a ≤ b < a + n) → load8 m' b = load8 m b.

(** Memory holds bytes. *)
Definition mem_bytes (m : mem) : Prop := ∀ a, is_byte (load8 m a).

(** ** Lemmas *)

Lemma load8_store8 m a b v :
  load8 (store8 m a v) b = if decide (a = b) then u8 v else load8 m b.
Proof. unfold load8, store8. rewrite lookup_insert. by case_decide. Qed.

Lemma store8_mem_bytes m a v : mem_bytes m → mem_bytes (store8 m a v).
Proof.
  intros Hm b. rewrite load8_store8. case_decide; [apply u8_range | apply Hm].
Qed.

Lemma empty_mem_bytes : mem_bytes ∅.
Proof. intros a. unfold load8. rewrite lookup_empty. unfold is_byte. simpl. lia. Qed.

Lemma store32_mem_bytes m a v : mem_bytes m → mem_bytes (store32 m a v).
Proof. intros. unfold store32. by repeat apply store8_mem_bytes. Qed.

Lemma load32_range m a : mem_bytes m → 0 ≤ load32 m a < 2 ^ 32.
Proof.
  intros Hm. apply (le_value_range [_; _; _; _]). repeat constructor; apply Hm.
Qed.

Lemma load8_store32_out m a b v :
  ¬ (a ≤ b < a + 4) → load8 (store32 m a v) b = load8 m b.
Proof. intros. unfold store32. rewrite !load8_store8. repeat case_decide; lia. Qed.

Lemma load32_ext m m' a :
  (∀ b, a ≤ b < a + 4 → load8 m' b = load8 m b) → load32 m' a = load32 m a.
Proof. intros H. unfold load32. by rewrite !H by lia. Qed.

Lemma load32_store32_eq m a v : load32 (store32 m a v) a = u32 v.
Proof.
  unfold load32, store32. rewrite !load8_store8.
  repeat (case_decide; try lia). rewrite !shiftr_div by lia.
  unfold u8, u32. simpl. dlia.
Qed.

Lemma load32_store32_ne m a b v :
  a + 4 ≤ b ∨ b + 4 ≤ a → load32 (store32 m a v) b = load32 m b.
Proof. intros. apply load32_ext. intros. apply load8_store32_out. lia. Qed.

Lemma load32_store8_ne m a b v :
  a < b ∨ b + 4 ≤ a → load32 (store8 m a v) b = load32 m b.
Proof.
  intros. apply load32_ext. intros. rewrite load8_store8. case_decide; lia.
Qed.

Lemma same_outside_refl a n m : same_outside a n m m.
Proof. done. Qed.

Lemma same_outside_trans a n m m' m'' :
  same_outside a n m m' → same_outside a n m' m'' → same_outside a n m m''.
Proof. intros H H' b Hb. by rewrite H', H. Qed.

Lemma same_outside_mono a n a' n' m m' :
  same_outside a n m m' → a' ≤ a → a + n ≤ a' + n' → same_outside a' n' m m'.
Proof. intros H ?? b Hb. apply H. lia. Qed.

Lemma same_outside_store32 m a v : same_outside a 4 m (store32 m a v).
Proof. intros b Hb. by apply load8_store32_out. Qed.

Lemma same_outside_load32 a n m m' b :
  same_outside a n m m' → a + n ≤ b ∨ b + 4 ≤ a → load32 m' b = load32 m b.
Proof. intros H ?. apply load32_ext. intros. apply H. lia. Qed.

#[export] Hint Resolve empty_mem_bytes store8_mem_bytes store32_mem_bytes
  load32_range same_outside_refl : levos.

Section fill32.
Context (base n : Z) (f : mem → Z → Z) (m : mem).
Hypothesis Hn : 0 ≤ n.

Lemma fill32_same_outside : same_outside base (4 * n) m (fill32 base n f m).
Proof.
  unfold fill32.
  apply (for_loop_ind (λ i m', same_outside base (4 * n) m m')); [done|done|].
  intros i m' Hi IH. eapply same_outside_trans; [apply IH|].
  eapply same_outside_mono; [apply same_outside_store32|lia|lia].
Qed.

Lemma fill32_mem_bytes : mem_bytes m → mem_bytes (fill32 base n f m).
Proof.
  intros Hm. unfold fill32.
  apply (for_loop_ind (λ _ m', mem_bytes m')); auto with levos.
Qed.

(** When the values written depend only on the index (and not on the memory
    being filled), each element of the array holds its value afterwards. *)
Lemma load32_fill32 (g : Z → Z) j :
  (∀ m' i, 0 ≤ i < n → same_outside base (4 * n) m m' → f m' i = g i) →
  0 ≤ j < n → load32 (fill32 base n f m) (base + 4 * j) = u32 (g j).
Proof.
  intros Hf. unfold fill32.
  assert (same_outside base (4 * n) m (for_loop 0 n (λ i m, store32 m (base + 4 * i) (f m i)) m)
    ∧ ∀ j, 0 ≤ j < n → load32 (for_loop 0 n (λ i m, store32 m (base + 4 * i) (f m i)) m)
        (base + 4 * j) = u32 (g j)) as [_ H]; [|apply H].
  apply (for_loop_ind (λ k m', same_outside base (4 * n) m m' ∧
    ∀ j, 0 ≤ j < k → load32 m' (base + 4 * j) = u32 (g j))); [done| |].
  - split; [done|lia].
  - intros i m' Hi [Hs IH]. split.
    + eapply same_outside_trans; [apply Hs|].
      eapply same_outside_mono; [apply same_outside_store32|lia|lia].
    + intros k Hk. destruct (decide (k = i)) as [->|].
      * rewrite load32_store32_eq, Hf; [done|lia|done].
      * rewrite load32_store32_ne by lia. apply IH. lia.
Qed.
End fill32.

Lemma fill32_ext base n f m (g : Z → Z) j :
  0 ≤ j < n → (∀ m' i, f m' i = g i) →
  load32 (fill32 base n f m) (base + 4 * j) = u32 (g j).
Proof. intros Hj Hf. apply load32_fill32; [lia| |done]. auto. Qed.

Lemma copy_bytes_spec base n l m :
  0 ≤ n →
  (∀ j, 0 ≤ j < n → load8 (copy_bytes base n l m) (base + j) = u8 (nthZ l j))
  ∧ same_outside base n m (copy_bytes base n l m).
Proof.
  intros Hn. unfold copy_bytes.
  apply (for_loop_ind (λ k m',
    (∀ j, 0 ≤ j < k → load8 m' (base + j) = u8 (nthZ l j)) ∧ same_outside base n m m'));
    [done|split; [lia|done]|].
  intros i m' Hi [IH Hs]. split.
  - intros j Hj. rewrite load8_store8. case_decide; [by replace j with i by lia|].
    apply IH. lia.
  - intros b Hb. rewrite load8_store8. case_decide; [lia|]. by apply Hs.
Qed.

Lemma copy_bytes_mem_bytes base n l m :
  0 ≤ n → mem_bytes m → mem_bytes (copy_bytes base n l m).
Proof.
  intros ? Hm. unfold copy_bytes.
  apply (for_loop_ind (λ _ m', mem_bytes m')); auto with levos.
Qed.

#[export] Hint Resolve fill32_mem_bytes copy_bytes_mem_bytes : levos.
