(* ===== verification/Interfaces.v ===== *)
(** The contracts between components: what the page-frame allocator promises to
    the virtual-memory and process code, what a block device promises to the FAT32
    code, and the access to the hardware's ports.  Clients are proved against these
    classes; [Pmm] and the device drivers provide the instances. *)

From S2P Require Import Prelude.

(** ** Page frames

    The operations of [memory/pmm.h] that other components call. *)
Class PageAllocator (S : Type) := {
  pa_allocate : M S Z;
  pa_free : Z → S → S;
}.

(** [pages s n F]: the allocator manages the pages below [n] and exactly the
    pages of [F] are free.  A page is named by its number; its address is the
    number times 4096. *)
Class PageAllocatorSpec (S : Type) `{PageAllocator S} := {
  pages : S → Z → gset Z → Prop;
  pages_range s n F p : pages s n F → p ∈ F → 0 < p < n ∧ n ≤ 2 ^ 20;
  pa_allocate_none s n : pages s n ∅ → pa_allocate s = (0, s);
  pa_allocate_some s n F :
    pages s n F → F ≠ ∅ →
    ∃ p s', pa_allocate s = (p * 4096, s') ∧ p ∈ F ∧ (∀ q, q ∈ F → p ≤ q)
            ∧ pages s' n (F ∖ {[p]});
  pa_free_spec s n F p :
    pages s n F → 0 < p < n → p ∉ F → pages (pa_free (p * 4096) s) n ({[p]} ∪ F);
}.

(** ** The kernel image

    Addresses the linker assigns ([linker.ld] places the image from 1 MiB up to
    [kernel_end]) to the static objects whose address the code uses. *)
Class KernelImage := {
  page_directory : Z;      (* memory/paging.c, 1024 words *)
  identity_tables : Z;     (* memory/paging.c, 4 * 1024 words *)
  bootstrap_stack : Z;     (* process/process.c, 4096 bytes *)
  process_bootstrap : Z;   (* process/process.c, the entry of kernel processes *)
  kernel_end : Z;          (* linker.ld *)
}.

(** The alignments of the declarations, and that distinct objects do not overlap. *)
Class KernelImageOk `{KernelImage} : Prop := {
  page_directory_aligned : page_directory mod 2 ^ 12 = 0;
  identity_tables_aligned : identity_tables mod 2 ^ 12 = 0;
  bootstrap_stack_aligned : bootstrap_stack mod 16 = 0;
  page_directory_place : 0x100000 ≤ page_directory ∧ page_directory + 4096 ≤ kernel_end;
  identity_tables_place : 0x100000 ≤ identity_tables ∧ identity_tables + 16384 ≤ kernel_end;
  bootstrap_stack_place : 0x100000 ≤ bootstrap_stack ∧ bootstrap_stack + 4096 ≤ kernel_end;
  process_bootstrap_place : 0x100000 ≤ process_bootstrap < kernel_end;
  kernel_end_range : kernel_end < 2 ^ 32;
  directory_tables_apart :
    page_directory + 4096 ≤ identity_tables ∨ identity_tables + 16384 ≤ page_directory;
  directory_stack_apart :
    page_directory + 4096 ≤ bootstrap_stack ∨ bootstrap_stack + 4096 ≤ page_directory;
  tables_stack_apart :
    identity_tables + 16384 ≤ bootstrap_stack ∨ bootstrap_stack + 4096 ≤ identity_tables;
}.

(** ** Block devices

    The members of [struct block_device], [drivers/block.h]: the sector size and
    count, whether the callback is set, and the callback, which reads a sector
    into a buffer and returns 0, or a negative value on failure. *)
Class BlockDevice (D : Type) := {
  sector_size : D → Z;
  sector_count : D → Z;
  has_read_sector : D → bool;
  driver_read : Z → list Z → D → Z * list Z * D;
}.

(** A device that is set up stores [contents d n] in sector [n]; a read that succeeds
    delivers them, a read that fails leaves anything in the buffer; a sector that is
    [readable] is delivered.  Reading changes neither geometry nor contents. *)
Class BlockDeviceSpec (D : Type) `{BlockDevice D} := {
  device_ok : D → Prop;
  contents : D → Z → list Z;
  readable : D → Z → Prop;
  contents_bytes d n : bytes (contents d n);
  contents_length d n : lenZ (contents d n) = sector_size d;
  sector_size_range d : 0 ≤ sector_size d < 2 ^ 32;
  sector_count_range d : 0 ≤ sector_count d < 2 ^ 32;
  driver_read_same n buf d r buf' d' :
    driver_read n buf d = (r, buf', d') → device_ok d → bytes buf → sector_size d ≤ lenZ buf →
    device_ok d' ∧ sector_size d' = sector_size d ∧ sector_count d' = sector_count d ∧
    has_read_sector d' = has_read_sector d ∧
    contents d' = contents d ∧ (∀ k, readable d k → readable d' k) ∧
    bytes buf' ∧ lenZ buf' = lenZ buf;
  driver_read_ok n buf d buf' d' :
    driver_read n buf d = (0, buf', d') → device_ok d → bytes buf → sector_size d ≤ lenZ buf →
    ∀ i, 0 ≤ i < sector_size d → nthZ buf' i = nthZ (contents d n) i;
  driver_read_readable n buf d :
    device_ok d → readable d n → bytes buf → sector_size d ≤ lenZ buf → fst (fst (driver_read n buf d)) = 0;
}.

(** ** The processor's ports

    The [in] and [out] instructions reach the hardware, whose state is [P]; what an
    access does is up to the hardware. *)
Class Ports (P : Type) := {
  in8 : Z → M P Z;
  in16 : Z → M P Z;
  in32 : Z → M P Z;
  out8 : Z → Z → P → P;
  out32 : Z → Z → P → P;
}.

(** A concrete image, for the instances of the theorems. *)
Definition example_image : KernelImage := {|
  page_directory := 0x130000; identity_tables := 0x131000; bootstrap_stack := 0x135000;
  process_bootstrap := 0x101000; kernel_end := 0x200000;
|}.
Lemma example_image_ok : @KernelImageOk example_image.
Proof. split; vm_compute; intuition congruence. Qed.
