(* ===== verification/Pmm.v ===== *)
(** The physical page-frame allocator, [memory/pmm.c]: the bitmap and its two
    counters, the boot-time construction from the multiboot2 memory map, and
    allocation and release of single pages. *)

From S2P Require Import Prelude Memory Interfaces.

Module Pmm.

(** ** Definitions *)

Definition PAGE_SIZE : Z := 4096.
Definition MAX_PAGES : Z := 1024 * 1024.
Definition BITMAP_BYTES : Z := MAX_PAGES / 8.

(** The file's static variables. *)
Record pmm := mk_pmm {
  page_bitmap : gmap Z Z;
  highest_page : Z;
  free_count : Z;
}.

Definition bitmap_get (s : pmm) (i : Z) : Z := default 0 (page_bitmap s !! i).
Definition with_bitmap (b : gmap Z Z) (s : pmm) : pmm :=
  mk_pmm b (highest_page s) (free_count s).
Definition with_free_count (n : Z) (s : pmm) : pmm :=
  mk_pmm (page_bitmap s) (highest_page s) n.
Definition with_highest (n : Z) (s : pmm) : pmm :=
  mk_pmm (page_bitmap s) n (free_count s).

Definition set_used (page : Z) (s : pmm) : pmm :=
  with_bitmap (<[page ≫ 3 := bitmap_get s (page ≫ 3) .| u8 (1 ≪ (page .& 7))]> (page_bitmap s)) s.

Definition set_free (page : Z) (s : pmm) : pmm :=
  with_bitmap (<[page ≫ 3 :=
    bitmap_get s (page ≫ 3) .& u8 (Z.lnot (1 ≪ (page .& 7)))]> (page_bitmap s)) s.

Definition is_used (page : Z) (s : pmm) : bool :=
  negb ((bitmap_get s (page ≫ 3) .& (1 ≪ (page .& 7))) =? 0).

Definition free_range (start end_ : Z) (s : pmm) : pmm :=
  let first := u64 (start + PAGE_SIZE - 1) / PAGE_SIZE in
  let last := Z.min (end_ / PAGE_SIZE) MAX_PAGES in
  let s := for_loop first last (λ page s,
    if is_used page s
    then let s := set_free page s in with_free_count (free_count s +u 1) s
    else s) s in
  if highest_page s <? last then with_highest (u32 last) s else s.

Definition reserve_range (start end_ : Z) (s : pmm) : pmm :=
  let first := start / PAGE_SIZE in
  let last := u64 (end_ + PAGE_SIZE - 1) / PAGE_SIZE in
  if MAX_PAGES <=? first then s
  else
    let last := Z.min last MAX_PAGES in
    for_loop first last (λ page s,
      if is_used page s then s
      else let s := set_used page s in with_free_count (free_count s -u 1) s) s.

(** The body of the entry loop; [entry] is the pointer it advances. *)
Definition mmap_entry (m : mem) (entry_size : Z) : Z * pmm → Z * pmm := λ '(entry, s),
  let base := load64 m entry in
  let length := load64 m (entry + 8) in
  let kind := load32 m (entry + 16) in
  (entry +u entry_size,
   if (kind =? 1) && negb (length =? 0)
   then free_range base (u64 (base + length)) s
   else s).

(** The body of the tag loop for a memory-map tag (type 6). *)
Definition mmap_tag (m : mem) (tag size : Z) (s : pmm) : pmm :=
  let entry_size := load32 m (tag + 8) in
  if 24 <=? entry_size then
    let entries := (size -u 16) / entry_size in
    snd (for_loop 0 entries (λ _, mmap_entry m entry_size) (tag +u 16, s))
  else s.

(** The tag loop.  [None] means that the fuel ran out, that is, that the loop has
    not ended after [fuel] tags. *)
Fixpoint tags (fuel : nat) (m : mem) (addr total_size offset : Z) (s : pmm) : option pmm :=
  match fuel with
  | O => None
  | S fuel =>
      if offset +u 8 <=? total_size then
        let tag := addr +u offset in
        let type := load32 m tag in
        let size := load32 m (tag + 4) in
        if (size <? 8) || (total_size <? offset +u size) then Some s
        else
          tags fuel m addr total_size (offset +u ((size +u 7) .& 0xFFFFFFF8))
            (if type =? 6 then mmap_tag m tag size s else s)
      else Some s
  end.

Definition pmm_reset (s : pmm) : pmm :=
  mk_pmm (for_loop 0 BITMAP_BYTES (λ i b, <[i := 0xff]> b) (page_bitmap s)) 0 0.

(** The last steps of [pmm_init]: the default heap and the fixed reservations. *)
Definition pmm_finish (kernel_end : Z) (s : pmm) : pmm :=
  let s := if highest_page s =? 0 then free_range 0x00100000 0x01000000 s else s in
  reserve_range 0 kernel_end (reserve_range 0 0x1000 s).

Definition pmm_init (fuel : nat) (m : mem) (kernel_end multiboot_info_address : Z)
    (s : pmm) : option pmm :=
  let s := pmm_reset s in
  s ← (if multiboot_info_address =? 0 then Some s
       else
         let total_size := load32 m multiboot_info_address in
         s ← tags fuel m multiboot_info_address total_size 8 s;
         Some (reserve_range multiboot_info_address
                 (u64 (multiboot_info_address + total_size)) s));
  Some (pmm_finish kernel_end s).

(** One iteration of the search of [allocate_page]: [Some] is its [return]. *)
Definition try_page (page : Z) (s : pmm) : option Z * pmm :=
  if is_used page s then (None, s)
  else
    let s := set_used page s in
    let s := with_free_count (free_count s -u 1) s in
    (Some (page *u PAGE_SIZE), s).

Definition allocate_page (s : pmm) : Z * pmm :=
  match for_exit 1 (highest_page s) try_page s with
  | (Some address, s) => (address, s)
  | (None, s) => (0, s)
  end.

Definition free_page (address : Z) (s : pmm) : pmm :=
  let page := address / PAGE_SIZE in
  if (page =? 0) || (highest_page s <=? page) || negb (is_used page s) then s
  else
    let s := set_free page s in
    with_free_count (free_count s +u 1) s.

Definition pmm_total_pages (s : pmm) : Z := highest_page s.
Definition pmm_free_pages (s : pmm) : Z := free_count s.

(** ** Specification

    The abstract state of the allocator: the number [n] of pages it manages and
    the set [F] of free ones. *)

(** The bitmap and the counter stand for the set [F] of free pages. *)
Record bits_repr (s : pmm) (F : gset Z) : Prop := {
  bits_free : ∀ p, 0 ≤ p < MAX_PAGES → p ∈ F ↔ is_used p s = false;
  bits_range : ∀ p, p ∈ F → 0 ≤ p < MAX_PAGES;
  bits_count : free_count s = Z.of_nat (size F);
  bits_bytes : ∀ i, 0 ≤ i < BITMAP_BYTES → is_byte (bitmap_get s i);
}.

Record pmm_repr (s : pmm) (n : Z) (F : gset Z) : Prop := {
  repr_bits : bits_repr s F;
  repr_highest : highest_page s = n;
  repr_bound : 0 ≤ n ≤ MAX_PAGES;
  repr_range : ∀ p, p ∈ F → 0 ≤ p < n;
}.

(** After boot page 0 is never free. *)
Definition pmm_pages (s : pmm) (n : Z) (F : gset Z) : Prop := pmm_repr s n F ∧ 0 ∉ F.

Definition set_range (a b : Z) : gset Z := list_to_set (range a b).

(** The first page that starts at or after an address, and the first page that
    starts at or after the end of a range: the pages wholly inside, and the pages
    touched. *)
Definition page_up (a : Z) : Z := (a + PAGE_SIZE - 1) / PAGE_SIZE.
Definition page_down (a : Z) : Z := a / PAGE_SIZE.

(** A multiboot2 information structure, as the boot loader lays it out: the tags
    that follow its 8-byte header.  A memory-map tag holds (base, length, kind)
    entries; kind 1 is usable memory. *)
Inductive tag :=
| MmapTag (entry_size : Z) (entries : list (Z * Z * Z))
| OtherTag (type size : Z).

Definition tag_size (t : tag) : Z :=
  match t with
  | MmapTag entry_size entries => 16 + entry_size * Z.of_nat (length entries)
  | OtherTag _ size => size
  end.

Fixpoint entries_at (m : mem) (a entry_size : Z) (es : list (Z * Z * Z)) : Prop :=
  match es with
  | [] => True
  | (b, l, k) :: es =>
      load64 m a = b ∧ load64 m (a + 8) = l ∧ load32 m (a + 16) = k ∧
      0 ≤ b ∧ 0 ≤ l ∧ b + l < 2 ^ 64 - PAGE_SIZE ∧ entries_at m (a + entry_size) entry_size es
  end.

Definition tag_at (m : mem) (a : Z) (t : tag) : Prop :=
  load32 m (a + 4) = tag_size t ∧
  match t with
  | MmapTag entry_size entries =>
      load32 m a = 6 ∧ load32 m (a + 8) = entry_size ∧ 24 ≤ entry_size ∧
      entries_at m (a + 16) entry_size entries
  | OtherTag type _ => load32 m a = type ∧ type ≠ 6
  end.

(** The tags [ts] start at [addr + offset] and end with the structure. *)
Fixpoint tags_at (m : mem) (addr total_size offset : Z) (ts : list tag) : Prop :=
  match ts with
  | [] => total_size < offset + 8
  | t :: ts =>
      tag_at m (addr + offset) t ∧ 8 ≤ tag_size t ∧ offset + tag_size t ≤ total_size ∧
      tags_at m addr total_size (offset + (tag_size t + 7) / 8 * 8) ts
  end.

(** The whole pages of a usable entry, clipped to the 32-bit address space. *)
Definition entry_last (e : Z * Z * Z) : Z :=
  let '(b, l, k) := e in
  if (k =? 1) && negb (l =? 0) then Z.min (page_down (b + l)) MAX_PAGES else 0.
Definition entry_pages (e : Z * Z * Z) : gset Z :=
  let '(b, l, k) := e in
  if (k =? 1) && negb (l =? 0) then set_range (page_up b) (entry_last e) else ∅.

Definition tag_entries (t : tag) : list (Z * Z * Z) :=
  match t with MmapTag _ es => es | OtherTag _ _ => [] end.
Definition usable_pages (es : list (Z * Z * Z)) : gset Z := ⋃ (entry_pages <$> es).
Definition usable_limit (es : list (Z * Z * Z)) : Z := foldr Z.max 0 (entry_last <$> es).

(** Concrete boots, for the instances of the theorems: memory that holds a boot
    information structure at 0x9000 with one usable entry, 3 MiB at 1 MiB; the same
    place with an oversized tag; and a boot without boot information. *)
Definition words (a : Z) (l : list Z) (m : mem) : mem :=
  snd (foldl (λ '(a, m) v, (a + 4, store32 m a v)) (a, m) l).
Definition example_info : mem :=
  words 0x9000 [56; 0; 6; 40; 24; 0; 0x100000; 0; 0x300000; 0; 1; 0; 0; 8] ∅.
Definition example_tags : list tag :=
  [MmapTag 24 [(0x100000, 0x300000, 1)]; OtherTag 0 8].
Definition oversized_info : mem := words 0x9000 [16; 0; 0; 0xFFFFFFFF] ∅.
Definition static_state : pmm := mk_pmm ∅ 0 0.
Definition boot_state : pmm := pmm_finish 0x200000 (pmm_reset static_state).

(** ** Bits of the bitmap *)

Lemma page_byte_bit p q :
  0 ≤ p → 0 ≤ q → p ≫ 3 = q ≫ 3 → p .& 7 = q .& 7 → p = q.
Proof.
  intros ??. rewrite !shiftr_div, !(land_mask _ 7 3) by lia. dlia.
Qed.

Lemma page_bit_range p : 0 ≤ p .& 7 < 8.
Proof. rewrite (land_mask _ 7 3) by lia. dlia. Qed.

Lemma is_used_testbit p s : is_used p s = Z.testbit (bitmap_get s (p ≫ 3)) (p .& 7).
Proof. apply land_bit, page_bit_range. Qed.

Lemma bitmap_get_insert s i v j :
  bitmap_get (with_bitmap (<[i := v]> (page_bitmap s)) s) j =
  if decide (i = j) then v else bitmap_get s j.
Proof.
  unfold bitmap_get. simpl. rewrite lookup_insert. by case_decide.
Qed.

Lemma u8_bit k i : 0 ≤ k < 8 → Z.testbit (u8 (1 ≪ k)) i = bool_decide (k = i).
Proof.
  intros. assert (2 ^ k < 2 ^ 8) by (apply Z.pow_lt_mono_r; lia).
  unfold u8. rewrite Z.shiftl_1_l, Z.mod_small, Z.pow2_bits_eqb by lia.
  destruct (Z.eqb_spec k i); by case_bool_decide.
Qed.

Lemma u8_not_bit k i :
  0 ≤ k < 8 → 0 ≤ i < 8 → Z.testbit (u8 (Z.lnot (1 ≪ k))) i = bool_decide (k ≠ i).
Proof.
  intros. unfold u8. rewrite Z.mod_pow2_bits_low, Z.lnot_spec, Z.shiftl_1_l,
    Z.pow2_bits_eqb by lia.
  destruct (Z.eqb_spec k i); by case_bool_decide.
Qed.

Lemma is_used_set_used p q s :
  0 ≤ p → 0 ≤ q → is_used q (set_used p s) = if decide (p = q) then true else is_used q s.
Proof.
  intros ??. rewrite !is_used_testbit. unfold set_used. rewrite bitmap_get_insert.
  pose proof (page_bit_range p). pose proof (page_bit_range q).
  case_decide as E1; [|by case_decide; [congruence|]].
  rewrite Z.lor_spec, u8_bit, E1 by lia.
  case_decide as E2; [subst; by rewrite bool_decide_true, orb_true_r|].
  rewrite bool_decide_false, orb_false_r; [done|]. intros ?. by apply E2, page_byte_bit.
Qed.

Lemma is_used_set_free p q s :
  0 ≤ p → 0 ≤ q → is_used q (set_free p s) = if decide (p = q) then false else is_used q s.
Proof.
  intros ??. rewrite !is_used_testbit. unfold set_free. rewrite bitmap_get_insert.
  pose proof (page_bit_range p). pose proof (page_bit_range q).
  case_decide as E1; [|by case_decide; [congruence|]].
  rewrite Z.land_spec, u8_not_bit, E1 by lia.
  case_decide as E2; [subst; by rewrite bool_decide_false, andb_false_r by tauto|].
  rewrite bool_decide_true, andb_true_r; [done|]. intros ?. by apply E2, page_byte_bit.
Qed.

Lemma byte_bits x : 0 ≤ x → (∀ i, 8 ≤ i → Z.testbit x i = false) → is_byte x.
Proof.
  intros Hx H. split; [done|]. destruct (decide (x = 0)) as [->|]; [lia|].
  apply Z.log2_lt_pow2; [lia|]. destruct (Z.lt_ge_cases (Z.log2 x) 8); [done|].
  specialize (H _ H0). rewrite Z.bit_log2 in H by lia. done.
Qed.

Lemma byte_high_bits x i : is_byte x → 8 ≤ i → Z.testbit x i = false.
Proof.
  unfold is_byte. intros Hx Hi. destruct (decide (x = 0)) as [->|]; [apply Z.bits_0|].
  apply Z.bits_above_log2; [lia|]. apply Z.lt_le_trans with 8; [|done].
  apply Z.log2_lt_pow2; lia.
Qed.

Lemma byte_lor x y : is_byte x → is_byte y → is_byte (x .| y).
Proof.
  intros Hx Hy. apply byte_bits; [apply Z.lor_nonneg; split; apply Hx || apply Hy|].
  intros. by rewrite Z.lor_spec, !byte_high_bits.
Qed.

Lemma byte_land x y : is_byte x → is_byte y → is_byte (x .& y).
Proof.
  intros Hx Hy. apply byte_bits; [apply Z.land_nonneg; left; apply Hx|].
  intros. by rewrite Z.land_spec, !byte_high_bits.
Qed.

(** ** One page at a time *)

Lemma size_range_le (F : gset Z) n :
  0 ≤ n → (∀ p, p ∈ F → 0 ≤ p < n) → Z.of_nat (size F) ≤ n.
Proof.
  intros Hn H. assert (F ⊆ (list_to_set (seqZ 0 n) : gset Z)) as Hs.
  { intros p Hp. apply elem_of_list_to_set, elem_of_seqZ. specialize (H p Hp). lia. }
  apply subseteq_size in Hs.
  rewrite size_list_to_set, length_seqZ in Hs by apply NoDup_seqZ. lia.
Qed.

Lemma bits_count_bound s F : bits_repr s F → 0 ≤ free_count s ≤ MAX_PAGES.
Proof.
  intros H. rewrite (bits_count _ _ H).
  pose proof (size_range_le F MAX_PAGES ltac:(done) (bits_range _ _ H)). lia.
Qed.

Lemma bits_used s F p : bits_repr s F → 0 ≤ p < MAX_PAGES → is_used p s = true ↔ p ∉ F.
Proof.
  intros H Hp. rewrite (bits_free _ _ H) by done. by destruct (is_used p s).
Qed.

Lemma bits_set_free s F p :
  bits_repr s F → 0 ≤ p < MAX_PAGES → p ∉ F →
  bits_repr (with_free_count (free_count s +u 1) (set_free p s)) ({[p]} ∪ F).
Proof.
  intros H Hp HpF. split.
  - intros q Hq. change (is_used q _) with (is_used q (set_free p s)).
    rewrite is_used_set_free, elem_of_union, elem_of_singleton, (bits_free _ _ H) by lia.
    case_decide; naive_solver.
  - intros q. rewrite elem_of_union, elem_of_singleton.
    intros [->|Hq]; [done|]. by apply (bits_range _ _ H).
  - simpl. rewrite size_union, size_singleton by set_solver.
    pose proof (bits_count_bound _ _ H) as Hc. unfold MAX_PAGES in Hc.
    rewrite (bits_count _ _ H) in *. u_small. lia.
  - intros i Hi. change (is_byte (bitmap_get (set_free p s) i)). unfold set_free.
    rewrite bitmap_get_insert. pose proof (bits_bytes _ _ H) as Hb.
    case_decide; subst; [|by apply Hb]. apply byte_land; [by apply Hb|apply u8_range].
Qed.

Lemma bits_set_used s F p :
  bits_repr s F → p ∈ F →
  bits_repr (with_free_count (free_count s -u 1) (set_used p s)) (F ∖ {[p]}).
Proof.
  intros H HpF. pose proof (bits_range _ _ H p HpF) as Hp. split.
  - intros q Hq. change (is_used q _) with (is_used q (set_used p s)).
    rewrite is_used_set_used, elem_of_difference, elem_of_singleton, (bits_free _ _ H) by lia.
    case_decide; naive_solver.
  - intros q Hq. apply (bits_range _ _ H). set_solver.
  - simpl. rewrite size_difference, size_singleton by set_solver.
    pose proof (bits_count_bound _ _ H) as Hc. unfold MAX_PAGES in Hc.
    assert (size F ≠ 0%nat) by (apply size_non_empty_iff; set_solver).
    rewrite (bits_count _ _ H) in *. u_small. lia.
  - intros i Hi. change (is_byte (bitmap_get (set_used p s) i)). unfold set_used.
    rewrite bitmap_get_insert. pose proof (bits_bytes _ _ H) as Hb.
    case_decide; subst; [|by apply Hb]. apply byte_lor; [by apply Hb|apply u8_range].
Qed.

(** ** Ranges *)

Lemma elem_of_set_range a b p : p ∈ set_range a b ↔ a ≤ p < b.
Proof. unfold set_range. rewrite elem_of_list_to_set. apply elem_of_range. Qed.

Lemma set_range_empty a b : b ≤ a → set_range a b = ∅.
Proof. intros. apply set_eq. intros p. rewrite elem_of_set_range. set_solver by lia. Qed.

Lemma set_range_snoc a b : a ≤ b → set_range a (b + 1) = {[b]} ∪ set_range a b.
Proof.
  intros. apply set_eq. intros p.
  rewrite elem_of_union, elem_of_singleton, !elem_of_set_range. lia.
Qed.

Lemma free_range_loop s F first last :
  bits_repr s F → 0 ≤ first → last ≤ MAX_PAGES →
  let s' := for_loop first last (λ page s,
    if is_used page s
    then let s := set_free page s in with_free_count (free_count s +u 1) s
    else s) s in
  bits_repr s' (F ∪ set_range first last) ∧ highest_page s' = highest_page s.
Proof.
  intros H Hf Hl. simpl. destruct (decide (first < last)); cycle 1.
  { rewrite for_loop_nil, set_range_empty, union_empty_r_L by lia. done. }
  apply (for_loop_ind (λ k s',
    bits_repr s' (F ∪ set_range first k) ∧ highest_page s' = highest_page s)); [lia| |].
  { by rewrite set_range_empty, union_empty_r_L by lia. }
  intros i s' Hi [IH Hh]. rewrite set_range_snoc by lia.
  replace (F ∪ ({[i]} ∪ set_range first i)) with ({[i]} ∪ (F ∪ set_range first i))
    by set_solver.
  destruct (is_used i s') eqn:E.
  - split; [|done]. apply bits_set_free; [done|lia|].
    apply (bits_used s'); [done|lia|done].
  - split; [|done]. apply (bits_free _ _ IH i) in E; [|lia].
    replace ({[i]} ∪ (F ∪ set_range first i)) with (F ∪ set_range first i) by set_solver.
    done.
Qed.

Lemma reserve_range_loop s F first last :
  bits_repr s F → 0 ≤ first → last ≤ MAX_PAGES →
  let s' := for_loop first last (λ page s,
    if is_used page s then s
    else let s := set_used page s in with_free_count (free_count s -u 1) s) s in
  bits_repr s' (F ∖ set_range first last) ∧ highest_page s' = highest_page s.
Proof.
  intros H Hf Hl. simpl. destruct (decide (first < last)); cycle 1.
  { rewrite for_loop_nil, set_range_empty, difference_empty_L by lia. done. }
  apply (for_loop_ind (λ k s',
    bits_repr s' (F ∖ set_range first k) ∧ highest_page s' = highest_page s)); [lia| |].
  { by rewrite set_range_empty, difference_empty_L by lia. }
  intros i s' Hi [IH Hh]. rewrite set_range_snoc by lia.
  replace (F ∖ ({[i]} ∪ set_range first i)) with (F ∖ set_range first i ∖ {[i]})
    by set_solver.
  destruct (is_used i s') eqn:E.
  - split; [|done]. apply (bits_used _ _ _ IH) in E; [|lia].
    replace (F ∖ set_range first i ∖ {[i]}) with (F ∖ set_range first i) by set_solver.
    done.
  - split; [|done]. apply bits_set_used; [done|].
    by apply (bits_free s'); [|lia|].
Qed.

(** ** The operations on the abstract state *)

Lemma free_range_repr s n F a b :
  pmm_repr s n F → 0 ≤ b →
  let last := Z.min (b / PAGE_SIZE) MAX_PAGES in
  pmm_repr (free_range a b s) (Z.max n last)
    (F ∪ set_range (u64 (a + PAGE_SIZE - 1) / PAGE_SIZE) last).
Proof.
  intros H Hb last. unfold free_range. fold last.
  pose proof (u64_range (a + PAGE_SIZE - 1)) as Hu.
  set (first := u64 (a + PAGE_SIZE - 1) / PAGE_SIZE).
  assert (0 ≤ first) by (subst first; unfold PAGE_SIZE in *; dlia).
  assert (0 ≤ last ≤ MAX_PAGES) by (subst last; unfold PAGE_SIZE, MAX_PAGES in *; dlia).
  destruct (free_range_loop s F first last) as [Hb' Hh]; [apply H|lia|lia|].
  set (s' := for_loop _ _ _ _) in *. rewrite (repr_highest _ _ _ H) in Hh.
  pose proof (repr_bound _ _ _ H).
  assert (∀ p, p ∈ F ∪ set_range first last → 0 ≤ p < n `max` last).
  { intros p. rewrite elem_of_union, elem_of_set_range.
    pose proof (repr_range _ _ _ H p). intros [?|?]; naive_solver lia. }
  case_if; split; try done; simpl; try lia.
  - by destruct Hb'.
  - unfold u32. rewrite Z.mod_small; unfold MAX_PAGES in *; lia.
Qed.

Lemma reserve_range_repr s n F a b :
  pmm_repr s n F → 0 ≤ a →
  pmm_repr (reserve_range a b s) n
    (F ∖ set_range (a / PAGE_SIZE) (u64 (b + PAGE_SIZE - 1) / PAGE_SIZE)).
Proof.
  intros H Ha. unfold reserve_range.
  set (first := a / PAGE_SIZE). set (last := u64 _ / PAGE_SIZE).
  assert (0 ≤ first) by (subst first; unfold PAGE_SIZE; dlia).
  replace (F ∖ set_range first last) with (F ∖ set_range first (Z.min last MAX_PAGES)); cycle 1.
  { apply set_eq. intros p. rewrite !elem_of_difference, !elem_of_set_range.
    pose proof (bits_range _ _ (repr_bits _ _ _ H) p). naive_solver lia. }
  case_if.
  { rewrite set_range_empty, difference_empty_L by lia. done. }
  destruct (reserve_range_loop s F first (Z.min last MAX_PAGES)) as [Hb' Hh];
    [apply H|lia|lia|].
  split; [done| |apply H|].
  - etrans; [apply Hh|apply H].
  - intros p Hp. apply (repr_range _ _ _ H). set_solver.
Qed.

Lemma fill_bitmap n (b : gmap Z Z) i :
  0 ≤ i < n → default 0 (for_loop 0 n (λ i b, <[i := 0xff]> b) b !! i) = 0xff.
Proof.
  intros Hi. revert i Hi.
  destruct (decide (0 ≤ n)); [|lia].
  apply (for_loop_ind (λ k b, ∀ i, 0 ≤ i < k → default 0 (b !! i) = 0xff)); [done|lia|].
  intros i b' Hi IH j Hj. rewrite lookup_insert. case_decide; [done|]. apply IH. lia.
Qed.

Lemma pmm_reset_repr s : pmm_repr (pmm_reset s) 0 ∅.
Proof.
  assert (∀ i, 0 ≤ i < BITMAP_BYTES → bitmap_get (pmm_reset s) i = 0xff) as Hin.
  { intros. by apply fill_bitmap. }
  assert (∀ p, p ∉ (∅ : gset Z)) as He by (intros p; apply not_elem_of_empty).
  split; [|done|done|by intros p ?%He]. split.
  - intros p Hp. rewrite is_used_testbit, Hin.
    + pose proof (page_bit_range p). change 255 with (Z.ones 8).
      rewrite (Z.ones_spec_low 8 (p .& 7)) by lia. by split; [intros ?%He|].
    + rewrite shiftr_div by lia. unfold BITMAP_BYTES, MAX_PAGES in *. dlia.
  - by intros p ?%He.
  - by rewrite size_empty.
  - intros i Hi. rewrite Hin by done. unfold is_byte. lia.
Qed.

Lemma try_page_spec s n F i :
  pmm_repr s n F → 1 ≤ i < n →
  match try_page i s with
  | (None, s') => s' = s ∧ i ∉ F
  | (Some a, s') => i ∈ F ∧ a = i * PAGE_SIZE ∧ pmm_repr s' n (F ∖ {[i]})
  end.
Proof.
  intros H Hi. pose proof (repr_bound _ _ _ H) as Hn. unfold try_page.
  destruct (is_used i s) eqn:E.
  - apply (bits_used _ F) in E; [done|apply H|lia].
  - apply (bits_free _ F) in E; [|apply H|lia]. split; [done|split].
    + unfold PAGE_SIZE, MAX_PAGES in *. by u_small.
    + split; [apply (bits_set_used s F i); [apply H|done]|apply H|done|].
      intros q Hq. apply (repr_range _ _ _ H). set_solver.
Qed.

Lemma allocate_page_spec s n F :
  pmm_repr s n F → 0 ∉ F →
  let '(a, s') := allocate_page s in
  (F = ∅ ∧ a = 0 ∧ s' = s) ∨
  ∃ p, p ∈ F ∧ (∀ q, q ∈ F → p ≤ q) ∧ a = p * PAGE_SIZE ∧ pmm_repr s' n (F ∖ {[p]}).
Proof.
  intros H H0. unfold allocate_page. rewrite (repr_highest _ _ _ H).
  assert (∀ q, q ∈ F → 1 ≤ q < n) as Hr.
  { intros q Hq. pose proof (repr_range _ _ _ H q Hq).
    assert (q ≠ 0) by (by intros ->). lia. }
  destruct (decide (1 ≤ n)); cycle 1.
  { unfold for_exit. rewrite range_nil by lia. left. split; [|done].
    apply elem_of_equiv_empty_L. intros p ?%Hr. lia. }
  assert (match for_exit 1 n try_page s with
    | (None, s') => s' = s ∧ ∀ q, q ∈ F → n ≤ q
    | (Some a, s') => ∃ p, p ∈ F ∧ (∀ q, q ∈ F → p ≤ q) ∧ a = p * PAGE_SIZE
        ∧ pmm_repr s' n (F ∖ {[p]})
    end) as Hl.
  { apply (for_exit_ind (λ i s', s' = s ∧ ∀ q, q ∈ F → i ≤ q)); [done| |].
    { split; [done|]. intros q Hq%Hr. lia. }
    intros i s1 Hi [-> IH]. pose proof (try_page_spec s n F i H Hi) as Ht.
    destruct (try_page i s) as [[a|] s'].
    - exists i. naive_solver.
    - destruct Ht as [-> Hni]. split; [done|]. intros q Hq. specialize (IH q Hq).
      assert (q ≠ i) by (by intros ->). lia. }
  destruct (for_exit _ _ _ _) as [[a|] s']; [by right|left].
  destruct Hl as [-> Hl]. split; [|done]. apply elem_of_equiv_empty_L. intros q Hq.
  specialize (Hl q Hq). specialize (Hr q Hq). lia.
Qed.

Lemma free_page_repr s n F p :
  pmm_repr s n F → 0 < p < n → p ∉ F → pmm_repr (free_page (p * PAGE_SIZE) s) n ({[p]} ∪ F).
Proof.
  intros H Hp HpF. pose proof (repr_bound _ _ _ H). unfold free_page.
  rewrite Z.div_mul, (repr_highest _ _ _ H) by done.
  rewrite (proj2 (Z.eqb_neq p 0)), (proj2 (Z.leb_gt n p)) by lia.
  rewrite (proj2 (bits_used s F p (repr_bits _ _ _ H) ltac:(lia))) by done. simpl.
  split; [apply (bits_set_free s F p); [apply H|lia|done]|apply H|done|].
  intros q. rewrite elem_of_union, elem_of_singleton. intros [->|Hq]; [lia|].
  by apply (repr_range _ _ _ H).
Qed.

(** A call that does not name an allocated page changes nothing. *)
Lemma free_page_ignored s n F a :
  pmm_repr s n F → 0 ≤ a →
  let p := a / PAGE_SIZE in
  p = 0 ∨ n ≤ p ∨ p ∈ F → free_page a s = s.
Proof.
  intros H Ha p Hp. pose proof (repr_bound _ _ _ H). unfold free_page. fold p.
  rewrite (repr_highest _ _ _ H). destruct (decide (p = 0)) as [->|]; [done|].
  rewrite (proj2 (Z.eqb_neq p 0)) by done.
  destruct (Z.leb_spec n p); [done|].
  assert (0 ≤ p) by (subst p; unfold PAGE_SIZE; dlia).
  destruct Hp as [?|[?|Hp]]; [lia|lia|].
  apply (bits_free s F (repr_bits _ _ _ H)) in Hp; [|lia]. by rewrite Hp.
Qed.

#[global] Instance pmm_allocator : PageAllocator pmm := {|
  pa_allocate := allocate_page;
  pa_free := free_page;
|}.

(** The bitmap allocator keeps the contract of [Interfaces]: its pages are those
    of the represented set, and page 0 has been reserved. *)
#[global, refine] Instance pmm_allocator_spec : PageAllocatorSpec pmm := {|
  pages := pmm_pages;
|}.
Proof.
  - intros s n F p [H H0] Hp. pose proof (repr_range _ _ _ H p Hp).
    pose proof (repr_bound _ _ _ H). unfold MAX_PAGES in *.
    assert (p ≠ 0) by (by intros ->). lia.
  - intros s n [H H0]. pose proof (allocate_page_spec s n ∅ H H0) as Ha. simpl.
    destruct (allocate_page s) as [a s']. destruct Ha as [(_ & -> & ->)|(p & Hp & _)];
      [done|set_solver].
  - intros s n F [H H0] HF. pose proof (allocate_page_spec s n F H H0) as Ha. simpl.
    destruct (allocate_page s) as [a s']. destruct Ha as [[-> _]|(p & ? & ? & -> & ?)];
      [done|]. exists p, s'. unfold pmm_pages. set_solver.
  - intros s n F p [H H0] Hp HpF. split; [by apply (free_page_repr s n F p)|].
    intros [?%elem_of_singleton|?]%elem_of_union; [lia|done].
Defined.

(** ** Boot *)

Section boot.
Context (m : mem).

Lemma free_range_some s n F a b :
  pmm_repr s n F → 0 ≤ b → ∃ n' F', pmm_repr (free_range a b s) n' F'.
Proof. intros. eexists _, _. by apply free_range_repr. Qed.

Lemma mmap_tag_some s n F tag size :
  pmm_repr s n F → ∃ n' F', pmm_repr (mmap_tag m tag size s) n' F'.
Proof.
  intros H. unfold mmap_tag. case_if; [|by eauto].
  set (k := _ / _). destruct (decide (0 ≤ k)); [|rewrite for_loop_nil by lia; simpl; eauto].
  apply (for_loop_ind (λ _ es, ∃ n' F', pmm_repr es.2 n' F')); [done|by eauto|].
  intros i [entry s'] Hi (n' & F' & H'). simpl.
  case_match; [|by eauto]. eapply free_range_some; [done|apply u64_range].
Qed.

Lemma tags_some fuel s n F addr total offset s' :
  pmm_repr s n F → tags fuel m addr total offset s = Some s' →
  ∃ n' F', pmm_repr s' n' F'.
Proof.
  revert s n F offset. induction fuel as [|fuel IH]; simpl; intros s n F offset H Ht; [done|].
  case_if_in Ht; [|by eauto]. case_if_in Ht; [by eauto|].
  case_if_in Ht; [|by eapply IH].
  edestruct mmap_tag_some as (n' & F' & H'); [done|]. by eapply IH.
Qed.

Lemma usable_limit_cons e es : usable_limit (e :: es) = Z.max (entry_last e) (usable_limit es).
Proof. done. Qed.

Lemma usable_pages_cons e es : usable_pages (e :: es) = entry_pages e ∪ usable_pages es.
Proof. done. Qed.

Lemma usable_limit_nonneg es : 0 ≤ usable_limit es.
Proof. induction es; [done|]. rewrite usable_limit_cons. lia. Qed.

Lemma usable_limit_app es1 es2 :
  usable_limit (es1 ++ es2) = Z.max (usable_limit es1) (usable_limit es2).
Proof.
  induction es1 as [|e es1 IH]; simpl app.
  - pose proof (usable_limit_nonneg es2). unfold usable_limit at 2. simpl. lia.
  - rewrite !usable_limit_cons, IH. lia.
Qed.

Lemma usable_pages_app es1 es2 :
  usable_pages (es1 ++ es2) = usable_pages es1 ∪ usable_pages es2.
Proof. unfold usable_pages. by rewrite fmap_app, union_list_app_L. Qed.

Lemma entry_repr s n F e a entry_size es :
  pmm_repr s n F → entries_at m a entry_size (e :: es) → 0 ≤ a → a + entry_size < 2 ^ 32 →
  0 ≤ entry_size →
  let '(a', s') := mmap_entry m entry_size (a, s) in
  a' = a + entry_size ∧ pmm_repr s' (Z.max n (entry_last e)) (F ∪ entry_pages e).
Proof.
  destruct e as [[b l] k]. intros H (E1 & E2 & E3 & Hb & Hl & Hbl & _) Ha Ha' Hs.
  unfold mmap_entry. rewrite E1, E2, E3.
  split; [by u_small|]. pose proof (repr_bound _ _ _ H).
  unfold entry_pages, entry_last.
  destruct ((k =? 1) && negb (l =? 0))%bool.
  - unfold PAGE_SIZE in Hbl. rewrite (u64_small (b + l)) by lia.
    pose proof (free_range_repr s n F b (b + l) H ltac:(lia)) as Hr.
    cbv zeta in Hr. unfold PAGE_SIZE in Hr at 2. rewrite u64_small in Hr by lia.
    exact Hr.
  - by rewrite union_empty_r_L, Z.max_l by lia.
Qed.

Lemma entries_repr entry_size es a i s n F :
  pmm_repr s n F → entries_at m a entry_size es → 0 ≤ a → 0 ≤ entry_size →
  a + entry_size * Z.of_nat (length es) < 2 ^ 32 →
  pmm_repr (snd (for_loop i (i + Z.of_nat (length es)) (λ _, mmap_entry m entry_size) (a, s)))
    (Z.max n (usable_limit es)) (F ∪ usable_pages es).
Proof.
  revert a i s n F. induction es as [|e es IH]; intros a i s n F H He Ha Hs Hlt.
  { simpl in *. pose proof (repr_bound _ _ _ H).
    rewrite for_loop_nil by lia. unfold usable_pages, usable_limit. simpl.
    by rewrite union_empty_r_L, Z.max_l by lia. }
  simpl length in *. rewrite for_loop_cons by lia.
  pose proof (entry_repr s n F e a entry_size es H He ltac:(lia) ltac:(nia) Hs) as Hstep.
  destruct (mmap_entry m entry_size (a, s)) as [a' s'] eqn:E. destruct Hstep as [-> Hr].
  replace (i + Z.of_nat (S (length es))) with (i + 1 + Z.of_nat (length es)) by lia.
  destruct e as [[b l] k]. destruct He as (_ & _ & _ & _ & _ & _ & He).
  specialize (IH (a + entry_size) (i + 1) s' _ _ Hr He ltac:(lia) Hs ltac:(nia)).
  rewrite usable_limit_cons, usable_pages_cons, Z.max_assoc, union_assoc_L. done.
Qed.

Lemma mmap_tag_repr s n F a entry_size es :
  pmm_repr s n F → tag_at m a (MmapTag entry_size es) → 0 ≤ a →
  a + tag_size (MmapTag entry_size es) < 2 ^ 32 →
  pmm_repr (mmap_tag m a (tag_size (MmapTag entry_size es)) s)
    (Z.max n (usable_limit es)) (F ∪ usable_pages es).
Proof.
  intros H (Hsize & Htype & Hes & Hle & He) Ha Hlt. unfold mmap_tag. simpl tag_size in *.
  rewrite Hes, (proj2 (Z.leb_le 24 entry_size)) by done.
  replace ((16 + entry_size * Z.of_nat (length es) -u 16) / entry_size)
    with (Z.of_nat (length es)) by (u_small; rewrite Z.add_simpl_l, Z.mul_comm, Z.div_mul; lia).
  u_small. apply (entries_repr entry_size es (a + 16) 0); lia || done.
Qed.

(** The tag loop reads a well-formed structure to its end, with one unit of fuel
    for each tag and one for the test that ends the loop. *)
Lemma tags_spec ts fuel s n F addr total offset :
  pmm_repr s n F → tags_at m addr total offset ts → (length ts < fuel)%nat →
  0 ≤ addr → 0 ≤ offset ≤ total + 7 → addr + total + 16 < 2 ^ 32 →
  let es := concat (tag_entries <$> ts) in
  ∃ s', tags fuel m addr total offset s = Some s' ∧
        pmm_repr s' (Z.max n (usable_limit es)) (F ∪ usable_pages es).
Proof.
  revert fuel s n F offset.
  induction ts as [|t ts IH]; intros fuel s n F offset H Ht Hfuel Ha Ho Hlt;
    (destruct fuel as [|fuel]; [simpl in Hfuel; lia|]); simpl tags.
  { simpl in Ht. u_small. rewrite (proj2 (Z.leb_gt _ _)) by lia. exists s. split; [done|].
    simpl. pose proof (repr_bound _ _ _ H). unfold usable_pages, usable_limit. simpl.
    by rewrite union_empty_r_L, Z.max_l by lia. }
  destruct Ht as (Ht & H8 & Hle & Hts). u_small. rewrite (proj2 (Z.leb_le _ _)) by lia.
  pose proof Ht as [Hsize Hkind]. rewrite Hsize. u_small.
  rewrite (proj2 (Z.ltb_ge _ 8)), (proj2 (Z.ltb_ge _ (offset + _))) by lia. simpl orb.
  rewrite (land_align _ _ 3) by lia. change (2 ^ 3) with 8.
  rewrite (u32_small (offset + _ / 8 * 8)) by dlia.
  simpl in Hfuel. simpl fmap. simpl concat.
  assert (pmm_repr (if load32 m (addr + offset) =? 6
    then mmap_tag m (addr + offset) (tag_size t) s else s)
    (Z.max n (usable_limit (tag_entries t))) (F ∪ usable_pages (tag_entries t))) as Hr.
  { destruct t as [entry_size es|type size].
    - rewrite (proj1 Hkind). simpl Z.eqb. apply mmap_tag_repr; [done|done|lia|]. cbn in *. lia.
    - destruct Hkind as [-> ?]. rewrite (proj2 (Z.eqb_neq type 6)) by done.
      pose proof (repr_bound _ _ _ H). unfold usable_pages, usable_limit. simpl.
      by rewrite union_empty_r_L, Z.max_l by lia. }
  destruct (IH fuel _ _ _ _ Hr Hts) as (s' & -> & Hs'); [lia|lia|dlia|lia|].
  exists s'. split; [done|].
  rewrite usable_limit_app, usable_pages_app, Z.max_assoc, union_assoc_L. done.
Qed.

(** A tag whose size is within 7 of 2^32 passes the length test (its sum with the
    offset wraps round) and advances the offset by nothing: the loop stays on it. *)
Lemma tags_stuck fuel s addr total offset :
  let size := load32 m (addr + offset + 4) in
  2 ^ 32 - 7 ≤ size < 2 ^ 32 → load32 m (addr + offset) ≠ 6 →
  0 ≤ addr → 8 ≤ offset → offset + 8 ≤ total → addr + total < 2 ^ 32 →
  tags fuel m addr total offset s = None.
Proof.
  intros size Hsize Htype Ha Ho Hle Hlt.
  induction fuel as [|fuel IH]; [done|]. simpl. u_small.
  rewrite (proj2 (Z.leb_le _ total)) by lia. fold size.
  rewrite (proj2 (Z.eqb_neq _ 6)) by done.
  rewrite (proj2 (Z.ltb_ge size 8)) by lia. simpl orb.
  assert (u32 (offset + size) = offset + size - 2 ^ 32) as -> by (unfold u32; dlia).
  rewrite (proj2 (Z.ltb_ge total _)) by lia.
  assert (u32 (size + 7) / 8 = 0) as E by (unfold u32; dlia).
  rewrite (land_align _ _ 3) by (unfold u32; dlia). change (2 ^ 3) with 8. rewrite E.
  change (0 * 8) with 0.
  rewrite Z.add_0_r, u32_small by lia. done.
Qed.

(** The tag loop followed by the reservation of the structure itself. *)
Lemma boot_tags s ts addr total :
  tags_at m addr total 8 ts → 0 ≤ addr → 0 < total → addr + total + 4096 < 2 ^ 32 →
  let es := concat (tag_entries <$> ts) in
  ∃ s', tags (S (length ts)) m addr total 8 (pmm_reset s) = Some s' ∧
    pmm_repr (reserve_range addr (u64 (addr + total)) s') (usable_limit es)
      (usable_pages es ∖ set_range (page_down addr) (page_up (addr + total))).
Proof.
  intros Ht Ha Htot Hlt es. pose proof (usable_limit_nonneg es).
  destruct (tags_spec ts (S (length ts)) (pmm_reset s) 0 ∅ addr total 8
    (pmm_reset_repr s) Ht) as (s' & Hs & Hr); [lia|lia|lia|lia|].
  fold es in Hr. rewrite Z.max_r, union_empty_l_L in Hr by lia.
  exists s'. split; [done|].
  pose proof (reserve_range_repr _ _ _ addr (u64 (addr + total)) Hr Ha) as H2.
  rewrite (u64_small (addr + total)) in * by lia.
  unfold PAGE_SIZE in H2. rewrite u64_small in H2 by lia. exact H2.
Qed.

End boot.

(** The default heap of a boot without a usable map. *)
Lemma boot_default s n F :
  pmm_repr s n F →
  pmm_repr (if highest_page s =? 0 then free_range 0x00100000 0x01000000 s else s)
    (if n =? 0 then 4096 else n) (if n =? 0 then set_range 256 4096 else F).
Proof.
  intros H. rewrite (repr_highest _ _ _ H). case_if; [|done].
  pose proof (free_range_repr s 0 F 0x00100000 0x01000000 H ltac:(done)) as Hr.
  assert (F = ∅) as ->.
  { apply elem_of_equiv_empty_L. intros p Hp%(repr_range _ _ _ H). lia. }
  cbv zeta in Hr. rewrite union_empty_l_L in Hr.
  replace (u64 (0x00100000 + PAGE_SIZE - 1) / PAGE_SIZE) with 256 in Hr by reflexivity.
  replace (Z.min (0x01000000 / PAGE_SIZE) MAX_PAGES) with 4096 in Hr by reflexivity.
  exact Hr.
Qed.

Lemma pmm_finish_repr s n F kernel_end :
  pmm_repr s n F → 0 < kernel_end < 2 ^ 32 →
  pmm_repr (pmm_finish kernel_end s) (if n =? 0 then 4096 else n)
    ((if n =? 0 then set_range 256 4096 else F)
       ∖ set_range 0 1 ∖ set_range 0 (page_up kernel_end)).
Proof.
  intros H Hk. pose proof (boot_default s n F H) as H0.
  pose proof (reserve_range_repr _ _ _ 0 0x1000 H0 ltac:(done)) as H1.
  pose proof (reserve_range_repr _ _ _ 0 kernel_end H1 ltac:(done)) as H2.
  unfold PAGE_SIZE in H2. rewrite !u64_small in H2 by lia. exact H2.
Qed.

(** ** Traces

    The allocator's clients see it as a set of free pages: a step of that
    abstract machine, with the value the call returns. *)
Inductive op := Alloc | Free (address : Z).

Definition run_op (o : op) (s : pmm) : Z * pmm :=
  match o with
  | Alloc => allocate_page s
  | Free a => (0, free_page a s)
  end.

Fixpoint run_ops (os : list op) (s : pmm) : list Z * pmm :=
  match os with
  | [] => ([], s)
  | o :: os =>
      let '(r, s) := run_op o s in
      let '(rs, s) := run_ops os s in (r :: rs, s)
  end.

Inductive spec_step (n : Z) : gset Z → op → Z → gset Z → Prop :=
| spec_alloc F p : p ∈ F → (∀ q, q ∈ F → p ≤ q) →
    spec_step n F Alloc (p * PAGE_SIZE) (F ∖ {[p]})
| spec_alloc_none : spec_step n ∅ Alloc 0 ∅
| spec_free F a : let p := a / PAGE_SIZE in 0 < p < n → p ∉ F →
    spec_step n F (Free a) 0 ({[p]} ∪ F)
| spec_free_ignored F a : let p := a / PAGE_SIZE in p = 0 ∨ n ≤ p ∨ p ∈ F →
    spec_step n F (Free a) 0 F.

Inductive spec_steps (n : Z) : gset Z → list op → list Z → gset Z → Prop :=
| spec_done F : spec_steps n F [] [] F
| spec_next F o r F' os rs F'' :
    spec_step n F o r F' → spec_steps n F' os rs F'' →
    spec_steps n F (o :: os) (r :: rs) F''.

Lemma free_page_offset a s : free_page (a / PAGE_SIZE * PAGE_SIZE) s = free_page a s.
Proof. unfold free_page. by rewrite Z.div_mul. Qed.

Lemma run_op_spec o s n F :
  pmm_pages s n F → (∀ a, o = Free a → 0 ≤ a) →
  let '(r, s') := run_op o s in ∃ F', spec_step n F o r F' ∧ pmm_pages s' n F'.
Proof.
  intros [H H0] Ha. destruct o as [|a]; simpl.
  - pose proof (allocate_page_spec s n F H H0) as Hs.
    destruct (allocate_page s) as [r s'].
    destruct Hs as [(-> & -> & ->)|(p & Hp & Hmin & -> & Hr)].
    + exists ∅. split; [constructor|done].
    + exists (F ∖ {[p]}). split; [by constructor|]. unfold pmm_pages. set_solver.
  - specialize (Ha a eq_refl). set (p := a / PAGE_SIZE).
    assert (0 ≤ p) by (subst p; unfold PAGE_SIZE; dlia).
    destruct (decide (p = 0 ∨ n ≤ p ∨ p ∈ F)) as [Hp|Hp].
    + exists F. rewrite (free_page_ignored s n F a) by done. split; [by constructor|done].
    + exists ({[p]} ∪ F). split; [constructor; [subst p; lia|tauto]|].
      rewrite <- free_page_offset. fold p.
      split; [apply free_page_repr; [done|lia|tauto]|].
      intros [?%elem_of_singleton|?]%elem_of_union; [lia|done].
Qed.

(** Every boot path ends with the last reservations on a legal state. *)
Lemma pmm_init_boot fuel m kernel_end addr s s' :
  0 ≤ addr → pmm_init fuel m kernel_end addr s = Some s' →
  ∃ s1 n F, pmm_repr s1 n F ∧ s' = pmm_finish kernel_end s1.
Proof.
  intros Ha Hs. unfold pmm_init in Hs. case_if_in Hs; simpl in Hs; simplify_eq.
  - eexists _, _, _. split; [apply pmm_reset_repr|done].
  - destruct (tags _ _ _ _ _ _) as [s1|] eqn:Ht; simpl in Hs; simplify_eq.
    destruct (tags_some m _ _ _ _ _ _ _ _ (pmm_reset_repr s) Ht) as (n & F & Hr).
    eexists _, _, _. split; [|done]. by apply reserve_range_repr.
Qed.

Lemma pmm_init_no_info fuel m kernel_end s :
  pmm_init fuel m kernel_end 0 s = Some (pmm_finish kernel_end (pmm_reset s)).
Proof. unfold pmm_init. rewrite Z.eqb_refl. done. Qed.

(** ** Properties *)

(** C16. At boot, a well-formed multiboot2 memory map is read to its end and the
    allocator then manages exactly the whole pages of its usable entries, less the
    page 0, the pages of the kernel image and the pages of the boot information;
    the free counter is their number.  A map without usable memory gives the 15 MiB
    heap that starts at 1 MiB. *)
Theorem pmm_init_memory_map m kernel_end addr ts s :
  0 < kernel_end < 2 ^ 32 → 0 < addr → 0 < load32 m addr →
  addr + load32 m addr + 4096 < 2 ^ 32 →
  tags_at m addr (load32 m addr) 8 ts →
  let es := concat (tag_entries <$> ts) in
  let info := set_range (page_down addr) (page_up (addr + load32 m addr)) in
  ∃ s', pmm_init (S (length ts)) m kernel_end addr s = Some s' ∧
    pmm_repr s' (if usable_limit es =? 0 then 4096 else usable_limit es)
      ((if usable_limit es =? 0 then set_range 256 4096 else usable_pages es ∖ info)
         ∖ set_range 0 1 ∖ set_range 0 (page_up kernel_end)).
Proof.
  intros Hk Ha Htot Hlt Ht es info.
  destruct (boot_tags m s ts addr _ Ht) as (s1 & Hs1 & Hr); [lia..|].
  pose proof (pmm_finish_repr _ _ _ _ Hr Hk) as Hr'.
  eexists. split; [|exact Hr'].
  unfold pmm_init. rewrite (proj2 (Z.eqb_neq addr 0)) by lia. by rewrite Hs1.
Qed.

(** Whatever the boot loader hands over, if [pmm_init] returns then the
    allocator is in a legal state in which neither page 0 nor any page that holds a
    byte of the kernel image is free, so none is ever handed out. *)
Theorem pmm_init_protects_kernel fuel m kernel_end addr s s' :
  0 < kernel_end < 2 ^ 32 → 0 ≤ addr → pmm_init fuel m kernel_end addr s = Some s' →
  ∃ n F, pmm_pages s' n F ∧ pmm_free_pages s' = Z.of_nat (size F) ∧
         ∀ p, p ∈ F → kernel_end ≤ p * PAGE_SIZE.
Proof.
  intros Hk Ha Hs.
  destruct (pmm_init_boot fuel m kernel_end addr s s' Ha Hs) as (s1 & n & F & H & ->).
  pose proof (pmm_finish_repr _ _ _ _ H Hk) as Hr.
  eexists _, _. split; [split; [exact Hr|]|split; [apply (bits_count _ _ (repr_bits _ _ _ Hr))|]].
  - rewrite !elem_of_difference, elem_of_set_range. lia.
  - intros p Hp. pose proof (repr_range _ _ _ Hr p Hp).
    rewrite !elem_of_difference, !elem_of_set_range in Hp. destruct Hp as [_ Hp].
    unfold page_up, PAGE_SIZE in *. dlia.
Qed.

(** C5. Any sequence of [allocate_page] and [free_page] calls behaves as on the
    abstract set of free pages: an allocation returns the lowest free page and
    removes it, or 0 exactly when none is free; a release puts back a page that was
    in use and is ignored for any other address. *)
Theorem allocator_refines_page_set os s n F :
  pmm_pages s n F → (∀ a, Free a ∈ os → 0 ≤ a) →
  let '(rs, s') := run_ops os s in
  ∃ F', spec_steps n F os rs F' ∧ pmm_pages s' n F'.
Proof.
  revert s F. induction os as [|o os IH]; intros s F H Ha; simpl.
  { exists F. split; [constructor|done]. }
  pose proof (run_op_spec o s n F H) as Ho.
  destruct (run_op o s) as [r s1]. destruct Ho as (F1 & Hstep & H1).
  { intros a ->. apply Ha. by left. }
  specialize (IH s1 F1 H1). destruct (run_ops os s1) as [rs s2].
  destruct IH as (F2 & Hsteps & H2); [intros a Hin; apply Ha; by right|].
  exists F2. split; [by econstructor|done].
Qed.

(** Releasing the page just allocated restores every bit of the bitmap in use
    and both counters, and a page that is allocated is not allocated again before
    it is released. *)
Theorem free_undoes_allocate s n F :
  pmm_pages s n F → F ≠ ∅ →
  let '(a, s1) := allocate_page s in
  let s2 := free_page a s1 in
  (∀ p, 0 ≤ p < MAX_PAGES → is_used p s2 = is_used p s) ∧
  pmm_free_pages s2 = pmm_free_pages s ∧ pmm_total_pages s2 = pmm_total_pages s ∧
  fst (allocate_page s1) ≠ a.
Proof.
  intros [H H0] HF. pose proof (allocate_page_spec s n F H H0) as Ha.
  destruct (allocate_page s) as [a s1].
  destruct Ha as [[? _]|(p & Hp & _ & -> & H1)]; [done|].
  assert (p ≠ 0) by (by intros ->). pose proof (repr_range _ _ _ H p Hp).
  pose proof (free_page_repr s1 n _ p H1 ltac:(lia) ltac:(set_solver)) as Hback.
  replace ({[p]} ∪ F ∖ {[p]}) with F in Hback by (by apply union_difference_singleton_L).
  split_and!.
  - intros q Hq. pose proof (bits_free _ _ (repr_bits _ _ _ H) q Hq) as E.
    rewrite (bits_free _ _ (repr_bits _ _ _ Hback) q Hq) in E.
    destruct (is_used q _), (is_used q s); naive_solver.
  - unfold pmm_free_pages.
    by rewrite (bits_count _ _ (repr_bits _ _ _ Hback)), (bits_count _ _ (repr_bits _ _ _ H)).
  - unfold pmm_total_pages. by rewrite (repr_highest _ _ _ Hback), (repr_highest _ _ _ H).
  - pose proof (allocate_page_spec s1 n _ H1 ltac:(set_solver)) as Hb.
    destruct (allocate_page s1) as [b s3]. simpl. unfold PAGE_SIZE in *.
    destruct Hb as [(_ & -> & _)|(q & Hq & _ & -> & _)]; [lia|].
    assert (q ≠ p) by set_solver. lia.
Qed.

(** C19. The tag loop of [pmm_init] does not end on a boot information structure
    whose first tag has a size within 7 of 2^32: the sum of the length test wraps
    round, the tag is accepted, and rounding its size up to 8 advances by 0. *)
Theorem pmm_init_oversized_tag_loops fuel m kernel_end addr s :
  0 < addr → 16 ≤ load32 m addr → addr + load32 m addr < 2 ^ 32 →
  load32 m (addr + 8) ≠ 6 → 2 ^ 32 - 7 ≤ load32 m (addr + 12) < 2 ^ 32 →
  pmm_init fuel m kernel_end addr s = None.
Proof.
  intros Ha Htot Hlt Htype Hsize. unfold pmm_init.
  rewrite (proj2 (Z.eqb_neq addr 0)) by lia.
  rewrite (tags_stuck m fuel); try done; try lia.
  by replace (addr + 8 + 4) with (addr + 12) by lia.
Qed.

(** ** Instances *)

Lemma boot_state_pages :
  pmm_pages boot_state 4096 (set_range 256 4096 ∖ set_range 0 1 ∖ set_range 0 512).
Proof.
  split.
  - pose proof (pmm_finish_repr _ 0 ∅ 0x200000 (pmm_reset_repr static_state) ltac:(lia)) as H.
    rewrite !Z.eqb_refl in H. by replace (page_up 0x200000) with 512 in H by reflexivity.
  - rewrite !elem_of_difference, !elem_of_set_range. lia.
Qed.

Lemma pmm_init_memory_map_witness :
  tags_at example_info 0x9000 (load32 example_info 0x9000) 8 example_tags ∧
  ∃ s', pmm_init 3 example_info 0x200000 0x9000 static_state = Some s' ∧
    pmm_repr s' 1024 (set_range 256 1024 ∖ set_range 9 10
      ∖ set_range 0 1 ∖ set_range 0 512).
Proof.
  assert (tags_at example_info 0x9000 (load32 example_info 0x9000) 8 example_tags) as Ht
    by (repeat split; vm_compute; congruence).
  split; [exact Ht|].
  destruct (pmm_init_memory_map example_info 0x200000 0x9000 example_tags static_state)
    as (s' & Hs & Hr); [lia|lia|reflexivity|reflexivity|exact Ht|].
  exists s'. split; [exact Hs|].
  unfold example_tags in Hr. simpl concat in Hr.
  rewrite usable_limit_cons, usable_pages_cons in Hr.
  change (usable_pages []) with (∅ : gset Z) in Hr. rewrite union_empty_r_L in Hr.
  exact Hr.
Defined.

Lemma pmm_init_protects_kernel_witness :
  pmm_init 0 ∅ 0x200000 0 static_state = Some boot_state ∧
  ∃ n F, pmm_pages boot_state n F ∧ pmm_free_pages boot_state = Z.of_nat (size F) ∧
         ∀ p, p ∈ F → 0x200000 ≤ p * PAGE_SIZE.
Proof.
  assert (pmm_init 0 ∅ 0x200000 0 static_state = Some boot_state) as E
    by apply pmm_init_no_info.
  split; [exact E|].
  apply (pmm_init_protects_kernel 0 ∅ 0x200000 0 static_state boot_state); [lia|lia|exact E].
Defined.

Lemma allocator_refines_page_set_witness :
  let '(rs, s') := run_ops [Alloc; Alloc; Free 0x200000; Alloc] boot_state in
  ∃ F', spec_steps 4096 (set_range 256 4096 ∖ set_range 0 1 ∖ set_range 0 512)
    [Alloc; Alloc; Free 0x200000; Alloc] rs F' ∧ pmm_pages s' 4096 F'.
Proof.
  apply allocator_refines_page_set; [exact boot_state_pages|].
  intros a. rewrite !elem_of_cons, elem_of_nil. intros Ha.
  decompose [or] Ha; try done; simplify_eq; lia.
Defined.

Lemma free_undoes_allocate_witness :
  let '(a, s1) := allocate_page boot_state in
  let s2 := free_page a s1 in
  (∀ p, 0 ≤ p < MAX_PAGES → is_used p s2 = is_used p boot_state) ∧
  pmm_free_pages s2 = pmm_free_pages boot_state ∧
  pmm_total_pages s2 = pmm_total_pages boot_state ∧
  fst (allocate_page s1) ≠ a.
Proof.
  apply (free_undoes_allocate boot_state 4096 _ boot_state_pages).
  intros E. apply (not_elem_of_empty (C := gset Z) 512). rewrite <- E.
  rewrite !elem_of_difference, !elem_of_set_range. lia.
Defined.

Lemma pmm_init_oversized_tag_loops_witness :
  2 ^ 32 - 7 ≤ load32 oversized_info (0x9000 + 12) < 2 ^ 32 ∧
  pmm_init 1000 oversized_info 0x200000 0x9000 static_state = None.
Proof.
  split; [by vm_compute|].
  apply pmm_init_oversized_tag_loops; by vm_compute.
Defined.

End Pmm.
