(* ===== verification/Paging.v ===== *)
(** Virtual memory, [memory/paging.c] and [memory/paging.asm]: the kernel page
    directory with its identity map, page mapping, per-process directories and the
    check of user ranges.  Page directories and page tables are words of the
    physical memory of [Memory]; page frames come from the allocator interface.
    The translation caches of the processor are not modelled; the addresses the
    code invalidates are recorded. *)

From S2P Require Import Prelude Memory Interfaces Pmm.

Module Paging.

(** ** Definitions *)

Definition PRESENT : Z := 1.
Definition WRITABLE : Z := 2.
Definition USER : Z := 4.

(** The machine as far as this component uses it. *)
Record vm (S : Type) := mk_vm {
  ram : mem;            (* physical memory *)
  frames : S;           (* the page-frame allocator *)
  cr3 : Z;              (* the page directory in use *)
  paging_on : bool;     (* bit 31 of CR0 *)
  invalidated : list Z; (* operands of invlpg, latest first *)
}.
Arguments mk_vm {S}.
Arguments ram {S}.
Arguments frames {S}.
Arguments cr3 {S}.
Arguments paging_on {S}.
Arguments invalidated {S}.

Section code.
Context {S : Type} {PA : PageAllocator S} {KI : KernelImage}.

Definition with_ram (m : mem) (s : vm S) : vm S :=
  mk_vm m (frames s) (cr3 s) (paging_on s) (invalidated s).
Definition with_frames (f : S) (s : vm S) : vm S :=
  mk_vm (ram s) f (cr3 s) (paging_on s) (invalidated s).

(** [paging.asm]. *)
Definition load_page_directory (directory : Z) (s : vm S) : vm S :=
  mk_vm (ram s) (frames s) directory (paging_on s) (invalidated s).
Definition enable_paging (s : vm S) : vm S :=
  mk_vm (ram s) (frames s) (cr3 s) true (invalidated s).
Definition invlpg (address : Z) (s : vm S) : vm S :=
  mk_vm (ram s) (frames s) (cr3 s) (paging_on s) (address :: invalidated s).

(** [mode == 'U' || mode == 'u'] *)
Definition is_user_mode (mode : Z) : bool := (mode =? 85) || (mode =? 117).

Definition flags_for (mode : Z) : Z :=
  if is_user_mode mode then PRESENT .| WRITABLE .| USER else PRESENT .| WRITABLE.

Definition user_page_present (m : mem) (directory address : Z) : bool :=
  let directory_entry := load32 m (directory + 4 * ((address ≫ 22) .& 0x3ff)) in
  if negb ((directory_entry .& (PRESENT .| USER)) =? (PRESENT .| USER)) then false
  else
    let table := directory_entry .& 0xfffff000 in
    let page_entry := load32 m (table + 4 * ((address ≫ 12) .& 0x3ff)) in
    (page_entry .& (PRESENT .| USER)) =? (PRESENT .| USER).

(** The loop of [init_paging] over one identity table, and the entry for it. *)
Definition init_identity_table (table : Z) (m : mem) : mem :=
  let m := fill32 (identity_tables + 4096 * table) 1024
    (λ _ entry, ((table *u 1024 +u entry) *u 0x1000) .| PRESENT .| WRITABLE) m in
  store32 m (page_directory + 4 * table)
    ((identity_tables + 4096 * table) .| PRESENT .| WRITABLE).

Definition init_paging (s : vm S) : vm S :=
  let m := fill32 page_directory 1024 (λ _ _, 0) (ram s) in
  let m := for_loop 0 4 init_identity_table m in
  let m := store32 m (page_directory + 4 * 1023) (page_directory .| PRESENT .| WRITABLE) in
  enable_paging (load_page_directory page_directory (with_ram m s)).

(** The page table for a directory entry: the table in place, made accessible to
    user code if the mapping is, or a fresh cleared one.  [None] is the early
    return when no page is left. *)
Definition table_for (directory di mode : Z) (s : vm S) : option Z * vm S :=
  let entry := load32 (ram s) (directory + 4 * di) in
  if negb ((entry .& PRESENT) =? 0) then
    let table := entry .& 0xfffff000 in
    (Some table,
     if is_user_mode mode
     then with_ram (store32 (ram s) (directory + 4 * di) (entry .| USER)) s
     else s)
  else
    let '(table_address, f) := pa_allocate (frames s) in
    let s := with_frames f s in
    if table_address =? 0 then (None, s)
    else
      let m := fill32 table_address 1024 (λ _ _, 0) (ram s) in
      let m := store32 m (directory + 4 * di) (table_address .| flags_for mode) in
      (Some table_address, with_ram m s).

Definition map_page_in (directory virtual_address physical_address mode : Z)
    (s : vm S) : vm S :=
  let di := (virtual_address ≫ 22) .& 0x3ff in
  let ti := (virtual_address ≫ 12) .& 0x3ff in
  let flags := flags_for mode in
  match table_for directory di mode s with
  | (None, s) => s
  | (Some table, s) =>
      let s := with_ram (store32 (ram s) (table + 4 * ti)
        ((physical_address .& 0xfffff000) .| flags)) s in
      if directory =? page_directory then invlpg virtual_address s else s
  end.

Definition map_page (virtual_address physical_address mode : Z) (s : vm S) : vm S :=
  map_page_in page_directory virtual_address physical_address mode s.

(** The result is the address of the new directory, 0 when no page is left. *)
Definition create_page_directory (s : vm S) : Z * vm S :=
  let '(address, f) := pa_allocate (frames s) in
  let s := with_frames f s in
  if address =? 0 then (0, s)
  else
    let m := fill32 address 1024 (λ m i, load32 m (page_directory + 4 * i)) (ram s) in
    let m := store32 m (address + 4 * 1023) (address .| PRESENT .| WRITABLE) in
    (address, with_ram m s).

Definition reload_page_directory (s : vm S) : vm S := load_page_directory page_directory s.

(** The page loop of [user_range_valid]; [None] when the fuel runs out. *)
Fixpoint pages_present (fuel : nat) (m : mem) (directory page last_page : Z) : option bool :=
  match fuel with
  | O => None
  | Datatypes.S fuel =>
      if negb (user_page_present m directory page) then Some false
      else if page =? last_page then Some true
      else pages_present fuel m directory (page +u 0x1000) last_page
  end.

Definition user_limit : Z := 0xc0000000.

(** The number of pages below the limit bounds the loop. *)
Definition user_fuel : nat := Z.to_nat (user_limit / 0x1000).

Definition user_range_valid (m : mem) (directory address length : Z) : option bool :=
  if (directory =? 0) || (user_limit <=? address) then Some false
  else if length =? 0 then Some true
  else if user_limit -u address <? length then Some false
  else
    let end_ := address +u length -u 1 in
    let last_page := end_ .& 0xfffff000 in
    pages_present user_fuel m directory (address .& 0xfffff000) last_page.

End code.

(** ** The architecture's translation

    The two-level walk of the processor, written with the fields of the entries:
    the frame in bits 12 to 31, bit 0 present, bit 1 writable, bit 2 user. *)

Definition entry_frame (e : Z) : Z := e / 2 ^ 12 * 2 ^ 12.
Definition entry_present (e : Z) : bool := Z.testbit e 0.
Definition entry_writable (e : Z) : bool := Z.testbit e 1.
Definition entry_user (e : Z) : bool := Z.testbit e 2.

Definition dir_index (va : Z) : Z := va / 2 ^ 22.
Definition table_index (va : Z) : Z := va / 2 ^ 12 mod 2 ^ 10.
Definition page_offset (va : Z) : Z := va mod 2 ^ 12.

Record translation := mk_translation { physical : Z; writable : bool; user : bool }.

Definition pde (m : mem) (directory va : Z) : Z := load32 m (directory + 4 * dir_index va).
Definition pte (m : mem) (directory va : Z) : Z :=
  load32 m (entry_frame (pde m directory va) + 4 * table_index va).

Definition walk (m : mem) (directory va : Z) : option translation :=
  let d := pde m directory va in
  let p := pte m directory va in
  if entry_present d && entry_present p then
    Some (mk_translation (entry_frame p + page_offset va)
      (entry_writable d && entry_writable p) (entry_user d && entry_user p))
  else None.

(** User code may read the byte at [va]. *)
Definition user_readable (m : mem) (directory va : Z) : Prop :=
  ∃ t, walk m directory va = Some t ∧ user t = true.

(** A directory whose page tables are its own: below the recursive entry, no two
    entries share a table, no table is the directory, and neither the directory nor
    a table is a free page. *)
Record dir_ok (m : mem) (directory : Z) (F : gset Z) : Prop := {
  dir_aligned : directory mod 2 ^ 12 = 0;
  dir_range : 0 < directory < 2 ^ 32;
  dir_not_free : directory / 2 ^ 12 ∉ F;
  dir_table i : 0 ≤ i < 1023 → let e := load32 m (directory + 4 * i) in
    entry_present e = true → entry_frame e ≠ directory ∧ entry_frame e / 2 ^ 12 ∉ F;
  dir_tables_apart i j : 0 ≤ i < 1023 → 0 ≤ j < 1023 → i ≠ j →
    let e := load32 m (directory + 4 * i) in let e' := load32 m (directory + 4 * j) in
    entry_present e = true → entry_present e' = true → entry_frame e ≠ entry_frame e';
}.

(** The addresses below the window of the recursive entry. *)
Definition recursive_window : Z := 0xFFC00000.

(** The translation of [va'] after [va] has been mapped to the frame of [pa]: the
    mapped page itself; the other pages translate as before, except that a page of
    the same table whose entry is a user entry becomes visible to user code. *)
Definition mapped (m : mem) (directory va pa mode va' : Z) : option translation :=
  if decide (entry_frame va' = entry_frame va) then
    Some (mk_translation (entry_frame pa + page_offset va')
      (if entry_present (pde m directory va) then entry_writable (pde m directory va) else true)
      (is_user_mode mode))
  else
    (λ t, mk_translation (physical t) (writable t)
       (user t || (is_user_mode mode && bool_decide (dir_index va' = dir_index va)
                   && entry_user (pte m directory va'))))
      <$> walk m directory va'.

(** The words of the kernel directory as [init_paging] writes them, and those of
    the four identity tables. *)
Record kernel_dir `{KernelImage} (m : mem) : Prop := {
  kernel_dir_low t : 0 ≤ t < 4 →
    load32 m (page_directory + 4 * t) = identity_tables + 4096 * t + 3;
  kernel_dir_high i : 4 ≤ i < 1023 → load32 m (page_directory + 4 * i) = 0;
  kernel_dir_recursive : load32 m (page_directory + 4 * 1023) = page_directory + 3;
}.
Definition identity_words `{KernelImage} (m : mem) : Prop := ∀ t e,
  0 ≤ t < 4 → 0 ≤ e < 1024 →
  load32 m (identity_tables + 4096 * t + 4 * e) = (t * 1024 + e) * 4096 + 3.

(** No page of the kernel image is free. *)
Definition above_kernel `{KernelImage} (F : gset Z) : Prop := ∀ p, p ∈ F → kernel_end ≤ p * 4096.

(** What [table_for] leaves behind when it finds or makes the table at [t]. *)
Record table_ready {S} `{PageAllocatorSpec S}
    (directory di mode n : Z) (F : gset Z) (s : vm S) (t : Z) (F' : gset Z) (s' : vm S)
    : Prop := {
  ready_pages : pages (frames s') n F';
  ready_free : F' ⊆ F;
  ready_cr3 : cr3 s' = cr3 s;
  ready_bytes : mem_bytes (ram s');
  ready_aligned : t mod 2 ^ 12 = 0;
  ready_range : 0 ≤ t < 2 ^ 32;
  ready_apart : t ≠ directory;
  ready_not_free : t / 2 ^ 12 ∉ F';
  ready_entry : let e := load32 (ram s) (directory + 4 * di) in
    let e' := load32 (ram s') (directory + 4 * di) in
    entry_present e' = true ∧ entry_frame e' = t ∧
    entry_writable e' = (if entry_present e then entry_writable e else true) ∧
    entry_user e' = (entry_present e && entry_user e || is_user_mode mode)%bool;
  ready_frame a : ¬ (directory + 4 * di ≤ a < directory + 4 * di + 4) →
    ¬ (t ≤ a < t + 4096) → load8 (ram s') a = load8 (ram s) a;
  ready_table k : 0 ≤ k < 1024 → load32 (ram s') (t + 4 * k) =
    if entry_present (load32 (ram s) (directory + 4 * di)) then load32 (ram s) (t + 4 * k) else 0;
  ready_new : let e := load32 (ram s) (directory + 4 * di) in
    if entry_present e then t = entry_frame e else t / 2 ^ 12 ∈ F;
}.

(** ** Indices and entries *)

Lemma index_dir va : 0 ≤ va < 2 ^ 32 → (va ≫ 22) .& 0x3ff = dir_index va.
Proof.
  intros. rewrite shiftr_div, (land_mask _ _ 10) by lia.
  unfold dir_index. apply Z.mod_small. dlia.
Qed.

Lemma index_table va : (va ≫ 12) .& 0x3ff = table_index va.
Proof. by rewrite shiftr_div, (land_mask _ _ 10) by lia. Qed.

Lemma frame_mask x : 0 ≤ x < 2 ^ 32 → x .& 0xfffff000 = entry_frame x.
Proof. intros. by rewrite (land_align _ _ 12) by lia. Qed.

Lemma dir_index_range va : 0 ≤ va < 2 ^ 32 → 0 ≤ dir_index va < 1024.
Proof. unfold dir_index. intros. dlia. Qed.

Lemma table_index_range va : 0 ≤ table_index va < 1024.
Proof. unfold table_index. apply Z.mod_pos_bound. lia. Qed.

Lemma entry_frame_range x : 0 ≤ x < 2 ^ 32 → 0 ≤ entry_frame x ≤ 2 ^ 32 - 2 ^ 12.
Proof. unfold entry_frame. intros. dlia. Qed.

Lemma entry_frame_aligned x : entry_frame x mod 2 ^ 12 = 0.
Proof. apply Z_mod_mult. Qed.

Lemma entry_frame_id a : a mod 2 ^ 12 = 0 → entry_frame a = a.
Proof. unfold entry_frame. intros. dlia. Qed.

Lemma entry_frame_add a f : a mod 2 ^ 12 = 0 → 0 ≤ f < 2 ^ 12 → entry_frame (a + f) = a.
Proof. unfold entry_frame. intros. dlia. Qed.

Lemma entry_frame_unique a x : a mod 2 ^ 12 = 0 → a ≤ x < a + 2 ^ 12 → entry_frame x = a.
Proof. unfold entry_frame. intros. dlia. Qed.

Lemma entry_frame_bounds x : entry_frame x ≤ x < entry_frame x + 2 ^ 12.
Proof. unfold entry_frame. dlia. Qed.

Lemma entry_frame_user x : 0 ≤ x → entry_frame (x .| USER) = entry_frame x.
Proof. intros. unfold entry_frame, USER. by rewrite lor_4_high. Qed.

(** Every entry of an address is its frame, its offset its low bits. *)
Lemma va_split va : va = entry_frame va + page_offset va.
Proof. unfold entry_frame, page_offset. dlia. Qed.

(** The flags the kernel writes. *)
Lemma flags_for_range mode : 0 ≤ flags_for mode < 2 ^ 12.
Proof. unfold flags_for. by destruct is_user_mode. Qed.

Lemma flags_for_bits mode :
  entry_present (flags_for mode) = true ∧ entry_writable (flags_for mode) = true ∧
  entry_user (flags_for mode) = is_user_mode mode.
Proof. unfold flags_for. by destruct is_user_mode. Qed.

Lemma entry_bits a f :
  a mod 2 ^ 12 = 0 → 0 ≤ f < 2 ^ 12 →
  entry_present (a + f) = entry_present f ∧ entry_writable (a + f) = entry_writable f ∧
  entry_user (a + f) = entry_user f.
Proof. intros. unfold entry_present, entry_writable, entry_user. by rewrite !flags_testbit by lia. Qed.

Lemma entry_bits_user x :
  entry_present (x .| USER) = entry_present x ∧ entry_writable (x .| USER) = entry_writable x ∧
  entry_user (x .| USER) = true.
Proof.
  unfold entry_present, entry_writable, entry_user, USER. rewrite !Z.lor_spec.
  change (Z.testbit 4 0) with false. change (Z.testbit 4 1) with false.
  change (Z.testbit 4 2) with true. by rewrite !orb_false_r, orb_true_r.
Qed.

Lemma present_mask x : negb ((x .& PRESENT) =? 0) = entry_present x.
Proof. apply (land_bit x 0). lia. Qed.

Lemma present_user_mask x :
  ((x .& (PRESENT .| USER)) =? (PRESENT .| USER)) = (entry_present x && entry_user x)%bool.
Proof. apply land_5. Qed.

Lemma va_dir_range v : 0 ≤ v < recursive_window → 0 ≤ dir_index v < 1023.
Proof. unfold recursive_window, dir_index. intros. dlia. Qed.

Lemma pages_apart a b :
  a mod 2 ^ 12 = 0 → b mod 2 ^ 12 = 0 → a ≠ b → a + 4096 ≤ b ∨ b + 4096 ≤ a.
Proof. intros. dlia. Qed.

(** ** The check of user ranges *)

Section user_range.
Context (m : mem) (Hm : mem_bytes m) (directory : Z).

Lemma pde_range va : 0 ≤ pde m directory va < 2 ^ 32.
Proof. by apply load32_range. Qed.

Lemma user_page_present_walk va :
  0 ≤ va < 2 ^ 32 →
  user_page_present m directory va =
    match walk m directory va with Some t => user t | None => false end.
Proof.
  intros Hva. unfold user_page_present. rewrite index_dir, index_table by done.
  fold (pde m directory va). rewrite frame_mask by apply pde_range.
  fold (pte m directory va). rewrite !present_user_mask. unfold walk.
  destruct (entry_present (pde _ _ _)), (entry_present (pte _ _ _)),
    (entry_user (pde _ _ _)) eqn:E; simpl; rewrite ?E; done.
Qed.

(** All bytes of a page are translated by the same entries. *)
Lemma walk_same_page va va' :
  entry_frame va = entry_frame va' →
  walk m directory va' = (λ t, mk_translation
    (physical t - page_offset va + page_offset va') (writable t) (user t))
      <$> walk m directory va.
Proof.
  intros E.
  assert (dir_index va = dir_index va') as Ed.
  { unfold dir_index, entry_frame in *. dlia. }
  assert (table_index va = table_index va') as Et.
  { unfold table_index, entry_frame in *. f_equal. dlia. }
  unfold walk, pte, pde. rewrite Ed, Et. case_match; simpl; [|done].
  do 2 f_equal. lia.
Qed.

Lemma user_readable_page va va' :
  entry_frame va = entry_frame va' →
  user_readable m directory va → user_readable m directory va'.
Proof.
  intros E (t & Ht & Hu). unfold user_readable. rewrite (walk_same_page va va'), Ht by done.
  eexists. split; [done|done].
Qed.

Lemma user_page_present_readable va :
  0 ≤ va < 2 ^ 32 → user_page_present m directory va = true ↔ user_readable m directory va.
Proof.
  intros Hva. rewrite user_page_present_walk by done. unfold user_readable.
  destruct (walk _ _ _) as [t|]; naive_solver.
Qed.

Lemma pages_present_spec fuel page last :
  page mod 2 ^ 12 = 0 → last mod 2 ^ 12 = 0 → 0 ≤ page ≤ last → last < user_limit →
  (last - page) / 2 ^ 12 < Z.of_nat fuel →
  ∃ b, pages_present fuel m directory page last = Some b ∧
    (b = true ↔ ∀ va, page ≤ va < last + 2 ^ 12 → user_readable m directory va).
Proof.
  revert page. induction fuel as [|fuel IH]; intros page Hp Hl Hle Hlim Hfuel; [dlia|].
  unfold user_limit in *. simpl.
  destruct (user_page_present m directory page) eqn:E; simpl; cycle 1.
  { exists false. split; [done|]. split; [done|]. intros Hr.
    rewrite (proj2 (user_page_present_readable page ltac:(lia))) in E; [done|].
    apply Hr. lia. }
  apply user_page_present_readable in E; [|lia].
  assert (∀ va, page ≤ va < page + 2 ^ 12 → user_readable m directory va) as Hpage.
  { intros va Hva. eapply user_readable_page, E. unfold entry_frame. dlia. }
  destruct (Z.eqb_spec page last) as [->|].
  { exists true. split; [done|]. split; [by intros _|done]. }
  u_small. destruct (IH (page + 4096)) as (b & -> & Hb); [dlia|done|dlia|done|dlia|].
  exists b. split; [done|]. rewrite Hb. split; intros Hr va Hva.
  - destruct (decide (va < page + 2 ^ 12)); [apply Hpage; lia|apply Hr; lia].
  - apply Hr. lia.
Qed.

Lemma user_fuel_value : Z.of_nat user_fuel = 786432.
Proof. unfold user_fuel. by rewrite Z2Nat.id. Qed.

Lemma user_range_valid_spec address length :
  0 ≤ address < 2 ^ 32 → 0 ≤ length < 2 ^ 32 →
  ∃ b, user_range_valid m directory address length = Some b ∧
    (b = true ↔ directory ≠ 0 ∧ address < user_limit ∧ address + length ≤ user_limit ∧
       ∀ va, address ≤ va < address + length → user_readable m directory va).
Proof.
  intros Ha Hlen. unfold user_range_valid.
  destruct (Z.eqb_spec directory 0) as [->|Hd]; cbn [orb]; [exists false; naive_solver|].
  destruct (Z.leb_spec user_limit address); [exists false; naive_solver lia|].
  destruct (Z.eqb_spec length 0) as [->|]; [exists true; naive_solver lia|].
  unfold user_limit in *. cbv zeta. u_small.
  destruct (Z.ltb_spec (3221225472 - address) length); [exists false; naive_solver lia|].
  u_small. rewrite !frame_mask by lia.
  pose proof (entry_frame_aligned address) as Hfa.
  pose proof (entry_frame_aligned (address + length - 1)) as Hla.
  pose proof (entry_frame_bounds address) as Hfb.
  pose proof (entry_frame_bounds (address + length - 1)) as Hlb.
  assert (entry_frame address ≤ entry_frame (address + length - 1))
    by (unfold entry_frame; dlia).
  assert (0 ≤ entry_frame address) by (unfold entry_frame; dlia).
  set (first := entry_frame address) in *.
  set (last := entry_frame (address + length - 1)) in *.
  assert ((last - first) / 2 ^ 12 < Z.of_nat user_fuel) by (rewrite user_fuel_value; dlia).
  destruct (pages_present_spec user_fuel first last) as (b & Hb & Hspec);
    [done|done|lia|unfold user_limit; lia|done|].
  exists b. rewrite Hb. split; [done|]. rewrite Hspec. split.
  - intros Hr. split; [done|split; [lia|split; [lia|]]]. intros va Hva. apply Hr. lia.
  - intros (_ & _ & _ & Hr) va Hva.
    destruct (decide (va < address)); [|destruct (decide (va < address + length));
      [apply Hr; lia|]].
    + eapply user_readable_page, (Hr address); [|lia].
      symmetry. apply (entry_frame_unique first); [done|lia].
    + eapply user_readable_page, (Hr (address + length - 1)); [|lia].
      symmetry. apply (entry_frame_unique last); [done|lia].
Qed.
End user_range.

(** ** Mapping a page *)

Section mapping.
Context {S : Type} {PA : PageAllocator S} {PAS : PageAllocatorSpec S} {KI : KernelImage}.
Implicit Types (s : vm S) (F : gset Z).

Lemma page_of_address p : p * 4096 / 2 ^ 12 = p ∧ p * 4096 mod 2 ^ 12 = 0.
Proof. dlia. Qed.

Lemma table_for_spec directory di mode n F s :
  pages (frames s) n F → mem_bytes (ram s) → dir_ok (ram s) directory F → 0 ≤ di < 1023 →
  match table_for directory di mode s with
  | (None, s') => entry_present (load32 (ram s) (directory + 4 * di)) = false ∧ F = ∅ ∧ s' = s
  | (Some t, s') => ∃ F', table_ready directory di mode n F s t F' s'
  end.
Proof.
  intros Hp Hb Hd Hdi. unfold table_for.
  set (e := load32 (ram s) (directory + 4 * di)).
  pose proof (load32_range (ram s) (directory + 4 * di) Hb) as He. fold e in He.
  pose proof (dir_aligned _ _ _ Hd) as Hda.
  rewrite present_mask, frame_mask by done. destruct (entry_present e) eqn:Ep.
  - destruct (dir_table _ _ _ Hd di Hdi Ep) as [Hne Hnf]. fold e in Hne, Hnf.
    pose proof (entry_frame_aligned e) as Hfa.
    pose proof (pages_apart _ _ Hfa Hda Hne). pose proof (entry_frame_range e He).
    exists F. destruct (is_user_mode mode) eqn:Em.
    + pose proof (entry_bits_user e) as (B1 & B2 & B3).
      assert (u32 (e .| USER) = e .| USER) as Eu
        by (apply u32_small, lor_range; unfold USER; lia).
      split; simpl; try done; try lia; auto with levos.
      * rewrite load32_store32_eq, Eu, B1, B2, B3, entry_frame_user by lia. fold e.
        by rewrite Ep, Em, orb_true_r.
      * intros a Ha _. by apply load8_store32_out.
      * intros k Hk. rewrite load32_store32_ne by lia. fold e. by rewrite Ep.
      * fold e. by rewrite Ep.
    + split; simpl; try done; try lia; fold e; rewrite Ep; try done.
      by rewrite Em, orb_false_r.
  - destruct (decide (F = ∅)) as [->|HF].
    { rewrite (pa_allocate_none (frames s) n) by done. simpl. by destruct s. }
    destruct (pa_allocate_some (frames s) n F Hp HF) as (p & f & -> & Hin & _ & Hp').
    pose proof (pages_range _ _ _ _ Hp Hin).
    rewrite (proj2 (Z.eqb_neq (p * 4096) 0)) by lia.
    destruct (page_of_address p) as [Epa Eal].
    assert (p * 4096 ≠ directory) as Hne.
    { intros <-. apply (dir_not_free _ _ _ Hd). by rewrite Epa. }
    pose proof (pages_apart _ _ Eal Hda Hne).
    pose proof (flags_for_range mode) as Hfl. pose proof (flags_for_bits mode) as (B1 & B2 & B3).
    pose proof (entry_bits (p * 4096) _ Eal Hfl) as (C1 & C2 & C3).
    exists (F ∖ {[p]}). split; cbn [ram frames cr3 with_ram with_frames]; fold e; rewrite ?Ep.
    + done.
    + set_solver.
    + done.
    + by apply store32_mem_bytes, fill32_mem_bytes.
    + done.
    + lia.
    + done.
    + rewrite Epa. set_solver.
    + rewrite load32_store32_eq, lor_flags, u32_small by lia.
      rewrite C1, C2, C3, entry_frame_add by done. done.
    + intros a Ha Ht. rewrite load8_store32_out by done.
      apply fill32_same_outside; lia.
    + intros k Hk. rewrite load32_store32_ne by lia. by rewrite (fill32_ext _ _ _ _ (λ _, 0)).
    + by rewrite Epa.
Qed.

(** The words of directories and tables after the mapping has been entered. *)
Section mapped_words.
Context (directory va pa mode n : Z) (F : gset Z) (s : vm S) (t : Z) (F' : gset Z) (s1 : vm S).
Hypothesis Hva : 0 ≤ va < recursive_window.
Hypothesis Hpa : 0 ≤ pa < 2 ^ 32.
Hypothesis Hb : mem_bytes (ram s).
Hypothesis Hd : dir_ok (ram s) directory F.
Hypothesis Hr : table_ready directory (dir_index va) mode n F s t F' s1.

Let m' : mem := store32 (ram s1) (t + 4 * table_index va)
  ((pa .& 0xfffff000) .| flags_for mode).

Lemma mapped_apart : t + 4096 ≤ directory ∨ directory + 4096 ≤ t.
Proof. apply pages_apart; [apply Hr|apply Hd|apply Hr]. Qed.

Lemma mapped_dir_other i :
  0 ≤ i < 1024 → i ≠ dir_index va →
  load32 m' (directory + 4 * i) = load32 (ram s) (directory + 4 * i).
Proof.
  intros Hi Hne. pose proof mapped_apart. pose proof (table_index_range va).
  unfold m'. rewrite load32_store32_ne by lia.
  apply load32_ext. intros b Hin. apply (ready_frame _ _ _ _ _ _ _ _ _ Hr); lia.
Qed.

Lemma mapped_dir_entry :
  load32 m' (directory + 4 * dir_index va) = load32 (ram s1) (directory + 4 * dir_index va).
Proof.
  pose proof mapped_apart. pose proof (table_index_range va). pose proof (va_dir_range va Hva).
  unfold m'. by rewrite load32_store32_ne by lia.
Qed.

Lemma mapped_table_entry :
  load32 m' (t + 4 * table_index va) = entry_frame pa + flags_for mode.
Proof.
  pose proof (flags_for_range mode). pose proof (entry_frame_range pa Hpa).
  unfold m'. rewrite load32_store32_eq, frame_mask, lor_flags; try done; [|apply entry_frame_aligned].
  apply u32_small. lia.
Qed.

Lemma mapped_table_other k :
  0 ≤ k < 1024 → k ≠ table_index va →
  load32 m' (t + 4 * k) =
    if entry_present (pde (ram s) directory va) then load32 (ram s) (t + 4 * k) else 0.
Proof.
  intros Hk Hne. unfold m'. rewrite load32_store32_ne by lia.
  by apply (ready_table _ _ _ _ _ _ _ _ _ Hr).
Qed.

Lemma mapped_elsewhere x k :
  x mod 2 ^ 12 = 0 → x ≠ t → x ≠ directory → 0 ≤ k < 1024 →
  load32 m' (x + 4 * k) = load32 (ram s) (x + 4 * k).
Proof.
  intros Hx Ht Hxd Hk. pose proof (table_index_range va). pose proof (va_dir_range va Hva).
  pose proof (pages_apart x t Hx (ready_aligned _ _ _ _ _ _ _ _ _ Hr) Ht).
  pose proof (pages_apart x directory Hx (dir_aligned _ _ _ Hd) Hxd).
  unfold m'. rewrite load32_store32_ne by lia.
  apply load32_ext. intros b Hin. apply (ready_frame _ _ _ _ _ _ _ _ _ Hr); lia.
Qed.

(** The table of another directory entry is neither [t] nor the directory. *)
Lemma other_table_apart i :
  0 ≤ i < 1023 → i ≠ dir_index va →
  entry_present (load32 (ram s) (directory + 4 * i)) = true →
  entry_frame (load32 (ram s) (directory + 4 * i)) ≠ t ∧
  entry_frame (load32 (ram s) (directory + 4 * i)) ≠ directory ∧
  entry_frame (load32 (ram s) (directory + 4 * i)) / 2 ^ 12 ∉ F.
Proof.
  intros Hi Hne Hp. destruct (dir_table _ _ _ Hd i Hi Hp) as [H1 H2].
  split; [|done]. pose proof (ready_new _ _ _ _ _ _ _ _ _ Hr) as Hnew. cbv zeta in Hnew.
  destruct (entry_present (load32 (ram s) (directory + 4 * dir_index va))) eqn:E.
  - rewrite Hnew. apply (dir_tables_apart _ _ _ Hd); try done. by apply va_dir_range.
  - by intros <-.
Qed.

Lemma same_page_indices v :
  entry_frame v = entry_frame va ↔ dir_index v = dir_index va ∧ table_index v = table_index va.
Proof.
  unfold entry_frame, dir_index, table_index.
  assert (∀ x, x / 2 ^ 22 = x / 2 ^ 12 / 2 ^ 10) as D by (intros; by rewrite Z.div_div by lia).
  rewrite !D. generalize (v / 2 ^ 12) (va / 2 ^ 12). intros x y. split.
  - intros E. assert (x = y) as -> by lia. done.
  - intros [E1 E2]. f_equal.
    rewrite (Z.div_mod x (2 ^ 10)), (Z.div_mod y (2 ^ 10)) by lia. lia.
Qed.

Lemma mapped_walk v :
  0 ≤ v < recursive_window → walk m' directory v = mapped (ram s) directory va pa mode v.
Proof.
  intros Hv. pose proof (va_dir_range v Hv) as Hdv. pose proof (table_index_range v) as Htv.
  pose proof (ready_entry _ _ _ _ _ _ _ _ _ Hr) as (E1 & E2 & E3 & E4).
  rewrite <- mapped_dir_entry in E1, E2, E3, E4. unfold mapped.
  destruct (decide (dir_index v = dir_index va)) as [Ed|Ed]; cycle 1.
  { rewrite decide_False by (rewrite same_page_indices; tauto).
    unfold walk, pte, pde. rewrite mapped_dir_other by lia.
    destruct (entry_present (load32 (ram s) (directory + 4 * dir_index v))) eqn:Ep; [|done].
    destruct (other_table_apart (dir_index v) Hdv Ed Ep) as (H1 & H2 & _).
    rewrite mapped_elsewhere by (done || apply entry_frame_aligned).
    simpl. match goal with |- context [if ?b then _ else _] => destruct b end; [|done].
    simpl. by rewrite (bool_decide_false (_ = _)), andb_false_r, orb_false_r by done. }
  destruct (decide (table_index v = table_index va)) as [Et|Et].
  - rewrite decide_True by (by rewrite same_page_indices).
    unfold walk, pte, pde. rewrite Ed, Et, E2, mapped_table_entry.
    pose proof (flags_for_bits mode) as (B1 & B2 & B3).
    pose proof (entry_bits _ _ (entry_frame_aligned pa) (flags_for_range mode)) as (C1 & C2 & C3).
    rewrite E1, E3, E4, C1, C2, C3, B1, B2, B3, entry_frame_add
      by (apply entry_frame_aligned || apply flags_for_range).
    simpl. f_equal. f_equal; [by rewrite andb_true_r|].
    destruct (is_user_mode mode); [by rewrite orb_true_r|by rewrite andb_false_r].
  - rewrite decide_False by (rewrite same_page_indices; tauto).
    unfold walk, pte, pde. rewrite Ed, E2, mapped_table_other, E1, E3, E4 by done.
    rewrite bool_decide_true by done. fold (pde (ram s) directory va).
    pose proof (ready_new _ _ _ _ _ _ _ _ _ Hr) as Hnew. cbv zeta in Hnew.
    fold (pde (ram s) directory va) in Hnew |- *.
    destruct (entry_present (pde (ram s) directory va)) eqn:Ep; [|done]. rewrite <- Hnew.
    simpl. match goal with |- context [if ?b then _ else _] => destruct b end; [|done].
    simpl. do 2 f_equal.
    by destruct (entry_user (pde (ram s) directory va)), (is_user_mode mode),
      (entry_user (load32 (ram s) (t + 4 * table_index v))).
Qed.

Lemma mapped_dir_ok : dir_ok m' directory F'.
Proof.
  pose proof (ready_entry _ _ _ _ _ _ _ _ _ Hr) as (E1 & E2 & E3 & E4).
  rewrite <- mapped_dir_entry in E1, E2, E3, E4.
  pose proof (ready_free _ _ _ _ _ _ _ _ _ Hr) as Hsub.
  split; [apply Hd|apply Hd| | |].
  - intros Hin. apply (dir_not_free _ _ _ Hd). set_solver.
  - intros i Hi. cbv zeta. destruct (decide (i = dir_index va)) as [->|Hne].
    + intros _. rewrite E2. split; [apply Hr|apply Hr].
    + rewrite mapped_dir_other by lia. intros Hp.
      destruct (other_table_apart i Hi Hne Hp) as (? & ? & ?). set_solver.
  - intros i j Hi Hj Hij. cbv zeta.
    destruct (decide (i = dir_index va)) as [->|Hi'], (decide (j = dir_index va)) as [->|Hj'].
    + done.
    + rewrite (mapped_dir_other j), E2 by lia. intros _ Hp E.
      destruct (other_table_apart j Hj Hj' Hp); congruence.
    + rewrite (mapped_dir_other i), E2 by lia. intros Hp _.
      destruct (other_table_apart i Hi Hi' Hp); congruence.
    + rewrite !mapped_dir_other by lia. by apply (dir_tables_apart _ _ _ Hd).
Qed.
End mapped_words.

(** [map_page_in] on a directory that owns its tables. *)
Lemma map_page_in_spec directory va pa mode n F s :
  pages (frames s) n F → mem_bytes (ram s) → dir_ok (ram s) directory F →
  0 ≤ va < recursive_window → 0 ≤ pa < 2 ^ 32 →
  entry_present (pde (ram s) directory va) = true ∨ F ≠ ∅ →
  let s' := map_page_in directory va pa mode s in
  ∃ F', pages (frames s') n F' ∧ F' ⊆ F ∧ mem_bytes (ram s') ∧ dir_ok (ram s') directory F' ∧
    ∀ v, 0 ≤ v < recursive_window → walk (ram s') directory v = mapped (ram s) directory va pa mode v.
Proof.
  intros Hp Hb Hd Hva Hpa Hroom. unfold map_page_in.
  rewrite index_dir, index_table by (unfold recursive_window in *; lia).
  pose proof (table_for_spec directory (dir_index va) mode n F s Hp Hb Hd (va_dir_range va Hva)) as Ht.
  destruct (table_for _ _ _ _) as [[t|] s1].
  - destruct Ht as [F' Hr]. exists F'.
    pose proof (mapped_walk directory va pa mode n F s t F' s1 Hva Hpa Hd Hr) as Hw.
    pose proof (mapped_dir_ok directory va pa mode n F s t F' s1 Hva Hpa Hb Hd Hr) as Hd'.
    assert (mem_bytes (store32 (ram s1) (t + 4 * table_index va)
      ((pa .& 0xfffff000) .| flags_for mode))) as Hb' by apply store32_mem_bytes, Hr.
    pose proof (ready_pages _ _ _ _ _ _ _ _ _ Hr). pose proof (ready_free _ _ _ _ _ _ _ _ _ Hr).
    by case_match.
  - destruct Ht as (E & -> & _). unfold pde in Hroom. destruct Hroom; congruence.
Qed.

(** A user mapping under an entry that is present, in a directory other than the
    kernel's: two words are written. *)
Lemma map_page_in_present directory va pa s :
  mem_bytes (ram s) → directory ≠ page_directory → 0 ≤ va < 2 ^ 32 → 0 ≤ pa < 2 ^ 32 →
  entry_present (pde (ram s) directory va) = true →
  map_page_in directory va pa 85 s = with_ram
    (store32 (store32 (ram s) (directory + 4 * dir_index va) (pde (ram s) directory va .| USER))
      (entry_frame (pde (ram s) directory va) + 4 * table_index va) (entry_frame pa + 7)) s.
Proof.
  intros Hb Hd Hva Hpa Hp. unfold map_page_in, table_for.
  rewrite index_dir, index_table by done. fold (pde (ram s) directory va).
  rewrite present_mask, Hp, !frame_mask, (proj2 (Z.eqb_neq _ _)) by (by apply pde_range || done).
  change (is_user_mode 85) with true. change (flags_for 85) with 7. cbv iota zeta.
  rewrite (lor_flags (entry_frame pa) 7) by (apply entry_frame_aligned || lia). done.
Qed.

(** Without a table and without a free page nothing changes. *)
Lemma map_page_in_no_room directory va pa mode n s :
  pages (frames s) n ∅ → 0 ≤ va < 2 ^ 32 → mem_bytes (ram s) →
  entry_present (pde (ram s) directory va) = false →
  map_page_in directory va pa mode s = s.
Proof.
  intros Hp Hva Hb Hn. unfold map_page_in, table_for.
  rewrite index_dir by done. fold (pde (ram s) directory va).
  rewrite present_mask, Hn, (pa_allocate_none (frames s) n) by done.
  simpl. by destruct s.
Qed.

End mapping.

(** ** The kernel directory *)

Section kernel_map.
Context {S : Type} {PA : PageAllocator S} {PAS : PageAllocatorSpec S}.
Context {KI : KernelImage} {KIO : KernelImageOk}.
Implicit Types (s : vm S) (F : gset Z).

Lemma present_writable a : a mod 2 ^ 12 = 0 → a .| PRESENT .| WRITABLE = a + 3.
Proof. intros. rewrite <- Z.lor_assoc. by apply lor_flags. Qed.

Lemma identity_table_aligned t : (identity_tables + 4096 * t) mod 2 ^ 12 = 0.
Proof. pose proof identity_tables_aligned. dlia. Qed.

(** One round of the loop of [init_paging]. *)
Lemma init_identity_table_spec t m :
  0 ≤ t < 4 → mem_bytes m →
  let m' := init_identity_table t m in
  mem_bytes m' ∧
  load32 m' (page_directory + 4 * t) = identity_tables + 4096 * t + 3 ∧
  (∀ e, 0 ≤ e < 1024 →
     load32 m' (identity_tables + 4096 * t + 4 * e) = (t * 1024 + e) * 4096 + 3) ∧
  (∀ a, a + 4 ≤ page_directory + 4 * t ∨ page_directory + 4 * t + 4 ≤ a →
     a + 4 ≤ identity_tables + 4096 * t ∨ identity_tables + 4096 * t + 4096 ≤ a →
     load32 m' a = load32 m a).
Proof.
  intros Ht Hm m'. unfold m', init_identity_table.
  pose proof directory_tables_apart. pose proof page_directory_place.
  pose proof identity_tables_place. pose proof kernel_end_range.
  pose proof (identity_table_aligned t) as Ha. split_and!.
  - by apply store32_mem_bytes, fill32_mem_bytes.
  - rewrite load32_store32_eq, present_writable by done. apply u32_small. lia.
  - intros e He. rewrite load32_store32_ne by lia.
    rewrite (fill32_ext _ _ _ _ (λ e, ((t *u 1024 +u e) *u 0x1000) .| PRESENT .| WRITABLE)) by done.
    u_small. rewrite present_writable by dlia. apply u32_small. lia.
  - intros a Ho1 Ho2. rewrite load32_store32_ne by lia.
    apply (same_outside_load32 (identity_tables + 4096 * t) (4 * 1024)); [|lia].
    by apply fill32_same_outside.
Qed.

Lemma init_paging_words s :
  mem_bytes (ram s) →
  let s' := init_paging s in
  mem_bytes (ram s') ∧ kernel_dir (ram s') ∧ identity_words (ram s').
Proof.
  intros Hm s'. subst s'. unfold init_paging. cbn [ram enable_paging load_page_directory with_ram].
  pose proof directory_tables_apart. pose proof page_directory_place.
  pose proof identity_tables_place. pose proof kernel_end_range.
  set (m0 := fill32 page_directory 1024 (λ _ _, 0) (ram s)).
  assert (mem_bytes (for_loop 0 4 init_identity_table m0) ∧
    (∀ t, 0 ≤ t < 4 → load32 (for_loop 0 4 init_identity_table m0) (page_directory + 4 * t)
       = identity_tables + 4096 * t + 3) ∧
    (∀ i, 4 ≤ i < 1024 → load32 (for_loop 0 4 init_identity_table m0) (page_directory + 4 * i) = 0) ∧
    (∀ t e, 0 ≤ t < 4 → 0 ≤ e < 1024 →
       load32 (for_loop 0 4 init_identity_table m0) (identity_tables + 4096 * t + 4 * e)
       = (t * 1024 + e) * 4096 + 3)) as (Hb & Hlow & Hhigh & Hid).
  { apply (for_loop_ind (λ k m, mem_bytes m ∧
      (∀ t, 0 ≤ t < k → load32 m (page_directory + 4 * t) = identity_tables + 4096 * t + 3) ∧
      (∀ i, k ≤ i < 1024 → load32 m (page_directory + 4 * i) = 0) ∧
      (∀ t e, 0 ≤ t < k → 0 ≤ e < 1024 →
         load32 m (identity_tables + 4096 * t + 4 * e) = (t * 1024 + e) * 4096 + 3))); [lia| |].
    - split_and!; [by apply fill32_mem_bytes|lia| |lia].
      intros i Hi. unfold m0. by rewrite (fill32_ext _ _ _ _ (λ _, 0)) by (done || lia).
    - intros k m Hk (Hb & Hlow & Hhigh & Hid).
      destruct (init_identity_table_spec k m Hk Hb) as (Hb' & Hd & Ht & Hout).
      split_and!; [done| | |].
      + intros t Ht'. destruct (decide (t = k)) as [->|]; [done|].
        rewrite Hout by lia. apply Hlow. lia.
      + intros i Hi. rewrite Hout by lia. apply Hhigh. lia.
      + intros t e Ht' He. destruct (decide (t = k)) as [->|]; [by apply Ht|].
        rewrite Hout by lia. apply Hid; lia. }
  split; [by apply store32_mem_bytes|split; [split|]].
  - intros t Ht. rewrite load32_store32_ne by lia. by apply Hlow.
  - intros i Hi. rewrite load32_store32_ne by lia. apply Hhigh. lia.
  - rewrite load32_store32_eq, present_writable by apply page_directory_aligned.
    apply u32_small. lia.
  - intros t e Ht He. rewrite load32_store32_ne by lia. by apply Hid.
Qed.

Lemma frames_init_paging s : frames (init_paging s) = frames s.
Proof. done. Qed.

Lemma low_entry t :
  let e := identity_tables + 4096 * t + 3 in
  entry_present e = true ∧ entry_writable e = true ∧ entry_user e = false ∧
  entry_frame e = identity_tables + 4096 * t.
Proof.
  intros e. subst e.
  pose proof (entry_bits _ 3 (identity_table_aligned t) ltac:(lia)) as (-> & -> & ->).
  rewrite entry_frame_add by (apply identity_table_aligned || lia). done.
Qed.

Lemma kernel_walk_low m va :
  kernel_dir m → identity_words m → 0 ≤ va < 2 ^ 24 →
  walk m page_directory va = Some (mk_translation va true false).
Proof.
  intros Hk Hi Hva. assert (0 ≤ dir_index va < 4) by (unfold dir_index; dlia).
  pose proof (table_index_range va). unfold walk, pte, pde.
  rewrite (kernel_dir_low _ Hk) by done.
  pose proof (low_entry (dir_index va)) as (-> & -> & -> & ->).
  rewrite !Hi by done.
  set (a := (dir_index va * 1024 + table_index va) * 4096).
  assert (a mod 2 ^ 12 = 0) as Ha by (subst a; dlia).
  pose proof (entry_bits a 3 Ha ltac:(lia)) as (-> & -> & ->).
  rewrite entry_frame_add by (done || lia). simpl. do 2 f_equal.
  subst a. unfold dir_index, table_index, page_offset. dlia.
Qed.

Lemma kernel_walk_high m va :
  kernel_dir m → 2 ^ 24 ≤ va < recursive_window → walk m page_directory va = None.
Proof.
  intros Hk Hva. unfold recursive_window in *. unfold walk, pde.
  rewrite (kernel_dir_high _ Hk) by (unfold dir_index; dlia). done.
Qed.

Lemma kernel_walk_recursive m va :
  kernel_dir m → 0xFFFFF000 ≤ va < 2 ^ 32 →
  walk m page_directory va = Some (mk_translation (page_directory + page_offset va) true false).
Proof.
  intros Hk Hva. unfold walk, pte, pde.
  assert (dir_index va = 1023) as -> by (unfold dir_index; dlia).
  assert (table_index va = 1023) as -> by (unfold table_index; dlia).
  pose proof (entry_bits page_directory 3 page_directory_aligned ltac:(lia)) as (E1 & E2 & E3).
  rewrite (kernel_dir_recursive _ Hk), entry_frame_add
    by (apply page_directory_aligned || lia).
  rewrite (kernel_dir_recursive _ Hk), E1, E2, E3, entry_frame_add
    by (apply page_directory_aligned || lia). done.
Qed.

(** The kernel directory owns its tables. *)
Lemma kernel_dir_ok m F : kernel_dir m → above_kernel F → dir_ok m page_directory F.
Proof.
  intros Hk HF. pose proof directory_tables_apart. pose proof page_directory_place.
  pose proof identity_tables_place. pose proof kernel_end_range.
  pose proof page_directory_aligned. pose proof identity_tables_aligned.
  assert (∀ i, 0 ≤ i < 1023 →
    entry_present (load32 m (page_directory + 4 * i)) = true →
    i < 4 ∧ entry_frame (load32 m (page_directory + 4 * i)) = identity_tables + 4096 * i) as Hlow.
  { intros i Hi Hp. destruct (decide (i < 4)).
    - split; [done|]. rewrite (kernel_dir_low _ Hk) by lia. apply low_entry.
    - by rewrite (kernel_dir_high _ Hk) in Hp by lia. }
  split; [done|lia| | |].
  - intros Hin%HF. dlia.
  - intros i Hi e Hp. destruct (Hlow i Hi Hp) as [? E]. subst e. rewrite E.
    split; [lia|]. intros Hin%HF. dlia.
  - intros i j Hi Hj Hij e e' Hp Hp'. subst e e'.
    destruct (Hlow i Hi Hp) as [? ->], (Hlow j Hj Hp') as [? ->]. lia.
Qed.

(** ** Creating a directory *)

Lemma create_page_directory_none s n :
  pages (frames s) n ∅ → create_page_directory s = (0, s).
Proof.
  intros Hp. unfold create_page_directory. rewrite (pa_allocate_none (frames s) n) by done.
  simpl. by destruct s.
Qed.

Lemma create_page_directory_spec s n F :
  pages (frames s) n F → F ≠ ∅ → mem_bytes (ram s) → dir_ok (ram s) page_directory F →
  ∃ p s', create_page_directory s = (p * 4096, s') ∧ p ∈ F ∧ (∀ q, q ∈ F → p ≤ q) ∧
    pages (frames s') n (F ∖ {[p]}) ∧ cr3 s' = cr3 s ∧ mem_bytes (ram s') ∧
    same_outside (p * 4096) 4096 (ram s) (ram s') ∧
    (∀ i, 0 ≤ i < 1023 →
      load32 (ram s') (p * 4096 + 4 * i) = load32 (ram s) (page_directory + 4 * i)) ∧
    load32 (ram s') (p * 4096 + 4 * 1023) = p * 4096 + 3.
Proof.
  intros Hp HF Hb Hd. unfold create_page_directory.
  destruct (pa_allocate_some (frames s) n F Hp HF) as (p & f & -> & Hin & Hmin & Hp').
  pose proof (pages_range _ _ _ _ Hp Hin). destruct (page_of_address p) as [Epa Eal].
  rewrite (proj2 (Z.eqb_neq (p * 4096) 0)) by lia.
  eexists p, _. split; [done|]. cbn [ram frames cr3 with_ram with_frames].
  assert (p * 4096 ≠ page_directory) as Hne.
  { intros E. apply (dir_not_free _ _ _ Hd). by rewrite <- E, Epa. }
  pose proof (pages_apart _ _ Eal (dir_aligned _ _ _ Hd) Hne).
  split; [done|split; [done|split; [done|split; [done|split]]]]; [|split; [|split]].
  - by apply store32_mem_bytes, fill32_mem_bytes.
  - intros a Ha. rewrite load8_store32_out by lia.
    apply (fill32_same_outside (p * 4096) 1024); lia.
  - intros i Hi. rewrite load32_store32_ne by lia.
    rewrite (load32_fill32 (p * 4096) 1024 _ _ ltac:(lia) (λ i, load32 (ram s) (page_directory + 4 * i))).
    + apply u32_small. by apply load32_range.
    + intros m' j Hj Hs. apply (same_outside_load32 _ _ _ _ _ Hs). lia.
    + lia.
  - rewrite load32_store32_eq, present_writable by done. apply u32_small. lia.
Qed.

(** A directory whose entries below the recursive one are those of the kernel
    directory translates like it and owns its tables. *)
Lemma copied_directory m m' p F :
  dir_ok m page_directory F → p ∈ F → 0 < p → p < 2 ^ 20 →
  same_outside (p * 4096) 4096 m m' →
  (∀ i, 0 ≤ i < 1023 → load32 m' (p * 4096 + 4 * i) = load32 m (page_directory + 4 * i)) →
  dir_ok m' (p * 4096) (F ∖ {[p]}) ∧
  ∀ va, 0 ≤ va < recursive_window → walk m' (p * 4096) va = walk m page_directory va.
Proof.
  intros Hd Hin Hp0 Hp Hs Hw. destruct (page_of_address p) as [Epa Eal]. split.
  - split; [done|lia| | |].
    + rewrite Epa. set_solver.
    + intros i Hi. cbv zeta. rewrite Hw by done. intros Hpr.
      destruct (dir_table _ _ _ Hd i Hi Hpr) as [_ Hnf]. split; [|set_solver].
      intros E. rewrite E, Epa in Hnf. done.
    + intros i j Hi Hj Hij. cbv zeta. rewrite !Hw by done.
      by apply (dir_tables_apart _ _ _ Hd).
  - intros va Hva. pose proof (va_dir_range va Hva) as Hi. pose proof (table_index_range va).
    unfold walk, pte, pde. rewrite Hw by done.
    destruct (entry_present (load32 m (page_directory + 4 * dir_index va))) eqn:E; [|done].
    destruct (dir_table _ _ _ Hd _ Hi E) as [_ Hnf].
    set (f := entry_frame _) in *.
    assert (f mod 2 ^ 12 = 0) as Hf by apply entry_frame_aligned.
    assert (f ≠ p * 4096) as Hne by (intros ->; by rewrite Epa in Hnf).
    pose proof (pages_apart _ _ Hf Eal Hne).
    rewrite (same_outside_load32 _ _ _ _ (f + 4 * table_index va) Hs) by lia. done.
Qed.
End kernel_map.

(** ** Properties *)

Section properties.
Context {S : Type} {PA : PageAllocator S} {PAS : PageAllocatorSpec S}.
Context {KI : KernelImage} {KIO : KernelImageOk}.

(** C20. [init_paging] switches to the kernel directory, which maps the first 16 MiB
    onto themselves for the kernel only, maps the last page of the address space to
    the directory itself, and maps nothing else below the recursive window,
    whatever memory held before. *)
Theorem init_paging_identity_map (s : vm S) :
  mem_bytes (ram s) →
  let s' := init_paging s in
  cr3 s' = page_directory ∧ paging_on s' = true ∧
  (∀ va, 0 ≤ va < 2 ^ 24 →
     walk (ram s') (cr3 s') va = Some (mk_translation va true false)) ∧
  (∀ va, 2 ^ 24 ≤ va < recursive_window → walk (ram s') (cr3 s') va = None) ∧
  (∀ va, 0xFFFFF000 ≤ va < 2 ^ 32 → walk (ram s') (cr3 s') va =
     Some (mk_translation (page_directory + page_offset va) true false)).
Proof.
  intros Hm. destruct (init_paging_words s Hm) as (_ & Hk & Hi).
  split; [done|split; [done|split; [|split]]]; intros va Hva.
  - by apply kernel_walk_low.
  - by apply kernel_walk_high.
  - by apply kernel_walk_recursive.
Qed.

(** C9. On a directory that owns its page tables, [map_page_in] makes the page of
    the given virtual address translate to the given frame with the rights of the
    mode, leaves the translation of every other page below the recursive window as
    it was (a user mapping makes visible only entries of the same table that
    already were user entries), takes at most one page from the allocator, and
    leaves a directory that owns its tables. *)
Theorem map_page_in_translation directory va pa mode n F (s : vm S) :
  pages (frames s) n F → mem_bytes (ram s) → dir_ok (ram s) directory F →
  0 ≤ va < recursive_window → 0 ≤ pa < 2 ^ 32 →
  entry_present (pde (ram s) directory va) = true ∨ F ≠ ∅ →
  let s' := map_page_in directory va pa mode s in
  ∃ F', pages (frames s') n F' ∧ F' ⊆ F ∧ mem_bytes (ram s') ∧ dir_ok (ram s') directory F' ∧
    ∀ v, 0 ≤ v < recursive_window →
      walk (ram s') directory v = mapped (ram s) directory va pa mode v.
Proof. apply map_page_in_spec. Qed.

(** C21. When the page has no table and no frame is free, [map_page_in] returns
    without having changed memory, the allocator or the machine. *)
Theorem map_page_in_out_of_frames directory va pa mode n (s : vm S) :
  pages (frames s) n ∅ → 0 ≤ va < 2 ^ 32 → mem_bytes (ram s) →
  entry_present (pde (ram s) directory va) = false →
  map_page_in directory va pa mode s = s.
Proof. apply map_page_in_no_room. Qed.

(** [create_page_directory] returns 0 and changes nothing when no frame is free;
    otherwise it takes the lowest free frame, changes no memory outside it, and
    builds in it a directory that translates every address below the recursive
    window as the kernel directory does. *)
Theorem create_page_directory_copies n F (s : vm S) :
  pages (frames s) n F → mem_bytes (ram s) → dir_ok (ram s) page_directory F →
  (F = ∅ ∧ create_page_directory s = (0, s)) ∨
  ∃ p s', create_page_directory s = (p * 4096, s') ∧ p ∈ F ∧ (∀ q, q ∈ F → p ≤ q) ∧
    pages (frames s') n (F ∖ {[p]}) ∧ same_outside (p * 4096) 4096 (ram s) (ram s') ∧
    dir_ok (ram s') (p * 4096) (F ∖ {[p]}) ∧
    ∀ va, 0 ≤ va < recursive_window →
      walk (ram s') (p * 4096) va = walk (ram s) page_directory va.
Proof.
  intros Hp Hb Hd. destruct (decide (F = ∅)) as [->|HF].
  { left. split; [done|]. by apply (create_page_directory_none s n). }
  right. destruct (create_page_directory_spec s n F Hp HF Hb Hd)
    as (p & s' & E & Hin & Hmin & Hp' & _ & _ & Hs & Hw & _).
  pose proof (pages_range _ _ _ _ Hp Hin).
  destruct (copied_directory (ram s) (ram s') p F Hd Hin) as [Hd' Hwalk]; [lia|lia|done|done|].
  by exists p, s'.
Qed.

(** C17. [user_range_valid] always ends, and it accepts exactly the ranges that lie
    below the user limit and whose every byte the processor lets user code read. *)
Theorem user_range_valid_correct (m : mem) directory address length :
  mem_bytes m → 0 ≤ address < 2 ^ 32 → 0 ≤ length < 2 ^ 32 →
  ∃ b, user_range_valid m directory address length = Some b ∧
    (b = true ↔ directory ≠ 0 ∧ address < user_limit ∧ address + length ≤ user_limit ∧
       ∀ va, address ≤ va < address + length → user_readable m directory va).
Proof. intros Hm. by apply user_range_valid_spec. Qed.
End properties.

(** ** Instances: the image of [Interfaces] just after [init_paging]. *)

#[local] Existing Instance example_image.
#[local] Existing Instance example_image_ok.

Definition example_free : gset Z :=
  Pmm.set_range 256 4096 ∖ Pmm.set_range 0 1 ∖ Pmm.set_range 0 512.
Definition example_vm : vm Pmm.pmm := init_paging (mk_vm ∅ Pmm.boot_state 0 false []).
Definition exhausted_vm : vm Pmm.pmm :=
  init_paging (mk_vm ∅ (Pmm.pmm_reset Pmm.static_state) 0 false []).

Lemma example_vm_words :
  mem_bytes (ram example_vm) ∧ kernel_dir (ram example_vm) ∧ identity_words (ram example_vm).
Proof.
  unfold example_vm.
  exact (init_paging_words (mk_vm ∅ Pmm.boot_state 0 false []) empty_mem_bytes).
Qed.

Lemma example_vm_pages : pages (frames example_vm) 4096 example_free.
Proof. unfold example_vm. rewrite frames_init_paging. exact Pmm.boot_state_pages. Qed.

Lemma exhausted_vm_pages : pages (frames exhausted_vm) 0 ∅.
Proof.
  unfold exhausted_vm. rewrite frames_init_paging.
  split; [apply Pmm.pmm_reset_repr|apply not_elem_of_empty].
Qed.

Lemma example_free_above : above_kernel example_free.
Proof.
  intros p. unfold example_free. rewrite !elem_of_difference, !Pmm.elem_of_set_range.
  change kernel_end with 0x200000. lia.
Qed.

Lemma example_free_some : example_free ≠ ∅.
Proof.
  intros E. apply (not_elem_of_empty (C := gset Z) 512). rewrite <- E. unfold example_free.
  rewrite !elem_of_difference, !Pmm.elem_of_set_range. lia.
Qed.

Lemma example_dir_ok : dir_ok (ram example_vm) page_directory example_free.
Proof. apply kernel_dir_ok; [apply example_vm_words|apply example_free_above]. Qed.

Lemma init_paging_identity_map_witness :
  walk (ram example_vm) (cr3 example_vm) 0xB8000 = Some (mk_translation 0xB8000 true false).
Proof.
  unfold example_vm.
  destruct (init_paging_identity_map (mk_vm ∅ Pmm.boot_state 0 false []) empty_mem_bytes)
    as (_ & _ & Hlow & _).
  apply (Hlow 0xB8000). lia.
Defined.

Lemma map_page_in_translation_witness :
  let s' := map_page_in page_directory 0x40000000 0x300000 85 example_vm in
  ∃ F', pages (frames s') 4096 F' ∧ F' ⊆ example_free ∧ mem_bytes (ram s') ∧
    dir_ok (ram s') page_directory F' ∧
    ∀ v, 0 ≤ v < recursive_window → walk (ram s') page_directory v =
      mapped (ram example_vm) page_directory 0x40000000 0x300000 85 v.
Proof.
  apply (map_page_in_translation page_directory 0x40000000 0x300000 85 4096 example_free);
    [exact example_vm_pages|apply example_vm_words|exact example_dir_ok
    |by vm_compute|lia|right; exact example_free_some].
Defined.

Lemma map_page_in_out_of_frames_witness :
  map_page_in page_directory 0x40000000 0x300000 85 exhausted_vm = exhausted_vm.
Proof.
  destruct (init_paging_words (mk_vm ∅ (Pmm.pmm_reset Pmm.static_state) 0 false []))
    as (Hb & Hk & _); [apply empty_mem_bytes|].
  apply (map_page_in_out_of_frames page_directory 0x40000000 0x300000 85 0 exhausted_vm);
    [exact exhausted_vm_pages|lia|exact Hb|].
  unfold pde. change (dir_index 0x40000000) with 256.
  unfold exhausted_vm. by rewrite (kernel_dir_high _ Hk).
Defined.

Lemma create_page_directory_copies_witness :
  (example_free = ∅ ∧ create_page_directory example_vm = (0, example_vm)) ∨
  ∃ p s', create_page_directory example_vm = (p * 4096, s') ∧ p ∈ example_free ∧
    (∀ q, q ∈ example_free → p ≤ q) ∧
    pages (frames s') 4096 (example_free ∖ {[p]}) ∧
    same_outside (p * 4096) 4096 (ram example_vm) (ram s') ∧
    dir_ok (ram s') (p * 4096) (example_free ∖ {[p]}) ∧
    ∀ va, 0 ≤ va < recursive_window →
      walk (ram s') (p * 4096) va = walk (ram example_vm) page_directory va.
Proof.
  apply (create_page_directory_copies 4096 example_free example_vm);
    [exact example_vm_pages|apply example_vm_words|exact example_dir_ok].
Defined.

(** A directory at 0x1000 whose entry 1 is a user table at 0x2000 with two user
    pages: 0x400000 and 0x401000. *)
Definition user_memory : mem :=
  store32 (store32 (store32 ∅ (0x1000 + 4) 0x2007) 0x2000 0x300007) 0x2004 0x301007.

Lemma user_range_valid_correct_witness :
  user_page_present user_memory 0x1000 0x401FFF = true ∧
  user_page_present user_memory 0x1000 0x402000 = false ∧
  ∃ b, user_range_valid user_memory 0x1000 0x400FFC 8 = Some b ∧
    (b = true ↔ 0x1000 ≠ 0 ∧ 0x400FFC < user_limit ∧ 0x400FFC + 8 ≤ user_limit ∧
       ∀ va, 0x400FFC ≤ va < 0x400FFC + 8 → user_readable user_memory 0x1000 va).
Proof.
  split; [by vm_compute|split; [by vm_compute|]].
  apply user_range_valid_correct; [|lia|lia].
  unfold user_memory. auto with levos.
Defined.

End Paging.
