(* ===== verification/Process.v ===== *)
(** Processes, [process/process.c]: the process table, the creation of kernel and
    user processes, termination, the choice of the next process and the saving of
    contexts.  A saved [struct cpu_context] is 15 words of physical memory; a
    [struct process *] is an index into the table. *)

From S2P Require Import Prelude Memory Interfaces Pmm Paging.

Module Process.
Import Paging.

(** ** Definitions *)

Definition MAX_PROCESSES : Z := 16.
Definition KERNEL_CS : Z := 0x08.
Definition USER_CS : Z := 0x1b.
Definition USER_DS : Z := 0x23.
Definition IF_FLAG : Z := 0x202.
Definition BOOTSTRAP_STACK_SIZE : Z := 4096.
Definition USER_CODE_ADDRESS : Z := 0x00400000.
Definition USER_STACK_TOP : Z := 0x00800000.

(** [struct cpu_context]: its size and the offsets of its members. *)
Definition sizeof_context : Z := 60.
Definition c_edi : Z := 0.
Definition c_esi : Z := 4.
Definition c_ebp : Z := 8.
Definition c_esp : Z := 12.
Definition c_ebx : Z := 16.
Definition c_edx : Z := 20.
Definition c_ecx : Z := 24.
Definition c_eax : Z := 28.
Definition c_vector : Z := 32.
Definition c_error_code : Z := 36.
Definition c_eip : Z := 40.
Definition c_cs : Z := 44.
Definition c_eflags : Z := 48.
Definition c_user_esp : Z := 52.
Definition c_user_ss : Z := 56.

Inductive process_state :=
| PROCESS_UNUSED
| PROCESS_READY
| PROCESS_RUNNING
| PROCESS_ZOMBIE.

#[global] Instance process_state_eq_dec : EqDecision process_state.
Proof. solve_decision. Defined.

Record process := mk_process {
  pid : Z;
  state : process_state;
  directory : Z;
  stack_base : Z;
  context : Z;         (* address of the saved context, 0 for none *)
  entry : Z;           (* address of the entry function, 0 for none *)
  argument : Z;
  bootstrap : bool;
  is_user : bool;
  user_code_base : Z;
  user_stack_base : Z;
}.

Definition unused_process : process :=
  mk_process 0 PROCESS_UNUSED 0 0 0 0 0 false false 0 0.

Definition with_state (st : process_state) (p : process) : process :=
  mk_process (pid p) st (directory p) (stack_base p) (context p) (entry p) (argument p)
    (bootstrap p) (is_user p) (user_code_base p) (user_stack_base p).
Definition with_context (c : Z) (p : process) : process :=
  mk_process (pid p) (state p) (directory p) (stack_base p) c (entry p) (argument p)
    (bootstrap p) (is_user p) (user_code_base p) (user_stack_base p).

(** The file's static variables, the machine, and the kernel stack of the TSS
    ([memory/gdt.c], [tss_set_kernel_stack]). *)
Record psys (S : Type) := mk_psys {
  machine : vm S;
  processes : list process;
  next_pid : Z;
  running : option Z;
  bootstrap_context : Z;
  tss_esp0 : Z;
}.
Arguments mk_psys {S}.
Arguments machine {S}.
Arguments processes {S}.
Arguments next_pid {S}.
Arguments running {S}.
Arguments bootstrap_context {S}.
Arguments tss_esp0 {S}.

Section code.
Context {S : Type} {PA : PageAllocator S} {KI : KernelImage}.
Implicit Types (s : psys S).

Definition with_machine (v : vm S) (s : psys S) : psys S :=
  mk_psys v (processes s) (next_pid s) (running s) (bootstrap_context s) (tss_esp0 s).
Definition with_processes (l : list process) (s : psys S) : psys S :=
  mk_psys (machine s) l (next_pid s) (running s) (bootstrap_context s) (tss_esp0 s).
Definition with_next_pid (n : Z) (s : psys S) : psys S :=
  mk_psys (machine s) (processes s) n (running s) (bootstrap_context s) (tss_esp0 s).
Definition with_running (r : option Z) (s : psys S) : psys S :=
  mk_psys (machine s) (processes s) (next_pid s) r (bootstrap_context s) (tss_esp0 s).
Definition with_memory (m : mem) (s : psys S) : psys S :=
  with_machine (with_ram m (machine s)) s.

Definition memory (s : psys S) : mem := ram (machine s).

(** [processes[i]] and its update. *)
Definition slot (s : psys S) (i : Z) : process :=
  nth (Z.to_nat i) (processes s) unused_process.
Definition set_slot (i : Z) (p : process) (s : psys S) : psys S :=
  with_processes (<[Z.to_nat i := p]> (processes s)) s.

(** [*running], when [running] is not null. *)
Definition current (s : psys S) : option process := slot s <$> running s.

Definition tss_set_kernel_stack (stack_top : Z) (s : psys S) : psys S :=
  mk_psys (machine s) (processes s) (next_pid s) (running s) (bootstrap_context s) stack_top.

Definition process_kernel_stack_top (p : option process) : Z :=
  match p with
  | None => 0
  | Some p =>
      if bootstrap p then bootstrap_stack + BOOTSTRAP_STACK_SIZE
      else stack_base p +u 4096
  end.

(** [for (j = 0; j < sizeof(struct cpu_context) / 4; ++j) ((uint32_t * )c)[j] = 0;] *)
Definition clear_context (c : Z) (m : mem) : mem :=
  fill32 c (sizeof_context / 4) (λ _ _, 0) m.

(** [*to = *from;], word by word in increasing order.  C leaves the assignment of
    partly overlapping objects undefined; the theorems ask that they do not
    overlap or are the same. *)
Definition copy_context (to from : Z) (m : mem) : mem :=
  fill32 to (sizeof_context / 4) (λ m j, load32 m (from + 4 * j)) m.

Definition process_system_init (s : psys S) : psys S :=
  let c := bootstrap_stack + BOOTSTRAP_STACK_SIZE - sizeof_context in
  let m := clear_context c (memory s) in
  let first := mk_process 0 PROCESS_RUNNING page_directory 0 c 0 0 true false 0 0 in
  let table := first :: replicate 15 unused_process in
  tss_set_kernel_stack (process_kernel_stack_top (Some first))
    (mk_psys (with_ram m (machine s)) table (next_pid s) (Some 0) c (tss_esp0 s)).

(** A slot that [process_create] may take. *)
Definition reusable (p : process) : bool :=
  match state p with
  | PROCESS_UNUSED | PROCESS_ZOMBIE => true
  | PROCESS_READY | PROCESS_RUNNING => false
  end.

Definition runnable (p : process) : bool :=
  match state p with
  | PROCESS_READY | PROCESS_RUNNING => true
  | PROCESS_UNUSED | PROCESS_ZOMBIE => false
  end.

Definition allocate_frame (s : psys S) : Z * psys S :=
  let '(a, f) := pa_allocate (frames (machine s)) in
  (a, with_machine (with_frames f (machine s)) s).
Definition release_frame (a : Z) (s : psys S) : psys S :=
  with_machine (with_frames (pa_free a (frames (machine s))) (machine s)) s.
Definition new_directory (s : psys S) : Z * psys S :=
  let '(a, v) := create_page_directory (machine s) in (a, with_machine v s).

(** The context of a new kernel process, on the stack page at [stack]. *)
Definition kernel_context (stack : Z) (m : mem) : mem :=
  let c := stack +u 4096 -u sizeof_context in
  let m := clear_context c m in
  let m := store32 m (c + c_eip) process_bootstrap in
  let m := store32 m (c + c_cs) KERNEL_CS in
  let m := store32 m (c + c_eflags) IF_FLAG in
  let m := store32 m (c + c_esp) (stack +u 4096 -u 20) in
  let m := store32 m (c + c_user_esp) (stack +u 4096) in
  store32 m (c + c_user_ss) 0x10.

(** The body of the loop of [process_create] for a free slot [i]. *)
Definition create_in_slot (entry argument i : Z) (s : psys S) : Z * psys S :=
  let '(stack, s) := allocate_frame s in
  let '(directory, s) := new_directory s in
  if (stack =? 0) || (directory =? 0) then
    (-1, if negb (stack =? 0) then release_frame stack s else s)
  else
    let id := next_pid s in
    let s := with_next_pid (id +u 1) s in
    let s := set_slot i (mk_process id PROCESS_READY directory stack
      (stack +u 4096 -u sizeof_context) entry argument false false 0 0) s in
    (i32 id, with_memory (kernel_context stack (memory s)) s).

Definition process_create (entry argument : Z) (s : psys S) : Z * psys S :=
  if entry =? 0 then (-1, s)
  else
    match
      for_exit 1 MAX_PROCESSES (λ i s,
        if reusable (slot s i)
        then let '(r, s) := create_in_slot entry argument i s in (Some r, s)
        else (None, s)) s
    with
    | (Some r, s) => (r, s)
    | (None, s) => (-1, s)
    end.

(** The context of a new user process, on the kernel stack page at [stack]. *)
Definition user_context (stack : Z) (m : mem) : mem :=
  let c := stack +u 4096 -u sizeof_context in
  let m := clear_context c m in
  let m := store32 m (c + c_eip) USER_CODE_ADDRESS in
  let m := store32 m (c + c_cs) USER_CS in
  let m := store32 m (c + c_eflags) IF_FLAG in
  let m := store32 m (c + c_user_esp) (USER_STACK_TOP - 16) in
  store32 m (c + c_user_ss) USER_DS.

Definition release_if_taken (a : Z) (s : psys S) : psys S :=
  if negb (a =? 0) then release_frame a s else s.

Definition create_user_in_slot (image : list Z) (image_size i : Z) (s : psys S) : Z * psys S :=
  let '(kernel_stack, s) := allocate_frame s in
  let '(code, s) := allocate_frame s in
  let '(user_stack, s) := allocate_frame s in
  let '(directory, s) := new_directory s in
  if (kernel_stack =? 0) || (code =? 0) || (user_stack =? 0) || (directory =? 0) then
    (-1, release_if_taken user_stack (release_if_taken code (release_if_taken kernel_stack s)))
  else
    let v := map_page_in directory USER_CODE_ADDRESS code 85 (machine s) in
    let v := map_page_in directory (USER_STACK_TOP - 4096) user_stack 85 v in
    let v := with_ram (copy_bytes code image_size image (ram v)) v in
    let s := with_machine v s in
    let id := next_pid s in
    let s := with_next_pid (id +u 1) s in
    let s := set_slot i (mk_process id PROCESS_READY directory kernel_stack
      (kernel_stack +u 4096 -u sizeof_context) 0 0 false true code user_stack) s in
    (i32 id, with_memory (user_context kernel_stack (memory s)) s).

(** [image] is [None] for a null pointer. *)
Definition process_create_user (image : option (list Z)) (image_size : Z) (s : psys S)
    : Z * psys S :=
  match image with
  | None => (-1, s)
  | Some image =>
      if (image_size =? 0) || (4096 <? image_size) then (-1, s)
      else
        match
          for_exit 1 MAX_PROCESSES (λ i s,
            if reusable (slot s i)
            then let '(r, s) := create_user_in_slot image image_size i s in (Some r, s)
            else (None, s)) s
        with
        | (Some r, s) => (r, s)
        | (None, s) => (-1, s)
        end
  end.

(** Also the part of [process_exit] before it raises interrupt 0x20. *)
Definition process_terminate_current (s : psys S) : psys S :=
  match running s with
  | None => s
  | Some r =>
      if bootstrap (slot s r) then s
      else set_slot r (with_state PROCESS_ZOMBIE (slot s r)) s
  end.

Definition process_current (s : psys S) : option Z := running s.

(** The index of the process found, [None] for the null pointer. *)
Definition process_by_pid (id : Z) (s : psys S) : option Z :=
  fst (for_exit 0 MAX_PROCESSES (λ i s,
    (if negb (bool_decide (state (slot s i) = PROCESS_UNUSED)) && (pid (slot s i) =? id)
     then Some i else None, s)) s).

Definition process_count (s : psys S) : Z :=
  for_loop 0 MAX_PROCESSES (λ i count, if runnable (slot s i) then count +u 1 else count) 0.

(** The first loop of [process_next_round_robin]: the index of [running]. *)
Definition current_index (s : psys S) : Z :=
  for_loop 0 MAX_PROCESSES (λ i c, if bool_decide (running s = Some i) then i else c) 0.

(** Switch to the process in slot [index]. *)
Definition make_running (index : Z) (s : psys S) : psys S :=
  let s := with_running (Some index) s in
  let s := set_slot index (with_state PROCESS_RUNNING (slot s index)) s in
  tss_set_kernel_stack (process_kernel_stack_top (current s)) s.

Definition process_next_round_robin (s : psys S) : option Z * psys S :=
  let current := current_index s in
  match
    for_exit 1 (MAX_PROCESSES + 1) (λ step s,
      let index := (current +u step) mod MAX_PROCESSES in
      if runnable (slot s index)
      then let s := make_running index s in (Some (running s), s)
      else (None, s)) s
  with
  | (Some r, s) => (r, s)
  | (None, s) => (running s, s)
  end.

Definition process_save_context (ctx : Z) (s : psys S) : psys S :=
  match running s with
  | None => s
  | Some r =>
      let p := slot s r in
      if bootstrap p then
        let s := with_memory (copy_context (bootstrap_context s) ctx (memory s)) s in
        set_slot r (with_context (bootstrap_context s) p) s
      else if context p =? ctx then s
      else with_memory (copy_context (context p) ctx (memory s)) s
  end.

End code.

(** ** Specification *)

(** The machine while processes run: a legal allocator, the kernel directory as
    [init_paging] wrote it, and no free page inside the kernel image. *)
Record kernel_ready {S} {PA : PageAllocator S} {PAS : PageAllocatorSpec S} {KI : KernelImage}
    (v : vm S) (n : Z) (F : gset Z) : Prop := {
  kr_pages : pages (frames v) n F;
  kr_bytes : mem_bytes (ram v);
  kr_dir : kernel_dir (ram v);
  kr_above : above_kernel F;
}.

(** The part of the state that creating a process leaves alone. *)
Definition same_rest {S} (s s' : psys S) : Prop :=
  running s' = running s ∧ bootstrap_context s' = bootstrap_context s ∧ tss_esp0 s' = tss_esp0 s.

(** Memory agrees outside the given pages. *)
Definition same_outside_pages (ps : gset Z) (m m' : mem) : Prop :=
  ∀ a, a / 4096 ∉ ps → load8 m' a = load8 m a.

(** The words of [struct cpu_context] for a new kernel process and a new user
    process whose kernel stack is the page at [stack], in the order of the
    members. *)
Definition kernel_frame `{KernelImage} (stack : Z) : list Z :=
  [0; 0; 0; stack +u 4096 -u 20; 0; 0; 0; 0; 0; 0; process_bootstrap; KERNEL_CS; IF_FLAG;
   stack +u 4096; 0x10].
Definition user_frame : list Z :=
  [0; 0; 0; 0; 0; 0; 0; 0; 0; 0; USER_CODE_ADDRESS; USER_CS; IF_FLAG; USER_STACK_TOP - 16;
   USER_DS].

(** The saved context at [c] holds the words of [l]. *)
Definition context_at (m : mem) (c : Z) (l : list Z) : Prop :=
  ∀ j, 0 ≤ j < 15 → load32 m (c + 4 * j) = nthZ l j.

(** [p] is the lowest page of [F]. *)
Definition lowest (p : Z) (F : gset Z) : Prop := p ∈ F ∧ ∀ q, q ∈ F → p ≤ q.

(** The machine and the table are as before: nothing has been lost. *)
Definition unchanged {S} {PA : PageAllocator S} {PAS : PageAllocatorSpec S} (s s' : psys S) (n : Z) (F : gset Z) : Prop :=
  pages (frames (machine s')) n F ∧ memory s' = memory s ∧ cr3 (machine s') = cr3 (machine s) ∧
  processes s' = processes s ∧ next_pid s' = next_pid s ∧ same_rest s s'.

(** The identity table for the addresses 0x400000 to 0x7FFFFF, which every
    directory made by [create_page_directory] has in its entry 1. *)
Definition shared_table `{KernelImage} : Z := identity_tables + 4096.

(** What [process_create_user] leaves behind: the pages [p], [q], [r] and [t] became
    the kernel stack, the code, the user stack and the directory of the process. *)
Record user_created {S} {PA : PageAllocator S} {PAS : PageAllocatorSpec S} {KI : KernelImage}
    (image : list Z) (image_size i n : Z) (F : gset Z) (s s' : psys S) (p q r t : Z) : Prop := {
  uc_stack : lowest p F;
  uc_code : lowest q (F ∖ {[p]});
  uc_user_stack : lowest r (F ∖ {[p]} ∖ {[q]});
  uc_directory : lowest t (F ∖ {[p]} ∖ {[q]} ∖ {[r]});
  uc_slot : processes s' = <[Z.to_nat i := mk_process (next_pid s) PROCESS_READY (t * 4096)
    (p * 4096) (p * 4096 + 4036) 0 0 false true (q * 4096) (r * 4096)]> (processes s);
  uc_pid : next_pid s' = next_pid s + 1;
  uc_rest : same_rest s s';
  uc_ready : kernel_ready (machine s') n (F ∖ {[p]} ∖ {[q]} ∖ {[r]} ∖ {[t]});
  uc_outside : same_outside_pages ({[p]} ∪ {[q]} ∪ {[t]} ∪ {[shared_table / 4096]})
    (memory s) (memory s');
  uc_context : context_at (memory s') (p * 4096 + 4036) user_frame;
  uc_image j : 0 ≤ j < image_size → load8 (memory s') (q * 4096 + j) = u8 (nthZ image j);
  uc_entry : load32 (memory s') (t * 4096 + 4) = shared_table + 7;
  uc_entries k : 0 ≤ k < 1023 → k ≠ 1 →
    load32 (memory s') (t * 4096 + 4 * k) = load32 (memory s) (page_directory + 4 * k);
  uc_recursive : load32 (memory s') (t * 4096 + 4 * 1023) = t * 4096 + 3;
  uc_code_entry : load32 (memory s') shared_table = q * 4096 + 7;
  uc_stack_entry : load32 (memory s') (shared_table + 4 * 1023) = r * 4096 + 7;
  uc_table k : 0 < k < 1023 →
    load32 (memory s') (shared_table + 4 * k) = load32 (memory s) (shared_table + 4 * k);
}.

(** [i] is the slot [process_create] takes. *)
Definition first_reusable {S} (s : psys S) (i : Z) : Prop :=
  1 ≤ i < 16 ∧ reusable (slot s i) = true ∧ ∀ j, 1 ≤ j < i → reusable (slot s j) = false.

(** No entry of the shared table but its first and its last is a user entry. *)
Definition table_private `{KernelImage} (m : mem) : Prop :=
  ∀ k, 0 < k < 1023 → entry_user (load32 m (shared_table + 4 * k)) = false.

(** The slot the round robin moves to from slot [r]: the first runnable one after
    [r] in cyclic order, [r] itself last. *)
Definition next_in_turn {S} (s : psys S) (r i : Z) : Prop :=
  ∃ k, 1 ≤ k ≤ 16 ∧ i = (r + k) mod 16 ∧ runnable (slot s i) = true ∧
    ∀ j, 1 ≤ j < k → runnable (slot s ((r + j) mod 16)) = false.

(** [n] calls of the round robin. *)
Definition turns {S} {KI : KernelImage} (n : nat) (s : psys S) : psys S :=
  Nat.iter n (λ s, snd (process_next_round_robin s)) s.

(** ** Lemmas *)

Section lemmas.
Context {S : Type} {PA : PageAllocator S} {PAS : PageAllocatorSpec S}.
Context {KI : KernelImage} {KIO : KernelImageOk}.
Implicit Types (s : psys S) (F : gset Z).

Lemma slot_set_slot i j p s :
  length (processes s) = 16%nat → 0 ≤ i < 16 → 0 ≤ j →
  slot (set_slot i p s) j = if decide (i = j) then p else slot s j.
Proof.
  intros Hl Hi Hj. unfold slot, set_slot. simpl. rewrite !nth_lookup.
  case_decide as E.
  - subst. by rewrite list_lookup_insert_eq by lia.
  - by rewrite list_lookup_insert_ne by lia.
Qed.

Lemma same_outside_pages_refl ps m : same_outside_pages ps m m.
Proof. done. Qed.

Lemma same_outside_pages_trans ps m m' m'' :
  same_outside_pages ps m m' → same_outside_pages ps m' m'' → same_outside_pages ps m m''.
Proof. intros H1 H2 a Ha. by rewrite H2, H1. Qed.

Lemma same_outside_pages_mono ps ps' m m' :
  same_outside_pages ps m m' → ps ⊆ ps' → same_outside_pages ps' m m'.
Proof. intros H1 H2 a Ha. apply H1. set_solver. Qed.

Lemma same_outside_page p a n m m' :
  same_outside a n m m' → p * 4096 ≤ a → a + n ≤ p * 4096 + 4096 →
  same_outside_pages {[p]} m m'.
Proof.
  intros H ?? b Hb. apply H. intros ?. apply Hb, elem_of_singleton. dlia.
Qed.

(** Words outside the pages written keep their value. *)
Lemma same_outside_pages_load32 ps m m' a :
  same_outside_pages ps m m' → a mod 4 = 0 → a / 4096 ∉ ps → load32 m' a = load32 m a.
Proof.
  intros H Ha Hp. apply load32_ext. intros b Hb. apply H.
  replace (b / 4096) with (a / 4096) by dlia. done.
Qed.

Lemma page_directory_page : page_directory / 4096 * 4096 = page_directory.
Proof. pose proof page_directory_aligned. dlia. Qed.

Lemma kernel_dir_same ps m m' :
  kernel_dir m → page_directory / 4096 ∉ ps → same_outside_pages ps m m' → kernel_dir m'.
Proof.
  intros Hk HF Hs. pose proof page_directory_page. pose proof page_directory_place.
  assert (∀ i, 0 ≤ i < 1024 →
    load32 m' (page_directory + 4 * i) = load32 m (page_directory + 4 * i)) as E.
  { intros i Hi. apply (same_outside_pages_load32 _ _ _ _ Hs); [dlia|].
    by replace ((page_directory + 4 * i) / 4096) with (page_directory / 4096) by dlia. }
  split; intros; rewrite E by lia; by apply Hk.
Qed.

Lemma above_kernel_dir F : above_kernel F → page_directory / 4096 ∉ F.
Proof.
  intros HF Hin%HF. pose proof page_directory_page. pose proof page_directory_place. lia.
Qed.

Lemma allocate_frame_spec s n F :
  pages (frames (machine s)) n F →
  (F = ∅ ∧ allocate_frame s = (0, s)) ∨
  ∃ p f, allocate_frame s = (p * 4096, with_machine (with_frames f (machine s)) s) ∧
    p ∈ F ∧ (∀ q, q ∈ F → p ≤ q) ∧ 0 < p < 2 ^ 20 ∧ pages f n (F ∖ {[p]}).
Proof.
  intros Hp. unfold allocate_frame. destruct (decide (F = ∅)) as [->|HF].
  - left. rewrite (pa_allocate_none _ n) by done. split; [done|]. simpl.
    by destruct s as [[]].
  - right. destruct (pa_allocate_some _ n F Hp HF) as (p & f & -> & Hin & Hmin & Hp').
    pose proof (pages_range _ _ _ _ Hp Hin). exists p, f. split_and!; done || lia.
Qed.

Lemma new_directory_spec s n F :
  kernel_ready (machine s) n F →
  (F = ∅ ∧ new_directory s = (0, s)) ∨
  ∃ p v, new_directory s = (p * 4096, with_machine v s) ∧
    p ∈ F ∧ (∀ q, q ∈ F → p ≤ q) ∧ 0 < p < 2 ^ 20 ∧
    kernel_ready v n (F ∖ {[p]}) ∧ same_outside_pages {[p]} (memory s) (ram v) ∧
    (∀ i, 0 ≤ i < 1023 →
      load32 (ram v) (p * 4096 + 4 * i) = load32 (memory s) (page_directory + 4 * i)) ∧
    load32 (ram v) (p * 4096 + 4 * 1023) = p * 4096 + 3.
Proof.
  intros Hr. unfold new_directory. destruct (decide (F = ∅)) as [->|HF].
  - left. rewrite (create_page_directory_none _ n) by apply Hr. by destruct s.
  - right. pose proof (kernel_dir_ok _ F (kr_dir _ _ _ Hr) (kr_above _ _ _ Hr)) as Hd.
    destruct (create_page_directory_spec _ n F (kr_pages _ _ _ Hr) HF (kr_bytes _ _ _ Hr) Hd)
      as (p & v & -> & Hin & Hmin & Hp' & _ & Hb & Hs & Hw & Hrec).
    pose proof (pages_range _ _ _ _ (kr_pages _ _ _ Hr) Hin).
    assert (same_outside_pages {[p]} (memory s) (ram v)) as Hs'
      by (apply (same_outside_page p _ _ _ _ Hs); lia).
    assert (above_kernel (F ∖ {[p]})) as Hab.
    { intros q Hq. apply (kr_above _ _ _ Hr). set_solver. }
    exists p, v. split_and!; try done; try lia. split; try done.
    apply (kernel_dir_same F (memory s)); [apply Hr|apply above_kernel_dir, Hr|].
    apply (same_outside_pages_mono _ _ _ _ Hs'). set_solver.
Qed.

(** A saved context lies at the end of its stack page. *)
Lemma context_address p :
  0 < p < 2 ^ 20 → p * 4096 +u 4096 -u sizeof_context = p * 4096 + 4036.
Proof. intros. unfold sizeof_context, u32. dlia. Qed.

Lemma clear_context_spec c m :
  (∀ j, 0 ≤ j < 15 → load32 (clear_context c m) (c + 4 * j) = 0) ∧
  same_outside c 60 m (clear_context c m) ∧
  (mem_bytes m → mem_bytes (clear_context c m)).
Proof.
  unfold clear_context. change (sizeof_context / 4) with 15. split; [|split].
  - intros j Hj. by rewrite (fill32_ext _ _ _ _ (λ _, 0)).
  - by apply (fill32_same_outside c 15).
  - by apply fill32_mem_bytes.
Qed.

Ltac words := repeat (rewrite load32_store32_eq || rewrite load32_store32_ne by lia).

Lemma fifteen (P : Z → Prop) :
  P 0 → P 1 → P 2 → P 3 → P 4 → P 5 → P 6 → P 7 → P 8 → P 9 → P 10 → P 11 → P 12 → P 13 → P 14 →
  ∀ j, 0 ≤ j < 15 → P j.
Proof.
  intros. assert (j ∈ range 0 15) as Hin by (apply elem_of_range; lia).
  change (range 0 15) with [0; 1; 2; 3; 4; 5; 6; 7; 8; 9; 10; 11; 12; 13; 14] in Hin.
  repeat (apply elem_of_cons in Hin as [->|Hin]; [done|]). by apply not_elem_of_nil in Hin.
Qed.

Lemma kernel_context_spec p m :
  0 < p < 2 ^ 20 → mem_bytes m →
  context_at (kernel_context (p * 4096) m) (p * 4096 + 4036) (kernel_frame (p * 4096)) ∧
  same_outside (p * 4096) 4096 m (kernel_context (p * 4096) m) ∧
  mem_bytes (kernel_context (p * 4096) m).
Proof.
  intros Hp Hm. unfold kernel_context. rewrite context_address by done.
  destruct (clear_context_spec (p * 4096 + 4036) m) as (Hz & Hs & Hb).
  pose proof process_bootstrap_place. pose proof kernel_end_range.
  unfold c_eip, c_cs, c_eflags, c_esp, c_user_esp, c_user_ss. split; [|split].
  - unfold context_at. apply fifteen; words; try (by apply Hz); try done.
    + apply u32_u32.
    + change (u32 process_bootstrap = process_bootstrap). apply u32_small. lia.
    + apply u32_u32.
  - intros a Ha. rewrite !load8_store32_out by lia. apply Hs. lia.
  - auto 10 with levos.
Qed.

Lemma user_context_spec p m :
  0 < p < 2 ^ 20 → mem_bytes m →
  context_at (user_context (p * 4096) m) (p * 4096 + 4036) user_frame ∧
  same_outside (p * 4096) 4096 m (user_context (p * 4096) m) ∧
  mem_bytes (user_context (p * 4096) m).
Proof.
  intros Hp Hm. unfold user_context. rewrite context_address by done.
  destruct (clear_context_spec (p * 4096 + 4036) m) as (Hz & Hs & Hb).
  unfold c_eip, c_cs, c_eflags, c_user_esp, c_user_ss. split; [|split].
  - unfold context_at. apply fifteen; words; try (by apply Hz); done.
  - intros a Ha. rewrite !load8_store32_out by lia. apply Hs. lia.
  - auto 10 with levos.
Qed.

Lemma kernel_ready_step v v' n F F' ps :
  kernel_ready v n F → pages (frames v') n F' → F' ⊆ F → mem_bytes (ram v') →
  same_outside_pages ps (ram v) (ram v') → page_directory / 4096 ∉ ps →
  kernel_ready v' n F'.
Proof.
  intros [? ? Hk Ha] Hp Hsub Hb Hs Hps. split; [done|done| |].
  - by apply (kernel_dir_same ps (ram v)).
  - intros p Hin. apply Ha. set_solver.
Qed.

Lemma lowest_zero p : 0 < p → (p * 4096 =? 0) = false.
Proof. intros. apply Z.eqb_neq. lia. Qed.

Lemma set_back F p : p ∈ F → {[p]} ∪ F ∖ {[p]} = (F : gset Z).
Proof. intros. apply set_eq. intros x. rewrite elem_of_union, elem_of_difference, elem_of_singleton.
  destruct (decide (x = p)) as [->|]; tauto. Qed.

Lemma size_taken F p : p ∈ F → size F = Datatypes.S (size (F ∖ {[p]})).
Proof.
  intros Hp. rewrite size_difference by set_solver. rewrite size_singleton.
  assert (size F ≠ 0%nat) by (intros E%size_empty_inv; set_solver). lia.
Qed.

(** [process_create] in a given slot. *)
Lemma create_in_slot_spec entry argument i s n F :
  kernel_ready (machine s) n F → 0 ≤ next_pid s < 2 ^ 31 →
  ∃ s',
  ((size F < 2)%nat ∧ create_in_slot entry argument i s = (-1, s') ∧ unchanged s s' n F) ∨
  ∃ p q, create_in_slot entry argument i s = (next_pid s, s') ∧
    lowest p F ∧ lowest q (F ∖ {[p]}) ∧
    processes s' = <[Z.to_nat i := mk_process (next_pid s) PROCESS_READY (q * 4096) (p * 4096)
      (p * 4096 + 4036) entry argument false false 0 0]> (processes s) ∧
    next_pid s' = next_pid s + 1 ∧ same_rest s s' ∧
    kernel_ready (machine s') n (F ∖ {[p]} ∖ {[q]}) ∧
    same_outside_pages ({[p]} ∪ {[q]}) (memory s) (memory s') ∧
    context_at (memory s') (p * 4096 + 4036) (kernel_frame (p * 4096)) ∧
    (∀ i, 0 ≤ i < 1023 →
      load32 (memory s') (q * 4096 + 4 * i) = load32 (memory s) (page_directory + 4 * i)) ∧
    load32 (memory s') (q * 4096 + 4 * 1023) = q * 4096 + 3.
Proof.
  intros Hr Hpid. unfold create_in_slot.
  destruct (allocate_frame_spec s n F (kr_pages _ _ _ Hr)) as [[-> ->]|(p & f & -> & Hin & Hmin & Hp & Hf)].
  { destruct (new_directory_spec s n ∅ Hr) as [[_ ->]|(q & v & _ & Hq & _)];
      [|by apply not_elem_of_empty in Hq].
    exists s. left. split; [by rewrite size_empty; lia|split; [done|]].
    repeat split; apply Hr. }
  set (s1 := with_machine (with_frames f (machine s)) s).
  assert (kernel_ready (machine s1) n (F ∖ {[p]})) as Hr1.
  { apply (kernel_ready_step (machine s) _ n F _ ∅); try done; [set_solver|apply Hr]. }
  rewrite (lowest_zero p) by lia.
  destruct (new_directory_spec s1 n _ Hr1) as [[E ->]|(q & v & -> & Hq & Hqm & Hqr & Hv & Hs & Hw & Hrec)].
  { cbn [orb negb Z.eqb]. eexists. left.
    split; [by rewrite (size_taken F p), E, size_empty by done; lia|split; [done|]].
    pose proof (pages_range _ _ _ _ (kr_pages _ _ _ Hr) Hin).
    pose proof (pa_free_spec f n (F ∖ {[p]}) p Hf ltac:(lia) ltac:(set_solver)) as Hback.
    rewrite set_back in Hback by done. by repeat split. }
  rewrite (lowest_zero q) by lia. cbn [orb]. cbv zeta.
  set (s2 := set_slot _ _ _).
  pose proof (kernel_context_spec p (memory s2) Hp (kr_bytes _ _ _ Hv)) as (Hc & Hsc & Hbc).
  change (memory s2) with (ram v) in *.
  assert (same_outside_pages ({[p]} ∪ {[q]}) (memory s) (kernel_context (p * 4096) (ram v))) as Hout.
  { apply (same_outside_pages_trans _ _ (ram v)).
    - apply (same_outside_pages_mono _ _ _ _ Hs). set_solver.
    - apply (same_outside_pages_mono {[p]}); [|set_solver].
      by apply (same_outside_page p _ _ _ _ Hsc). }
  eexists. right. exists p, q. split.
  { rewrite i32_small by done. done. }
  split; [done|split; [done|split; [|split; [|split; [done|split; [|split; [done|split; [done|split]]]]]]]].
  - cbn. by rewrite context_address.
  - cbn. by rewrite u32_small by lia.
  - apply (kernel_ready_step v _ n (F ∖ {[p]} ∖ {[q]}) _ {[p]}); try done.
    + apply Hv.
    + by apply (same_outside_page p _ _ _ _ Hsc).
    + intros E%elem_of_singleton. apply (above_kernel_dir F); [apply Hr|]. by rewrite E.
  - intros j Hj. rewrite <- Hw by done.
    apply (same_outside_load32 _ _ _ _ _ Hsc). set_solver by lia.
  - rewrite <- Hrec. apply (same_outside_load32 _ _ _ _ _ Hsc). set_solver by lia.
Qed.

Lemma lor_user a f : a mod 2 ^ 12 = 0 → f = 3 ∨ f = 7 → (a + f) .| USER = a + 7.
Proof.
  intros Ha Hf. rewrite <- !lor_flags, <- Z.lor_assoc by (done || lia). by destruct Hf as [-> | ->].
Qed.

(** The two mappings of [process_create_user] in a copy of the kernel directory. *)
Lemma user_maps_spec d code ustack (v : vm S) :
  mem_bytes (ram v) → d mod 2 ^ 12 = 0 → kernel_end ≤ d < 2 ^ 32 →
  code mod 2 ^ 12 = 0 → 0 ≤ code < 2 ^ 32 → ustack mod 2 ^ 12 = 0 → 0 ≤ ustack < 2 ^ 32 →
  load32 (ram v) (d + 4) = shared_table + 3 →
  ∃ m, map_page_in d (USER_STACK_TOP - 4096) ustack 85 (map_page_in d USER_CODE_ADDRESS code 85 v)
       = with_ram m v ∧
    mem_bytes m ∧ load32 m (d + 4) = shared_table + 7 ∧ load32 m shared_table = code + 7 ∧
    load32 m (shared_table + 4 * 1023) = ustack + 7 ∧
    ∀ a, ¬ (d + 4 ≤ a < d + 8) → ¬ (shared_table ≤ a < shared_table + 4) →
      ¬ (shared_table + 4092 ≤ a < shared_table + 4096) → load8 m a = load8 (ram v) a.
Proof.
  intros Hb Hd Hdr Hc Hcr Hu Hur He. unfold shared_table, USER_STACK_TOP, USER_CODE_ADDRESS in *.
  pose proof page_directory_place. pose proof identity_tables_place.
  pose proof (identity_table_aligned 1) as Ht. rewrite Z.mul_1_r in Ht.
  set (T := identity_tables + 4096) in *.
  assert (∀ m f, 0 ≤ f < 8 → load32 m (d + 4) = T + f → entry_present f = true →
    ∀ va, dir_index va = 1 →
    entry_present (pde m d va) = true ∧ entry_frame (pde m d va) = T ∧ pde m d va = T + f) as HP.
  { intros m f Hf E Hpf va Ev. unfold pde. rewrite Ev. change (4 * 1) with 4. rewrite E.
    destruct (entry_bits T f Ht ltac:(lia)) as [-> _]. by rewrite entry_frame_add by lia. }
  destruct (HP (ram v) 3 ltac:(lia) He eq_refl 0x400000 eq_refl) as (P1 & P2 & P3).
  rewrite (map_page_in_present d 0x400000 code v) by (done || lia).
  rewrite P2, P3. change (dir_index 0x400000) with 1. change (table_index 0x400000) with 0.
  rewrite (lor_user T 3), (entry_frame_id code), Z.add_0_r by (done || lia).
  change (4 * 1) with 4. set (m1 := store32 (store32 _ _ _) _ _).
  assert (mem_bytes m1) as Hb1 by (subst m1; auto with levos).
  assert (load32 m1 (d + 4) = T + 7) as E1.
  { subst m1. rewrite load32_store32_ne, load32_store32_eq by lia. apply u32_small. dlia. }
  destruct (HP m1 7 ltac:(lia) E1 eq_refl (0x800000 - 4096) eq_refl) as (Q1 & Q2 & Q3).
  rewrite map_page_in_present by (done || lia).
  cbn [ram with_ram]. rewrite Q2, Q3, (lor_user T 7), (entry_frame_id ustack) by (done || lia).
  change (dir_index (0x800000 - 4096)) with 1.
  change (table_index (0x800000 - 4096)) with 1023. change (4 * 1) with 4.
  eexists. split; [done|]. split; [auto with levos|split; [|split; [|split]]].
  - rewrite load32_store32_ne, load32_store32_eq by lia. apply u32_small. dlia.
  - rewrite !load32_store32_ne by lia. unfold m1. rewrite load32_store32_eq. apply u32_small. dlia.
  - rewrite load32_store32_eq. apply u32_small. dlia.
  - intros a H1 H2 H3. unfold m1. rewrite !load8_store32_out by lia. done.
Qed.

(** [s'] is [s] but for its allocator, whose free pages are [F]. *)
Definition only_frames s s' (n : Z) F : Prop :=
  pages (frames (machine s')) n F ∧
  s' = with_machine (with_frames (frames (machine s')) (machine s)) s.

Lemma only_frames_unchanged s s' n F : only_frames s s' n F → unchanged s s' n F.
Proof. intros [Hp ->]. repeat split. exact Hp. Qed.

Lemma only_frames_refl s n F : pages (frames (machine s)) n F → only_frames s s n F.
Proof. split; [done|]. by destruct s as [[]]. Qed.

Lemma only_frames_release s s' n F p :
  only_frames s s' n F → 0 < p < n → p ∉ F →
  only_frames s (release_if_taken (p * 4096) s') n ({[p]} ∪ F).
Proof.
  intros [Hp ->] Hr Hn. unfold release_if_taken.
  rewrite (proj2 (Z.eqb_neq (p * 4096) 0)) by lia. split; [|done]. by apply pa_free_spec.
Qed.

(** A page allocation that fails or takes the lowest free page. *)
Lemma only_frames_allocate s s' n F :
  only_frames s s' n F →
  (F = ∅ ∧ allocate_frame s' = (0, s')) ∨
  ∃ p s'', allocate_frame s' = (p * 4096, s'') ∧ lowest p F ∧ 0 < p < 2 ^ 20 ∧ p < n ∧
    only_frames s s'' n (F ∖ {[p]}).
Proof.
  intros [Hp Es].
  destruct (allocate_frame_spec s' n F Hp) as [?|(p & f & E & Hin & Hmin & Hpr & Hf)]; [by left|right].
  pose proof (pages_range _ _ _ _ Hp Hin). exists p. eexists. split; [exact E|].
  split; [done|split; [done|split; [lia|split; [exact Hf|]]]]. by rewrite Es.
Qed.

Lemma only_frames_ready s s' n F F' :
  kernel_ready (machine s) n F → only_frames s s' n F' → F' ⊆ F → kernel_ready (machine s') n F'.
Proof.
  intros Hr [Hp E] Hsub. apply (kernel_ready_step (machine s) _ n F _ ∅); try done.
  - rewrite E. apply Hr.
  - by rewrite E.
Qed.

Lemma release_nothing s : release_if_taken 0 s = s.
Proof. done. Qed.

(** [process_create_user] in a given slot when memory runs out: the pages taken are
    given back. *)
Lemma create_user_scarce image image_size i s n F :
  kernel_ready (machine s) n F → (size F < 4)%nat →
  ∃ s', create_user_in_slot image image_size i s = (-1, s') ∧ unchanged s s' n F.
Proof.
  intros Hr Hsz. unfold create_user_in_slot.
  pose proof (only_frames_refl s n F (kr_pages _ _ _ Hr)) as H0.
  destruct (only_frames_allocate s s n F H0)
    as [[-> E]|(p & s1 & -> & [Hp _] & Hpr & Hpn & H1)].
  { rewrite !E. destruct (new_directory_spec s n ∅ Hr) as [[_ ->]|(q & v & _ & Hq & _)];
      [|set_solver].
    exists s. split; [done|]. by apply only_frames_unchanged. }
  destruct (only_frames_allocate s s1 n _ H1)
    as [[E1 E]|(q & s2 & -> & [Hq _] & Hqr & Hqn & H2)].
  { rewrite !E. rewrite E1 in H1.
    pose proof (only_frames_ready s s1 n F ∅ Hr H1 ltac:(set_solver)) as Hr1.
    destruct (new_directory_spec s1 n ∅ Hr1) as [[_ ->]|(q & v & _ & Hq & _)]; [|set_solver].
    cbn [Z.eqb]. rewrite orb_true_r, !release_nothing. eexists. split; [done|].
    apply only_frames_unchanged. replace F with ({[p]} ∪ (∅ : gset Z)).
    - apply only_frames_release; [done|lia|set_solver].
    - rewrite <- E1. apply set_back. done. }
  destruct (only_frames_allocate s s2 n _ H2)
    as [[E2 E]|(r & s3 & -> & [Hrr _] & Hrange & Hrn & H3)].
  { rewrite E. rewrite E2 in H2.
    pose proof (only_frames_ready s s2 n F ∅ Hr H2 ltac:(set_solver)) as Hr1.
    destruct (new_directory_spec s2 n ∅ Hr1) as [[_ ->]|(x & v & _ & Hx & _)]; [|set_solver].
    cbn [Z.eqb]. rewrite orb_true_r, !release_nothing. eexists. split; [done|].
    apply only_frames_unchanged. replace F with ({[q]} ∪ ({[p]} ∪ (∅ : gset Z))).
    - apply only_frames_release; [apply only_frames_release|lia|]; [done|lia|set_solver|set_solver].
    - rewrite <- E2. apply set_eq. intros x.
      destruct (decide (x = p)), (decide (x = q)); set_solver. }
  pose proof (only_frames_ready s s3 n F _ Hr H3 ltac:(set_solver)) as Hr3.
  assert (F ∖ {[p]} ∖ {[q]} ∖ {[r]} = ∅) as E3.
  { apply leibniz_equiv, size_empty_inv.
    pose proof (size_taken F p Hp). pose proof (size_taken _ q Hq). pose proof (size_taken _ r Hrr).
    lia. }
  rewrite E3 in H3, Hr3.
  destruct (new_directory_spec s3 n ∅ Hr3) as [[_ ->]|(x & v & _ & Hx & _)]; [|set_solver].
  cbn [Z.eqb]. rewrite orb_true_r. eexists. split; [done|].
  apply only_frames_unchanged. replace F with ({[r]} ∪ ({[q]} ∪ ({[p]} ∪ (∅ : gset Z)))).
  - repeat (apply only_frames_release; [|lia|set_solver]). done.
  - rewrite <- E3. apply set_eq. intros x.
    destruct (decide (x = p)), (decide (x = q)), (decide (x = r)); set_solver.
Qed.

Lemma size_some F : (0 < size F)%nat → F ≠ ∅.
Proof. intros H ->. rewrite size_empty in H. lia. Qed.

Lemma shared_table_page :
  shared_table / 4096 * 4096 = shared_table ∧ shared_table / 4096 ≠ page_directory / 4096 ∧
  shared_table + 4096 ≤ kernel_end ∧ 0 ≤ shared_table.
Proof.
  unfold shared_table. pose proof page_directory_page. pose proof directory_tables_apart.
  pose proof identity_tables_place. pose proof identity_tables_aligned. dlia.
Qed.

Lemma page_number x o : 0 ≤ o < 4096 → (x * 4096 + o) / 4096 = x.
Proof. intros. dlia. Qed.

Lemma page_inside x n a b : x = n * 4096 → 0 ≤ b → x + b ≤ a → a < x + 4096 → a / 4096 = n.
Proof. intros -> ???. replace a with (n * 4096 + (a - n * 4096)) by lia. apply page_number. lia. Qed.

Lemma same_page_word ps m m' x k :
  same_outside_pages ps m m' → x ∉ ps → 0 ≤ k < 1024 →
  load32 m' (x * 4096 + 4 * k) = load32 m (x * 4096 + 4 * k).
Proof.
  intros Hs Hx Hk. apply (same_outside_pages_load32 _ _ _ _ Hs); [dlia|].
  by rewrite page_number by lia.
Qed.

(** The image and the context of a new user process, in pages [q] and [p]. *)
Lemma load_image_spec p q image image_size m :
  mem_bytes m → 0 < p < 2 ^ 20 → 0 ≤ image_size ≤ 4096 → p ≠ q →
  let m' := user_context (p * 4096) (copy_bytes (q * 4096) image_size image m) in
  mem_bytes m' ∧ same_outside_pages ({[p]} ∪ {[q]}) m m' ∧
  context_at m' (p * 4096 + 4036) user_frame ∧
  ∀ j, 0 ≤ j < image_size → load8 m' (q * 4096 + j) = u8 (nthZ image j).
Proof.
  intros Hm Hpr Himg Hne. cbv zeta.
  destruct (copy_bytes_spec (q * 4096) image_size image m ltac:(lia)) as [Hci Hcs].
  set (m2 := copy_bytes _ _ _ m) in *.
  assert (mem_bytes m2) as Hb2 by (apply copy_bytes_mem_bytes; [lia|done]).
  pose proof (user_context_spec p m2 Hpr Hb2) as (Huc & Hus & Hub).
  split; [done|split; [|split; [done|]]].
  - apply (same_outside_pages_trans _ _ m2).
    + apply (same_outside_pages_mono {[q]}); [|set_solver].
      by apply (same_outside_page q _ _ _ _ Hcs); lia.
    + apply (same_outside_pages_mono {[p]}); [|set_solver].
      by apply (same_outside_page p _ _ _ _ Hus).
  - intros j Hj. rewrite <- Hci by done. apply Hus. lia.
Qed.

(** The four pages differ from each other and from the shared table. *)
Lemma user_pages_apart F p q r t :
  above_kernel F → lowest p F → lowest q (F ∖ {[p]}) → lowest r (F ∖ {[p]} ∖ {[q]}) →
  t ∈ F ∖ {[p]} ∖ {[q]} ∖ {[r]} →
  p ≠ q ∧ p ≠ t ∧ q ≠ t ∧
  p ≠ shared_table / 4096 ∧ q ≠ shared_table / 4096 ∧ t ≠ shared_table / 4096.
Proof.
  intros Ha [Hp _] [Hq _] [Hr _] Ht. pose proof shared_table_page as (Est & _ & Hk & _).
  assert (∀ x, x ∈ F → x ≠ shared_table / 4096) as HT by (intros x Hx%Ha ->; lia).
  split; [set_solver|split; [set_solver|split; [set_solver|]]].
  split; [|split]; apply HT; set_solver.
Qed.

(** The words of memory [m'] when the directory page [t] was made from [m] in [mv],
    the two mappings gave [mm], and pages [p] and [q] were filled. *)
Lemma user_words (m mv mm m' : mem) p q t :
  same_outside_pages {[t]} m mv →
  (∀ a, ¬ (t * 4096 + 4 ≤ a < t * 4096 + 8) → ¬ (shared_table ≤ a < shared_table + 4) →
    ¬ (shared_table + 4092 ≤ a < shared_table + 4096) → load8 mm a = load8 mv a) →
  same_outside_pages ({[p]} ∪ {[q]}) mm m' →
  p ≠ t ∧ q ≠ t ∧ p ≠ shared_table / 4096 ∧ q ≠ shared_table / 4096 ∧ t ≠ shared_table / 4096 →
  same_outside_pages ({[p]} ∪ {[q]} ∪ {[t]} ∪ {[shared_table / 4096]}) m m' ∧
  (∀ k, 0 ≤ k < 1024 → load32 m' (t * 4096 + 4 * k) = load32 mm (t * 4096 + 4 * k)) ∧
  (∀ k, 0 ≤ k < 1024 → load32 m' (shared_table + 4 * k) = load32 mm (shared_table + 4 * k)) ∧
  (∀ k, 0 ≤ k < 1024 → k ≠ 1 →
    load32 m' (t * 4096 + 4 * k) = load32 mv (t * 4096 + 4 * k)) ∧
  (∀ k, 0 < k < 1023 → load32 m' (shared_table + 4 * k) = load32 m (shared_table + 4 * k)).
Proof.
  intros Hs Mo Hk (? & ? & ? & ? & ?). pose proof shared_table_page as (Est & _ & _ & _).
  set (T := shared_table / 4096) in *.
  assert (∀ x k, 0 ≤ k < 1024 → x ≠ p → x ≠ q →
    load32 m' (x * 4096 + 4 * k) = load32 mm (x * 4096 + 4 * k)) as Hkw.
  { intros x k Hkr ??. apply (same_page_word _ _ _ _ _ Hk); [set_solver|done]. }
  assert (same_outside_pages ({[t]} ∪ {[T]}) mv mm) as Hm.
  { intros a Ha. assert (a / 4096 ≠ t ∧ a / 4096 ≠ T) as [A1 A2] by set_solver.
    apply Mo; intros ?; [apply A1, (page_inside (t * 4096) _ _ 4)
      |apply A2, (page_inside shared_table _ _ 0)|apply A2, (page_inside shared_table _ _ 4092)];
      lia. }
  split; [|split; [|split; [|split]]].
  - apply (same_outside_pages_trans _ _ mv); [|apply (same_outside_pages_trans _ _ mm)].
    + apply (same_outside_pages_mono _ _ _ _ Hs). set_solver.
    + apply (same_outside_pages_mono _ _ _ _ Hm). set_solver.
    + apply (same_outside_pages_mono _ _ _ _ Hk). set_solver.
  - intros k Hkr. by apply Hkw.
  - intros k Hkr. rewrite <- Est. by apply Hkw.
  - intros k Hkr Hk1. rewrite Hkw by done. apply load32_ext. intros b Hb. apply Mo; lia.
  - intros k Hkr. rewrite <- Est, Hkw by (done || lia).
    transitivity (load32 mv (T * 4096 + 4 * k)).
    + rewrite Est. apply load32_ext. intros b Hb. apply Mo; lia.
    + apply (same_page_word _ _ _ _ _ Hs); [set_solver|lia].
Qed.

Lemma create_user_success image image_size i s n F :
  kernel_ready (machine s) n F → (4 ≤ size F)%nat → 0 ≤ next_pid s < 2 ^ 31 →
  0 ≤ image_size ≤ 4096 →
  ∃ s' p q r t, create_user_in_slot image image_size i s = (next_pid s, s') ∧
    user_created image image_size i n F s s' p q r t.
Proof.
  intros Hr Hsz Hpid Himg. unfold create_user_in_slot.
  pose proof (only_frames_refl s n F (kr_pages _ _ _ Hr)) as H0.
  destruct (only_frames_allocate s s n F H0)
    as [[E _]|(p & s1 & -> & Hp & Hpr & Hpn & H1)]; [by apply size_some in E; [|lia]|].
  pose proof (size_taken F p ltac:(apply Hp)) as Z1.
  destruct (only_frames_allocate s s1 n _ H1)
    as [[E _]|(q & s2 & -> & Hq & Hqr & Hqn & H2)]; [by apply size_some in E; [|lia]|].
  pose proof (size_taken _ q ltac:(apply Hq)) as Z2.
  destruct (only_frames_allocate s s2 n _ H2)
    as [[E _]|(r & s3 & -> & Hrr & Hrange & Hrn & H3)]; [by apply size_some in E; [|lia]|].
  pose proof (size_taken _ r ltac:(apply Hrr)) as Z3.
  pose proof (only_frames_ready s s3 n F _ Hr H3 ltac:(set_solver)) as Hr3.
  destruct (new_directory_spec s3 n _ Hr3)
    as [[E _]|(t & v & -> & Ht & Htm & Htr & Hv & Hs & Hw & Hrec)];
    [by apply size_some in E; [|lia]|].
  rewrite !lowest_zero by lia. cbn [orb machine with_machine]. cbv zeta.
  pose proof (kr_above _ _ _ Hr t ltac:(set_solver)) as Htk.
  destruct (page_of_address t) as [_ Eal]. destruct (page_of_address q) as [_ Ealq].
  destruct (page_of_address r) as [_ Ealr].
  assert (memory s3 = memory s) as Em by (destruct H3 as [_ ->]; done). rewrite Em in *.
  assert (load32 (ram v) (t * 4096 + 4) = shared_table + 3) as Ee.
  { pose proof (Hw 1 ltac:(lia)) as E1. rewrite Z.mul_1_r in E1. rewrite E1.
    pose proof (kernel_dir_low _ (kr_dir _ _ _ Hr) 1 ltac:(lia)) as E2.
    rewrite Z.mul_1_r in E2. unfold memory. rewrite E2. unfold shared_table. lia. }
  destruct (user_maps_spec (t * 4096) (q * 4096) (r * 4096) v (kr_bytes _ _ _ Hv) Eal ltac:(lia)
    Ealq ltac:(lia) Ealr ltac:(lia) Ee) as (m & -> & Hmb & M1 & M2 & M3 & Mo).
  cbn [ram with_ram].
  destruct (load_image_spec p q image image_size m Hmb Hpr Himg) as (Hub & Hk & Huc & Hci).
  { destruct Hq. set_solver. }
  change (memory (set_slot _ _ _)) with (copy_bytes (q * 4096) image_size image m).
  set (m3 := user_context _ _) in *. clearbody m3.
  destruct (user_pages_apart F p q r t (kr_above _ _ _ Hr) Hp Hq Hrr Ht) as (? & ? & ? & ? & ? & ?).
  destruct (user_words (memory s) (ram v) m m3 p q t Hs Mo Hk ltac:(done))
    as (Hall & Hkt & Hks & G5 & G6).
  assert (∀ x, x ∈ F → page_directory / 4096 ≠ x) as Hpd.
  { intros x Hx E. by apply (above_kernel_dir F (kr_above _ _ _ Hr)); rewrite E. }
  pose proof (Hpd p ltac:(apply Hp)). pose proof (Hpd q ltac:(destruct Hq; set_solver)).
  pose proof (Hpd t ltac:(set_solver)). pose proof shared_table_page as (_ & ? & _ & _).
  assert (next_pid s3 = next_pid s ∧ processes s3 = processes s ∧ same_rest s s3)
    as (Epid & Etab & Erest) by (rewrite (proj2 H3); done).
  assert (kernel_ready (with_ram m3 v) n (F ∖ {[p]} ∖ {[q]} ∖ {[r]} ∖ {[t]})) as Hready.
  { apply (kernel_ready_step (machine s) _ n F _ ({[p]} ∪ {[q]} ∪ {[t]} ∪ {[shared_table / 4096]}));
      [done|apply (kr_pages _ _ _ Hv)|set_solver|exact Hub|exact Hall|].
    rewrite !elem_of_union, !elem_of_singleton. naive_solver. }
  pose proof (Hkt 1 ltac:(lia)) as G1. rewrite Z.mul_1_r, M1 in G1.
  pose proof (Hks 0 ltac:(lia)) as G3. rewrite Z.add_0_r, M2 in G3.
  pose proof (Hks 1023 ltac:(lia)) as G4. rewrite M3 in G4.
  eexists. exists p, q, r, t. split.
  { cbn. rewrite Epid, i32_small by done. done. }
  split; try done.
  - cbn. by rewrite Etab, context_address by done.
  - cbn. by rewrite u32_small by lia.
  - intros k Hkr Hk1. rewrite <- Hw by done. apply G5; [lia|done].
  - rewrite <- Hrec. apply G5; [lia|done].
Qed.

(** The operations on the slot found. *)
Lemma process_create_cases entry argument s :
  entry ≠ 0 →
  ((∀ i, 1 ≤ i < 16 → reusable (slot s i) = false) ∧ process_create entry argument s = (-1, s)) ∨
  ∃ i, first_reusable s i ∧ process_create entry argument s = create_in_slot entry argument i s.
Proof.
  intros He. unfold process_create. rewrite (proj2 (Z.eqb_neq entry 0)) by done.
  destruct (for_exit_search (λ i s, reusable (slot s i)) (create_in_slot entry argument)
    1 MAX_PROCESSES s) as [[-> Hn]|(i & Hi & Ht & Hn & ->)]; [by left|].
  right. exists i. split; [done|]. by destruct (create_in_slot entry argument i s).
Qed.

Lemma process_create_user_cases image image_size s :
  0 < image_size ≤ 4096 →
  ((∀ i, 1 ≤ i < 16 → reusable (slot s i) = false) ∧
    process_create_user (Some image) image_size s = (-1, s)) ∨
  ∃ i, first_reusable s i ∧
    process_create_user (Some image) image_size s = create_user_in_slot image image_size i s.
Proof.
  intros Hs. unfold process_create_user.
  rewrite (proj2 (Z.eqb_neq image_size 0)), (proj2 (Z.ltb_ge 4096 image_size)) by lia. cbn [orb].
  destruct (for_exit_search (λ i s, reusable (slot s i)) (create_user_in_slot image image_size)
    1 MAX_PROCESSES s) as [[-> Hn]|(i & Hi & Ht & Hn & ->)]; [by left|].
  right. exists i. split; [done|]. by destruct (create_user_in_slot image image_size i s).
Qed.

(** A directory with the words of the kernel directory translates like it. *)
Lemma copied_walk m m' d ps :
  kernel_dir m → same_outside_pages ps m m' → above_kernel ps →
  (∀ i, 0 ≤ i < 1023 → load32 m' (d + 4 * i) = load32 m (page_directory + 4 * i)) →
  ∀ va, 0 ≤ va < recursive_window → walk m' d va = walk m page_directory va.
Proof.
  intros Hk Hs Hps Hw va Hva. pose proof (va_dir_range va Hva) as Hi.
  pose proof (table_index_range va) as Ht. unfold walk, pte, pde. rewrite Hw by done.
  destruct (decide (dir_index va < 4)); cycle 1.
  { rewrite (kernel_dir_high _ Hk) by lia. done. }
  rewrite (kernel_dir_low _ Hk) by lia.
  destruct (low_entry (dir_index va)) as (-> & -> & -> & ->).
  pose proof (identity_table_aligned (dir_index va)) as Ha.
  set (T := identity_tables + 4096 * dir_index va) in *.
  assert (T / 4096 ∉ ps) as Hn.
  { intros Hin%Hps. pose proof identity_tables_place. revert Hin. subst T.
    generalize dependent (dir_index va). intros. dlia. }
  assert (load32 m' (T + 4 * table_index va) = load32 m (T + 4 * table_index va)) as ->; [|done].
  replace T with (T / 4096 * 4096) by dlia. by apply (same_page_word _ _ _ _ _ Hs).
Qed.

(** The walk through two known words. *)
Lemma walk_words m d va T f P g :
  T mod 2 ^ 12 = 0 → P mod 2 ^ 12 = 0 → 0 ≤ f < 8 → 0 ≤ g < 8 →
  load32 m (d + 4 * dir_index va) = T + f → load32 m (T + 4 * table_index va) = P + g →
  walk m d va = if entry_present f && entry_present g
    then Some (mk_translation (P + page_offset va) (entry_writable f && entry_writable g)
      (entry_user f && entry_user g)) else None.
Proof.
  intros HT HP Hf Hg E1 E2. unfold walk, pte, pde. rewrite E1, entry_frame_add, E2 by lia.
  destruct (entry_bits T f HT ltac:(lia)) as (-> & -> & ->).
  destruct (entry_bits P g HP ltac:(lia)) as (-> & -> & ->).
  by rewrite entry_frame_add by lia.
Qed.

Lemma code_indices va :
  USER_CODE_ADDRESS ≤ va < USER_CODE_ADDRESS + 4096 → dir_index va = 1 ∧ table_index va = 0.
Proof. unfold USER_CODE_ADDRESS, dir_index, table_index. dlia. Qed.

Lemma stack_indices va :
  USER_STACK_TOP - 4096 ≤ va < USER_STACK_TOP → dir_index va = 1 ∧ table_index va = 1023.
Proof. unfold USER_STACK_TOP, dir_index, table_index. dlia. Qed.

Lemma other_indices va :
  ¬ (USER_CODE_ADDRESS ≤ va < USER_CODE_ADDRESS + 4096) →
  ¬ (USER_STACK_TOP - 4096 ≤ va < USER_STACK_TOP) →
  dir_index va ≠ 1 ∨ 0 < table_index va < 1023.
Proof. unfold USER_CODE_ADDRESS, USER_STACK_TOP, dir_index, table_index. dlia. Qed.

(** The translation of the two user pages in the directory of a new process. *)
Lemma user_created_walk image image_size i n F s s' p q r t :
  user_created image image_size i n F s s' p q r t →
  (∀ o, 0 ≤ o < 4096 → walk (memory s') (t * 4096) (USER_CODE_ADDRESS + o) =
     Some (mk_translation (q * 4096 + o) true true)) ∧
  (∀ o, 0 ≤ o < 4096 → walk (memory s') (t * 4096) (USER_STACK_TOP - 4096 + o) =
     Some (mk_translation (r * 4096 + o) true true)).
Proof.
  intros Hc. pose proof shared_table_page as (Est & _).
  assert (shared_table mod 2 ^ 12 = 0) as HT by dlia.
  destruct (page_of_address q) as [_ Hq]. destruct (page_of_address r) as [_ Hr].
  split; intros o Ho.
  - destruct (code_indices (USER_CODE_ADDRESS + o)) as [E1 E2]; [lia|].
    rewrite (walk_words _ _ _ shared_table 7 (q * 4096) 7) by
      (done || lia || (rewrite E1; apply Hc) || (rewrite E2, Z.mul_0_r, Z.add_0_r; apply Hc)).
    simpl. do 2 f_equal. unfold page_offset, USER_CODE_ADDRESS. dlia.
  - destruct (stack_indices (USER_STACK_TOP - 4096 + o)) as [E1 E2]; [lia|].
    rewrite (walk_words _ _ _ shared_table 7 (r * 4096) 7) by
      (done || lia || (rewrite E1; apply Hc) || (rewrite E2; apply Hc)).
    simpl. do 2 f_equal. unfold page_offset, USER_STACK_TOP. dlia.
Qed.

(** A new process can read its own two pages and nothing else. *)
Lemma user_created_confined image image_size i n F s s' p q r t va :
  user_created image image_size i n F s s' p q r t →
  kernel_dir (memory s) → table_private (memory s) → 0 ≤ va < 2 ^ 32 →
  user_readable (memory s') (t * 4096) va →
  USER_CODE_ADDRESS ≤ va < USER_CODE_ADDRESS + 4096 ∨ USER_STACK_TOP - 4096 ≤ va < USER_STACK_TOP.
Proof.
  intros Hc Hk Hp Hva (tr & Hw & Hu).
  destruct (decide (USER_CODE_ADDRESS ≤ va < USER_CODE_ADDRESS + 4096)); [by left|].
  destruct (decide (USER_STACK_TOP - 4096 ≤ va < USER_STACK_TOP)); [by right|]. exfalso.
  pose proof (table_index_range va). pose proof (dir_index_range va Hva) as Hdi.
  pose proof shared_table_page as (Est & _). revert Hw. unfold walk, pte, pde.
  destruct (decide (dir_index va = 1)) as [E|Hne1].
  { rewrite E, (uc_entry _ _ _ _ _ _ _ _ _ _ _ Hc : load32 _ (t * 4096 + 4 * 1) = _).
    rewrite entry_frame_add by (done || lia || dlia).
    destruct (other_indices va) as [|Hti]; [done|done|done|].
    rewrite (uc_table _ _ _ _ _ _ _ _ _ _ _ Hc) by done.
    case_match; [|done]. intros [= <-]. simpl in Hu. rewrite (Hp _ Hti), andb_false_r in Hu. done. }
  destruct (decide (dir_index va = 1023)) as [E|Hne2].
  { rewrite E, (uc_recursive _ _ _ _ _ _ _ _ _ _ _ Hc).
    destruct (page_of_address t) as [_ Ht].
    destruct (entry_bits (t * 4096) 3 Ht ltac:(lia)) as (-> & -> & ->).
    case_match; [|done]. intros [= <-]. done. }
  rewrite (uc_entries _ _ _ _ _ _ _ _ _ _ _ Hc) by lia.
  destruct (decide (dir_index va < 4)); [|by rewrite (kernel_dir_high _ Hk) by lia].
  rewrite (kernel_dir_low _ Hk) by lia.
  destruct (low_entry (dir_index va)) as (-> & -> & -> & ->).
  case_match; [|done]. intros [= <-]. done.
Qed.

(** Every other directory that uses the shared table sees the new code page. *)
Lemma user_created_captures image image_size i n F s s' p q r t d f :
  user_created image image_size i n F s s' p q r t →
  f = 3 ∨ f = 7 → d mod 4096 = 0 → d / 4096 ≠ p → d / 4096 ≠ q → d / 4096 ≠ t →
  d ≠ shared_table → load32 (memory s) (d + 4) = shared_table + f →
  ∀ o, 0 ≤ o < 4096 → walk (memory s') d (USER_CODE_ADDRESS + o) =
    Some (mk_translation (q * 4096 + o) true (f =? 7)).
Proof.
  intros Hc Hf Hd Hp Hq Ht Hs Hw o Ho. pose proof shared_table_page as (Est & _).
  assert (shared_table mod 2 ^ 12 = 0) as HT by dlia.
  destruct (page_of_address q) as [_ Haq].
  destruct (code_indices (USER_CODE_ADDRESS + o)) as [E1 E2]; [lia|].
  assert (load32 (memory s') (d + 4 * 1) = load32 (memory s) (d + 4 * 1)) as Ed.
  { replace d with (d / 4096 * 4096) by dlia.
    apply (same_page_word _ _ _ _ _ (uc_outside _ _ _ _ _ _ _ _ _ _ _ Hc)); [|lia].
    assert (d / 4096 ≠ shared_table / 4096) by dlia. set_solver. }
  rewrite (walk_words _ _ _ shared_table f (q * 4096) 7) by
    (done || lia || (rewrite E1, Ed; exact Hw) || (rewrite E2, Z.mul_0_r, Z.add_0_r; apply Hc)).
  replace (page_offset (USER_CODE_ADDRESS + o)) with o
    by (unfold page_offset, USER_CODE_ADDRESS; dlia).
  by destruct Hf as [-> | ->].
Qed.

(** *** The table *)

Lemma current_index_spec s r : running s = Some r → 0 ≤ r < 16 → current_index s = r.
Proof.
  intros Hr Hb. unfold current_index.
  apply (for_loop_ind (λ k c, r < k → c = r) 0 16); [done|lia| |lia].
  intros k c Hk IH Hlt. rewrite Hr. case_bool_decide as E; [by injection E as ->|].
  apply IH. assert (r ≠ k) by (by intros ->). lia.
Qed.

Lemma turn_index r k : 0 ≤ r < 16 → 1 ≤ k ≤ 16 → (r +u k) mod MAX_PROCESSES = (r + k) mod 16.
Proof. intros. by rewrite u32_small by lia. Qed.

Lemma process_next_cases s r :
  running s = Some r → 0 ≤ r < 16 →
  ((∀ i, 0 ≤ i < 16 → runnable (slot s i) = false) ∧ process_next_round_robin s = (Some r, s)) ∨
  ∃ i, next_in_turn s r i ∧ process_next_round_robin s = (Some i, make_running i s).
Proof.
  intros Hr Hb. unfold process_next_round_robin. rewrite (current_index_spec s r) by done.
  destruct (for_exit_search (λ step s, runnable (slot s ((r +u step) mod MAX_PROCESSES)))
    (λ step s, let s := make_running ((r +u step) mod MAX_PROCESSES) s in (running s, s))
    1 (MAX_PROCESSES + 1) s) as [[E Hn]|(k & Hk & Ht & Hn & E)];
    unfold MAX_PROCESSES in *; cbv zeta in *; rewrite E.
  - left. split; [|by rewrite Hr]. intros i Hi.
    destruct (decide (r < i)) as [Hlt|Hge].
    + pose proof (Hn (i - r) ltac:(lia)) as H. rewrite (turn_index r) in H by lia.
      by replace ((r + (i - r)) mod 16) with i in H by dlia.
    + pose proof (Hn (i - r + 16) ltac:(lia)) as H. rewrite (turn_index r) in H by lia.
      by replace ((r + (i - r + 16)) mod 16) with i in H by dlia.
  - right. exists ((r + k) mod 16). split.
    + exists k. rewrite (turn_index r) in Ht by lia. split; [lia|split; [done|split; [done|]]].
      intros j Hj. specialize (Hn j ltac:(lia)). by rewrite (turn_index r) in Hn by lia.
    + cbn. by rewrite (turn_index r) by lia.
Qed.

Lemma make_running_slot i j s :
  length (processes s) = 16%nat → 0 ≤ i < 16 → 0 ≤ j →
  slot (make_running i s) j = if decide (i = j) then with_state PROCESS_RUNNING (slot s i) else slot s j.
Proof. intros. unfold make_running. exact (slot_set_slot i j _ (with_running (Some i) s) H H0 H1). Qed.

Lemma make_running_tss i s :
  length (processes s) = 16%nat → 0 ≤ i < 16 →
  tss_esp0 (make_running i s) = process_kernel_stack_top (Some (slot s i)).
Proof.
  intros Hl Hi.
  change (tss_esp0 (make_running i s)) with
    (process_kernel_stack_top (Some (slot (make_running i s) i))).
  rewrite make_running_slot, decide_True by (done || lia). by destruct (slot s i).
Qed.

Lemma make_running_length i s : length (processes (make_running i s)) = length (processes s).
Proof. apply length_insert. Qed.

Lemma make_running_runnable i j s :
  length (processes s) = 16%nat → 0 ≤ i < 16 → 0 ≤ j →
  runnable (slot s i) = true → runnable (slot (make_running i s) j) = runnable (slot s j).
Proof.
  intros ???? . rewrite make_running_slot by done. case_decide; [subst|done].
  by rewrite H2.
Qed.

Lemma process_count_spec s : process_count s =
  Z.of_nat (length (filter (λ i, runnable (slot s i) = true) (range 0 16))).
Proof.
  apply (for_loop_ind (λ k c,
    c = Z.of_nat (length (filter (λ i, runnable (slot s i) = true) (range 0 k))) ∧ c ≤ k) 0 16);
    [done|done|].
  intros k c Hk [-> Hle]. rewrite range_snoc, filter_app, length_app by lia.
  destruct (runnable (slot s k)) eqn:Er.
  - rewrite filter_cons_True, filter_nil by done. rewrite u32_small by lia. simpl. lia.
  - rewrite filter_cons_False, filter_nil by (by rewrite Er). simpl. lia.
Qed.

(** One turn moves to the next runnable slot, so it never passes a runnable one. *)
Lemma next_in_turn_before s r i d :
  next_in_turn s r i → 1 ≤ d ≤ 16 → runnable (slot s ((r + d) mod 16)) = true →
  ∃ k, 1 ≤ k ≤ d ∧ i = (r + k) mod 16.
Proof.
  intros (k & Hk & -> & _ & Hn) Hd Hrun. exists k. split; [|done].
  destruct (decide (d < k)); [|lia]. rewrite Hn in Hrun by lia. done.
Qed.

Lemma turns_S n (s : psys S) : turns (Datatypes.S n) s = turns n (snd (process_next_round_robin s)).
Proof. unfold turns. by rewrite Nat.iter_succ_r. Qed.

Lemma turns_reach d r j s :
  length (processes s) = 16%nat → running s = Some r → 0 ≤ r < 16 → 1 ≤ d ≤ 16 →
  j = (r + d) mod 16 → runnable (slot s j) = true →
  ∃ n, (1 ≤ n ≤ 16)%nat ∧ Z.of_nat n ≤ d ∧ running (turns n s) = Some j.
Proof.
  intros Hl Hr Hb [Hd1 Hd]. revert d Hd1 r s Hl Hr Hb Hd.
  refine (Zlt_lower_bound_ind _ 1 _). intros d IH Hd1 r s Hl Hr Hb Hd Hj Hrun.
  destruct (process_next_cases s r Hr Hb) as [[Hn _]|(i & Hi & E)].
  { rewrite Hn in Hrun by dlia. done. }
  destruct (next_in_turn_before s r i d Hi) as (k & Hk & Ei); [lia|by rewrite <- Hj|].
  assert (runnable (slot s i) = true) as Hri by (destruct Hi as (k' & _ & -> & ? & _); done).
  destruct (decide (k = d)) as [->|Hne].
  { exists 1%nat. rewrite turns_S, E. split; [lia|split; [lia|]]. cbn. by rewrite Ei, Hj. }
  assert (0 ≤ i < 16) by dlia. assert (0 ≤ j < 16) by dlia.
  destruct (IH (d - k) ltac:(lia) i (make_running i s)) as (n & Hn & Hnd & Hrn).
  - by rewrite make_running_length.
  - done.
  - done.
  - lia.
  - rewrite Hj, Ei. dlia.
  - by rewrite make_running_runnable by (done || lia).
  - exists (Datatypes.S n). rewrite turns_S, E. split; [lia|split; [lia|done]].
Qed.

(** [process_system_init] writes only in the bootstrap stack. *)
Lemma process_system_init_ready s n F :
  kernel_ready (machine s) n F → kernel_ready (machine (process_system_init s)) n F.
Proof.
  intros [Hp Hb Hk Ha]. pose proof directory_stack_apart. pose proof bootstrap_stack_place.
  set (c := bootstrap_stack + BOOTSTRAP_STACK_SIZE - sizeof_context).
  destruct (clear_context_spec c (memory s)) as (_ & Hs & Hb').
  change (machine (process_system_init s)) with (with_ram (clear_context c (memory s)) (machine s)).
  split; [done|by apply Hb'| |done]. cbn [ram with_ram].
  assert (∀ i, 0 ≤ i < 1024 → load32 (clear_context c (memory s)) (page_directory + 4 * i)
    = load32 (memory s) (page_directory + 4 * i)) as E.
  { intros i Hi. apply (same_outside_load32 _ _ _ _ _ Hs).
    unfold c, BOOTSTRAP_STACK_SIZE, sizeof_context. lia. }
  split; intros; rewrite E by lia; by apply Hk.
Qed.

(** [process_by_pid] finds the first slot in use with the number. *)
Lemma process_by_pid_spec id s :
  match process_by_pid id s with
  | Some i => 0 ≤ i < 16 ∧ state (slot s i) ≠ PROCESS_UNUSED ∧ pid (slot s i) = id
  | None => ∀ i, 0 ≤ i < 16 → state (slot s i) = PROCESS_UNUSED ∨ pid (slot s i) ≠ id
  end.
Proof.
  unfold process_by_pid. change MAX_PROCESSES with 16.
  set (body := λ i s, (if negb (bool_decide (state (slot s i) = PROCESS_UNUSED))
    && (pid (slot s i) =? id) then Some i else None, s)).
  pose proof (for_exit_ind
    (λ k s', s' = s ∧ ∀ i, 0 ≤ i < k → state (slot s i) = PROCESS_UNUSED ∨ pid (slot s i) ≠ id)
    (λ i _, 0 ≤ i < 16 ∧ state (slot s i) ≠ PROCESS_UNUSED ∧ pid (slot s i) = id)
    0 16 body s ltac:(lia) ltac:(split; [done|lia])) as H.
  assert (∀ k, (∀ i, 0 ≤ i < k → state (slot s i) = PROCESS_UNUSED ∨ pid (slot s i) ≠ id) →
    state (slot s k) = PROCESS_UNUSED ∨ pid (slot s k) ≠ id →
    ∀ i, 0 ≤ i < k + 1 → state (slot s i) = PROCESS_UNUSED ∨ pid (slot s i) ≠ id) as Hext.
  { intros k Hn Hk i Hi. destruct (decide (i = k)) as [->|]; [done|]. apply Hn. lia. }
  assert (∀ i s', 0 ≤ i < 16 →
    s' = s ∧ (∀ j, 0 ≤ j < i → state (slot s j) = PROCESS_UNUSED ∨ pid (slot s j) ≠ id) →
    match body i s' with
    | (Some r, _) => 0 ≤ r < 16 ∧ state (slot s r) ≠ PROCESS_UNUSED ∧ pid (slot s r) = id
    | (None, s'') => s'' = s ∧
        ∀ j, 0 ≤ j < i + 1 → state (slot s j) = PROCESS_UNUSED ∨ pid (slot s j) ≠ id
    end) as Hstep.
  { intros i s' Hi [-> Hn]. unfold body. case_bool_decide as E; cbn [negb andb].
    - split; [done|]. apply Hext; [done|by left].
    - destruct (Z.eqb_spec (pid (slot s i)) id); [done|]. split; [done|].
      apply Hext; [done|by right]. }
  specialize (H Hstep). destruct (for_exit 0 16 body s) as [[i|] s']; simpl; [done|by apply H].
Qed.
End lemmas.

(** ** Properties *)

Section properties.
Context {S : Type} {PA : PageAllocator S} {PAS : PageAllocatorSpec S}.
Context {KI : KernelImage} {KIO : KernelImageOk}.

(** C22. [process_create] takes the first unused or zombie slot.  Without a slot it
    returns -1 and changes nothing; without two free pages it returns -1 and the
    allocator, the memory and the table are as before, so nothing is lost.
    Otherwise it returns the next process number, takes the two lowest free pages
    as stack and directory, writes nothing outside them, leaves on the stack the
    frame that starts [process_bootstrap] in the kernel with interrupts enabled,
    and gives the process an address space that translates every address below the
    recursive window as the kernel's does. *)
Theorem process_create_correct entry argument n F (s : psys S) :
  kernel_ready (machine s) n F → 0 ≤ next_pid s < 2 ^ 31 → entry ≠ 0 →
  ∃ r s', process_create entry argument s = (r, s') ∧
  (((∀ i, 1 ≤ i < 16 → reusable (slot s i) = false) ∧ r = -1 ∧ s' = s) ∨
   ∃ i, first_reusable s i ∧
    (((size F < 2)%nat ∧ r = -1 ∧ unchanged s s' n F) ∨
     ∃ p q, r = next_pid s ∧ lowest p F ∧ lowest q (F ∖ {[p]}) ∧
      processes s' = <[Z.to_nat i := mk_process (next_pid s) PROCESS_READY (q * 4096) (p * 4096)
        (p * 4096 + 4036) entry argument false false 0 0]> (processes s) ∧
      next_pid s' = next_pid s + 1 ∧ same_rest s s' ∧
      kernel_ready (machine s') n (F ∖ {[p]} ∖ {[q]}) ∧
      same_outside_pages ({[p]} ∪ {[q]}) (memory s) (memory s') ∧
      context_at (memory s') (p * 4096 + 4036) (kernel_frame (p * 4096)) ∧
      ∀ va, 0 ≤ va < recursive_window →
        walk (memory s') (q * 4096) va = walk (memory s) page_directory va)).
Proof.
  intros Hr Hpid He. destruct (process_create_cases entry argument s He) as [[Hn ->]|(i & Hi & ->)].
  { exists (-1), s. split; [done|]. by left. }
  destruct (create_in_slot_spec entry argument i s n F Hr Hpid)
    as (s' & [(Hsz & -> & Hu)|(p & q & -> & Hp & Hq & H1 & H2 & H3 & H4 & H5 & H6 & H7 & _)]).
  { exists (-1), s'. split; [done|]. right. exists i. split; [done|]. by left. }
  exists (next_pid s), s'. split; [done|]. right. exists i. split; [done|]. right. exists p, q.
  repeat (split; [done|]). apply (copied_walk _ _ _ _ (kr_dir _ _ _ Hr) H5); [|done].
  intros x Hx. apply (kr_above _ _ _ Hr). destruct Hp, Hq. set_solver.
Qed.

(** C4. [process_create_user] rejects a null, empty or oversized image; without a
    slot or without four free pages it returns -1 and leaves allocator, memory and
    table as they were.  Otherwise the new process has the image at its code
    address, a frame that starts it there in ring 3 with interrupts enabled, its
    code and stack pages are mapped writable for user code, and, when no other
    entry of the shared table is a user entry, those two pages are all it can
    read. *)
Theorem process_create_user_correct image image_size n F (s : psys S) :
  kernel_ready (machine s) n F → 0 ≤ next_pid s < 2 ^ 31 → 0 ≤ image_size < 2 ^ 32 →
  table_private (memory s) →
  ∃ res s', process_create_user (Some image) image_size s = (res, s') ∧
  ((¬ (0 < image_size ≤ 4096) ∧ res = -1 ∧ s' = s) ∨
   ((∀ i, 1 ≤ i < 16 → reusable (slot s i) = false) ∧ res = -1 ∧ s' = s) ∨
   ∃ i, first_reusable s i ∧
    (((size F < 4)%nat ∧ res = -1 ∧ unchanged s s' n F) ∨
     ∃ p q r t, res = next_pid s ∧ user_created image image_size i n F s s' p q r t ∧
      table_private (memory s') ∧
      (∀ o, 0 ≤ o < 4096 → walk (memory s') (t * 4096) (USER_CODE_ADDRESS + o) =
         Some (mk_translation (q * 4096 + o) true true)) ∧
      (∀ o, 0 ≤ o < 4096 → walk (memory s') (t * 4096) (USER_STACK_TOP - 4096 + o) =
         Some (mk_translation (r * 4096 + o) true true)) ∧
      ∀ va, 0 ≤ va < 2 ^ 32 → user_readable (memory s') (t * 4096) va →
        USER_CODE_ADDRESS ≤ va < USER_CODE_ADDRESS + 4096 ∨
        USER_STACK_TOP - 4096 ≤ va < USER_STACK_TOP)).
Proof.
  intros Hr Hpid Himg Hpr. destruct (decide (0 < image_size ≤ 4096)) as [Hs|Hs]; cycle 1.
  { exists (-1), s. split; [|by left]. unfold process_create_user.
    destruct (Z.eqb_spec image_size 0), (Z.ltb_spec 4096 image_size); cbn [orb]; done || lia. }
  destruct (process_create_user_cases image image_size s Hs) as [[Hn ->]|(i & Hi & ->)].
  { exists (-1), s. split; [done|]. right. by left. }
  destruct (decide (size F < 4)%nat) as [Hsz|Hsz].
  { destruct (create_user_scarce image image_size i s n F Hr Hsz) as (s' & -> & Hu).
    exists (-1), s'. split; [done|]. right. right. exists i. split; [done|]. by left. }
  destruct (create_user_success image image_size i s n F Hr ltac:(lia) Hpid ltac:(lia))
    as (s' & p & q & r & t & -> & Hc).
  exists (next_pid s), s'. split; [done|]. right. right. exists i. split; [done|]. right.
  exists p, q, r, t. split; [done|split; [done|]].
  destruct (user_created_walk _ _ _ _ _ _ _ _ _ _ _ Hc) as [Hw1 Hw2].
  split; [|split; [done|split; [done|]]].
  - intros k Hk. rewrite (uc_table _ _ _ _ _ _ _ _ _ _ _ Hc) by done. by apply Hpr.
  - intros va Hva. apply (user_created_confined _ _ _ _ _ _ _ _ _ _ _ va Hc); try done. apply Hr.
Qed.

(** C23. The page table for the user addresses is not copied: after a successful
    [process_create_user], every directory that was made from the kernel directory
    before (the kernel directory itself and those of the processes in the table)
    translates the user code address to the code page of the newest process. *)
Theorem process_create_user_captures image image_size n F (s : psys S) d f :
  kernel_ready (machine s) n F → length (processes s) = 16%nat →
  0 ≤ next_pid s < 2 ^ 31 → 0 < image_size ≤ 4096 →
  (4 ≤ size F)%nat → (∃ i, first_reusable s i) →
  f = 3 ∨ f = 7 → d mod 4096 = 0 → d / 4096 ∉ F → d ≠ shared_table →
  load32 (memory s) (d + 4) = shared_table + f →
  ∃ q s', process_create_user (Some image) image_size s = (next_pid s, s') ∧ q ∈ F ∧
    (∃ i, first_reusable s i ∧ user_code_base (slot s' i) = q * 4096) ∧
    ∀ o, 0 ≤ o < 4096 → walk (memory s') d (USER_CODE_ADDRESS + o) =
      Some (mk_translation (q * 4096 + o) true (f =? 7)).
Proof.
  intros Hr Hl Hpid Hs Hsz [j Hj] Hf Hd Hn Hne Hw.
  destruct (process_create_user_cases image image_size s Hs) as [[Hno _]|(i & Hi & ->)].
  { destruct Hj as (? & Hj & _). rewrite Hno in Hj by done. done. }
  destruct (create_user_success image image_size i s n F Hr ltac:(lia) Hpid ltac:(lia))
    as (s' & p & q & r & t & -> & Hc).
  exists q, s'. pose proof (uc_stack _ _ _ _ _ _ _ _ _ _ _ Hc) as [Hp _].
  pose proof (uc_code _ _ _ _ _ _ _ _ _ _ _ Hc) as [Hq _].
  pose proof (uc_directory _ _ _ _ _ _ _ _ _ _ _ Hc) as [Ht _].
  split; [done|split; [set_solver|split]].
  - exists i. split; [done|]. unfold slot. rewrite (uc_slot _ _ _ _ _ _ _ _ _ _ _ Hc), nth_lookup.
    destruct Hi as (? & _ & _). by rewrite list_lookup_insert_eq by lia.
  - apply (user_created_captures _ _ _ _ _ _ _ _ _ _ _ _ _ Hc); try done; set_solver.
Qed.

(** The round robin moves from the running slot to the next runnable one in
    cyclic order, marks it running, points the kernel stack of the TSS at its
    stack and changes nothing else; when nothing is runnable it changes nothing. *)
Theorem process_next_round_robin_correct r (s : psys S) :
  length (processes s) = 16%nat → running s = Some r → 0 ≤ r < 16 →
  ∃ res s', process_next_round_robin s = (res, s') ∧ res = running s' ∧
  (((∀ i, 0 ≤ i < 16 → runnable (slot s i) = false) ∧ s' = s) ∨
   ∃ i, next_in_turn s r i ∧ running s' = Some i ∧ machine s' = machine s ∧
     next_pid s' = next_pid s ∧
     tss_esp0 s' = process_kernel_stack_top (Some (slot s i)) ∧
     ∀ j, 0 ≤ j → slot s' j = if decide (i = j) then with_state PROCESS_RUNNING (slot s i) else slot s j).
Proof.
  intros Hl Hr Hb. destruct (process_next_cases s r Hr Hb) as [[Hn ->]|(i & Hi & ->)].
  { exists (Some r), s. split; [done|split; [done|by left]]. }
  assert (0 ≤ i < 16) by (destruct Hi as (k & ? & -> & _); dlia).
  exists (Some i), (make_running i s). split; [done|split; [done|right]]. exists i.
  split; [done|split; [done|split; [done|split; [done|split]]]].
  - by apply make_running_tss.
  - intros j Hj. by apply make_running_slot.
Qed.

(** C24. The round robin starves nobody: a runnable process gets the processor
    within sixteen turns. *)
Theorem round_robin_fair r j (s : psys S) :
  length (processes s) = 16%nat → running s = Some r → 0 ≤ r < 16 → 0 ≤ j < 16 →
  runnable (slot s j) = true →
  ∃ n, (1 ≤ n ≤ 16)%nat ∧ running (turns n s) = Some j.
Proof.
  intros Hl Hr Hb Hj Hrun.
  destruct (turns_reach ((j - r - 1) mod 16 + 1) r j s) as (n & Hn & _ & E); try done.
  - dlia.
  - dlia.
  - by exists n.
Qed.
End properties.

(** ** Instances *)

#[local] Existing Instance example_image.
#[local] Existing Instance example_image_ok.

(** The system after [scheduler_init], on the machine of [Paging]. *)
Definition example_system : psys Pmm.pmm :=
  process_system_init (mk_psys example_vm [] 1 None 0 0).

Lemma example_vm_ready : kernel_ready example_vm 4096 example_free.
Proof.
  split; [exact example_vm_pages|apply example_vm_words|apply example_vm_words
    |exact example_free_above].
Qed.

Lemma example_system_ready : kernel_ready (machine example_system) 4096 example_free.
Proof.
  exact (process_system_init_ready (mk_psys example_vm [] 1 None 0 0) 4096 example_free
    example_vm_ready).
Qed.

Lemma example_free_size : (4 ≤ size example_free)%nat.
Proof.
  change 4%nat with (size ({[512; 513; 514; 515]} : gset Z)). apply subseteq_size.
  intros x Hx. unfold example_free.
  rewrite !elem_of_difference, !Pmm.elem_of_set_range. set_solver by lia.
Qed.

Lemma example_first_slot : first_reusable example_system 1.
Proof. split; [done|split; [reflexivity|lia]]. Qed.

Lemma example_shared_entry :
  load32 (memory example_system) (page_directory + 4) = shared_table + 3.
Proof. exact (kernel_dir_low _ (kr_dir _ _ _ example_system_ready) 1 ltac:(lia)). Qed.

Lemma example_private : table_private (memory example_system).
Proof.
  intros k Hk. destruct example_vm_words as (_ & _ & Hi).
  assert (load32 (memory example_system) (shared_table + 4 * k) = (1 * 1024 + k) * 4096 + 3) as ->.
  { rewrite <- (Hi 1 k) by lia. set (c := bootstrap_stack + BOOTSTRAP_STACK_SIZE - sizeof_context).
    destruct (clear_context_spec c (ram example_vm)) as (_ & Hs & _).
    apply (same_outside_load32 _ _ _ _ (shared_table + 4 * k) Hs). right.
    change c with 0x135FC4. change shared_table with 0x132000. lia. }
  pose proof (entry_bits ((1 * 1024 + k) * 4096) 3 ltac:(dlia) ltac:(lia)) as (_ & _ & ->). done.
Qed.

Lemma process_create_correct_witness :
  ∃ r s', process_create 0x101234 7 example_system = (r, s') ∧
  (((∀ i, 1 ≤ i < 16 → reusable (slot example_system i) = false) ∧ r = -1 ∧ s' = example_system) ∨
   ∃ i, first_reusable example_system i ∧
    (((size example_free < 2)%nat ∧ r = -1 ∧ unchanged example_system s' 4096 example_free) ∨
     ∃ p q, r = next_pid example_system ∧ lowest p example_free ∧
      lowest q (example_free ∖ {[p]}) ∧
      processes s' = <[Z.to_nat i := mk_process (next_pid example_system) PROCESS_READY (q * 4096)
        (p * 4096) (p * 4096 + 4036) 0x101234 7 false false 0 0]> (processes example_system) ∧
      next_pid s' = next_pid example_system + 1 ∧ same_rest example_system s' ∧
      kernel_ready (machine s') 4096 (example_free ∖ {[p]} ∖ {[q]}) ∧
      same_outside_pages ({[p]} ∪ {[q]}) (memory example_system) (memory s') ∧
      context_at (memory s') (p * 4096 + 4036) (kernel_frame (p * 4096)) ∧
      ∀ va, 0 ≤ va < recursive_window →
        walk (memory s') (q * 4096) va = walk (memory example_system) page_directory va)).
Proof.
  exact (process_create_correct 0x101234 7 4096 example_free example_system example_system_ready
    ltac:(cbn; lia) ltac:(lia)).
Defined.

(** The image of [user_test.c] starts with these bytes. *)
Definition example_user_image : list Z := [0xb8; 1; 0; 0; 0; 0xbb; 1; 0; 0; 0].

Lemma process_create_user_correct_witness :
  ∃ res s', process_create_user (Some example_user_image) 10 example_system = (res, s') ∧
  ((¬ (0 < 10 ≤ 4096) ∧ res = -1 ∧ s' = example_system) ∨
   ((∀ i, 1 ≤ i < 16 → reusable (slot example_system i) = false) ∧ res = -1 ∧
     s' = example_system) ∨
   ∃ i, first_reusable example_system i ∧
    (((size example_free < 4)%nat ∧ res = -1 ∧ unchanged example_system s' 4096 example_free) ∨
     ∃ p q r t, res = next_pid example_system ∧
      user_created example_user_image 10 i 4096 example_free example_system s' p q r t ∧
      table_private (memory s') ∧
      (∀ o, 0 ≤ o < 4096 → walk (memory s') (t * 4096) (USER_CODE_ADDRESS + o) =
         Some (mk_translation (q * 4096 + o) true true)) ∧
      (∀ o, 0 ≤ o < 4096 → walk (memory s') (t * 4096) (USER_STACK_TOP - 4096 + o) =
         Some (mk_translation (r * 4096 + o) true true)) ∧
      ∀ va, 0 ≤ va < 2 ^ 32 → user_readable (memory s') (t * 4096) va →
        USER_CODE_ADDRESS ≤ va < USER_CODE_ADDRESS + 4096 ∨
        USER_STACK_TOP - 4096 ≤ va < USER_STACK_TOP)).
Proof.
  exact (process_create_user_correct example_user_image 10 4096 example_free example_system
    example_system_ready ltac:(cbn; lia) ltac:(lia) example_private).
Defined.

Lemma process_create_user_captures_witness :
  ∃ q s', process_create_user (Some example_user_image) 10 example_system = (1, s') ∧
    q ∈ example_free ∧
    (∃ i, first_reusable example_system i ∧ user_code_base (slot s' i) = q * 4096) ∧
    ∀ o, 0 ≤ o < 4096 → walk (memory s') page_directory (USER_CODE_ADDRESS + o) =
      Some (mk_translation (q * 4096 + o) true false).
Proof.
  apply (process_create_user_captures example_user_image 10 4096 example_free example_system
    page_directory 3 example_system_ready);
    [reflexivity|cbn; lia|lia|exact example_free_size|exists 1; exact example_first_slot|by left
    |reflexivity|apply above_kernel_dir; exact example_free_above|discriminate
    |exact example_shared_entry].
Defined.

(** Three processes: the bootstrap process in slot 0 is running, slots 2 and 5 are
    ready, slot 3 is a zombie. *)
Definition example_process (st : process_state) (stack : Z) : process :=
  mk_process 1 st 0x300000 stack (stack + 4036) 0x101234 0 false false 0 0.
Definition example_table : psys unit :=
  mk_psys (mk_vm ∅ () 0x130000 true [])
    ([mk_process 0 PROCESS_RUNNING page_directory 0 0x135FC4 0 0 true false 0 0; unused_process;
      example_process PROCESS_READY 0x301000; example_process PROCESS_ZOMBIE 0x302000;
      unused_process; example_process PROCESS_READY 0x303000] ++ replicate 10 unused_process)
    4 (Some 0) 0x135FC4 0x136000.

Lemma process_next_round_robin_correct_witness :
  fst (process_next_round_robin example_table) = Some 2 ∧
  ∃ res s', process_next_round_robin example_table = (res, s') ∧ res = running s' ∧
  (((∀ i, 0 ≤ i < 16 → runnable (slot example_table i) = false) ∧ s' = example_table) ∨
   ∃ i, next_in_turn example_table 0 i ∧ running s' = Some i ∧ machine s' = machine example_table ∧
     next_pid s' = next_pid example_table ∧
     tss_esp0 s' = process_kernel_stack_top (Some (slot example_table i)) ∧
     ∀ j, 0 ≤ j → slot s' j =
       if decide (i = j) then with_state PROCESS_RUNNING (slot example_table i) else slot example_table j).
Proof.
  split; [vm_compute; reflexivity|].
  apply (process_next_round_robin_correct 0 example_table); [reflexivity|reflexivity|lia].
Defined.

Lemma round_robin_fair_witness :
  running (turns 2 example_table) = Some 5 ∧
  ∃ n, (1 ≤ n ≤ 16)%nat ∧ running (turns n example_table) = Some 5.
Proof.
  split; [vm_compute; reflexivity|].
  apply (round_robin_fair 0 5 example_table); [reflexivity|reflexivity|lia|lia|reflexivity].
Defined.

End Process.
