(* ===== verification/Scheduler.v ===== *)
(** The scheduler, [process/scheduler.c]: what a timer tick or a yield does with an
    interrupt frame, and the kernel as a transition system of process creation,
    termination, computation and scheduling, with the invariant of its process
    table. *)

From S2P Require Import Prelude Memory Interfaces Pmm Paging Process.

Module Scheduler.
Import Paging Process.

(** ** Definitions *)

(** The two variables of the file, and the processes. *)
Record sched (S : Type) := mk_sched {
  system : psys S;
  scheduler_next_directory : Z;
  quantum_ticks : Z;
}.
Arguments mk_sched {S}.
Arguments system {S}.
Arguments scheduler_next_directory {S}.
Arguments quantum_ticks {S}.

Section code.
Context {S : Type} {PA : PageAllocator S} {KI : KernelImage}.
Implicit Types (s : sched S).

Definition with_system (p : psys S) s : sched S :=
  mk_sched p (scheduler_next_directory s) (quantum_ticks s).
Definition with_next_directory (d : Z) s : sched S := mk_sched (system s) d (quantum_ticks s).

Definition scheduler_init s : sched S := mk_sched (process_system_init (system s)) 0 0.

(** [process_current()->state != PROCESS_ZOMBIE].  [running] is null only before
    [scheduler_init]. *)
Definition current_alive (p : psys S) : bool :=
  match current p with
  | Some c => negb (bool_decide (state c = PROCESS_ZOMBIE))
  | None => true
  end.

(** The result is the frame to resume. *)
Definition schedule (ctx : Z) s : Z * sched S :=
  let s := with_next_directory 0 s in
  if andb (process_count (system s) <? 2) (current_alive (system s)) then (ctx, s)
  else
    let p := process_save_context ctx (system s) in
    let '(next, p) := process_next_round_robin p in
    let s := with_system p s in
    match next with
    | None => (ctx, s)
    | Some i =>
        let next := slot p i in
        if context next =? 0 then (ctx, s)
        else if negb (context next =? ctx) then
          (context next, with_next_directory (directory next) s)
        else (ctx, s)
    end.

(** [++quantum_ticks] *)
Definition count_quantum s : sched S :=
  mk_sched (system s) (scheduler_next_directory s) (quantum_ticks s +u 1).

Definition scheduler_tick (ctx : Z) s : Z * sched S := schedule ctx (count_quantum s).

Definition scheduler_yield (ctx : Z) s : Z * sched S := schedule ctx s.

End code.

(** ** Specification *)

(** The saved context of a process is untouched between two memories. *)
Definition same_context (c : Z) (m m' : mem) : Prop :=
  ∀ a, c ≤ a < c + 60 → load8 m' a = load8 m a.

(** The process table between two kernel operations, [F] being the free pages:
    slot 0 is the bootstrap process and never ends; every other slot in use has a
    page of its own as kernel stack, its saved context at the end of it, and a
    number of its own; the running slot is running or has just ended. *)
Record table_ok {S} {KI : KernelImage} (p : psys S) (F : gset Z) : Prop := {
  tk_length : length (processes p) = 16%nat;
  tk_bootstrap : bootstrap (slot p 0) = true ∧ state (slot p 0) = PROCESS_RUNNING ∧
    context (slot p 0) = bootstrap_context p ∧ directory (slot p 0) = page_directory ∧
    pid (slot p 0) = 0 ∧ bootstrap_context p = bootstrap_stack + 4036;
  tk_next : 1 ≤ next_pid p;
  tk_slot i : 1 ≤ i < 16 → state (slot p i) ≠ PROCESS_UNUSED →
    ∃ k, stack_base (slot p i) = k * 4096 ∧ kernel_end ≤ k * 4096 ∧ ¬ (k ∈ F) ∧
      context (slot p i) = k * 4096 + 4036 ∧ bootstrap (slot p i) = false ∧
      directory (slot p i) ≠ 0 ∧ 1 ≤ pid (slot p i) < next_pid p;
  tk_apart i j : 1 ≤ i < 16 → 1 ≤ j < 16 → i ≠ j →
    state (slot p i) ≠ PROCESS_UNUSED → state (slot p j) ≠ PROCESS_UNUSED →
    stack_base (slot p i) ≠ stack_base (slot p j) ∧ pid (slot p i) ≠ pid (slot p j);
  tk_running : ∃ r, running p = Some r ∧ 0 ≤ r < 16 ∧
    (state (slot p r) = PROCESS_RUNNING ∨ state (slot p r) = PROCESS_ZOMBIE);
}.

(** The invariant of the kernel. *)
Definition system_ok {S} {PA : PageAllocator S} {PAS : PageAllocatorSpec S} {KI : KernelImage}
    (n : Z) (p : psys S) : Prop :=
  ∃ F, kernel_ready (machine p) n F ∧ table_ok p F.

(** What running code does to memory between two kernel operations: anything but
    destroying the kernel directory or the saved context of another process. *)
Definition computes {S} {KI : KernelImage} (p : psys S) (m' : mem) : Prop :=
  mem_bytes m' ∧ kernel_dir m' ∧
  ∀ i, 0 ≤ i < 16 → running p ≠ Some i → state (slot p i) ≠ PROCESS_UNUSED →
    same_context (context (slot p i)) (memory p) m'.

(** The steps of the kernel.  Creating a process is done by a process that is
    alive, and the process numbers do not reach 2^31. *)
Inductive step {S} {PA : PageAllocator S} {KI : KernelImage} : sched S → sched S → Prop :=
| step_create entry argument r p s :
    current_alive (system s) = true → next_pid (system s) < 2 ^ 31 →
    process_create entry argument (system s) = (r, p) → step s (with_system p s)
| step_create_user image size r p s :
    current_alive (system s) = true → next_pid (system s) < 2 ^ 31 → 0 ≤ size < 2 ^ 32 →
    process_create_user image size (system s) = (r, p) → step s (with_system p s)
| step_terminate s : step s (with_system (process_terminate_current (system s)) s)
| step_compute m' s : computes (system s) m' → step s (with_system (with_memory m' (system s)) s)
| step_schedule ctx c s s' : schedule ctx s = (c, s') → step s s'
| step_tick ctx c s s' : scheduler_tick ctx s = (c, s') → step s s'.

Inductive reachable {S} {PA : PageAllocator S} {KI : KernelImage} (s0 : sched S) : sched S → Prop :=
| reachable_start : reachable s0 s0
| reachable_step s s' : reachable s0 s → step s s' → reachable s0 s'.

(** Steps during which slot [r] is not the running one. *)
Inductive steps_without {S} {PA : PageAllocator S} {KI : KernelImage} (r : Z)
    : sched S → sched S → Prop :=
| without_refl s : steps_without r s s
| without_step s s' s'' : running (system s) ≠ Some r → step s s' →
    steps_without r s' s'' → steps_without r s s''.

(** ** Lemmas *)

(** Writing a word back where it was read. *)
Lemma store32_load32 m a b : mem_bytes m → load8 (store32 m a (load32 m a)) b = load8 m b.
Proof.
  intros Hm. pose proof (Hm a). pose proof (Hm (a + 1)). pose proof (Hm (a + 2)).
  pose proof (Hm (a + 3)). unfold is_byte in *. unfold store32, load32. cbn [le_value].
  rewrite !load8_store8, !shiftr_div by lia. unfold u8.
  repeat case_decide; subst; dlia.
Qed.

Section lemmas.
Context {S : Type} {PA : PageAllocator S} {PAS : PageAllocatorSpec S}.
Context {KI : KernelImage} {KIO : KernelImageOk}.
Implicit Types (p : psys S) (s : sched S) (F : gset Z).

(** Copying a frame to a place that is the same or does not overlap. *)
Lemma copy_context_spec to from m :
  mem_bytes m →
  same_outside to 60 m (copy_context to from m) ∧ mem_bytes (copy_context to from m) ∧
  (to = from ∨ to + 60 ≤ from ∨ from + 60 ≤ to →
   ∀ j, 0 ≤ j < 15 → load32 (copy_context to from m) (to + 4 * j) = load32 m (from + 4 * j)).
Proof.
  intros Hm. unfold copy_context. change (sizeof_context / 4) with 15. split; [|split].
  - by apply (fill32_same_outside to 15).
  - by apply fill32_mem_bytes.
  - intros [->|Hap] j Hj.
    + apply load32_ext. intros b _. unfold fill32.
      assert (mem_bytes (for_loop 0 15 (λ i m, store32 m (from + 4 * i) (load32 m (from + 4 * i))) m)
        ∧ ∀ b, load8 (for_loop 0 15 (λ i m, store32 m (from + 4 * i) (load32 m (from + 4 * i))) m) b
          = load8 m b) as [_ H]; [|apply H].
      apply (for_loop_ind (λ _ m', mem_bytes m' ∧ ∀ b, load8 m' b = load8 m b)); [done|done|].
      intros i m' Hi [Hb IH]. split; [auto with levos|]. intros b'.
      by rewrite store32_load32.
    + rewrite (load32_fill32 to 15 _ m ltac:(lia) (λ i, load32 m (from + 4 * i))); [|  |done].
      * apply u32_small. by apply load32_range.
      * intros m' i Hi Hs. apply (same_outside_load32 _ _ _ _ _ Hs). lia.
Qed.

Lemma table_ok_ext p p' F :
  processes p' = processes p → next_pid p' = next_pid p → running p' = running p →
  bootstrap_context p' = bootstrap_context p → table_ok p F → table_ok p' F.
Proof.
  intros E1 E2 E3 E4 [H1 H2 H3 H4 H5 H6].
  assert (∀ i, slot p' i = slot p i) as E by (intros i; unfold slot; by rewrite E1).
  split; rewrite ?E1, ?E2, ?E3, ?E4; try done; intros; rewrite ?E in *; auto.
  destruct H6 as (r & ? & ? & ?). exists r. by rewrite E.
Qed.

(** The place of the saved context of a slot in use: at the end of a page that is
    not free and above the kernel, or of the bootstrap stack. *)
Definition context_place F (c : Z) : Prop :=
  (∃ k, c = k * 4096 + 4036 ∧ kernel_end ≤ k * 4096 ∧ k ∉ F) ∨ c = bootstrap_stack + 4036.

Lemma slot_context p F i :
  table_ok p F → 0 ≤ i < 16 → state (slot p i) ≠ PROCESS_UNUSED →
  context_place F (context (slot p i)).
Proof.
  intros Ht Hi Hu. destruct (decide (i = 0)) as [->|].
  - right. destruct (tk_bootstrap _ _ Ht) as (_ & _ & -> & _ & _ & E). exact E.
  - left. destruct (tk_slot _ _ Ht i ltac:(lia) Hu) as (k & _ & ? & ? & ? & _). by exists k.
Qed.

Lemma contexts_apart p F i j :
  table_ok p F → 0 ≤ i < 16 → 0 ≤ j < 16 → i ≠ j →
  state (slot p i) ≠ PROCESS_UNUSED → state (slot p j) ≠ PROCESS_UNUSED →
  context (slot p i) + 60 ≤ context (slot p j) ∨ context (slot p j) + 60 ≤ context (slot p i).
Proof.
  intros Ht Hi Hj Hne Hui Huj. pose proof bootstrap_stack_place.
  destruct (tk_bootstrap _ _ Ht) as (_ & _ & E0 & _ & _ & E0').
  destruct (decide (i = 0)) as [->|Hi0], (decide (j = 0)) as [->|Hj0]; [done| | |].
  - destruct (tk_slot _ _ Ht j ltac:(lia) Huj) as (k & _ & ? & _ & -> & _). lia.
  - destruct (tk_slot _ _ Ht i ltac:(lia) Hui) as (k & _ & ? & _ & -> & _). lia.
  - destruct (tk_slot _ _ Ht i ltac:(lia) Hui) as (k & Ek & ? & _ & -> & _).
    destruct (tk_slot _ _ Ht j ltac:(lia) Huj) as (k' & Ek' & ? & _ & -> & _).
    destruct (tk_apart _ _ Ht i j) as [Hs _]; try done; try lia.
Qed.

(** Writing a saved context leaves the kernel directory alone. *)
Lemma context_kernel_dir F c m m' :
  context_place F c → same_outside c 60 m m' → kernel_dir m → kernel_dir m'.
Proof.
  intros Hc Hs Hk. pose proof directory_stack_apart. pose proof bootstrap_stack_place.
  pose proof page_directory_place.
  assert (c + 60 ≤ page_directory ∨ page_directory + 4096 ≤ c) as Hap.
  { destruct Hc as [(k & -> & ? & _)| ->]; lia. }
  assert (∀ i, 0 ≤ i < 1024 →
    load32 m' (page_directory + 4 * i) = load32 m (page_directory + 4 * i)) as E.
  { intros i Hi. apply (same_outside_load32 _ _ _ _ _ Hs). lia. }
  split; intros; rewrite E by lia; by apply Hk.
Qed.

Lemma context_nonzero F c : context_place F c → 0 < c.
Proof.
  pose proof bootstrap_stack_place. pose proof page_directory_place.
  intros [(k & -> & ? & _)| ->]; lia.
Qed.

(** Pages taken from the allocator, and the shared table, hold no saved context. *)
Lemma context_outside F ps m m' c :
  context_place F c → above_kernel F →
  (∀ x, x ∈ ps → x ∈ F ∨ x = shared_table / 4096) →
  same_outside_pages ps m m' → same_context c m m'.
Proof.
  intros Hc Ha Hps Hs a Hin. apply Hs. intros Hx. pose proof shared_table_page as (Est & _ & Hk & _).
  pose proof bootstrap_stack_place. pose proof tables_stack_apart.
  assert (a / 4096 * 4096 ≤ a < a / 4096 * 4096 + 4096) as Hpage by dlia.
  destruct Hc as [(k & -> & ? & Hn)| ->].
  - assert (a / 4096 = k) as Ek by dlia. rewrite Ek in Hx. destruct (Hps k Hx) as [| ->]; [done|lia].
  - destruct (Hps _ Hx) as [HF%Ha| E]; [lia|]. rewrite E in Hpage. unfold shared_table in *. lia.
Qed.

Lemma table_running p F r :
  table_ok p F → running p = Some r →
  0 ≤ r < 16 ∧ state (slot p r) ≠ PROCESS_UNUSED.
Proof.
  intros Ht Hr. destruct (tk_running _ _ Ht) as (r' & E & Hb & Hs).
  assert (r' = r) as -> by congruence. split; [done|]. by destruct Hs as [-> | ->].
Qed.

(** *** Saving a context *)

Lemma with_slot_id p i x : slot p i = x → 0 ≤ i < 16 → length (processes p) = 16%nat →
  set_slot i x p = p.
Proof.
  intros <- Hi Hl. unfold set_slot, with_processes, slot. rewrite nth_lookup.
  destruct (lookup_lt_is_Some_2 (processes p) (Z.to_nat i)) as [y E]; [lia|].
  rewrite E. simpl. rewrite list_insert_id by done. by destruct p.
Qed.

Lemma with_context_id (q : process) : with_context (context q) q = q.
Proof. by destruct q. Qed.

Lemma save_context_spec p F ctx r :
  table_ok p F → running p = Some r → mem_bytes (memory p) →
  ∃ m', process_save_context ctx p = with_memory m' p ∧ mem_bytes m' ∧
    same_outside (context (slot p r)) 60 (memory p) m' ∧
    (context (slot p r) = ctx ∨ context (slot p r) + 60 ≤ ctx ∨ ctx + 60 ≤ context (slot p r) →
     ∀ j, 0 ≤ j < 15 → load32 m' (context (slot p r) + 4 * j) = load32 (memory p) (ctx + 4 * j)).
Proof.
  intros Ht Hr Hb. destruct (table_running _ _ _ Ht Hr) as [Hbd Hu].
  destruct (copy_context_spec (context (slot p r)) ctx (memory p) Hb) as (Hs & Hb' & Hw).
  unfold process_save_context. rewrite Hr.
  destruct (decide (r = 0)) as [->|Hr0].
  - destruct (tk_bootstrap _ _ Ht) as (E1 & _ & E2 & _). rewrite E1, <- E2.
    eexists. split; [|split; [exact Hb'|split; [exact Hs|exact Hw]]].
    apply with_slot_id; [|lia|apply Ht].
    change (slot p 0 = with_context (bootstrap_context p) (slot p 0)).
    by rewrite <- E2, with_context_id.
  - destruct (tk_slot _ _ Ht r ltac:(lia) Hu) as (k & _ & _ & _ & _ & E1 & _). rewrite E1.
    destruct (Z.eqb_spec (context (slot p r)) ctx) as [E|Hne].
    + exists (memory p). split; [by destruct p as [[]]|]. split; [done|split; [done|]].
      intros _ j Hj. by rewrite E.
    + eexists. split; [done|]. split; [exact Hb'|split; [exact Hs|exact Hw]].
Qed.

Lemma save_context_ok p F n ctx :
  kernel_ready (machine p) n F → table_ok p F →
  kernel_ready (machine (process_save_context ctx p)) n F ∧
  table_ok (process_save_context ctx p) F.
Proof.
  intros Hr Ht. destruct (tk_running _ _ Ht) as (r & Er & Hb & _).
  destruct (table_running _ _ _ Ht Er) as [_ Hu].
  destruct (save_context_spec p F ctx r Ht Er (kr_bytes _ _ _ Hr)) as (m' & -> & Hb' & Hs & _).
  split; [|by apply (table_ok_ext p)]. split; [apply Hr|done| |apply Hr].
  apply (context_kernel_dir F _ _ _ (slot_context p F r Ht Hb Hu) Hs). apply Hr.
Qed.

(** *** Switching *)

Lemma first_slot_runnable p F : table_ok p F → runnable (slot p 0) = true.
Proof. intros Ht. destruct (tk_bootstrap _ _ Ht) as (_ & E & _). unfold runnable. by rewrite E. Qed.

Lemma runnable_used p i : runnable (slot p i) = true → state (slot p i) ≠ PROCESS_UNUSED.
Proof. unfold runnable. by destruct (state (slot p i)). Qed.

(** Replacing the entry of a slot in use by one that differs in its state only. *)
Lemma table_ok_state p F i st :
  table_ok p F → 0 ≤ i < 16 → state (slot p i) ≠ PROCESS_UNUSED → st ≠ PROCESS_UNUSED →
  (i = 0 → st = PROCESS_RUNNING) →
  (running p = Some i → st = PROCESS_RUNNING ∨ st = PROCESS_ZOMBIE) →
  table_ok (set_slot i (with_state st (slot p i)) p) F.
Proof.
  intros Ht Hi Hu Hst H0 Hrun. set (p' := set_slot _ _ _).
  assert (∀ j, 0 ≤ j → slot p' j = if decide (i = j) then with_state st (slot p i) else slot p j) as E.
  { intros j Hj. apply slot_set_slot; [apply Ht|done|done]. }
  assert (∀ j, 0 ≤ j → stack_base (slot p' j) = stack_base (slot p j) ∧
    context (slot p' j) = context (slot p j) ∧ bootstrap (slot p' j) = bootstrap (slot p j) ∧
    directory (slot p' j) = directory (slot p j) ∧ pid (slot p' j) = pid (slot p j) ∧
    (state (slot p' j) ≠ PROCESS_UNUSED → state (slot p j) ≠ PROCESS_UNUSED)) as E'.
  { intros j Hj. rewrite E by done. by case_decide; subst. }
  split.
  - simpl. rewrite length_insert. apply Ht.
  - destruct (E' 0 ltac:(lia)) as (_ & -> & -> & -> & -> & _).
    destruct (tk_bootstrap _ _ Ht) as (? & ? & ? & ? & ? & ?).
    split; [done|split; [|done]]. rewrite E by lia. case_decide; [by apply H0|done].
  - apply Ht.
  - intros j Hj Huj. destruct (E' j ltac:(lia)) as (-> & -> & -> & -> & -> & Hux).
    apply Ht; auto.
  - intros j k Hj Hk Hne Huj Huk. destruct (E' j ltac:(lia)) as (-> & _ & _ & _ & -> & Hux).
    destruct (E' k ltac:(lia)) as (-> & _ & _ & _ & -> & Huy). apply Ht; auto.
  - destruct (tk_running _ _ Ht) as (r & Er & Hb & Hs). exists r. split; [done|split; [done|]].
    rewrite E by lia. case_decide; [subst|done]. by apply Hrun.
Qed.

Lemma make_running_ok p F i :
  table_ok p F → 0 ≤ i < 16 → runnable (slot p i) = true → table_ok (make_running i p) F.
Proof.
  intros Ht Hi Hrun. pose proof (runnable_used _ _ Hrun) as Hu.
  assert (table_ok (set_slot i (with_state PROCESS_RUNNING (slot p i)) p) F) as H'.
  { apply table_ok_state; auto. }
  destruct H' as [H1 H2 H3 H4 H5 _]. split; try done.
  exists i. split; [done|split; [done|]]. left.
  rewrite make_running_slot by (done || lia || apply Ht). by rewrite decide_True.
Qed.

Lemma next_in_turn_range p r i : next_in_turn p r i → 0 ≤ i < 16 ∧ runnable (slot p i) = true.
Proof. intros (k & _ & -> & Hr & _). split; [dlia|done]. Qed.

(** *** Creation *)

(** The entry of a process just created with kernel stack page [k]. *)
Definition fresh_entry p (k : Z) (x : process) : Prop :=
  stack_base x = k * 4096 ∧ context x = k * 4096 + 4036 ∧ bootstrap x = false ∧
  directory x ≠ 0 ∧ pid x = next_pid p ∧ state x = PROCESS_READY.

Lemma current_alive_state p r :
  running p = Some r → current_alive p = true → state (slot p r) ≠ PROCESS_ZOMBIE.
Proof.
  unfold current_alive, current. intros ->. simpl. case_bool_decide; [done|]. done.
Qed.

Lemma table_ok_create p p' F F' i k x :
  table_ok p F → first_reusable p i → current_alive p = true → fresh_entry p k x →
  processes p' = <[Z.to_nat i := x]> (processes p) → next_pid p' = next_pid p + 1 →
  same_rest p p' → F' ⊆ F → k ∈ F → k ∉ F' → kernel_end ≤ k * 4096 → table_ok p' F'.
Proof.
  intros Ht (Hi & Hre & _) Ha (X1 & X2 & X3 & X4 & X5 & X6) Ep En (E1 & E2 & _) Hsub Hk Hk' Hke.
  assert (∀ j, 0 ≤ j → slot p' j = if decide (i = j) then x else slot p j) as E.
  { intros j Hj. rewrite <- (slot_set_slot i j x p) by (done || lia || apply Ht).
    unfold slot. by rewrite Ep. }
  pose proof (tk_next _ _ Ht) as Hnext. split.
  - rewrite Ep, length_insert. apply Ht.
  - rewrite E, decide_False by lia. rewrite E2. apply Ht.
  - lia.
  - intros j Hj. rewrite E by lia. rewrite En. case_decide.
    + intros _. exists k. rewrite X1, X2, X3, X5. do 6 (split; [done|]). lia.
    + intros Hu. destruct (tk_slot _ _ Ht j Hj Hu) as (k' & ? & ? & Hn & ? & ? & ? & ?).
      exists k'. do 2 (split; [done|]). split; [set_solver|]. do 3 (split; [done|]). lia.
  - intros j j' Hj Hj' Hne. rewrite !E by lia. repeat case_decide; [lia| | |].
    + intros _ Hu. destruct (tk_slot _ _ Ht j' Hj' Hu) as (k' & B1 & _ & Hn & _ & _ & _ & B7).
      rewrite X1, X5, B1. split; [|lia]. intros Ek. assert (k = k') as -> by lia. done.
    + intros Hu _. destruct (tk_slot _ _ Ht j Hj Hu) as (k' & B1 & _ & Hn & _ & _ & _ & B7).
      rewrite X1, X5, B1. split; [|lia]. intros Ek. assert (k' = k) as -> by lia. done.
    + by apply Ht.
  - destruct (tk_running _ _ Ht) as (r & Er & Hb & Hs). exists r. rewrite E1.
    split; [done|split; [done|]]. rewrite E by lia. case_decide; [|done]. subst.
    pose proof (current_alive_state p r Er Ha). unfold reusable in Hre.
    destruct Hs as [Es|]; [|done]. by rewrite Es in Hre.
Qed.

(** The kernel before and after an operation, seen from slot [i]: the process in it
    keeps its saved context. *)
Definition keeps (p p' : psys S) (i : Z) : Prop :=
  runnable (slot p' i) = true ∧ context (slot p' i) = context (slot p i) ∧
  directory (slot p' i) = directory (slot p i) ∧
  same_context (context (slot p i)) (memory p) (memory p').

Lemma keeps_same p p' i :
  processes p' = processes p → memory p' = memory p → runnable (slot p i) = true → keeps p p' i.
Proof.
  intros E Em Hr. assert (slot p' i = slot p i) as Es by (unfold slot; by rewrite E).
  unfold keeps. rewrite Es, Em. done.
Qed.

Lemma keeps_create p p' F i j x ps :
  table_ok p F → above_kernel F → first_reusable p i →
  processes p' = <[Z.to_nat i := x]> (processes p) →
  (∀ y, y ∈ ps → y ∈ F ∨ y = shared_table / 4096) →
  same_outside_pages ps (memory p) (memory p') →
  0 ≤ j < 16 → runnable (slot p j) = true → keeps p p' j.
Proof.
  intros Ht Ha (Hi & Hre & _) Ep Hps Hs Hj Hrun.
  assert (i ≠ j) as Hne.
  { intros ->. unfold runnable, reusable in *. by destruct (state (slot p j)). }
  assert (slot p' j = slot p j) as E.
  { transitivity (slot (set_slot i x p) j); [unfold slot; by rewrite Ep|].
    rewrite slot_set_slot by (done || lia || apply Ht). by rewrite decide_False. }
  unfold keeps. rewrite E. do 3 (split; [done|]).
  apply (context_outside F ps); [|done|done|done].
  apply (slot_context p F j Ht Hj). by apply runnable_used.
Qed.

(** [p'] is a kernel that [p] may become: the invariant holds and the processes
    that are not running keep their contexts. *)
Definition good_step (n : Z) (p p' : psys S) : Prop :=
  system_ok n p' ∧
  ∀ i, 0 ≤ i < 16 → running p ≠ Some i → runnable (slot p i) = true → keeps p p' i.

Lemma good_step_refl n p : system_ok n p → good_step n p p.
Proof. intros H. split; [done|]. intros. by apply keeps_same. Qed.

Lemma good_step_unchanged n p p' F :
  kernel_ready (machine p) n F → table_ok p F → unchanged p p' n F → good_step n p p'.
Proof.
  intros Hr Ht (Hp & Hm & _ & Et & En & E1 & E2 & _). split.
  - exists F. split; [|by apply (table_ok_ext p)]. destruct Hr as [_ Hb Hk Ha].
    unfold memory in Hm. split; [done| | |done]; by rewrite Hm.
  - intros. by apply keeps_same.
Qed.

Lemma create_good n entry argument p p' r :
  system_ok n p → current_alive p = true → next_pid p < 2 ^ 31 →
  process_create entry argument p = (r, p') → good_step n p p'.
Proof.
  intros (F & Hr & Ht) Ha Hn E. destruct (decide (entry = 0)) as [->|He].
  { injection E as _ <-. apply good_step_refl. by exists F. }
  pose proof (tk_next _ _ Ht).
  destruct (process_create_cases entry argument p He) as [[_ Ec]|(i & Hi & Ec)]; rewrite Ec in E.
  { injection E as _ <-. apply good_step_refl. by exists F. }
  destruct (create_in_slot_spec entry argument i p n F Hr ltac:(lia))
    as (s' & [(_ & E' & Hu)|(k & q & E' & [Hk _] & [Hq _] & Ep & En & Hs & Hr' & Ho & _)]);
    rewrite E' in E; injection E as _ <-; [by apply (good_step_unchanged n p s' F)|].
  pose proof (pages_range _ _ _ _ (kr_pages _ _ _ Hr) Hk).
  pose proof (pages_range _ _ _ _ (kr_pages _ _ _ Hr) (ltac:(set_solver) : q ∈ F)).
  split.
  - exists (F ∖ {[k]} ∖ {[q]}). split; [done|].
    eapply (table_ok_create p s' F _ i k); try done; [|set_solver|set_solver|apply (kr_above _ _ _ Hr k Hk)].
    unfold fresh_entry; simpl. split_and!; done || lia.
  - intros j Hj _ Hrun. eapply (keeps_create p s' F i j _ ({[k]} ∪ {[q]})); try done; [apply Hr|].
    intros y Hy. left. set_solver.
Qed.

Lemma create_user_good n image sz p p' r :
  system_ok n p → current_alive p = true → next_pid p < 2 ^ 31 → 0 ≤ sz < 2 ^ 32 →
  process_create_user image sz p = (r, p') → good_step n p p'.
Proof.
  intros (F & Hr & Ht) Ha Hn Hsz E.
  assert (system_ok n p) as Hok by (by exists F). pose proof (tk_next _ _ Ht).
  destruct image as [image|]; [|injection E as _ <-; by apply good_step_refl].
  destruct (decide (0 < sz ≤ 4096)) as [Hs|Hs]; cycle 1.
  { unfold process_create_user in E.
    destruct (Z.eqb_spec sz 0), (Z.ltb_spec 4096 sz); cbn [orb] in E;
      try (injection E as _ <-; by apply good_step_refl); lia. }
  destruct (process_create_user_cases image sz p Hs) as [[_ Ec]|(i & Hi & Ec)]; rewrite Ec in E.
  { injection E as _ <-. by apply good_step_refl. }
  destruct (decide (size F < 4)%nat) as [Hf|Hf].
  { destruct (create_user_scarce image sz i p n F Hr Hf) as (s' & E' & Hu).
    rewrite E' in E. injection E as _ <-. by apply (good_step_unchanged n p s' F). }
  destruct (create_user_success image sz i p n F Hr ltac:(lia) ltac:(lia) ltac:(lia))
    as (s' & k & q & u & t & E' & Hc).
  rewrite E' in E. injection E as _ <-.
  pose proof (uc_stack _ _ _ _ _ _ _ _ _ _ _ Hc) as [Hk _].
  pose proof (uc_code _ _ _ _ _ _ _ _ _ _ _ Hc) as [Hq _].
  pose proof (uc_directory _ _ _ _ _ _ _ _ _ _ _ Hc) as [Htd _].
  assert (t ∈ F) as HtF by set_solver.
  pose proof (pages_range _ _ _ _ (kr_pages _ _ _ Hr) HtF). split.
  - exists (F ∖ {[k]} ∖ {[q]} ∖ {[u]} ∖ {[t]}). split; [apply Hc|].
    eapply (table_ok_create p s' F _ i k); try done;
      [|apply Hc|apply Hc|apply Hc|set_solver|set_solver|apply (kr_above _ _ _ Hr k Hk)].
    unfold fresh_entry; simpl. split_and!; done || lia.
  - intros j Hj _ Hrun.
    eapply (keeps_create p s' F i j _ ({[k]} ∪ {[q]} ∪ {[t]} ∪ {[shared_table / 4096]}));
      try done; [apply Hr|apply Hc| |apply Hc].
    intros y. rewrite !elem_of_union, !elem_of_singleton.
    intros [[[-> | ->] | ->] | ->]; [left|left|left|by right]; set_solver.
Qed.

(** *** Scheduling *)

(** Only the calling process is runnable. *)
Definition alone p : Prop := process_count p < 2 ∧ current_alive p = true.

Lemma schedule_cases n s F r ctx :
  kernel_ready (machine (system s)) n F → table_ok (system s) F → running (system s) = Some r →
  (alone (system s) ∧ schedule ctx s = (ctx, with_next_directory 0 s)) ∨
  ∃ i m', ¬ alone (system s) ∧ next_in_turn (system s) r i ∧
    process_save_context ctx (system s) = with_memory m' (system s) ∧
    let p := make_running i (with_memory m' (system s)) in
    schedule ctx s =
      if context (slot (system s) i) =? ctx then (ctx, mk_sched p 0 (quantum_ticks s))
      else (context (slot (system s) i),
            mk_sched p (directory (slot (system s) i)) (quantum_ticks s)).
Proof.
  intros Hr Ht Er. destruct (table_running _ _ _ Ht Er) as [Hb _]. unfold schedule, alone.
  change (system (with_next_directory 0 s)) with (system s).
  destruct (Z.ltb_spec (process_count (system s)) 2) as [Hc|Hc], (current_alive (system s)) eqn:Ea;
    cbn [andb]; [by left|right|right|right].
  all: destruct (save_context_spec (system s) F ctx r Ht Er (kr_bytes _ _ _ Hr)) as (m' & E & _).
  all: rewrite E; set (p := with_memory m' (system s)).
  all: destruct (process_next_cases p r Er Hb) as [[Hn _]|(i & Hi & ->)];
    
    [exfalso; pose proof (first_slot_runnable _ _ Ht) as H0; pose proof (Hn 0 ltac:(lia)) as H1;
     change (slot p 0) with (slot (system s) 0) in H1; congruence|].
  all: destruct (next_in_turn_range _ _ _ Hi) as [Hib Hir].
  all: exists i, m'; split; [intros [? ?]; done || lia|split; [done|split; [done|]]].
  all: pose proof (slot_context (system s) F i Ht Hib (runnable_used _ _ Hir)) as Hpl.
  all: pose proof (context_nonzero _ _ Hpl).
  all: assert (slot (make_running i p) i = with_state PROCESS_RUNNING (slot (system s) i)) as Es
    by (rewrite make_running_slot by (done || lia || apply Ht); by rewrite decide_True).
  all: cbv zeta; rewrite Es; cbn [context with_state directory].
  all: rewrite (proj2 (Z.eqb_neq (context (slot (system s) i)) 0)) by lia.
  all: by destruct (context (slot (system s) i) =? ctx).
Qed.

Lemma schedule_good n ctx c s s' :
  system_ok n (system s) → schedule ctx s = (c, s') → good_step n (system s) (system s').
Proof.
  intros (F & Hr & Ht) E. destruct (tk_running _ _ Ht) as (r & Er & Hb & _).
  destruct (table_running _ _ _ Ht Er) as [_ Hu].
  destruct (schedule_cases n s F r ctx Hr Ht Er) as [[_ Ec]|(i & m' & _ & Hi & Es & Ec)];
    rewrite Ec in E.
  { injection E as _ <-. apply good_step_refl. by exists F. }
  assert (system s' = make_running i (with_memory m' (system s))) as ->.
  { cbv zeta in E. by destruct (_ =? _); injection E as _ <-. }
  destruct (next_in_turn_range _ _ _ Hi) as [Hib Hir].
  destruct (save_context_ok (system s) F n ctx Hr Ht) as [Hr' Ht']. rewrite Es in Hr', Ht'.
  destruct (save_context_spec (system s) F ctx r Ht Er (kr_bytes _ _ _ Hr))
    as (m'' & Es' & _ & Hs & _).
  assert (m'' = m') as ->.
  { pose proof (f_equal memory (eq_trans (eq_sym Es) Es')) as Hm. by cbn in Hm. }
  split; [exists F; split; [done|by apply make_running_ok]|].
  intros j Hj Hne Hrun. assert (j ≠ r) as Hjr by congruence.
  assert (length (processes (with_memory m' (system s))) = 16%nat) as Hl by apply Ht.
  unfold keeps. rewrite make_running_runnable by (done || lia).
  rewrite (make_running_slot i j) by (done || lia). split; [done|split; [|split]].
  - case_decide; [by subst|done].
  - case_decide; [by subst|done].
  - intros a Ha. apply Hs.
    destruct (contexts_apart _ _ j r Ht Hj Hb Hjr (runnable_used _ _ Hrun) Hu); lia.
Qed.

Lemma terminate_good n p : system_ok n p → good_step n p (process_terminate_current p).
Proof.
  intros (F & Hr & Ht). destruct (tk_running _ _ Ht) as (r & Er & Hb & _).
  destruct (table_running _ _ _ Ht Er) as [_ Hu]. unfold process_terminate_current. rewrite Er.
  destruct (bootstrap (slot p r)) eqn:Eb; [apply good_step_refl; by exists F|].
  assert (r ≠ 0) as Hr0.
  { intros ->. destruct (tk_bootstrap _ _ Ht) as (E & _). congruence. }
  split.
  - exists F. split; [exact Hr|]. apply table_ok_state; try done. by right.
  - intros i Hi Hne Hrun. assert (r ≠ i) as Hri by congruence. unfold keeps.
    rewrite slot_set_slot, decide_False by (done || lia || apply Ht). done.
Qed.

Lemma compute_good n p m' : system_ok n p → computes p m' → good_step n p (with_memory m' p).
Proof.
  intros (F & Hr & Ht) (Hb & Hk & Hc). split.
  - exists F. split; [|by apply (table_ok_ext p)]. split; [apply Hr|done|done|apply Hr].
  - intros i Hi Hne Hrun. split; [done|split; [done|split; [done|]]].
    apply Hc; try done. by apply runnable_used.
Qed.

(** Every step of the kernel keeps the invariant and the contexts of the processes
    that are not running. *)
Lemma step_good n s s' :
  system_ok n (system s) → step s s' → good_step n (system s) (system s').
Proof.
  intros Hok Hst. destruct Hst as [e a r p s Ha Hn E|img sz r p s Ha Hn Hsz E|s|m' s Hc
    |ctx c s s' E|ctx c s s' E].
  - by apply (create_good n e a (system s) p r).
  - by apply (create_user_good n img sz (system s) p r).
  - by apply terminate_good.
  - by apply compute_good.
  - by apply (schedule_good n ctx c).
  - unfold scheduler_tick in E. by apply (schedule_good n ctx c) in E.
Qed.

Lemma scheduler_init_ok n F s :
  kernel_ready (machine (system s)) n F → 1 ≤ next_pid (system s) →
  system_ok n (system (scheduler_init s)).
Proof.
  intros Hr Hn. change (system (scheduler_init s)) with (process_system_init (system s)).
  exists F. split; [by apply process_system_init_ready|].
  assert (∀ i, 1 ≤ i < 16 → slot (process_system_init (system s)) i = unused_process) as Hun.
  { intros i Hi. unfold slot. cbn [processes process_system_init tss_set_kernel_stack].
    replace (Z.to_nat i) with (Datatypes.S (Z.to_nat (i - 1))) by lia. cbn [nth].
    rewrite nth_lookup, lookup_replicate_2 by lia. done. }
  split.
  - done.
  - split; [done|split; [done|split; [done|split; [done|split; [done|]]]]].
    cbn. unfold BOOTSTRAP_STACK_SIZE, sizeof_context. lia.
  - done.
  - intros i Hi Hu. by rewrite (Hun i Hi) in Hu.
  - intros i j Hi _ _ Hu. by rewrite (Hun i Hi) in Hu.
  - exists 0. split; [done|split; [lia|by left]].
Qed.

Lemma steps_without_keeps n r s s' :
  system_ok n (system s) → 0 ≤ r < 16 → runnable (slot (system s) r) = true →
  steps_without r s s' → system_ok n (system s') ∧ keeps (system s) (system s') r.
Proof.
  intros Hok Hb Hrun Hs. induction Hs as [s|s s1 s2 Hne Hst _ IH].
  { split; [done|]. by apply keeps_same. }
  destruct (step_good n s s1 Hok Hst) as [Hok1 Hk]. destruct (Hk r Hb Hne Hrun) as (K1 & K2 & K3 & K4).
  destruct (IH Hok1 K1) as (Hok2 & L1 & L2 & L3 & L4). split; [done|].
  rewrite K2 in *. split; [done|split; [done|split; [congruence|]]].
  intros a Ha. rewrite L4, K4 by done. done.
Qed.

(** The process preempted keeps its place and its frame is saved. *)
Lemma preempt_saves n r ctx l s c s1 :
  system_ok n (system s) → running (system s) = Some r → runnable (slot (system s) r) = true →
  context_at (memory (system s)) ctx l →
  context (slot (system s) r) = ctx ∨ context (slot (system s) r) + 60 ≤ ctx ∨
    ctx + 60 ≤ context (slot (system s) r) →
  schedule ctx s = (c, s1) → running (system s1) ≠ Some r →
  system_ok n (system s1) ∧ runnable (slot (system s1) r) = true ∧
  context (slot (system s1) r) = context (slot (system s) r) ∧
  directory (slot (system s1) r) = directory (slot (system s) r) ∧
  context_at (memory (system s1)) (context (slot (system s) r)) l.
Proof.
  intros Hok Er Hrun Hl Hap E Hne. pose proof (schedule_good n ctx c s s1 Hok E) as [Hok1 _].
  split; [done|]. destruct Hok as (F & Hr & Ht). destruct (table_running _ _ _ Ht Er) as [Hb _].
  destruct (schedule_cases n s F r ctx Hr Ht Er) as [[_ Ec]|(i & m' & _ & Hi & Es & Ec)];
    rewrite Ec in E; [injection E as _ <-; done|].
  assert (system s1 = make_running i (with_memory m' (system s))) as Es1.
  { cbv zeta in E. by destruct (_ =? _); injection E as _ <-. }
  destruct (next_in_turn_range _ _ _ Hi) as [Hib Hir].
  assert (i ≠ r) as Hir' by (intros ->; by rewrite Es1 in Hne).
  destruct (save_context_spec (system s) F ctx r Ht Er (kr_bytes _ _ _ Hr))
    as (m'' & Es' & _ & _ & Hw).
  assert (m'' = m') as ->.
  { pose proof (f_equal memory (eq_trans (eq_sym Es) Es')) as Hm. by cbn in Hm. }
  rewrite Es1, make_running_slot, decide_False by (done || lia || apply Ht).
  split; [done|split; [done|split; [done|]]].
  intros j Hj. rewrite <- Hl by done. by apply Hw.
Qed.
End lemmas.

(** ** Properties *)

Section properties.
Context {S : Type} {PA : PageAllocator S} {PAS : PageAllocatorSpec S}.
Context {KI : KernelImage} {KIO : KernelImageOk}.

(** The invariant of the kernel holds in every state that creation,
    termination, computation, ticks and yields can reach from [scheduler_init]: the
    bootstrap process runs or waits for ever, and the processes in the table have
    separate stacks outside the kernel image and the free pages, contexts at the
    ends of their stacks, and distinct numbers. *)
Theorem reachable_system_ok n F (s0 s : sched S) :
  kernel_ready (machine (system s0)) n F → 1 ≤ next_pid (system s0) →
  reachable (scheduler_init s0) s → system_ok n (system s).
Proof.
  intros Hr Hn Hreach. induction Hreach as [|s s' _ IH Hst]; [by eapply scheduler_init_ok|].
  by apply (step_good n s s' IH Hst).
Qed.

(** C3. A tick or yield with frame [ctx]: a process that is alive and alone goes on
    with its frame and its address space.  Otherwise the next runnable process in
    turn gets the processor, marked running and with the TSS pointing at its
    stack, so no process that ended ever runs again; the frame returned is its
    saved context and its directory is the one to load; the frame of the process
    that lost the processor is in its saved context, and memory outside that is as
    before. *)
Theorem schedule_correct n ctx c (s s' : sched S) :
  system_ok n (system s) → schedule ctx s = (c, s') →
  ∃ r, running (system s) = Some r ∧
  ((alone (system s) ∧ c = ctx ∧ system s' = system s ∧ scheduler_next_directory s' = 0) ∨
   ∃ i, ¬ alone (system s) ∧ next_in_turn (system s) r i ∧ running (system s') = Some i ∧
     state (slot (system s') i) = PROCESS_RUNNING ∧
     tss_esp0 (system s') = process_kernel_stack_top (Some (slot (system s) i)) ∧
     c = context (slot (system s) i) ∧
     (c ≠ ctx → scheduler_next_directory s' = directory (slot (system s) i)) ∧
     same_outside (context (slot (system s) r)) 60 (memory (system s)) (memory (system s')) ∧
     (context (slot (system s) r) = ctx ∨ context (slot (system s) r) + 60 ≤ ctx ∨
        ctx + 60 ≤ context (slot (system s) r) →
      ∀ j, 0 ≤ j < 15 → load32 (memory (system s')) (context (slot (system s) r) + 4 * j) =
        load32 (memory (system s)) (ctx + 4 * j))).
Proof.
  intros (F & Hr & Ht) E. destruct (tk_running _ _ Ht) as (r & Er & Hb & _). exists r.
  split; [done|].
  destruct (schedule_cases n s F r ctx Hr Ht Er) as [[Ha Ec]|(i & m' & Hna & Hi & Es & Ec)];
    rewrite Ec in E.
  { injection E as <- <-. by left. }
  right. exists i. destruct (next_in_turn_range _ _ _ Hi) as [Hib Hir].
  destruct (save_context_spec (system s) F ctx r Ht Er (kr_bytes _ _ _ Hr))
    as (m'' & Es' & _ & Hs & Hw).
  assert (m'' = m') as ->.
  { pose proof (f_equal memory (eq_trans (eq_sym Es) Es')) as Hm. by cbn in Hm. }
  assert (system s' = make_running i (with_memory m' (system s)) ∧
    c = context (slot (system s) i) ∧
    (c ≠ ctx → scheduler_next_directory s' = directory (slot (system s) i))) as (-> & -> & Hd).
  { cbv zeta in E. by destruct (Z.eqb_spec (context (slot (system s) i)) ctx); injection E as <- <-. }
  do 3 (split; [done|]). split; [|split; [|by split; [|split; [|split]]]].
  - rewrite make_running_slot, decide_True by (done || lia || apply Ht). done.
  - by rewrite make_running_tss by (done || apply Ht).
Qed.

(** C12. A process that loses the processor gets it back where it was: whatever the
    other processes create, end, compute and schedule in between, when the round
    robin next picks it, the frame resumed is its saved context, it holds the words
    of the frame that was interrupted, and its own address space is loaded. *)
Theorem preempted_process_resumes n r ctx ctx' l c c' (s s1 s2 s3 : sched S) :
  system_ok n (system s) → running (system s) = Some r → runnable (slot (system s) r) = true →
  context_at (memory (system s)) ctx l →
  context (slot (system s) r) = ctx ∨ context (slot (system s) r) + 60 ≤ ctx ∨
    ctx + 60 ≤ context (slot (system s) r) →
  scheduler_tick ctx s = (c, s1) → running (system s1) ≠ Some r →
  steps_without r s1 s2 → running (system s2) ≠ Some r → ctx' ≠ context (slot (system s) r) →
  scheduler_tick ctx' s2 = (c', s3) → running (system s3) = Some r →
  c' = context (slot (system s) r) ∧ context_at (memory (system s3)) c' l ∧
  scheduler_next_directory s3 = directory (slot (system s) r).
Proof.
  intros Hok Er Hrun Hl Hap E1 Hne1 Hsteps Hne2 Hctx E2 Er3.
  unfold scheduler_tick in E1, E2.
  destruct (preempt_saves n r ctx l (count_quantum s) c s1 Hok Er Hrun Hl Hap E1 Hne1)
    as (Hok1 & R1 & C1 & D1 & L1). cbn [system count_quantum] in C1, D1, L1.
  destruct Hok as (F & Hr & Ht). destruct (table_running _ _ _ Ht Er) as [Hb _].
  destruct (steps_without_keeps n r s1 s2 Hok1 Hb R1 Hsteps) as (Hok2 & R2 & C2 & D2 & K2).
  pose proof (schedule_good n ctx' c' (count_quantum s2) s3 Hok2 E2) as [_ Hk].
  destruct (Hk r Hb Hne2 R2) as (_ & _ & _ & K3). cbn [system count_quantum] in K3.
  destruct Hok2 as (F2 & Hr2 & Ht2). destruct (tk_running _ _ Ht2) as (r2 & Er2 & _).
  destruct (schedule_cases n (count_quantum s2) F2 r2 ctx' Hr2 Ht2 Er2)
    as [[_ Ec]|(i & m' & _ & Hi & Es & Ec)]; rewrite Ec in E2; clear Ec.
  { injection E2 as _ <-. done. }
  cbv zeta in E2. cbn [system count_quantum] in E2.
  assert (i = r) as ->.
  { destruct (_ =? _) in E2; injection E2 as _ <-; cbn in Er3; congruence. }
  rewrite (proj2 (Z.eqb_neq _ _)) in E2 by congruence. injection E2 as <- <-.
  rewrite C2, C1 in *. split; [done|split; [|by rewrite D2, D1]].
  intros j Hj. rewrite <- L1 by done. apply load32_ext. intros b Hin.
  by rewrite K3, K2 by lia.
Qed.

End properties.

(** ** Instances *)

#[local] Existing Instance example_image.
#[local] Existing Instance example_image_ok.

(** A machine whose memory holds the kernel directory and an interrupt frame at
    0x90000, and whose allocator has no page left. *)
#[local] Instance no_frames : PageAllocator unit :=
  {| pa_allocate := λ u, (0, u); pa_free := λ _ u, u |}.
#[local, program] Instance no_frames_spec : PageAllocatorSpec unit :=
  {| pages := λ _ n F, n = 0 ∧ F = ∅ |}.
Next Obligation. intros ? n F p [-> ->] Hp. by apply not_elem_of_empty in Hp. Qed.
Next Obligation. done. Qed.
Next Obligation. intros ? n F [_ ->] HF. done. Qed.
Next Obligation. intros ? n F p [-> ->] Hp. lia. Qed.

Definition example_frame : list Z := [1; 2; 3; 0x134000; 5; 6; 7; 8; 0x20; 0; 0x101234; 8; 0x202; 9; 10].
Definition small_memory : mem :=
  Pmm.words 0x90000 example_frame
    (Pmm.words page_directory [0x131003; 0x132003; 0x133003; 0x134003]
      (store32 ∅ (page_directory + 4 * 1023) (page_directory + 3))).

(** The bootstrap process runs, slot 1 holds a zombie, slot 2 a kernel process. *)
Definition small_process (st : process_state) (id k : Z) : process :=
  mk_process id st 0x300000 (k * 4096) (k * 4096 + 4036) 0x101234 0 false false 0 0.
Definition small_table : list process :=
  [mk_process 0 PROCESS_RUNNING page_directory 0 0x135FC4 0 0 true false 0 0;
   small_process PROCESS_ZOMBIE 2 5001; small_process PROCESS_READY 1 5000]
  ++ replicate 13 unused_process.
Definition small_sched : sched unit :=
  mk_sched (mk_psys (mk_vm small_memory () page_directory true []) small_table 3 (Some 0)
    0x135FC4 0x136000) 0 0.

Lemma words_spec a l m :
  (mem_bytes m → mem_bytes (Pmm.words a l m)) ∧ same_outside a (4 * lenZ l) m (Pmm.words a l m).
Proof.
  unfold Pmm.words, lenZ. revert a m. induction l as [|v l IH]; intros a m; [done|].
  simpl. destruct (IH (a + 4) (store32 m a v)) as [Hb Hs]. split; [auto with levos|].
  intros b Hin. rewrite Hs by lia. apply load8_store32_out. lia.
Qed.

Lemma small_ready : kernel_ready (machine (system small_sched)) 0 ∅.
Proof.
  split; [done| | |].
  - change (mem_bytes small_memory). unfold small_memory. apply words_spec, words_spec. auto with levos.
  - change (kernel_dir small_memory). split.
    + intros t Ht. assert (t = 0 ∨ t = 1 ∨ t = 2 ∨ t = 3) as [-> | [-> | [-> | ->]]] by lia;
        vm_compute; reflexivity.
    + intros i Hi. unfold small_memory. change page_directory with 0x130000.
      do 2 rewrite (same_outside_load32 _ _ _ _ _ (proj2 (words_spec _ _ _)))
        by (unfold lenZ; simpl length; lia).
      rewrite load32_store32_ne by lia. unfold load32, load8. by rewrite !lookup_empty.
    + vm_compute. reflexivity.
  - intros p Hp. by apply not_elem_of_empty in Hp.
Qed.

Lemma small_slot i : 3 ≤ i < 16 → slot (system small_sched) i = unused_process.
Proof.
  intros Hi. unfold slot. cbn [processes system small_sched]. unfold small_table.
  rewrite nth_lookup, lookup_app_r by (cbn; lia). rewrite lookup_replicate_2; [done|]. cbn. lia.
Qed.

Lemma small_slots i :
  0 ≤ i < 16 → state (slot (system small_sched) i) ≠ PROCESS_UNUSED → i = 0 ∨ i = 1 ∨ i = 2.
Proof.
  intros Hi Hu. destruct (decide (3 ≤ i)); [by rewrite small_slot in Hu by lia|]. lia.
Qed.

Lemma small_table_ok {S} (v : vm S) F :
  5000 ∉ F → 5001 ∉ F → table_ok (mk_psys v small_table 3 (Some 0) 0x135FC4 0x136000) F.
Proof.
  intros H1 H2. split.
  - done.
  - done.
  - done.
  - intros i Hi Hu. destruct (small_slots i ltac:(lia) Hu) as [-> | [-> | ->]]; [lia| |].
    + exists 5001. split_and!; done.
    + exists 5000. split_and!; done.
  - intros i j Hi Hj Hne Hui Huj.
    destruct (small_slots i ltac:(lia) Hui) as [-> | [-> | ->]],
      (small_slots j ltac:(lia) Huj) as [-> | [-> | ->]]; done || lia.
  - exists 0. split; [done|split; [lia|by left]].
Qed.

Lemma small_ok : system_ok 0 (system small_sched).
Proof. exists ∅. split; [exact small_ready|]. by apply small_table_ok. Qed.

Lemma small_frame : context_at (memory (system small_sched)) 0x90000 example_frame.
Proof. unfold context_at. apply fifteen; vm_compute; reflexivity. Qed.

Lemma reachable_system_ok_witness :
  system_ok 4096 (system (snd (scheduler_tick 0x90000
    (scheduler_init (mk_sched (mk_psys example_vm [] 1 None 0 0) 0 0))))).
Proof.
  apply (reachable_system_ok 4096 example_free (mk_sched (mk_psys example_vm [] 1 None 0 0) 0 0)).
  - exact example_vm_ready.
  - cbn. lia.
  - eapply reachable_step; [apply reachable_start|].
    eapply step_tick. apply surjective_pairing.
Defined.

(** The first tick hands the processor to slot 2. *)
Lemma schedule_correct_witness :
  let s := small_sched in let c := fst (schedule 0x90000 s) in let s' := snd (schedule 0x90000 s) in
  c = 5000 * 4096 + 4036 ∧
  ∃ r, running (system s) = Some r ∧
  ((alone (system s) ∧ c = 0x90000 ∧ system s' = system s ∧ scheduler_next_directory s' = 0) ∨
   ∃ i, ¬ alone (system s) ∧ next_in_turn (system s) r i ∧ running (system s') = Some i ∧
     state (slot (system s') i) = PROCESS_RUNNING ∧
     tss_esp0 (system s') = process_kernel_stack_top (Some (slot (system s) i)) ∧
     c = context (slot (system s) i) ∧
     (c ≠ 0x90000 → scheduler_next_directory s' = directory (slot (system s) i)) ∧
     same_outside (context (slot (system s) r)) 60 (memory (system s)) (memory (system s')) ∧
     (context (slot (system s) r) = 0x90000 ∨ context (slot (system s) r) + 60 ≤ 0x90000 ∨
        0x90000 + 60 ≤ context (slot (system s) r) →
      ∀ j, 0 ≤ j < 15 → load32 (memory (system s')) (context (slot (system s) r) + 4 * j) =
        load32 (memory (system s)) (0x90000 + 4 * j))).
Proof.
  split; [vm_compute; reflexivity|].
  exact (schedule_correct 0 0x90000 _ small_sched _ small_ok (surjective_pairing _)).
Defined.

(** The bootstrap process is preempted at 0x90000, and the next tick, on the frame
    at 0x1388000 of slot 2, resumes it. *)
Lemma preempted_process_resumes_witness :
  let s1 := snd (scheduler_tick 0x90000 small_sched) in
  let s3 := snd (scheduler_tick 0x1388000 s1) in
  let c' := fst (scheduler_tick 0x1388000 s1) in
  c' = 0x135FC4 ∧ context_at (memory (system s3)) c' example_frame ∧
  scheduler_next_directory s3 = page_directory.
Proof.
  exact (preempted_process_resumes 0 0 0x90000 0x1388000 example_frame _ _ small_sched _
    (snd (scheduler_tick 0x90000 small_sched)) _ small_ok eq_refl eq_refl small_frame
    ltac:(right; right; vm_compute; congruence) (surjective_pairing _)
    ltac:(vm_compute; congruence) (without_refl 0 _) ltac:(vm_compute; congruence)
    ltac:(vm_compute; congruence) (surjective_pairing _) ltac:(vm_compute; reflexivity)).
Defined.

End Scheduler.
