(* ===== verification/Ownership.v ===== *)
(** Who owns which page: the pages of the entries of the process table, along the steps of
    [Scheduler].  No page that a process took is ever given back. *)

From S2P Require Import Prelude Memory Interfaces Pmm Paging Process Scheduler.

Module Ownership.
Import Paging Process Scheduler.

(** ** Specification *)

(** The pages an entry of the table names: kernel stack, directory, and the code and the
    stack of user code. *)
Definition owns (x : process) (k : Z) : Prop :=
  k ≠ 0 ∧ (stack_base x = k * 4096 ∨ directory x = k * 4096 ∨
    user_code_base x = k * 4096 ∨ user_stack_base x = k * 4096).

Section spec.
Context {S : Type} {PA : PageAllocator S} {PAS : PageAllocatorSpec S} {KI : KernelImage}.
Implicit Types (p : psys S) (F : gset Z).

Definition in_use p (i : Z) : Prop := 1 ≤ i < 16 ∧ state (slot p i) ≠ PROCESS_UNUSED.

(** What a step does to the table: no entry appears or changes but in its state, or the
    entry of slot [i] is a new one, of pages that were free and are not any more. *)
Definition same_entries p p' : Prop := ∀ j, 1 ≤ j < 16 →
  ∃ st, slot p' j = with_state st (slot p j) ∧ (state (slot p j) = PROCESS_UNUSED → st = PROCESS_UNUSED).
Definition new_entry p p' F F' : Prop := ∃ i x, 1 ≤ i < 16 ∧ reusable (slot p i) = true ∧
  (∀ j, 1 ≤ j < 16 → slot p' j = if decide (i = j) then x else slot p j) ∧
  ∀ k, owns x k → k ∈ F ∧ ¬ (k ∈ F').

Definition evolves n p F p' : Prop := ∃ F', kernel_ready (machine p') n F' ∧ table_ok p' F' ∧ F' ⊆ F ∧
  (same_entries p p' ∨ new_entry p p' F F').

(** The pages of the entries are not free, and have one owner. *)
Definition owned n p : Prop := ∃ F, kernel_ready (machine p) n F ∧ table_ok p F ∧
  (∀ i k, in_use p i → owns (slot p i) k → ¬ (k ∈ F)) ∧
  ∀ i j k, in_use p i → in_use p j → owns (slot p i) k → owns (slot p j) k → i = j.

(** Page [k] is not free, and no process but that of number [d] owns it. *)
Definition held n (k d : Z) p : Prop := ∃ F, kernel_ready (machine p) n F ∧ table_ok p F ∧ ¬ (k ∈ F) ∧
  ∀ j, in_use p j → owns (slot p j) k → pid (slot p j) = d.

End spec.

(** ** Lemmas *)

Section lemmas.
Context {S : Type} {PA : PageAllocator S} {PAS : PageAllocatorSpec S}.
Context {KI : KernelImage} {KIO : KernelImageOk}.
Implicit Types (p : psys S) (s : sched S) (F : gset Z).

Lemma same_entries_slots p p' : (∀ j, 1 ≤ j < 16 → slot p' j = slot p j) → same_entries p p'.
Proof. intros E j Hj. exists (state (slot p j)). rewrite E by done. by destruct (slot p j). Qed.

(** With the same table and free pages. *)
Lemma evolves_table n p F p' :
  kernel_ready (machine p') n F → table_ok p' F → (∀ j, 1 ≤ j < 16 → slot p' j = slot p j) → evolves n p F p'.
Proof. intros Hr Ht E. exists F. do 3 (split; [done|]). left. by apply same_entries_slots. Qed.

Lemma evolves_refl n p F : kernel_ready (machine p) n F → table_ok p F → evolves n p F p.
Proof. intros. by apply evolves_table. Qed.

Lemma evolves_unchanged n p p' F :
  kernel_ready (machine p) n F → table_ok p F → unchanged p p' n F → evolves n p F p'.
Proof.
  intros Hr Ht (Hp & Hm & _ & Et & En & E1 & E2 & _). apply evolves_table.
  - destruct Hr as [_ Hb Hk Ha]. unfold memory in Hm. split; [done| | |done]; by rewrite Hm.
  - by apply (table_ok_ext p).
  - intros j _. unfold slot. by rewrite Et.
Qed.

(** A new entry, of pages that were free. *)
Lemma evolves_created n p p' F F' i k x :
  table_ok p F → first_reusable p i → current_alive p = true → fresh_entry p k x →
  processes p' = <[Z.to_nat i := x]> (processes p) → next_pid p' = next_pid p + 1 →
  same_rest p p' → F' ⊆ F → k ∈ F → ¬ (k ∈ F') → kernel_end ≤ k * 4096 →
  kernel_ready (machine p') n F' → (∀ y, owns x y → y ∈ F ∧ ¬ (y ∈ F')) → evolves n p F p'.
Proof.
  intros Ht Hi Ha Hx Ep En Hs Hsub Hk Hk' Hke Hr' Ho. exists F'. split; [done|]. split; [|split; [done|right]].
  - by apply (table_ok_create p p' F F' i k x).
  - pose proof Hi as (Hir & Hre & _). exists i, x. split; [done|split; [done|split; [|done]]].
    intros j Hj. transitivity (slot (set_slot i x p) j); [unfold slot; by rewrite Ep|].
    apply slot_set_slot; [apply Ht|lia|lia].
Qed.

Lemma create_evolves n F entry argument p p' r :
  kernel_ready (machine p) n F → table_ok p F → current_alive p = true → next_pid p < 2 ^ 31 →
  process_create entry argument p = (r, p') → evolves n p F p'.
Proof.
  intros Hr Ht Ha Hn E. destruct (decide (entry = 0)) as [->|He].
  { injection E as _ <-. by apply evolves_refl. }
  pose proof (tk_next _ _ Ht).
  destruct (process_create_cases entry argument p He) as [[_ Ec]|(i & Hi & Ec)]; rewrite Ec in E.
  { injection E as _ <-. by apply evolves_refl. }
  destruct (create_in_slot_spec entry argument i p n F Hr ltac:(lia))
    as (s' & [(_ & E' & Hu)|(k & q & E' & [Hk _] & [Hq _] & Ep & En & Hs & Hr' & _)]);
    rewrite E' in E; injection E as _ <-; [by apply (evolves_unchanged n p s' F)|].
  pose proof (pages_range _ _ _ _ (kr_pages _ _ _ Hr) Hk).
  pose proof (pages_range _ _ _ _ (kr_pages _ _ _ Hr) (ltac:(set_solver) : q ∈ F)).
  eapply (evolves_created n p s' F (F ∖ {[k]} ∖ {[q]}) i k); try done; [|set_solver|set_solver|apply (kr_above _ _ _ Hr k Hk)|].
  - unfold fresh_entry; simpl. split_and!; done || lia.
  - intros y [Hy0 Hy]. cbn in Hy. assert (y = k ∨ y = q) as [-> | ->] by lia; split; try (intros ?); set_solver.
Qed.

Lemma create_user_evolves n F image sz p p' r :
  kernel_ready (machine p) n F → table_ok p F → current_alive p = true → next_pid p < 2 ^ 31 →
  0 ≤ sz < 2 ^ 32 → process_create_user image sz p = (r, p') → evolves n p F p'.
Proof.
  intros Hr Ht Ha Hn Hsz E. pose proof (tk_next _ _ Ht).
  destruct image as [image|]; [|injection E as _ <-; by apply evolves_refl].
  destruct (decide (0 < sz ≤ 4096)) as [Hs|Hs]; cycle 1.
  { unfold process_create_user in E.
    destruct (Z.eqb_spec sz 0), (Z.ltb_spec 4096 sz); cbn [orb] in E;
      try (injection E as _ <-; by apply evolves_refl); lia. }
  destruct (process_create_user_cases image sz p Hs) as [[_ Ec]|(i & Hi & Ec)]; rewrite Ec in E.
  { injection E as _ <-. by apply evolves_refl. }
  destruct (decide (size F < 4)%nat) as [Hf|Hf].
  { destruct (create_user_scarce image sz i p n F Hr Hf) as (s' & E' & Hu).
    rewrite E' in E. injection E as _ <-. by apply (evolves_unchanged n p s' F). }
  destruct (create_user_success image sz i p n F Hr ltac:(lia) ltac:(lia) ltac:(lia))
    as (s' & k & q & u & t & E' & Hc).
  rewrite E' in E. injection E as _ <-. destruct Hc as [[Hk _] [Hq _] [Hu _] [Hd _] Ep En Hs' Hr' _ _ _ _ _ _ _ _ _].
  assert (t ∈ F) as HtF by set_solver. pose proof (pages_range _ _ _ _ (kr_pages _ _ _ Hr) HtF).
  eapply (evolves_created n p s' F (F ∖ {[k]} ∖ {[q]} ∖ {[u]} ∖ {[t]}) i k); try done; [|set_solver|set_solver|apply (kr_above _ _ _ Hr k Hk)|].
  - unfold fresh_entry; simpl. split_and!; done || lia.
  - intros y [Hy0 Hy]. cbn in Hy. assert (y = k ∨ y = t ∨ y = q ∨ y = u) as Hcs by lia.
    destruct_or! Hcs; subst y; split; try (intros ?); set_solver.
Qed.

Lemma terminate_evolves n F p :
  kernel_ready (machine p) n F → table_ok p F → evolves n p F (process_terminate_current p).
Proof.
  intros Hr Ht. destruct (tk_running _ _ Ht) as (r & Er & Hb & _).
  destruct (table_running _ _ _ Ht Er) as [_ Hu]. unfold process_terminate_current. rewrite Er.
  destruct (bootstrap (slot p r)) eqn:Eb; [by apply evolves_refl|].
  assert (r ≠ 0) as Hr0. { intros ->. destruct (tk_bootstrap _ _ Ht) as (E & _). congruence. }
  exists F. split; [done|]. split; [apply table_ok_state; try done; by right|split; [done|left]].
  intros j Hj. rewrite slot_set_slot by (done || lia || apply Ht). case_decide as Hjr.
  - subst j. by exists PROCESS_ZOMBIE.
  - exists (state (slot p j)). split; [by destruct (slot p j)|done].
Qed.

Lemma schedule_evolves n F ctx c s s' :
  kernel_ready (machine (system s)) n F → table_ok (system s) F → schedule ctx s = (c, s') →
  evolves n (system s) F (system s').
Proof.
  intros Hr Ht E. destruct (tk_running _ _ Ht) as (r & Er & _).
  destruct (schedule_cases n s F r ctx Hr Ht Er) as [[_ Ec]|(i & m' & _ & Hi & Es & Ec)]; rewrite Ec in E.
  { injection E as _ <-. by apply evolves_refl. }
  assert (system s' = make_running i (with_memory m' (system s))) as ->.
  { cbv zeta in E. by destruct (_ =? _); injection E as _ <-. }
  destruct (next_in_turn_range _ _ _ Hi) as [Hib Hir].
  destruct (save_context_ok (system s) F n ctx Hr Ht) as [Hr' Ht']. rewrite Es in Hr', Ht'.
  exists F. split; [exact Hr'|]. split; [exact (make_running_ok _ _ _ Ht' Hib Hir)|split; [done|left]].
  intros j Hj. rewrite make_running_slot by (done || lia || apply Ht). case_decide as Hij.
  - subst j. exists PROCESS_RUNNING. split; [done|]. intros Hx. by destruct (runnable_used _ _ Hir).
  - exists (state (slot (system s) j)). split; [change (slot (with_memory m' (system s)) j) with (slot (system s) j); by destruct (slot (system s) j)|done].
Qed.

(** Every step of the kernel. *)
Lemma step_evolves n F s s' :
  kernel_ready (machine (system s)) n F → table_ok (system s) F → step s s' →
  evolves n (system s) F (system s').
Proof.
  intros Hr Ht Hst. destruct Hst as [e a r p s Ha Hn E|img sz r p s Ha Hn Hsz E|s|m' s (Hb & Hk & _)
    |ctx c s s' E|ctx c s s' E].
  - by apply (create_evolves n F e a (system s) p r).
  - by apply (create_user_evolves n F img sz (system s) p r).
  - by apply terminate_evolves.
  - apply evolves_table; [|by apply (table_ok_ext (system s))|done]. split; [apply Hr|done|done|apply Hr].
  - by apply (schedule_evolves n F ctx c).
  - by apply (schedule_evolves n F ctx c (count_quantum s)).
Qed.

(** An entry in use after a step is an old one or the new one. *)
Lemma same_entries_use p p' j :
  same_entries p p' → in_use p' j → in_use p j ∧ pid (slot p' j) = pid (slot p j) ∧
  ∀ k, owns (slot p' j) k ↔ owns (slot p j) k.
Proof.
  intros H [Hj Hu]. destruct (H j Hj) as (st & E & Hst). rewrite E in *. split; [|done].
  split; [done|]. intros Hx. by apply Hu, Hst.
Qed.

Lemma step_owned n s s' : owned n (system s) → step s s' → owned n (system s').
Proof.
  intros (F & Hr & Ht & Hfree & Hone) Hst.
  destruct (step_evolves n F s s' Hr Ht Hst) as (F' & Hr' & Ht' & Hsub & [Hs|(i & x & Hi & _ & Hsl & Hx)]).
  - exists F'. do 2 (split; [done|]). split.
    + intros j k Hj Hk. destruct (same_entries_use _ _ _ Hs Hj) as (Hj' & _ & Ho). apply Ho in Hk.
      specialize (Hfree j k Hj' Hk). set_solver.
    + intros j1 j2 k H1 H2 K1 K2.
      destruct (same_entries_use _ _ _ Hs H1) as (H1' & _ & O1), (same_entries_use _ _ _ Hs H2) as (H2' & _ & O2).
      apply (Hone j1 j2 k); [done|done|by apply O1|by apply O2].
  - assert (∀ j, in_use (system s') j → j ≠ i → in_use (system s) j ∧ slot (system s') j = slot (system s) j) as Hold.
    { intros j [Hj Hu] Hne. rewrite Hsl, decide_False in * by done. done. }
    assert (slot (system s') i = x) as Ei by (by rewrite Hsl, decide_True).
    exists F'. do 2 (split; [done|]). split.
    + intros j k Hj Hk. destruct (decide (j = i)) as [->|Hne]; [rewrite Ei in Hk; by apply Hx|].
      destruct (Hold j Hj Hne) as [Hj' E]. rewrite E in Hk. specialize (Hfree j k Hj' Hk). set_solver.
    + intros j1 j2 k H1 H2 K1 K2.
      destruct (decide (j1 = i)) as [->|N1], (decide (j2 = i)) as [->|N2]; [done| | |].
      * destruct (Hold j2 H2 N2) as [H2' E]. rewrite Ei in K1. rewrite E in K2.
        destruct (Hx k K1) as [Hin _]. by destruct (Hfree j2 k H2' K2).
      * destruct (Hold j1 H1 N1) as [H1' E]. rewrite Ei in K2. rewrite E in K1.
        destruct (Hx k K2) as [Hin _]. by destruct (Hfree j1 k H1' K1).
      * destruct (Hold j1 H1 N1) as [H1' E1], (Hold j2 H2 N2) as [H2' E2]. rewrite E1 in K1. rewrite E2 in K2.
        by apply (Hone j1 j2 k).
Qed.

Lemma step_held n k d s s' : held n k d (system s) → step s s' → held n k d (system s').
Proof.
  intros (F & Hr & Ht & Hk & Hown) Hst.
  destruct (step_evolves n F s s' Hr Ht Hst) as (F' & Hr' & Ht' & Hsub & [Hs|(i & x & Hi & _ & Hsl & Hx)]).
  - exists F'. split; [done|split; [done|split; [set_solver|]]].
    intros j Hj Ho. destruct (same_entries_use _ _ _ Hs Hj) as (Hj' & -> & Hiff). apply Hown; [done|by apply Hiff].
  - exists F'. split; [done|split; [done|split; [set_solver|]]]. intros j [Hj Hu] Ho. rewrite Hsl in * by done.
    case_decide; [by destruct (Hx k Ho)|]. by apply Hown.
Qed.

Lemma reachable_owned n s s' : owned n (system s) → reachable s s' → owned n (system s').
Proof. intros H Hr. induction Hr as [|s1 s2 _ IH Hst]; [done|]. by apply (step_owned n s1). Qed.

Lemma reachable_held n k d s s' : held n k d (system s) → reachable s s' → held n k d (system s').
Proof. intros H Hr. induction Hr as [|s1 s2 _ IH Hst]; [done|]. by apply (step_held n k d s1). Qed.

Lemma init_owned n F s :
  kernel_ready (machine (system s)) n F → 1 ≤ next_pid (system s) → owned n (system (scheduler_init s)).
Proof.
  intros Hr Hn. destruct (scheduler_init_ok n F s Hr Hn) as (F' & Hr' & Ht').
  assert (∀ i, ¬ in_use (system (scheduler_init s)) i) as Hno.
  { intros i [Hi Hu]. apply Hu. unfold slot.
    cbn [system scheduler_init processes process_system_init tss_set_kernel_stack].
    replace (Z.to_nat i) with (Datatypes.S (Z.to_nat (i - 1))) by lia. cbn [nth].
    by rewrite nth_lookup, lookup_replicate_2 by lia. }
  exists F'. do 2 (split; [done|]). split; [intros i k Hi|intros i j k Hi]; by destruct (Hno i).
Qed.

(** The first process a system makes. *)
Lemma first_created n F entry argument p :
  kernel_ready (machine p) n F → next_pid p = 1 → (2 ≤ size F)%nat → entry ≠ 0 →
  ∃ (s' : psys S) k, process_create entry argument (process_system_init p) = (1, s') ∧ k ∈ F ∧
    slot s' 1 = mk_process 1 PROCESS_READY (directory (slot s' 1)) (k * 4096) (k * 4096 + 4036) entry argument
      false false 0 0.
Proof.
  intros Hr Hp Hf He. set (p1 := process_system_init p).
  assert (first_reusable p1 1) as (_ & H1 & _) by (split; [lia|split; [done|lia]]).
  destruct (process_create_cases entry argument p1 He) as [[Hno _]|(i & Hi & ->)]; [by rewrite Hno in H1 by lia|].
  assert (i = 1) as ->.
  { destruct Hi as (Hy & _ & Hn). destruct (decide (i = 1)); [done|]. by rewrite Hn in H1 by lia. }
  destruct (create_in_slot_spec entry argument 1 p1 n F (process_system_init_ready p n F Hr)
    ltac:(change (next_pid p1) with (next_pid p); lia))
    as (s' & [(? & _)|(k & q & E & [Hk _] & _ & Ep & _)]); [lia|].
  change (next_pid p1) with (next_pid p) in *. rewrite Hp in *.
  exists s', k. split; [done|split; [done|]]. unfold slot. by rewrite Ep.
Qed.

End lemmas.

(** ** Properties *)

(** C25. What a process took is lost for good.  At any moment after [scheduler_init], let a
    process, alive or ended, own a page: its kernel stack, its directory, or the code or
    stack page of its user code.  Then at every later moment, whatever processes are
    created, end and are scheduled in between, the page is not free, and no process of
    another number owns it.  So when [process_create] takes the slot of a process that
    ended, all of its pages are neither free nor named in the table any more. *)
Theorem process_pages_never_freed {S} {PA : PageAllocator S} {PAS : PageAllocatorSpec S}
    {KI : KernelImage} {KIO : KernelImageOk} n F (s0 s1 s2 : sched S) i k :
  kernel_ready (machine (system s0)) n F → 1 ≤ next_pid (system s0) →
  reachable (scheduler_init s0) s1 → in_use (system s1) i → owns (slot (system s1) i) k →
  reachable s1 s2 →
  ∃ F2, kernel_ready (machine (system s2)) n F2 ∧ ¬ (k ∈ F2) ∧
    ∀ j, 1 ≤ j < 16 → state (slot (system s2) j) ≠ PROCESS_UNUSED → owns (slot (system s2) j) k →
      pid (slot (system s2) j) = pid (slot (system s1) i).
Proof.
  intros Hr Hn H1 Hi Ho H2.
  destruct (reachable_owned n _ _ (init_owned n F s0 Hr Hn) H1) as (F1 & Hr1 & Ht1 & Hfree & Hone).
  assert (held n k (pid (slot (system s1) i)) (system s1)) as Hh.
  { exists F1. split; [done|split; [done|split; [by apply (Hfree i)|]]].
    intros j Hj Hoj. by rewrite (Hone i j k Hi Hj Ho Hoj). }
  destruct (reachable_held n k _ s1 s2 Hh H2) as (F2 & Hr2 & _ & Hk & Hown).
  exists F2. split; [done|split; [done|]]. intros j Hj Hu. by apply Hown.
Qed.

(** ** Instances *)

#[local] Existing Instance example_image.
#[local] Existing Instance example_image_ok.

(** A process is made, and the clock ticks. *)
Lemma process_pages_never_freed_witness :
  let s0 := mk_sched (mk_psys example_vm [] 1 None 0 0) 0 0 in
  let s1 := with_system (snd (process_create 0x101234 7 example_system)) (scheduler_init s0) in
  let s2 := snd (scheduler_tick 0x90000 s1) in
  ∃ k, stack_base (slot (system s1) 1) = k * 4096 ∧ ∃ F2, kernel_ready (machine (system s2)) 4096 F2 ∧
    ¬ (k ∈ F2) ∧
    ∀ j, 1 ≤ j < 16 → state (slot (system s2) j) ≠ PROCESS_UNUSED → owns (slot (system s2) j) k →
      pid (slot (system s2) j) = 1.
Proof.
  intros s0 s1 s2.
  destruct (first_created 4096 example_free 0x101234 7 (mk_psys example_vm [] 1 None 0 0) example_vm_ready
    eq_refl ltac:(pose proof example_free_size; lia) ltac:(lia)) as (s' & k & E & Hk & Esl).
  assert (snd (process_create 0x101234 7 example_system) = s') as Es by exact (f_equal snd E).
  pose proof (pages_range _ _ _ _ (kr_pages _ _ _ example_system_ready) Hk) as Hkr.
  pose proof (kr_above _ _ _ example_system_ready k Hk) as Hka. pose proof kernel_end_range.
  assert (slot (system s1) 1 = slot s' 1) as Eslot by (subst s1; change (system (with_system ?p _)) with p; by rewrite Es).
  rewrite Esl in Eslot.
  assert (reachable (scheduler_init s0) s1) as Hr1.
  { apply (reachable_step _ _ s1 (reachable_start _)).
    exact (step_create 0x101234 7 _ _ (scheduler_init s0) eq_refl eq_refl (surjective_pairing _)). }
  assert (reachable s1 s2) as Hr2.
  { apply (reachable_step s1 s1 s2 (reachable_start s1)).
    exact (step_tick 0x90000 _ s1 s2 (surjective_pairing (scheduler_tick 0x90000 s1))). }
  assert (in_use (system s1) 1) as Hu by (split; [lia|rewrite Eslot; discriminate]).
  assert (owns (slot (system s1) 1) k) as Ho by (rewrite Eslot; split; [lia|left; reflexivity]).
  assert (stack_base (slot (system s1) 1) = k * 4096) as Hs by (rewrite Eslot; reflexivity).
  exists k. split; [exact Hs|].
  destruct (process_pages_never_freed 4096 example_free s0 s1 s2 1 k example_vm_ready (Z.le_refl 1) Hr1 Hu Ho Hr2)
    as (F2 & H1 & H2 & H3). rewrite Eslot in H3. exists F2. exact (conj H1 (conj H2 H3)).
Defined.
End Ownership.
