(* ===== verification/Spaces.v ===== *)
(** Address spaces: what the page directories of all processes have in common while the
    kernel runs, and what user code can reach through them. *)

From S2P Require Import Prelude Memory Interfaces Pmm Paging Process Scheduler.

Module Spaces.
Import Paging Process Scheduler.

(** ** Specification *)

Section spec.
Context {S : Type} {PA : PageAllocator S} {PAS : PageAllocatorSpec S} {KI : KernelImage}.
Implicit Types (p : psys S) (F : gset Z).

Definition used p (i : Z) : Prop := 1 ≤ i < 16 ∧ state (slot p i) ≠ PROCESS_UNUSED.

(** A frame user code may have: not free, outside the kernel image, and neither kernel
    stack nor directory of a process. *)
Definition user_page p F (u : Z) : Prop :=
  ¬ (u ∈ F) ∧ kernel_end ≤ u * 4096 ∧ u < 2 ^ 20 ∧
  ∀ i, used p i → stack_base (slot p i) ≠ u * 4096 ∧ directory (slot p i) ≠ u * 4096.

(** The directory at [d]: that of the kernel, but for the recursive entry and for the
    rights of user code on the shared table. *)
Record space_of (m : mem) (d : Z) : Prop := {
  so_entry k : 0 ≤ k < 1023 → k ≠ 1 → load32 m (d + 4 * k) = load32 m (page_directory + 4 * k);
  so_shared : load32 m (d + 4) = shared_table + 3 ∨ load32 m (d + 4) = shared_table + 7;
  so_recursive : load32 m (d + 4 * 1023) = d + 3;
}.

(** The first 16 MiB are mapped to themselves, except that the first and the last page
    of the shared table may be those of a user process. *)
Record spaces_ok p F : Prop := {
  sp_tables t e : 0 ≤ t < 4 → 0 ≤ e < 1024 → (t = 1 → e ≠ 0 ∧ e ≠ 1023) →
    load32 (memory p) (identity_tables + 4096 * t + 4 * e) = (t * 1024 + e) * 4096 + 3;
  sp_shared e : e = 0 ∨ e = 1023 →
    load32 (memory p) (shared_table + 4 * e) = (1024 + e) * 4096 + 3 ∨
    ∃ u, user_page p F u ∧ load32 (memory p) (shared_table + 4 * e) = u * 4096 + 7;
  sp_space i : used p i → ∃ d, directory (slot p i) = d * 4096 ∧ kernel_end ≤ d * 4096 ∧
    d < 2 ^ 20 ∧ ¬ (d ∈ F) ∧ space_of (memory p) (d * 4096);
  sp_apart i j : used p i → used p j →
    stack_base (slot p i) ≠ directory (slot p j) ∧
    (i ≠ j → directory (slot p i) ≠ directory (slot p j));
}.

(** The invariant of the processes, the address spaces included. *)
Definition safe (n : Z) p : Prop :=
  ∃ F, kernel_ready (machine p) n F ∧ table_ok p F ∧ spaces_ok p F.

(** The bytes of the tables and directories beside the kernel directory. *)
Definition space_byte p (a : Z) : Prop :=
  identity_tables ≤ a < identity_tables + 16384 ∨
  ∃ i, used p i ∧ directory (slot p i) ≤ a < directory (slot p i) + 4096.

Definition keeps_spaces p (m' : mem) : Prop := ∀ a, space_byte p a → load8 m' a = load8 (memory p) a.

(** What running code does to memory: nothing to page tables and directories, nor to the
    contexts of the others. *)
Definition computes_safely p (m' : mem) : Prop := computes p m' ∧ keeps_spaces p m'.

(** User code running in the directory [d]: stores of bytes, each through a translation
    that allows user code to write, in the memory of that moment. *)
Inductive user_code (d : Z) : mem → mem → Prop :=
| user_stops m : user_code d m m
| user_stores m m' va t b : 0 ≤ va < 2 ^ 32 → walk m d va = Some t → user t = true → writable t = true →
    is_byte b → user_code d (store8 m (physical t) b) m' → user_code d m m'.

(** The running process and the kernel use directories of these kinds. *)
Definition space_directory p (d : Z) : Prop :=
  d = page_directory ∨ ∃ i, used p i ∧ directory (slot p i) = d.

(** The two pages of user code. *)
Definition user_window (va : Z) : Prop :=
  USER_CODE_ADDRESS ≤ va < USER_CODE_ADDRESS + 4096 ∨ USER_STACK_TOP - 4096 ≤ va < USER_STACK_TOP.

(** A byte outside the kernel image and outside kernel stacks and directories. *)
Definition user_byte p (a : Z) : Prop :=
  kernel_end ≤ a ∧ ∀ i, used p i →
    ¬ (stack_base (slot p i) ≤ a < stack_base (slot p i) + 4096) ∧
    ¬ (directory (slot p i) ≤ a < directory (slot p i) + 4096).

(** Slots that agree in what the spaces depend on. *)
Definition same_slots p p' : Prop := ∀ i, 1 ≤ i < 16 →
  (state (slot p' i) = PROCESS_UNUSED ↔ state (slot p i) = PROCESS_UNUSED) ∧
  stack_base (slot p' i) = stack_base (slot p i) ∧ directory (slot p' i) = directory (slot p i).

(** The table with a new entry [x] in slot [i]. *)
Definition entered p p' (i : Z) (x : process) : Prop :=
  1 ≤ i < 16 ∧ length (processes p) = 16%nat ∧ processes p' = <[Z.to_nat i := x]> (processes p).

End spec.

(** ** Lemmas *)

Section lemmas.
Context {S : Type} {PA : PageAllocator S} {PAS : PageAllocatorSpec S}.
Context {KI : KernelImage} {KIO : KernelImageOk}.
Implicit Types (p : psys S) (F : gset Z).

Lemma safe_system n p : safe n p → system_ok n p.
Proof. intros (F & ? & ? & _). by exists F. Qed.

Lemma same_slots_used p p' i : same_slots p p' → used p' i ↔ used p i.
Proof.
  intros H. unfold used. split; intros [Hi Hu]; (split; [done|]); destruct (H i Hi) as (E & _); naive_solver.
Qed.

Lemma word_bytes (P : Z → Prop) m m' a :
  (∀ b, P b → load8 m' b = load8 m b) → (∀ b, a ≤ b < a + 4 → P b) → load32 m' a = load32 m a.
Proof. intros H Hp. apply load32_ext. intros b Hb. apply H, Hp. lia. Qed.

Lemma space_of_ext m m' d :
  kernel_dir m → kernel_dir m' →
  (∀ k, 0 ≤ k < 1024 → load32 m' (d + 4 * k) = load32 m (d + 4 * k)) → space_of m d → space_of m' d.
Proof.
  intros [K1 K2 K3] [K1' K2' K3'] E [S1 S2 S3]. split.
  - intros k Hkr Hk1. rewrite E, S1 by lia. destruct (decide (k < 4)).
    + rewrite K1, K1' by lia. done.
    + rewrite K2, K2' by lia. done.
  - pose proof (E 1 ltac:(lia)) as E1. change (4 * 1) with 4 in E1. by rewrite E1.
  - by rewrite E by lia.
Qed.

(** Spaces depend on the slots and on the bytes of tables and directories. *)
Lemma spaces_ext p p' F :
  same_slots p p' → kernel_dir (memory p) → kernel_dir (memory p') → keeps_spaces p (memory p') →
  spaces_ok p F → spaces_ok p' F.
Proof.
  intros Hs K K' Hk [H1 H2 H3 H4].
  assert (∀ i, used p' i ↔ used p i) as Hu by (intros; by apply same_slots_used).
  assert (∀ k, 0 ≤ k < 4096 → load32 (memory p') (identity_tables + 4 * k) =
    load32 (memory p) (identity_tables + 4 * k)) as Et.
  { intros k Hkr. apply (word_bytes (space_byte p)); [exact Hk|]. intros b Hb. left. lia. }
  assert (∀ u, user_page p F u → user_page p' F u) as Huf.
  { intros u (? & ? & ? & Hn). split; [done|split; [done|split; [done|]]]. intros i Hi%Hu.
    destruct (Hs i (proj1 Hi)) as (_ & -> & ->). by apply Hn. }
  split.
  - intros t e Ht He Hte. rewrite <- (H1 t e) by done.
    replace (identity_tables + 4096 * t + 4 * e) with (identity_tables + 4 * (1024 * t + e)) by lia.
    apply Et. lia.
  - intros e He. unfold shared_table in *.
    replace (identity_tables + 4096 + 4 * e) with (identity_tables + 4 * (1024 + e)) by lia. rewrite Et by lia.
    replace (identity_tables + 4 * (1024 + e)) with (identity_tables + 4096 + 4 * e) by lia.
    destruct (H2 e He) as [?|(u & ? & ?)]; [by left|right]. exists u. auto.
  - intros i Hi%Hu. destruct (H3 i Hi) as (d & Ed & ? & ? & ? & ?). exists d.
    destruct (Hs i (proj1 Hi)) as (_ & _ & ->). split; [done|split; [done|split; [done|split; [done|]]]].
    assert (∀ k, 0 ≤ k < 1024 → load32 (memory p') (d * 4096 + 4 * k) = load32 (memory p) (d * 4096 + 4 * k)) as E.
    { intros k Hkr. apply (word_bytes (space_byte p)); [exact Hk|]. intros b Hb. right. exists i.
      split; [done|]. rewrite Ed. lia. }
    by apply (space_of_ext (memory p)).
  - intros i j Hi%Hu Hj%Hu. destruct (Hs i (proj1 Hi)) as (_ & -> & ->), (Hs j (proj1 Hj)) as (_ & _ & ->).
    by apply H4.
Qed.

Lemma same_slots_refl p : same_slots p p.
Proof. done. Qed.

Lemma safe_compute n p m' : safe n p → computes_safely p m' → safe n (with_memory m' p).
Proof.
  intros (F & Hr & Ht & Hsp) [(Hb & Hk & _) Hks]. exists F.
  split; [split; [apply Hr|done|done|apply Hr]|split; [by apply (table_ok_ext p)|]].
  apply (spaces_ext p); try done. apply Hr.
Qed.

(** *** Contexts and spaces do not overlap *)

Lemma context_space p F r a :
  table_ok p F → spaces_ok p F → 0 ≤ r < 16 → state (slot p r) ≠ PROCESS_UNUSED →
  space_byte p a → ¬ (context (slot p r) - 4036 ≤ a < context (slot p r) + 60).
Proof.
  intros Ht Hsp Hr Hu Ha. pose proof identity_tables_place. pose proof tables_stack_apart.
  pose proof bootstrap_stack_place.
  destruct (decide (r = 0)) as [->|Hr0].
  - destruct (tk_bootstrap _ _ Ht) as (_ & _ & -> & _ & _ & ->).
    destruct Ha as [Ha|(i & Hi & Ha)]; [lia|].
    destruct (sp_space _ _ Hsp i Hi) as (d & Ed & ? & _). lia.
  - destruct (tk_slot _ _ Ht r ltac:(lia) Hu) as (k & Ek & Hk & _ & -> & _).
    destruct Ha as [Ha|(i & Hi & Ha)]; [lia|].
    destruct (sp_space _ _ Hsp i Hi) as (d & Ed & ? & _).
    assert (used p r) as Hur by (split; [lia|done]).
    destruct (sp_apart _ _ Hsp r i Hur Hi) as [Hne _]. rewrite Ek, Ed in Hne. rewrite Ed in Ha. lia.
Qed.

Lemma spaces_save p F n ctx :
  kernel_ready (machine p) n F → table_ok p F → spaces_ok p F → spaces_ok (process_save_context ctx p) F.
Proof.
  intros Hr Ht Hsp. destruct (tk_running _ _ Ht) as (r & Er & Hb & _).
  destruct (table_running _ _ _ Ht Er) as [_ Hu].
  destruct (save_context_ok p F n ctx Hr Ht) as [Hr' _].
  destruct (save_context_spec p F ctx r Ht Er (kr_bytes _ _ _ Hr)) as (m' & Es & _ & Hs & _).
  rewrite Es in *. apply (spaces_ext p); [done|apply Hr|apply Hr'| |done].
  intros a Ha. apply Hs. pose proof (context_space p F r a Ht Hsp Hb Hu Ha). lia.
Qed.

Lemma safe_schedule n ctx c s s' : safe n (system s) → schedule ctx s = (c, s') → safe n (system s').
Proof.
  intros (F & Hr & Ht & Hsp) E. destruct (tk_running _ _ Ht) as (r & Er & Hb & _).
  destruct (schedule_cases n s F r ctx Hr Ht Er) as [[_ Ec]|(i & m' & _ & Hi & Es & Ec)];
    rewrite Ec in E; [injection E as _ <-; by exists F|].
  assert (system s' = make_running i (with_memory m' (system s))) as ->.
  { cbv zeta in E. by destruct (_ =? _); injection E as _ <-. }
  destruct (next_in_turn_range _ _ _ Hi) as [Hib Hir].
  destruct (save_context_ok (system s) F n ctx Hr Ht) as [Hr' Ht'].
  pose proof (spaces_save (system s) F n ctx Hr Ht Hsp) as Hsp'. rewrite Es in Hr', Ht', Hsp'.
  exists F. split; [done|split; [by apply make_running_ok|]].
  apply (spaces_ext (with_memory m' (system s))); [|apply Hr'|apply Hr'|done|done].
  intros j Hj. rewrite make_running_slot by (apply Ht' || lia). case_decide as Hij; [|done].
  subst j. split; [|done]. change (slot (with_memory m' (system s)) i) with (slot (system s) i).
  pose proof (runnable_used _ _ Hir). done.
Qed.

Lemma safe_terminate n p : safe n p → safe n (process_terminate_current p).
Proof.
  intros (F & Hr & Ht & Hsp). destruct (tk_running _ _ Ht) as (r & Er & Hb & _).
  destruct (table_running _ _ _ Ht Er) as [_ Hu]. unfold process_terminate_current. rewrite Er.
  destruct (bootstrap (slot p r)) eqn:Eb; [by exists F|].
  assert (r ≠ 0) as Hr0.
  { intros ->. destruct (tk_bootstrap _ _ Ht) as (E & _). congruence. }
  exists F. split; [exact Hr|]. split; [apply table_ok_state; try done; by right|].
  apply (spaces_ext p); [|apply Hr|apply Hr|done|done]. intros j Hj.
  rewrite slot_set_slot by (done || lia || apply Ht). case_decide; [|done]. by subst j.
Qed.

(** *** Creation *)

Lemma stack_taken p F j :
  table_ok p F → used p j → ∃ k, stack_base (slot p j) = k * 4096 ∧ ¬ (k ∈ F) ∧ kernel_end ≤ k * 4096.
Proof. intros Ht [Hj Hu]. destruct (tk_slot _ _ Ht j Hj Hu) as (k & ? & ? & ? & _). by exists k. Qed.

(** A page that was free is no page of the processes there are. *)
Lemma free_page_apart p F u j :
  table_ok p F → spaces_ok p F → used p j → u ∈ F →
  stack_base (slot p j) ≠ u * 4096 ∧ directory (slot p j) ≠ u * 4096.
Proof.
  intros Ht Hsp Hj Hu. destruct (stack_taken p F j Ht Hj) as (k & -> & Hk & _).
  destruct (sp_space _ _ Hsp j Hj) as (d & -> & _ & _ & Hd & _).
  split; intros Hx; [apply Hk; by replace k with u by lia|apply Hd; by replace d with u by lia].
Qed.

Lemma entered_slots p p' i x :
  entered p p' i x → slot p' i = x ∧ ∀ j, used p' j → j ≠ i → used p j ∧ slot p' j = slot p j.
Proof.
  intros (Hi & Hl & Ep).
  assert (∀ j, 0 ≤ j < 16 → slot p' j = if decide (i = j) then x else slot p j) as E.
  { intros j Hj. transitivity (slot (set_slot i x p) j); [unfold slot; by rewrite Ep|].
    apply slot_set_slot; lia. }
  split; [by rewrite E, decide_True by (done || lia)|].
  intros j [Hj Hu] Hne. rewrite E, decide_False in * by (done || lia). done.
Qed.

(** The pages the two ends of the shared table had before stay user pages. *)
Lemma user_page_entered p p' F F' i x k d u :
  entered p p' i x → stack_base x = k * 4096 → directory x = d * 4096 → k ∈ F → d ∈ F → F' ⊆ F →
  user_page p F u → user_page p' F' u.
Proof.
  intros He Ek Ed Hk Hd Hsub (Hu & H1 & H2 & H3). destruct (entered_slots _ _ _ _ He) as [Ei Hold].
  split; [set_solver|split; [done|split; [done|]]]. intros j Hj.
  destruct (decide (j = i)) as [->|Hne].
  - rewrite Ei, Ek, Ed. split; intros Hx; apply Hu; [by replace u with k by lia|by replace u with d by lia].
  - destruct (Hold j Hj Hne) as [Hj' ->]. by apply H3.
Qed.

(** A page just taken that is neither stack nor directory of the new process. *)
Lemma user_page_taken p p' F F' i x k d u :
  table_ok p F → spaces_ok p F → above_kernel F → (∀ u, u ∈ F → u < 2 ^ 20) →
  entered p p' i x → stack_base x = k * 4096 → directory x = d * 4096 →
  u ∈ F → ¬ (u ∈ F') → u ≠ k → u ≠ d → user_page p' F' u.
Proof.
  intros Ht Hsp Hab Hmax He Ek Ed Hu Hu' Hk Hd. destruct (entered_slots _ _ _ _ He) as [Ei Hold].
  split; [done|split; [by apply Hab|split; [by apply Hmax|]]]. intros j Hj.
  destruct (decide (j = i)) as [->|Hne]; [rewrite Ei, Ek, Ed; lia|].
  destruct (Hold j Hj Hne) as [Hj' ->]. by apply (free_page_apart p F).
Qed.

(** A new process with stack page [k] and directory page [d], which were free; besides
    free pages only the first and last entry of the shared table may have changed. *)
Lemma spaces_create p p' F F' i k d x ps :
  table_ok p F → spaces_ok p F → above_kernel F → (∀ u, u ∈ F → u < 2 ^ 20) →
  kernel_dir (memory p) → kernel_dir (memory p') → entered p p' i x →
  stack_base x = k * 4096 → directory x = d * 4096 →
  k ∈ F → d ∈ F → k ≠ d → F' ⊆ F → ¬ (d ∈ F') →
  same_outside_pages ps (memory p) (memory p') →
  (∀ y, y ∈ ps → y ∈ F ∨ y = shared_table / 4096) →
  space_of (memory p') (d * 4096) →
  (∀ e, 0 < e < 1023 → load32 (memory p') (shared_table + 4 * e) = load32 (memory p) (shared_table + 4 * e)) →
  (∀ e, e = 0 ∨ e = 1023 → load32 (memory p') (shared_table + 4 * e) = load32 (memory p) (shared_table + 4 * e) ∨
     ∃ u, u ∈ F ∧ ¬ (u ∈ F') ∧ u ≠ k ∧ u ≠ d ∧ load32 (memory p') (shared_table + 4 * e) = u * 4096 + 7) →
  spaces_ok p' F'.
Proof.
  intros Ht Hsp Hab Hmax K K' He Ek Ed Hk Hd Hkd Hsub Hd' Ho Hps Hnew Hmid Hends.
  pose proof shared_table_page as (Est & Hst0). pose proof identity_tables_place.
  pose proof identity_tables_aligned as Hal. destruct (entered_slots _ _ _ _ He) as [Ei Hold].
  split.
  - intros t e Hte Her Hends'. rewrite <- (sp_tables _ _ Hsp t e) by done.
    destruct (decide (t = 1)) as [->|Hne].
    { unfold shared_table in Hmid. rewrite Z.mul_1_r. apply Hmid. destruct (Hends' eq_refl). lia. }
    apply (same_outside_pages_load32 _ _ _ _ Ho); [dlia|]. unfold shared_table in *.
    intros [Hin%Hab|Heq]%Hps; dlia.
  - intros e Hee. destruct (Hends e Hee) as [->|(u & Hu & Hu' & Huk & Hud & ->)].
    + destruct (sp_shared _ _ Hsp e Hee) as [?|(u & Hu & ?)]; [by left|right]. exists u.
      split; [|done]. by apply (user_page_entered p p' F F' i x k d).
    + right. exists u. split; [|done]. by apply (user_page_taken p p' F F' i x k d).
  - intros j Hj. destruct (decide (j = i)) as [->|Hne].
    + exists d. rewrite Ei. split; [done|split; [by apply Hab|split; [by apply Hmax|done]]].
    + destruct (Hold j Hj Hne) as [Hj' ->]. destruct (sp_space _ _ Hsp j Hj') as (d' & -> & H1 & H2 & H3 & H4).
      exists d'. split; [done|split; [done|split; [done|split; [set_solver|]]]].
      apply (space_of_ext (memory p)); [done|done| |done]. intros e Her.
      apply (same_outside_pages_load32 _ _ _ _ Ho); [dlia|].
      assert ((d' * 4096 + 4 * e) / 4096 = d') as -> by dlia. intros [?|Heq]%Hps; [done|].
      unfold shared_table in *. dlia.
  - intros j l Hj Hl. destruct (decide (j = i)) as [->|Hji], (decide (l = i)) as [->|Hli].
    + rewrite Ei, Ek, Ed. split; [lia|done].
    + destruct (Hold l Hl Hli) as [Hl' ->]. rewrite Ei, Ek, Ed.
      split; [|intros _]; apply not_eq_sym; by apply (free_page_apart p F).
    + destruct (Hold j Hj Hji) as [Hj' ->]. rewrite Ei, Ed.
      split; [|intros _]; by apply (free_page_apart p F).
    + destruct (Hold j Hj Hji) as [Hj' ->], (Hold l Hl Hli) as [Hl' ->]. by apply (sp_apart _ _ Hsp).
Qed.

(** Entry by entry, directories that are kernel directories agree. *)
Lemma kernel_dir_words m m' k : kernel_dir m → kernel_dir m' → 0 ≤ k < 1023 →
  load32 m' (page_directory + 4 * k) = load32 m (page_directory + 4 * k).
Proof.
  intros [K1 K2 _] [K1' K2' _] Hk. destruct (decide (k < 4)).
  - by rewrite K1, K1' by lia.
  - by rewrite K2, K2' by lia.
Qed.

(** When nothing happened but to the allocator. *)
Lemma safe_unchanged n p p' F :
  kernel_ready (machine p) n F → table_ok p F → spaces_ok p F → unchanged p p' n F → safe n p'.
Proof.
  intros Hr Ht Hsp (Hp & Hm & _ & E1 & E2 & E3 & E4 & _). exists F.
  assert (kernel_ready (machine p') n F) as Hr'.
  { destruct Hr as [_ Hb Hk Ha]. unfold memory in Hm. split; [done| | |done]; by rewrite Hm. }
  split; [done|split; [by apply (table_ok_ext p)|]].
  apply (spaces_ext p); [|apply Hr|apply Hr'| |done].
  - intros i _. unfold slot. by rewrite E1.
  - intros a _. by rewrite Hm.
Qed.

Lemma safe_create n entry argument p p' r :
  safe n p → n < 2 ^ 20 → current_alive p = true → next_pid p < 2 ^ 31 →
  process_create entry argument p = (r, p') → safe n p'.
Proof.
  intros (F & Hr & Ht & Hsp) Hmax Ha Hn E. destruct (decide (entry = 0)) as [->|He].
  { injection E as _ <-. by exists F. }
  pose proof (tk_next _ _ Ht).
  destruct (process_create_cases entry argument p He) as [[_ Ec]|(i & Hi & Ec)]; rewrite Ec in E.
  { injection E as _ <-. by exists F. }
  destruct (create_in_slot_spec entry argument i p n F Hr ltac:(lia))
    as (s' & [(_ & E' & Hu)|(k & q & E' & [Hk _] & [Hq _] & Ep & En & Hs & Hr' & Ho & _ & Hw & Hrec)]);
    rewrite E' in E; injection E as _ <-; [by apply (safe_unchanged n p s' F)|].
  assert (q ∈ F ∧ k ≠ q) as [HqF Hkq] by set_solver.
  pose proof (pages_range _ _ _ _ (kr_pages _ _ _ Hr) Hk).
  pose proof (pages_range _ _ _ _ (kr_pages _ _ _ Hr) HqF).
  exists (F ∖ {[k]} ∖ {[q]}). split; [done|]. split.
  - eapply (table_ok_create p s' F _ i k); try done; [|set_solver|set_solver|apply (kr_above _ _ _ Hr k Hk)].
    unfold fresh_entry; simpl. split_and!; done || lia.
  - pose proof shared_table_page as (Est & _). 
    assert (∀ e, 0 ≤ e < 1024 → load32 (memory s') (shared_table + 4 * e) =
      load32 (memory p) (shared_table + 4 * e)) as Hst.
    { intros e Hee. apply (same_outside_pages_load32 _ _ _ _ Ho); [dlia|].
      rewrite (page_inside shared_table (shared_table / 4096) _ (4 * e)) by (done || lia).
      pose proof (kr_above _ _ _ Hr _ Hk). pose proof (kr_above _ _ _ Hr _ HqF).
      pose proof shared_table_page as (_ & _ & ? & _). set_solver by lia. }
    pose proof (conj (proj1 Hi) (conj (tk_length _ _ Ht) Ep) : entered p s' i _) as Hent.
    eapply (spaces_create p s' F _ i k q _ ({[k]} ∪ {[q]})); try done.
    + apply Hr.
    + intros u Hu. pose proof (pages_range _ _ _ _ (kr_pages _ _ _ Hr) Hu). lia.
    + apply Hr.
    + apply Hr'.
    + set_solver.
    + set_solver.
    + intros y Hy. left. set_solver.
    + split; [|left|done].
      * intros e Hee _. rewrite Hw by lia. symmetry. apply kernel_dir_words; [apply Hr|apply Hr'|lia].
      * change 4 with (4 * 1). rewrite Hw by lia. by apply (kernel_dir_low _ (kr_dir _ _ _ Hr) 1).
    + intros e Hee. apply Hst. lia.
    + intros e Hee. left. apply Hst. lia.
Qed.

Lemma safe_create_user n image sz p p' r :
  safe n p → n < 2 ^ 20 → current_alive p = true → next_pid p < 2 ^ 31 → 0 ≤ sz < 2 ^ 32 →
  process_create_user image sz p = (r, p') → safe n p'.
Proof.
  intros Hok Hmax Ha Hn Hsz E. pose proof Hok as (F & Hr & Ht & Hsp). pose proof (tk_next _ _ Ht).
  destruct image as [image|]; [|by injection E as _ <-].
  destruct (decide (0 < sz ≤ 4096)) as [Hs|Hs]; cycle 1.
  { unfold process_create_user in E.
    destruct (Z.eqb_spec sz 0), (Z.ltb_spec 4096 sz); cbn [orb] in E; try (by injection E as _ <-); lia. }
  destruct (process_create_user_cases image sz p Hs) as [[_ Ec]|(i & Hi & Ec)]; rewrite Ec in E.
  { by injection E as _ <-. }
  destruct (decide (size F < 4)%nat) as [Hf|Hf].
  { destruct (create_user_scarce image sz i p n F Hr Hf) as (s' & E' & Hu).
    rewrite E' in E. injection E as _ <-. by apply (safe_unchanged n p s' F). }
  destruct (create_user_success image sz i p n F Hr ltac:(lia) ltac:(lia) ltac:(lia))
    as (s' & k & q & u & t & E' & Hc).
  rewrite E' in E. injection E as _ <-.
  destruct Hc as [[Hk _] [Hq _] [Hu _] [Htd _] Ep En Hrest Hr' Ho _ _ He1 Hew Hrec Hcode Hstack Htab].
  assert (q ∈ F ∧ u ∈ F ∧ t ∈ F ∧ k ≠ t ∧ q ≠ k ∧ q ≠ t ∧ u ≠ k ∧ u ≠ t) as (HqF & HuF & HtF & Hkt & ? & ? & ? & ?)
    by set_solver.
  pose proof (pages_range _ _ _ _ (kr_pages _ _ _ Hr) Hk).
  pose proof (pages_range _ _ _ _ (kr_pages _ _ _ Hr) HtF).
  exists (F ∖ {[k]} ∖ {[q]} ∖ {[u]} ∖ {[t]}). split; [done|]. split.
  - eapply (table_ok_create p s' F _ i k); try done; [|set_solver|set_solver|apply (kr_above _ _ _ Hr k Hk)].
    unfold fresh_entry; simpl. split_and!; done || lia.
  - pose proof (conj (proj1 Hi) (conj (tk_length _ _ Ht) Ep) : entered p s' i _) as Hent.
    eapply (spaces_create p s' F _ i k t _ ({[k]} ∪ {[q]} ∪ {[t]} ∪ {[shared_table / 4096]})); try done.
    + apply Hr.
    + intros x Hx. pose proof (pages_range _ _ _ _ (kr_pages _ _ _ Hr) Hx). lia.
    + apply Hr.
    + apply Hr'.
    + set_solver.
    + set_solver.
    + intros y. rewrite !elem_of_union, !elem_of_singleton.
      intros [[[-> | ->] | ->] | ->]; [left|left|left|by right]; done.
    + split; [|right; exact He1|exact Hrec].
      intros e Hee Hne. rewrite Hew by done. symmetry. apply kernel_dir_words; [apply Hr|apply Hr'|lia].
    + intros e [-> | ->]; right; [exists q|exists u]; rewrite ?Z.mul_0_r, ?Z.add_0_r;
        (split; [done|split; [set_solver|done]]).
Qed.

(** [process_system_init] starts safe when the identity tables are as [init_paging] made them. *)
Lemma safe_init n F p :
  kernel_ready (machine p) n F → 1 ≤ next_pid p → identity_words (ram (machine p)) →
  safe n (process_system_init p).
Proof.
  intros Hr Hn Hi. set (p' := process_system_init p).
  destruct (scheduler_init_ok n F (mk_sched p 0 0) Hr Hn) as (F' & Hr' & Ht).
  change (system (scheduler_init (mk_sched p 0 0))) with p' in *. exists F'. split; [done|split; [done|]].
  assert (∀ i, ¬ used p' i) as Hun.
  { intros i [Hir Hu]. apply Hu. unfold slot. cbn [processes p' process_system_init tss_set_kernel_stack].
    replace (Z.to_nat i) with (Datatypes.S (Z.to_nat (i - 1))) by lia. cbn [nth].
    by rewrite nth_lookup, lookup_replicate_2 by lia. }
  assert (identity_words (memory p')) as Hi'.
  { intros t e Hte He. rewrite <- (Hi t e) by done. pose proof tables_stack_apart.
    destruct (clear_context_spec (bootstrap_stack + BOOTSTRAP_STACK_SIZE - sizeof_context) (memory p)) as (_ & Hs & _).
    apply (same_outside_load32 _ _ _ _ _ Hs). unfold BOOTSTRAP_STACK_SIZE, sizeof_context. lia. }
  split.
  - intros t e Hte He _. by apply Hi'.
  - intros e He. left. unfold shared_table. change 4096 with (4096 * 1) at 1. rewrite Hi' by lia. lia.
  - intros i Hu. by apply Hun in Hu.
  - intros i j Hu. by apply Hun in Hu.
Qed.

(** *** What user code can reach *)

Lemma kernel_space m : kernel_dir m → space_of m page_directory.
Proof.
  intros [K1 _ K3]. split; [done| |done]. left. by apply (K1 1).
Qed.

(** A directory in use is aligned and is a space. *)
Lemma space_directory_of p F d :
  kernel_dir (memory p) → spaces_ok p F → space_directory p d →
  d mod 2 ^ 12 = 0 ∧ space_of (memory p) d.
Proof.
  intros Hk Hsp [->|(i & Hi & <-)].
  - split; [apply page_directory_aligned|by apply kernel_space].
  - destruct (sp_space _ _ Hsp i Hi) as (d & -> & _ & _ & _ & Hd). split; [dlia|done].
Qed.

(** What is mapped for user code are its two pages, at frames of user code. *)
Lemma user_reach p F d va t :
  kernel_dir (memory p) → spaces_ok p F → space_directory p d → 0 ≤ va < 2 ^ 32 →
  walk (memory p) d va = Some t → user t = true →
  user_window va ∧ ∃ u, user_page p F u ∧ physical t = u * 4096 + page_offset va.
Proof.
  intros Hk Hsp Hd Hva Hw Hu. destruct (space_directory_of p F d Hk Hsp Hd) as (Hal & [S1 S2 S3]).
  pose proof (table_index_range va) as Hti. pose proof (dir_index_range va Hva) as Hdi.
  pose proof shared_table_page as (Est & _). unfold walk, pte, pde in Hw.
  destruct (decide (dir_index va = 1)) as [E|Hne1]; cycle 1.
  { exfalso. revert Hw. destruct (decide (dir_index va = 1023)) as [E|Hne2].
    { rewrite E, S3. destruct (entry_bits d 3 Hal ltac:(lia)) as (-> & -> & ->).
      case_match; [|done]. by intros [= <-]. }
    rewrite S1 by lia. destruct (decide (dir_index va < 4)); [|by rewrite (kernel_dir_high _ Hk) by lia].
    rewrite (kernel_dir_low _ Hk) by lia. destruct (low_entry (dir_index va)) as (-> & -> & -> & ->).
    case_match; [|done]. by intros [= <-]. }
  assert (entry_frame (load32 (memory p) (d + 4 * 1)) = shared_table) as Ef.
  { change (4 * 1) with 4. destruct S2 as [-> | ->]; apply entry_frame_add; dlia. }
  rewrite E, Ef in Hw.
  assert (∀ x, x mod 2 ^ 12 = 0 → load32 (memory p) (shared_table + 4 * table_index va) = x + 3 → False) as Hno.
  { intros x Hx Ex. rewrite Ex in Hw. destruct (entry_bits x 3 Hx ltac:(lia)) as (E1 & E2 & E3).
    rewrite E1, E2, E3 in Hw. case_match; [|done]. injection Hw as <-. cbn [user] in Hu.
    change (entry_user 3) with false in Hu. by rewrite andb_false_r in Hu. }
  destruct (decide (table_index va = 0 ∨ table_index va = 1023)) as [He|He]; cycle 1.
  { destruct (Hno ((1 * 1024 + table_index va) * 4096) ltac:(dlia)).
    rewrite <- (sp_tables _ _ Hsp 1 (table_index va)) by lia. unfold shared_table. f_equal; lia. }
  split.
  { unfold user_window, dir_index, table_index, USER_CODE_ADDRESS, USER_STACK_TOP in *. dlia. }
  destruct (sp_shared _ _ Hsp _ He) as [Ex|(u & Hup & Ex)].
  { destruct (Hno ((1024 + table_index va) * 4096)); [dlia|done]. }
  exists u. split; [done|]. rewrite Ex in Hw. case_match; [|done]. injection Hw as <-. cbn [physical].
  rewrite entry_frame_add by (dlia || lia). done.
Qed.

(** A store to such a frame disturbs no table, no directory, and no saved context. *)
Lemma user_page_store p F n u o b :
  kernel_ready (machine p) n F → table_ok p F → spaces_ok p F → user_page p F u → 0 ≤ o < 4096 → is_byte b →
  computes_safely p (store8 (memory p) (u * 4096 + o) b).
Proof.
  intros Hr Ht Hsp (_ & Hke & _ & Hown) Ho Hb.
  assert (same_outside (u * 4096) 4096 (memory p) (store8 (memory p) (u * 4096 + o) b)) as Hs.
  { intros a Ha. rewrite load8_store8. case_decide; [|done]. lia. }
  pose proof page_directory_place. split; [split; [|split]|].
  - intros a. rewrite load8_store8. case_decide; [unfold is_byte, u8 in *; dlia|]. apply Hr.
  - assert (∀ i, 0 ≤ i < 1024 → load32 (store8 (memory p) (u * 4096 + o) b) (page_directory + 4 * i) =
      load32 (memory p) (page_directory + 4 * i)) as E.
    { intros i Hi. apply (same_outside_load32 _ _ _ _ _ Hs). lia. }
    destruct (kr_dir _ _ _ Hr) as [K1 K2 K3]. split; intros; rewrite E by lia; auto.
  - intros i Hi _ Hu a Ha. apply Hs. destruct (decide (i = 0)) as [->|Hi0].
    + destruct (tk_bootstrap _ _ Ht) as (_ & _ & E & _ & _ & E'). pose proof bootstrap_stack_place. lia.
    + destruct (tk_slot _ _ Ht i ltac:(lia) Hu) as (k & Ek & _ & _ & Ec & _).
      destruct (Hown i) as [Hne _]; [by split; [lia|]|]. rewrite Ek in Hne. lia.
  - intros a [Ha|(i & Hi & Ha)]; apply Hs.
    + pose proof identity_tables_place. lia.
    + destruct (Hown i Hi) as [_ Hne]. destruct (sp_space _ _ Hsp i Hi) as (d & Ed & _). lia.
Qed.

Lemma computes_safely_refl p F n : kernel_ready (machine p) n F → computes_safely p (memory p).
Proof. intros Hr. split; [split; [apply Hr|split; [apply Hr|done]]|done]. Qed.

Lemma computes_safely_trans p m m' :
  computes_safely p m → computes_safely (with_memory m p) m' → computes_safely p m'.
Proof.
  intros [(_ & _ & H1) H2] [(Hb & Hk & H3) H4]. split; [split; [done|split; [done|]]|].
  - intros i Hi Hr Hu a Ha. transitivity (load8 m a); [by apply (H3 i)|by apply (H1 i)].
  - intros a Ha. transitivity (load8 m a); [by apply H4|by apply H2].
Qed.

(** User code computes safely, whatever it does. *)
Lemma user_code_safe n p d m' :
  safe n p → space_directory p d → user_code d (memory p) m' → computes_safely p m'.
Proof.
  intros Hs Hd Hu. remember (memory p) as m eqn:Em. revert p Hs Hd Em.
  induction Hu as [m|m m' va t b Hva Hw Hut _ Hb _ IH]; intros p Hs Hd ->.
  - destruct Hs as (F & Hr & _). by apply (computes_safely_refl p F n).
  - pose proof Hs as (F & Hr & Ht & Hsp).
    destruct (user_reach p F d va t (kr_dir _ _ _ Hr) Hsp Hd Hva Hw Hut) as (_ & u & Hup & Ep).
    assert (computes_safely p (store8 (memory p) (physical t) b)) as Hc.
    { rewrite Ep. apply (user_page_store p F n); try done. unfold page_offset. dlia. }
    apply (computes_safely_trans p _ _ Hc), IH; [by apply safe_compute|done|done].
Qed.

Lemma user_code_store d m va u b :
  0 ≤ va < 2 ^ 32 → walk m d va = Some (mk_translation u true true) → is_byte b → user_code d m (store8 m u b).
Proof. intros Hva Hw Hb. by apply (user_stores d m _ va (mk_translation u true true) b), user_stops. Qed.

(** What computes safely changes no translation. *)
Lemma safe_walk p F d m' va :
  kernel_dir (memory p) → spaces_ok p F → space_directory p d → computes_safely p m' → 0 ≤ va < 2 ^ 32 →
  walk m' d va = walk (memory p) d va.
Proof.
  intros Hk Hsp Hd [(_ & Hk' & _) Hks] Hva. destruct (space_directory_of p F d Hk Hsp Hd) as (Hal & [S1 S2 S3]).
  pose proof (table_index_range va) as Hti. pose proof (dir_index_range va Hva) as Hdi.
  assert (∀ k, 0 ≤ k < 1024 → load32 m' (d + 4 * k) = load32 (memory p) (d + 4 * k)) as Ed.
  { intros k Hkr. destruct Hd as [->|(i & Hi & <-)].
    - destruct (decide (k = 1023)) as [->|].
      + by rewrite (kernel_dir_recursive _ Hk), (kernel_dir_recursive _ Hk').
      + apply kernel_dir_words; [done|done|lia].
    - apply (word_bytes (space_byte p)); [exact Hks|]. intros b Hb. right. exists i. split; [done|lia]. }
  assert (∀ k, 0 ≤ k < 4096 → load32 m' (identity_tables + 4 * k) = load32 (memory p) (identity_tables + 4 * k)) as Et.
  { intros k Hkr. apply (word_bytes (space_byte p)); [exact Hks|]. intros b Hb. left. lia. }
  assert (pte m' d va = pte (memory p) d va ∨ entry_present (pde (memory p) d va) = false) as He.
  { unfold pte, pde. rewrite Ed by done. destruct (decide (dir_index va = 1)) as [E|Hne1].
    - left. rewrite E. change (4 * 1) with 4. pose proof shared_table_page as (Est & _).
      assert (entry_frame (load32 (memory p) (d + 4)) = identity_tables + 4096) as ->
        by (fold shared_table; destruct S2 as [-> | ->]; apply entry_frame_add; dlia).
      replace (identity_tables + 4096 + 4 * table_index va) with (identity_tables + 4 * (1024 + table_index va))
        by lia. apply Et. lia.
    - destruct (decide (dir_index va = 1023)) as [E|Hne2].
      + left. rewrite E, S3, entry_frame_add by (done || lia). by apply Ed.
      + rewrite S1 by lia. destruct (decide (dir_index va < 4)); [left|right].
        * rewrite (kernel_dir_low _ Hk) by lia. destruct (low_entry (dir_index va)) as (_ & _ & _ & ->).
          replace (identity_tables + 4096 * dir_index va + 4 * table_index va)
            with (identity_tables + 4 * (1024 * dir_index va + table_index va)) by lia. apply Et. lia.
        * by rewrite (kernel_dir_high _ Hk) by lia. }
  unfold walk. assert (pde m' d va = pde (memory p) d va) as -> by (unfold pde; by apply Ed).
  by destruct He as [-> | ->].
Qed.

Lemma user_page_bytes p F u o : spaces_ok p F → table_ok p F → user_page p F u → 0 ≤ o < 4096 → user_byte p (u * 4096 + o).
Proof.
  intros Hsp Ht (_ & Hke & _ & Hown) Ho. split; [lia|]. intros i Hi. destruct (Hown i Hi) as [H1 H2].
  destruct (stack_taken p F i Ht Hi) as (k & Ek & _). destruct (sp_space _ _ Hsp i Hi) as (d & Ed & _). lia.
Qed.

(** The bytes user code changes. *)
Lemma user_code_bytes n p d m' :
  safe n p → space_directory p d → user_code d (memory p) m' →
  ∀ a, load8 m' a ≠ load8 (memory p) a → user_byte p a ∧
    ∃ va t, user_window va ∧ walk (memory p) d va = Some t ∧ user t = true ∧ writable t = true ∧ physical t = a.
Proof.
  intros Hs Hd Hu. remember (memory p) as m eqn:Em. revert p Hs Hd Em.
  induction Hu as [m|m m' va t b Hva Hw Hut Hwt Hb _ IH]; intros p Hs Hd -> a Ha; [done|].
  pose proof Hs as (F & Hr & Ht & Hsp).
  destruct (user_reach p F d va t (kr_dir _ _ _ Hr) Hsp Hd Hva Hw Hut) as (Hwin & u & Hup & Ep).
  assert (0 ≤ page_offset va < 4096) as Ho by (unfold page_offset; dlia).
  assert (computes_safely p (store8 (memory p) (physical t) b)) as Hc.
  { rewrite Ep. by apply (user_page_store p F n). }
  destruct (decide (a = physical t)) as [->|Hne].
  { split; [rewrite Ep; by apply (user_page_bytes p F)|]. by exists va, t. }
  destruct (IH (with_memory (store8 (memory p) (physical t) b) p) (safe_compute n p _ Hs Hc) Hd eq_refl a)
    as (Hub & va' & t' & Hwin' & Hw' & Ht').
  { rewrite load8_store8, decide_False by congruence. done. }
  split; [exact Hub|]. exists va', t'. split; [done|split; [|done]].
  rewrite <- Hw'. symmetry. apply (safe_walk p F d _ va' (kr_dir _ _ _ Hr) Hsp Hd Hc).
  destruct Hwin' as [?|?]; unfold USER_CODE_ADDRESS, USER_STACK_TOP in *; lia.
Qed.
End lemmas.
End Spaces.
