(* ===== verification/Frames.v ===== *)
(** Interrupt frames that wait to be resumed: where the code they belong to has its stack,
    and that what the return path writes stays there. *)

From S2P Require Import Prelude Memory Interfaces Pmm Paging Process Scheduler Spaces.

Module Frames.
Import Paging Process Scheduler Spaces.

(** ** Specification *)

Section spec.
Context {S : Type} {KI : KernelImage}.
Implicit Types (p : psys S).

(** The [n] bytes at [a] are the running code's: outside the kernel directory, the page
    tables and directories, and the saved contexts of the other processes. *)
Definition own_memory p (a n : Z) : Prop :=
  (a + n ≤ page_directory ∨ page_directory + 4096 ≤ a) ∧
  (∀ i, 0 ≤ i < 16 → running p ≠ Some i → state (slot p i) ≠ PROCESS_UNUSED →
    a + n ≤ context (slot p i) ∨ context (slot p i) + 60 ≤ a) ∧
  ∀ b, space_byte p b → ¬ (a ≤ b < a + n).

(** Where the kernel code of process [r] has its stack: the first one in the kernel image,
    outside directory and tables, the others in the page they were given. *)
Definition home p (r a n : Z) : Prop :=
  if decide (r = 0) then
    0x100000 ≤ a ∧ a + n ≤ kernel_end ∧ (a + n ≤ page_directory ∨ page_directory + 4096 ≤ a) ∧
    (a + n ≤ identity_tables ∨ identity_tables + 16384 ≤ a)
  else stack_base (slot p r) ≤ a ∧ a + n ≤ stack_base (slot p r) + 4096.

(** Process [r] runs user code when it runs: the end of a user process is kernel code. *)
Definition user_runs p (r : Z) : bool := is_user (slot p r) && runnable (slot p r).

(** The frame at [f] is one of process [r]: of user code, or of kernel code whose stack
    pointer, which is 20 bytes above the word saved for it, has 12 bytes of its home below. *)
Definition frame_fits p (r f : Z) : Prop :=
  let cs := load32 (memory p) (f + c_cs) in
  let saved := load32 (memory p) (f + c_esp) in
  cs < 2 ^ 16 ∧
  if user_runs p r then cs .& 3 ≠ 0 ∧ load32 (memory p) (f + c_user_ss) < 2 ^ 16
  else cs .& 3 = 0 ∧ saved < 2 ^ 32 - 20 ∧ home p r (saved + 8) 12.

(** The saved contexts of the processes that may be resumed. *)
Definition frames_ok p : Prop := ∀ i, 0 ≤ i < 16 → running p ≠ Some i →
  runnable (slot p i) = true → frame_fits p i (context (slot p i)).

(** No kernel stack ends at the end of the 4 GiB. *)
Definition stacks_low p : Prop := ∀ i, 1 ≤ i < 16 →
  state (slot p i) ≠ PROCESS_UNUSED → stack_base (slot p i) + 4096 < 2 ^ 32.

(** The frame at [ctx] and the context of [r] are one or do not overlap. *)
Definition apart_from_context p (r ctx : Z) : Prop :=
  context (slot p r) = ctx ∨ context (slot p r) + 60 ≤ ctx ∨ ctx + 60 ≤ context (slot p r).

End spec.

(** ** Lemmas *)

Section lemmas.
Context {S : Type} {PA : PageAllocator S} {PAS : PageAllocatorSpec S}.
Context {KI : KernelImage} {KIO : KernelImageOk}.
Implicit Types (p : psys S) (F : gset Z).

(** *** Memory of the running code *)

Lemma home_sub p r a n a' n' : home p r a n → a ≤ a' → a' + n' ≤ a + n → home p r a' n'.
Proof. unfold home. case_decide; lia. Qed.

Lemma home_ext p p' r a n : stack_base (slot p' r) = stack_base (slot p r) → home p r a n → home p' r a n.
Proof. intros E. unfold home. by rewrite E. Qed.

Lemma own_memory_sub p a n a' n' :
  own_memory p a n → a ≤ a' → a' + n' ≤ a + n → own_memory p a' n'.
Proof.
  intros (H1 & H2 & H3) Ha Hn. split; [lia|split].
  - intros i Hi Hr Hs. destruct (H2 i Hi Hr Hs); lia.
  - intros b Hb. specialize (H3 b Hb). lia.
Qed.

Lemma own_memory_ext p p' a n :
  processes p' = processes p → running p' = running p → own_memory p a n → own_memory p' a n.
Proof.
  intros E1 E2 H. assert (∀ i, slot p' i = slot p i) as E by (intros i; unfold slot; by rewrite E1).
  destruct H as (H1 & H2 & H3). split; [done|split].
  - intros i. rewrite E2, E. apply H2.
  - intros b [Hb|(i & [Hi Hu] & Hb)]; apply H3; [by left|right].
    rewrite E in Hu, Hb. by exists i.
Qed.

Lemma own_computes p a n m' :
  kernel_dir (memory p) → own_memory p a n → mem_bytes m' → same_outside a n (memory p) m' →
  computes_safely p m'.
Proof.
  intros [K1 K2 K3] (H1 & H2 & H3) Hb Hs. split; [split; [done|split]|].
  - assert (∀ i, 0 ≤ i < 1024 →
      load32 m' (page_directory + 4 * i) = load32 (memory p) (page_directory + 4 * i)) as E.
    { intros i Hi. apply (same_outside_load32 _ _ _ _ _ Hs). lia. }
    split; intros; rewrite E by lia; auto.
  - intros i Hi Hr Hu b Hin. apply Hs. destruct (H2 i Hi Hr Hu); lia.
  - intros b Hin. apply Hs. specialize (H3 b Hin). lia.
Qed.

(** The home of the running process is its own. *)
Lemma home_own p F r a n :
  table_ok p F → spaces_ok p F → running p = Some r → home p r a n → 0 < n → own_memory p a n.
Proof.
  intros Ht Hsp Er Hh Hn. destruct (table_running _ _ _ Ht Er) as [Hb Hu].
  pose proof bootstrap_stack_place. pose proof page_directory_place. pose proof identity_tables_place.
  destruct (tk_bootstrap _ _ Ht) as (_ & _ & B2 & _ & _ & B3). unfold home in Hh. case_decide as Hr0.
  - subst r. destruct Hh as (Hlo & Hhi & Hd & Htb). split; [done|split].
    + intros i Hi Hne Hui. assert (i ≠ 0) by congruence.
      destruct (tk_slot _ _ Ht i ltac:(lia) Hui) as (q & _ & ? & _ & -> & _). lia.
    + intros b [Hx|(i & Hi & Hx)]; [lia|]. destruct (sp_space _ _ Hsp i Hi) as (d & Ed & ? & _). lia.
  - destruct (tk_slot _ _ Ht r ltac:(lia) Hu) as (k & Ek & Hk & _). rewrite Ek in Hh.
    split; [lia|split].
    + intros i Hi Hne Hui. assert (i ≠ r) by congruence. destruct (decide (i = 0)) as [->|Hi0].
      * rewrite B2, B3. lia.
      * destruct (tk_slot _ _ Ht i ltac:(lia) Hui) as (q & Eq & _ & _ & -> & _).
        destruct (tk_apart _ _ Ht i r ltac:(lia) ltac:(lia) ltac:(done) Hui Hu) as [Hne' _]. lia.
    + intros b [Hx|(i & Hi & Hx)]; [lia|]. destruct (sp_space _ _ Hsp i Hi) as (d & Ed & _).
      assert (used p r) as Hur by (split; [lia|done]).
      destruct (sp_apart _ _ Hsp r i Hur Hi) as [Hne _]. rewrite Ek, Ed in Hne. rewrite Ed in Hx. lia.
Qed.

(** The place of the saved context, up to the end of the stack, is part of the home. *)
Lemma context_home p F r :
  table_ok p F → stacks_low p → 0 ≤ r < 16 → state (slot p r) ≠ PROCESS_UNUSED →
  home p r (context (slot p r) - 4) 64 ∧
  process_kernel_stack_top (Some (slot p r)) = context (slot p r) + 60 ∧
  4096 ≤ context (slot p r) < 2 ^ 32 - 64.
Proof.
  intros Ht Hlow Hb Hu. pose proof directory_stack_apart. pose proof tables_stack_apart.
  pose proof bootstrap_stack_place. pose proof kernel_end_range. pose proof bootstrap_stack_aligned.
  pose proof page_directory_place.
  destruct (tk_bootstrap _ _ Ht) as (B1 & _ & B2 & _ & _ & B3).
  unfold home. case_decide as Hr0.
  - subst r. rewrite B2, B3. unfold process_kernel_stack_top. rewrite B1. unfold BOOTSTRAP_STACK_SIZE.
    split; [lia|split; [lia|dlia]].
  - destruct (tk_slot _ _ Ht r ltac:(lia) Hu) as (q & Eb & Hq & _ & Ec & Ebs & _).
    pose proof (Hlow r ltac:(lia) Hu) as Hl. rewrite Eb in *. rewrite Ec.
    unfold process_kernel_stack_top. rewrite Ebs, Eb, u32_small by lia. lia.
Qed.

(** *** Frames *)

Lemma frame_fits_ext p p' r f f' :
  user_runs p' r = user_runs p r → stack_base (slot p' r) = stack_base (slot p r) →
  load32 (memory p') (f' + c_cs) = load32 (memory p) (f + c_cs) →
  load32 (memory p') (f' + c_esp) = load32 (memory p) (f + c_esp) →
  load32 (memory p') (f' + c_user_ss) = load32 (memory p) (f + c_user_ss) → frame_fits p r f → frame_fits p' r f'.
Proof.
  intros E1 E2 E3 E4 E5. unfold frame_fits. cbv zeta. rewrite E1, E3, E4, E5.
  intros [H0 H]. split; [done|]. destruct (user_runs p r); [done|].
  destruct H as (H1 & H2 & H3). split; [done|split; [done|]]. by apply (home_ext p).
Qed.

Lemma frame_fits_kept p p' r f :
  user_runs p' r = user_runs p r → stack_base (slot p' r) = stack_base (slot p r) →
  same_context f (memory p) (memory p') → frame_fits p r f → frame_fits p' r f.
Proof.
  intros E1 E2 Hm. apply frame_fits_ext; [done|done|..]; apply load32_ext; intros b Hb; apply Hm;
    unfold c_cs, c_esp, c_user_ss in *; lia.
Qed.

Lemma frames_computes p m' : frames_ok p → computes p m' → frames_ok (with_memory m' p).
Proof.
  intros H (_ & _ & Hm) i Hi Hne Hrun. apply (frame_fits_kept p); [done|done| |by apply H].
  apply Hm; [done|done|]. by apply runnable_used.
Qed.

Lemma frames_ext p p' :
  processes p' = processes p → running p' = running p → memory p' = memory p → frames_ok p → frames_ok p'.
Proof.
  intros E1 E2 E3 H i Hi. assert (slot p' i = slot p i) as E by (unfold slot; by rewrite E1).
  rewrite E2, E. intros Hne Hrun.
  apply (frame_fits_ext p _ _ (context (slot p i))); unfold user_runs; rewrite ?E, ?E3; try done. by apply H.
Qed.

(** Saving the frame at [ctx] of the running process. *)
Lemma frames_save p F n ctx r m' :
  kernel_ready (machine p) n F → table_ok p F → running p = Some r →
  process_save_context ctx p = with_memory m' p → frames_ok p →
  frames_ok (with_memory m' p) ∧
  (apart_from_context p r ctx → frame_fits p r ctx → frame_fits (with_memory m' p) r (context (slot p r))).
Proof.
  intros Hr Ht Er Es Hf. destruct (table_running _ _ _ Ht Er) as [Hb Hu].
  destruct (save_context_spec p F ctx r Ht Er (kr_bytes _ _ _ Hr)) as (m'' & Es' & _ & Hs & Hw).
  assert (m'' = m') as -> by (pose proof (f_equal memory (eq_trans (eq_sym Es) Es')) as Hm; by cbn in Hm).
  split.
  - intros i Hi Hne Hrun. apply (frame_fits_kept p); [done|done| |by apply Hf].
    intros a Ha. apply Hs. assert (r ≠ i) as Hri by (intros ->; by apply Hne).
    destruct (contexts_apart p F r i Ht Hb Hi Hri Hu (runnable_used _ _ Hrun));
      change (slot (with_memory m' p) i) with (slot p i) in Ha; lia.
  - intros Hap. apply frame_fits_ext; [done|done|..].
    + change c_cs with (4 * 11). by apply Hw.
    + change c_esp with (4 * 3). by apply Hw.
    + change c_user_ss with (4 * 14). by apply Hw.
Qed.

(** Scheduling from the frame at [ctx]: what is resumed fits the process that runs then. *)
Lemma frames_schedule n s ctx f s' r :
  safe n (system s) → stacks_low (system s) → frames_ok (system s) → running (system s) = Some r →
  frame_fits (system s) r ctx → apart_from_context (system s) r ctx → 0 ≤ ctx < 2 ^ 32 - 64 →
  schedule ctx s = (f, s') →
  frames_ok (system s') ∧ 0 ≤ f < 2 ^ 32 - 64 ∧
  ∃ i, running (system s') = Some i ∧ frame_fits (system s') i f.
Proof.
  intros (F & Hr & Ht & Hsp) Hlow Hf Er Hfit Hap Hctx E. destruct (table_running _ _ _ Ht Er) as [Hb Hu].
  destruct (schedule_cases n s F r ctx Hr Ht Er) as [[_ Ec]|(i & m' & _ & Hi & Es & Ec)]; rewrite Ec in E.
  { injection E as <- <-. split; [done|split; [done|]]. by exists r. }
  destruct (next_in_turn_range _ _ _ Hi) as [Hib Hir].
  assert (system s' = make_running i (with_memory m' (system s)) ∧ f = context (slot (system s) i)) as [-> ->].
  { cbv zeta in E. by destruct (Z.eqb_spec (context (slot (system s) i)) ctx); injection E as <- <-. }
  destruct (frames_save (system s) F n ctx r m' Hr Ht Er Es Hf) as [Hf' Hfr].
  set (p := with_memory m' (system s)) in *.
  assert (∀ j, 0 ≤ j → slot (make_running i p) j =
    if decide (i = j) then with_state PROCESS_RUNNING (slot p i) else slot p j) as Eslot.
  { intros j Hj. apply make_running_slot; [apply Ht|done|done]. }
  assert (∀ j, 0 ≤ j < 16 → runnable (slot p j) = true → frame_fits p j (context (slot p j))) as Hall.
  { intros j Hj Hrun. destruct (decide (j = r)) as [->|Hne].
    2: { apply Hf'; [done| |done]. change (running p) with (running (system s)). congruence. }
    by apply Hfr. }
  assert (∀ j, 0 ≤ j → runnable (slot p j) = true → user_runs (make_running i p) j = user_runs p j) as Eus.
  { intros j Hj Hrun. unfold user_runs. rewrite Eslot by done. case_decide as Hij; [|done]. subst j.
    by rewrite Hrun. }
  destruct (context_home (system s) F i Ht Hlow Hib (runnable_used _ _ Hir)) as (_ & _ & Hrange).
  split; [|split; [lia|]].
  - intros j Hj Hne Hrun. assert (i ≠ j) as Hij by (intros ->; by apply Hne).
    rewrite Eslot, decide_False in * by (done || lia).
    apply (frame_fits_ext p _ _ (context (slot p j))); rewrite ?Eus, ?Eslot, ?decide_False by (done || lia); try done.
    by apply Hall.
  - exists i. split; [done|].
    apply (frame_fits_ext p _ _ (context (slot p i))); rewrite ?Eus, ?Eslot, ?decide_True by (done || lia); try done.
    by apply Hall.
Qed.
(** *** The end and the beginning of processes *)

Lemma frames_terminate p F : table_ok p F → frames_ok p → frames_ok (process_terminate_current p).
Proof.
  intros Ht Hf. destruct (tk_running _ _ Ht) as (r & Er & Hb & _). unfold process_terminate_current. rewrite Er.
  destruct (bootstrap (slot p r)); [done|]. set (p' := set_slot _ _ _).
  intros i Hi Hne Hrun. change (running p') with (running p) in Hne.
  assert (slot p' i = slot p i) as E.
  { subst p'. rewrite slot_set_slot, decide_False by (done || lia || congruence || apply Ht). done. }
  apply (frame_fits_ext p _ _ (context (slot p' i))); unfold user_runs; rewrite ?E in *; try done. by apply Hf.
Qed.

(** A new process in slot [i], whose frame fits. *)
Lemma frames_insert p p' F i x ps :
  table_ok p F → above_kernel F → first_reusable p i → running p' = running p →
  processes p' = <[Z.to_nat i := x]> (processes p) →
  (∀ y, y ∈ ps → y ∈ F ∨ y = shared_table / 4096) →
  same_outside_pages ps (memory p) (memory p') →
  frame_fits p' i (context (slot p' i)) → frames_ok p → frames_ok p'.
Proof.
  intros Ht Ha Hi Er Ep Hps Hs Hnew Hf j Hj Hne Hrun. destruct (decide (j = i)) as [->|Hij]; [done|].
  pose proof (proj1 Hi) as Hir.
  assert (slot p' j = slot p j) as E.
  { transitivity (slot (set_slot i x p) j); [unfold slot; by rewrite Ep|].
    rewrite slot_set_slot, decide_False by (done || lia || congruence || apply Ht). done. }
  rewrite E in *. destruct (keeps_create p p' F i j x ps Ht Ha Hi Ep Hps Hs Hj Hrun) as (_ & _ & _ & Hc).
  apply (frame_fits_kept p); unfold user_runs; rewrite ?E; try done. apply Hf; [done|congruence|done].
Qed.

(** The first frame of a kernel process, and of a user process. *)
Lemma kernel_frame_fits p i k :
  1 ≤ i < 16 → k < 2 ^ 20 - 1 → 0 ≤ k → user_runs p i = false → stack_base (slot p i) = k * 4096 →
  context_at (memory p) (k * 4096 + 4036) (kernel_frame (k * 4096)) → frame_fits p i (k * 4096 + 4036).
Proof.
  intros Hi Hk Hk0 Eu Es Hc. unfold frame_fits. cbv zeta. rewrite Eu.
  pose proof (Hc 11 ltac:(lia)) as E11. pose proof (Hc 3 ltac:(lia)) as E3.
  change (nthZ (kernel_frame (k * 4096)) 3) with (k * 4096 +u 4096 -u 20) in E3.
  change (4 * 11) with c_cs in E11. change (4 * 3) with c_esp in E3. rewrite E11, E3.
  do 2 (split; [done|]). u_small. split; [lia|]. unfold home. rewrite decide_False, Es by lia. lia.
Qed.

Lemma user_frame_fits p i c :
  user_runs p i = true → context_at (memory p) c user_frame → frame_fits p i c.
Proof.
  intros Eu Hc. unfold frame_fits. cbv zeta. rewrite Eu. pose proof (Hc 11 ltac:(lia)) as E11.
  pose proof (Hc 14 ltac:(lia)) as E14. change (4 * 11) with c_cs in E11. change (4 * 14) with c_user_ss in E14.
  by rewrite E11, E14.
Qed.
End lemmas.
End Frames.
