(* ===== verification/Block.v ===== *)
(** The block layer, [drivers/block.c], a device that records what is asked of it,
    and a disk held in memory as an instance of the device interface. *)

From S2P Require Import Prelude Interfaces.

Module Block.

(** ** Definitions *)

Section code.
Context {D : Type} {BD : BlockDevice D}.

(** The pointers given are not null; a device without a driver is
    [has_read_sector] false. *)
Definition block_read_sector (sector : Z) (buffer : list Z) (d : D) : Z * list Z * D :=
  if negb (has_read_sector d) || (sector_size d =? 0) then (-1, buffer, d)
  else if negb (sector_count d =? 0) && (sector_count d <=? sector) then (-1, buffer, d)
  else driver_read sector buffer d.
End code.

(** ** The reads of a driver *)

(** The state of the device went from one to the other by reads of sectors that satisfy
    [Q], and in no other way. *)
Inductive reads {D : Type} `{BlockDevice D} (Q : Z → Prop) : D → D → Prop :=
  | reads_none d : reads Q d d
  | reads_sector n buf r buf' d1 d2 d3 :
      Q n → driver_read n buf d1 = (r, buf', d2) → reads Q d2 d3 → reads Q d1 d3.

(** A device that keeps the numbers of the sectors asked of it. *)
Record recorder (D : Type) := mk_recorder { recorded_device : D; requests : list Z }.
Arguments mk_recorder {D}.
Arguments recorded_device {D}.
Arguments requests {D}.

#[global] Instance recorder_device {D} {BD : BlockDevice D} : BlockDevice (recorder D) := {|
  sector_size d := sector_size (recorded_device d);
  sector_count d := sector_count (recorded_device d);
  has_read_sector d := has_read_sector (recorded_device d);
  driver_read n buf d :=
    let '(r, buf, d') := driver_read n buf (recorded_device d) in
    (r, buf, mk_recorder d' (requests d ++ [n]));
|}.

#[global, program] Instance recorder_device_spec {D} {BD : BlockDevice D} {BDS : BlockDeviceSpec D}
    : BlockDeviceSpec (recorder D) := {|
  device_ok d := device_ok (recorded_device d);
  contents d := contents (recorded_device d);
  readable d := readable (recorded_device d);
|}.
Next Obligation. intros D BD BDS d n. exact (contents_bytes (recorded_device d) n). Qed.
Next Obligation. intros D BD BDS d n. exact (contents_length (recorded_device d) n). Qed.
Next Obligation. intros D BD BDS d. exact (sector_size_range (recorded_device d)). Qed.
Next Obligation. intros D BD BDS d. exact (sector_count_range (recorded_device d)). Qed.
Next Obligation.
  intros D BD BDS n buf d r buf' d' E. cbn [driver_read recorder_device] in E.
  destruct (driver_read n buf (recorded_device d)) as [[r1 b1] d1] eqn:E1. injection E as <- <- <-.
  intros Hd Hb Hl. exact (driver_read_same n buf (recorded_device d) _ _ _ E1 Hd Hb Hl).
Qed.
Next Obligation.
  intros D BD BDS n buf d buf' d' E. cbn [driver_read recorder_device] in E.
  destruct (driver_read n buf (recorded_device d)) as [[r1 b1] d1] eqn:E1. injection E as -> <- <-.
  intros Hd Hb Hl. exact (driver_read_ok n buf (recorded_device d) _ _ E1 Hd Hb Hl).
Qed.
Next Obligation.
  intros D BD BDS n buf d Hd Hr Hb Hl. cbn [driver_read recorder_device].
  pose proof (driver_read_readable n buf (recorded_device d) Hd Hr Hb Hl) as E.
  by destruct (driver_read n buf (recorded_device d)) as [[r1 b1] d1].
Qed.

(** ** A disk in memory *)

(** The sectors present; every other sector fails. *)
Record disk := mk_disk { disk_sector_size : Z; disk_sectors : list (list Z) }.

(** [sector] with zeros up to the size of a sector of [d]. *)
Definition disk_sector (d : disk) (n : Z) : list Z :=
  let raw := if n <? 0 then [] else nth (Z.to_nat n) (disk_sectors d) [] in
  (λ i, u8 (nthZ raw i)) <$> range 0 (u32 (disk_sector_size d)).
Definition disk_present (d : disk) (n : Z) : bool :=
  (0 <=? n) && (n <? Z.of_nat (length (disk_sectors d))).
Definition disk_read (n : Z) (buf : list Z) (d : disk) : Z * list Z * disk :=
  if disk_present d n then
    (0, disk_sector d n ++ drop (Z.to_nat (u32 (disk_sector_size d))) buf, d)
  else (-2, buf, d).

#[global] Instance disk_device : BlockDevice disk := {|
  sector_size d := u32 (disk_sector_size d);
  sector_count d := u32 (Z.of_nat (length (disk_sectors d)));
  has_read_sector _ := true;
  driver_read := disk_read;
|}.

(** ** Lemmas *)

Lemma length_range a b : length (range a b) = Z.to_nat (b - a).
Proof.
  unfold range. generalize (Z.to_nat (b - a)). intros n. revert a.
  induction n as [|n IH]; intros a; [done|]. cbn [count_up length]. by rewrite IH.
Qed.

Lemma lenZ_disk_sector d n : lenZ (disk_sector d n) = u32 (disk_sector_size d).
Proof.
  unfold lenZ, disk_sector. rewrite length_fmap, length_range.
  pose proof (u32_range (disk_sector_size d)). lia.
Qed.

Lemma disk_sector_bytes d n : bytes (disk_sector d n).
Proof. apply Forall_fmap, Forall_true. intros x. apply u8_range. Qed.

#[global, program] Instance disk_device_spec : BlockDeviceSpec disk := {|
  device_ok _ := True;
  contents := disk_sector;
  readable d n := disk_present d n = true;
|}.
Next Obligation. apply disk_sector_bytes. Qed.
Next Obligation. intros d n. apply lenZ_disk_sector. Qed.
Next Obligation. intros d. apply u32_range. Qed.
Next Obligation. intros d. apply u32_range. Qed.
Next Obligation.
  intros n buf d r buf' d' E _ Hb Hl. cbn in *. unfold disk_read in E.
  destruct (disk_present d n); injection E as _ <- <-; [|done].
  do 6 (split; [done|]). split.
  - apply Forall_app_2; [apply disk_sector_bytes|by apply Forall_drop].
  - pose proof (lenZ_disk_sector d n) as E. pose proof (u32_range (disk_sector_size d)).
    unfold lenZ in *. rewrite length_app, length_drop. lia.
Qed.
Next Obligation.
  intros n buf d buf' d' E _ Hb Hl i Hi. cbn [driver_read sector_size disk_device] in *. unfold disk_read in E.
  destruct (disk_present d n); [|done]. injection E as <- <-.
  apply nthZ_app_l. rewrite lenZ_disk_sector. lia.
Qed.
Next Obligation. intros n buf d _ Hr _ _. cbn in *. unfold disk_read. by rewrite Hr. Qed.

Section lemmas.
Context {D : Type} {BD : BlockDevice D} {BDS : BlockDeviceSpec D}.

#[export] Instance reads_preorder Q : PreOrder (reads (D := D) Q).
Proof.
  split; [exact (reads_none Q)|]. intros d1 d2 d3 H H'.
  induction H as [|n buf r buf' d1 d2 d' Hn E _ IH]; [done|]. by apply (reads_sector _ n buf r buf' d1 d2), IH.
Qed.

Lemma reads_mono (Q Q' : Z → Prop) d d' : (∀ n, Q n → Q' n) → reads (D := D) Q d d' → reads Q' d d'.
Proof.
  intros HQ H. induction H as [|n buf r buf' d1 d2 d' Hn E _ IH]; [constructor|].
  by apply (reads_sector _ n buf r buf' d1 d2); [apply HQ|..].
Qed.

(** On a recorded device, the sectors asked for. *)
Lemma reads_requests Q (d d' : recorder D) :
  reads Q d d' → ∃ l, requests d' = requests d ++ l ∧ Forall Q l.
Proof.
  induction 1 as [d|n buf r buf' d1 d2 d' Hn E _ (l & El & Hl)].
  { exists []. by rewrite app_nil_r. }
  exists (n :: l). split; [|by constructor]. rewrite El. cbn [driver_read recorder_device] in E.
  destruct (driver_read n buf (recorded_device d1)) as [[r1 b1] d3]. injection E as _ _ <-.
  cbn [requests]. by rewrite <- app_assoc.
Qed.

Lemma block_reads n buf d r buf' d' : block_read_sector n buf d = (r, buf', d') → reads (eq n) d d'.
Proof.
  unfold block_read_sector. do 2 (case_match; [intros [= _ _ <-]; constructor|]). intros E.
  by apply (reads_sector _ n buf r buf' d d'); [|exact E|constructor].
Qed.

(** What [block_read_sector] promises its callers. *)
Lemma block_read_spec n buf d r buf' d' :
  block_read_sector n buf d = (r, buf', d') → device_ok d → bytes buf → sector_size d ≤ lenZ buf →
  device_ok d' ∧ sector_size d' = sector_size d ∧ sector_count d' = sector_count d ∧
  has_read_sector d' = has_read_sector d ∧
  contents d' = contents d ∧ (∀ k, readable d k → readable d' k) ∧
  bytes buf' ∧ lenZ buf' = lenZ buf ∧
  (r = 0 → (sector_count d = 0 ∨ n < sector_count d) ∧
     ∀ i, 0 ≤ i < sector_size d → nthZ buf' i = nthZ (contents d n) i).
Proof.
  unfold block_read_sector. intros E Hok Hb Hl.
  destruct (negb _ || _)%bool; [by injection E as <- <- <-|].
  destruct (negb (sector_count d =? 0) && (sector_count d <=? n))%bool eqn:Ec;
    [by injection E as <- <- <-|].
  destruct (driver_read_same n buf d r buf' d' E Hok Hb Hl) as (? & ? & ? & ? & ? & ? & ? & ?).
  do 8 (split; [done|]). intros ->. split.
  - destruct (Z.eqb_spec (sector_count d) 0); [by left|right]. cbn [negb andb] in Ec.
    bool_hyps. lia.
  - by apply (driver_read_ok n buf d buf' d').
Qed.

Lemma block_read_readable n buf d :
  device_ok d → readable d n → bytes buf → sector_size d ≤ lenZ buf → has_read_sector d = true →
  sector_size d ≠ 0 → sector_count d = 0 ∨ n < sector_count d →
  fst (fst (block_read_sector n buf d)) = 0.
Proof.
  intros Hok Hr Hb Hl Hh Hs Hc. unfold block_read_sector. rewrite Hh. cbn [negb orb].
  rewrite (proj2 (Z.eqb_neq _ _)) by done.
  destruct (negb (sector_count d =? 0) && (sector_count d <=? n))%bool eqn:Ec;
    [bool_hyps; lia|]. by apply driver_read_readable.
Qed.
End lemmas.
End Block.
