(* ===== verification/Fat32.v ===== *)
(** The FAT32 file system, [filesystem/fat32.c], on a block device: mounting,
    cluster chains, directory scans, path lookup and reading of files.  Strings are
    the bytes before the terminating zero; a read past their end gives 0. *)

From stdpp Require Import strings.
From S2P Require Import Prelude Interfaces Block.

Module Fat32.
Import Block.

(** ** Definitions *)

Definition FAT32_MAX_SECTOR_SIZE : Z := 4096.
Definition FAT32_NAME_SIZE : Z := 13.
(** The value [next_cluster] gives for the end of a chain. *)
Definition END_OF_CHAIN : Z := 0x0FFFFFFF.

Inductive fat32_result :=
| FAT32_OK | FAT32_EINVAL | FAT32_EIO | FAT32_EBADFS | FAT32_ENOTFOUND | FAT32_ENOTDIR
| FAT32_EISDIR | FAT32_EOVERFLOW | FAT32_ELOOP | FAT32_ENOSPC.

#[global] Instance fat32_result_eq_dec : EqDecision fat32_result.
Proof. solve_decision. Defined.

(** [name] without its terminator. *)
Record dirent := mk_dirent {
  name : list Z;
  attributes : Z;
  size : Z;
  first_cluster : Z;
}.

(** [fat32_fs_t]; the device is the one [device] points to. *)
Record fat32_fs (D : Type) := mk_fs {
  device : D;
  volume_start : Z;
  bytes_per_sector : Z;
  sectors_per_cluster : Z;
  reserved_sectors : Z;
  fat_start : Z;
  fat_sectors : Z;
  data_start : Z;
  cluster_count : Z;
  root_cluster : Z;
  sector_buffer : list Z;
  mounted : bool;
}.
Arguments mk_fs {D}.
Arguments device {D}.
Arguments volume_start {D}.
Arguments bytes_per_sector {D}.
Arguments sectors_per_cluster {D}.
Arguments reserved_sectors {D}.
Arguments fat_start {D}.
Arguments fat_sectors {D}.
Arguments data_start {D}.
Arguments cluster_count {D}.
Arguments root_cluster {D}.
Arguments sector_buffer {D}.
Arguments mounted {D}.

(** [p[0]], [p[1]], ... of a pointer into a buffer are [nthZ b o], [nthZ b (o + 1)]. *)
Definition fat16 (b : list Z) (o : Z) : Z :=
  u16 (nthZ b o .| u16 (nthZ b (o + 1) ≪ 8)).
Definition fat32 (b : list Z) (o : Z) : Z :=
  nthZ b o .| u32 (nthZ b (o + 1) ≪ 8) .| u32 (nthZ b (o + 2) ≪ 16) .| u32 (nthZ b (o + 3) ≪ 24).

Definition power_of_two (value : Z) : bool :=
  negb (value =? 0) && ((value .& (value -u 1)) =? 0).

Definition looks_like_fat32_bpb (bpb : list Z) (sector_size : Z) : bool :=
  if negb (fat16 bpb 510 =? 0xAA55) then false
  else
    let bytes_per_sector := fat16 bpb 11 in
    negb (negb (bytes_per_sector =? sector_size) ||
      (bytes_per_sector <? 512) ||
      (FAT32_MAX_SECTOR_SIZE <? bytes_per_sector) ||
      negb (power_of_two bytes_per_sector) ||
      negb (power_of_two (nthZ bpb 13)) ||
      (128 <? nthZ bpb 13) ||
      (fat16 bpb 14 =? 0) ||
      (nthZ bpb 16 =? 0) || (2 <? nthZ bpb 16) ||
      negb (fat16 bpb 17 =? 0) ||
      negb (fat16 bpb 19 =? 0) ||
      (fat32 bpb 32 =? 0) ||
      (fat32 bpb 36 =? 0)).

(** *** Names and paths *)

Definition is_separator (c : Z) : bool := (c =? 47) || (c =? 92).

(** The number of elements at the start of [l] that satisfy [f]: how often
    [while (f(l[i])) ++i;] runs. *)
Fixpoint count_while (f : Z → bool) (l : list Z) : Z :=
  match l with
  | [] => 0
  | c :: l => if f c then 1 + count_while f l else 0
  end.

Definition upper (c : Z) : Z := if (97 <=? c) && (c <=? 122) then c - 97 + 65 else c.
Definition uppercase (text : list Z) : list Z := upper <$> text.

(** The result, [*position] afterwards, and [out]; on failure the code has written
    the first 12 characters to [out], which no caller reads. *)
Definition component (path : list Z) (position : Z) : Z * Z * list Z :=
  let p := position + count_while is_separator (drop (Z.to_nat position) path) in
  if nthZ path p =? 0 then (0, p, [])
  else
    let rest := drop (Z.to_nat p) path in
    let n := count_while (λ c, negb ((c =? 0) || is_separator c)) rest in
    if FAT32_NAME_SIZE - 1 <? n then (-1, position, take 12 rest)
    else (1, p + n, uppercase (take (Z.to_nat n) rest)).

Fixpoint names_equal (a b : list Z) : bool :=
  match a, b with
  | x :: a', y :: b' =>
      if (x =? 0) || (y =? 0) then x =? y
      else if upper x =? upper y then names_equal a' b' else false
  | x :: _, [] => x =? 0
  | [], y :: _ => y =? 0
  | [], [] => true
  end.

(** [while (end > low && raw[end - 1] == ' ') --end;] from [end = low + n]. *)
Fixpoint field_end (raw : list Z) (low : Z) (n : nat) : Z :=
  match n with
  | O => low
  | S n => if nthZ raw (low + Z.of_nat n) =? 32 then field_end raw low n else low + Z.of_nat (S n)
  end.

(** The 32-byte directory entry at the start of [raw]; [None] is the result 0. *)
Definition entry_from_raw (raw : list Z) : option dirent :=
  if (nthZ raw 0 =? 0x00) || (nthZ raw 0 =? 0xE5) || (nthZ raw 11 =? 0x0F) ||
     negb ((nthZ raw 11 .& 0x08) =? 0) then None
  else
    let base_end := field_end raw 0 8 in
    let ext_end := field_end raw 8 3 in
    let base := take (Z.to_nat base_end) raw in
    let ext := if 8 <? ext_end then 46 :: take (Z.to_nat (ext_end - 8)) (drop 8 raw) else [] in
    Some (mk_dirent (base ++ ext) (nthZ raw 11) (fat32 raw 28)
      (u32 (fat16 raw 20 ≪ 16) .| fat16 raw 26)).

Section code.
Context {D : Type} {BD : BlockDevice D}.
Implicit Types (fs : fat32_fs D).

Definition with_io (d : D) (b : list Z) fs : fat32_fs D :=
  mk_fs d (volume_start fs) (bytes_per_sector fs) (sectors_per_cluster fs) (reserved_sectors fs)
    (fat_start fs) (fat_sectors fs) (data_start fs) (cluster_count fs) (root_cluster fs) b
    (mounted fs).

(** [block_read_sector(fs->device, sector, fs->sector_buffer)] *)
Definition device_read (sector : Z) fs : Z * fat32_fs D :=
  let '(r, b, d) := block_read_sector sector (sector_buffer fs) (device fs) in
  (r, with_io d b fs).

Definition read_sector (sector : Z) fs : fat32_result * fat32_fs D :=
  let count := sector_count (device fs) in
  if negb (mounted fs) ||
     (negb (count =? 0) &&
      ((count <? volume_start fs) || (count -u volume_start fs <=? sector))) ||
     (0xFFFFFFFF -u volume_start fs <? sector)
  then (FAT32_EIO, fs)
  else
    let physical_sector := volume_start fs +u sector in
    let '(r, fs) := device_read physical_sector fs in
    (if r =? 0 then FAT32_OK else FAT32_EIO, fs).

Definition valid_cluster fs (cluster : Z) : bool :=
  (2 <=? cluster) && (cluster -u 2 <? cluster_count fs).

(** The result, and [*next] when it is [FAT32_OK]. *)
Definition next_cluster (cluster : Z) fs : fat32_result * Z * fat32_fs D :=
  if negb (valid_cluster fs cluster) then (FAT32_EBADFS, 0, fs)
  else
    let offset := cluster *u 4 in
    if fat_sectors fs <=? offset / bytes_per_sector fs then (FAT32_EBADFS, 0, fs)
    else
      let sector := fat_start fs +u offset / bytes_per_sector fs in
      let in_sector := offset mod bytes_per_sector fs in
      if bytes_per_sector fs <? in_sector +u 4 then (FAT32_EBADFS, 0, fs)
      else
        match read_sector sector fs with
        | (FAT32_OK, fs) =>
            let value := fat32 (sector_buffer fs) in_sector .& 0x0FFFFFFF in
            if 0x0FFFFFF8 <=? value then (FAT32_OK, END_OF_CHAIN, fs)
            else if (value =? 0x0FFFFFF7) || ((0x0FFFFFF0 <=? value) && (value <? 0x0FFFFFF8))
            then (FAT32_EBADFS, 0, fs)
            else if negb (valid_cluster fs value) then (FAT32_EBADFS, 0, fs)
            else (FAT32_OK, value, fs)
        | (_, fs) => (FAT32_EIO, 0, fs)
        end.

(** *** Directories *)

Section scan.
(** The callback and the state it works on. *)
Context {C : Type} (callback : dirent → C → Z * C).

(** The entry at [entry_offset] of the sector in the buffer. *)
Definition scan_entry (k : Z) : M (fat32_fs D * C) (option fat32_result) := λ '(fs, c),
  let raw := drop (Z.to_nat (32 * k)) (sector_buffer fs) in
  if nthZ raw 0 =? 0x00 then (Some FAT32_OK, (fs, c))
  else
    match entry_from_raw raw with
    | Some entry =>
        let '(r, c) := callback entry c in
        (if negb (r =? 0) then Some FAT32_OK else None, (fs, c))
    | None => (None, (fs, c))
    end.

Definition scan_sector (cluster sector_in_cluster : Z)
    : M (fat32_fs D * C) (option fat32_result) := λ '(fs, c),
  let sector := data_start fs +u (cluster -u 2) *u sectors_per_cluster fs +u sector_in_cluster in
  match read_sector sector fs with
  | (FAT32_OK, fs) => for_exit 0 (bytes_per_sector fs / 32) scan_entry (fs, c)
  | (_, fs) => (Some FAT32_EIO, (fs, c))
  end.

(** The loop over the clusters; [None] when the fuel runs out. *)
Fixpoint scan_clusters (fuel : nat) (cluster visited : Z) (s : fat32_fs D * C)
    : option (fat32_result * (fat32_fs D * C)) :=
  match fuel with
  | O => None
  | S fuel =>
      let '(fs, c) := s in
      if negb (valid_cluster fs cluster) then Some (FAT32_EBADFS, (fs, c))
      else
        let visited := visited +u 1 in
        if cluster_count fs <? visited then Some (FAT32_ELOOP, (fs, c))
        else
          match for_exit 0 (sectors_per_cluster fs) (scan_sector cluster) (fs, c) with
          | (Some r, s) => Some (r, s)
          | (None, (fs, c)) =>
              match next_cluster cluster fs with
              | (FAT32_OK, next, fs) =>
                  if next =? END_OF_CHAIN then Some (FAT32_OK, (fs, c))
                  else scan_clusters fuel next visited (fs, c)
              | (_, _, fs) => Some (FAT32_EBADFS, (fs, c))
              end
          end
  end.

(** One more than the number of clusters bounds the rounds. *)
Definition chain_fuel fs : nat := Z.to_nat (cluster_count fs + 1).

Definition scan_directory (first : Z) (s : fat32_fs D * C)
    : option (fat32_result * (fat32_fs D * C)) :=
  if negb (valid_cluster (fst s) first) then Some (FAT32_EBADFS, s)
  else scan_clusters (chain_fuel (fst s)) first 0 s.
End scan.

(** [find_context_t]: [*entry] and [found]. *)
Definition find_callback (target : list Z) (entry : dirent) (f : dirent * bool)
    : Z * (dirent * bool) :=
  if names_equal (name entry) target then (1, (entry, true)) else (0, f).

(** One round of the loop of [lookup] ends the search or goes on in a directory. *)
Inductive lookup_round :=
| Done (r : fat32_result)
| Descend (position directory : Z).

Definition lookup_step (path : list Z) (position directory : Z) (s : fat32_fs D * dirent)
    : option (lookup_round * (fat32_fs D * dirent)) :=
  let '(fs, entry) := s in
  match component path position with
  | (has_component, position, part) =>
      if has_component <? 0 then Some (Done FAT32_EINVAL, s)
      else if has_component =? 0 then
        if (position =? 0) || (directory =? root_cluster fs)
        then Some (Done FAT32_OK, (fs, mk_dirent [] 0x10 0 directory))
        else Some (Done FAT32_ENOTFOUND, s)
      else if names_equal part [46] then Some (Descend position directory, s)
      else
        match scan_directory (find_callback part) directory (fs, (entry, false)) with
        | None => None
        | Some (FAT32_OK, (fs, (entry, found))) =>
            if negb found then Some (Done FAT32_ENOTFOUND, (fs, entry))
            else
              let position :=
                position + count_while is_separator (drop (Z.to_nat position) path) in
              if negb (nthZ path position =? 0) then
                if (attributes entry .& 0x10) =? 0 then Some (Done FAT32_ENOTDIR, (fs, entry))
                else if negb (valid_cluster fs (first_cluster entry))
                then Some (Done FAT32_EBADFS, (fs, entry))
                else Some (Descend position (first_cluster entry), (fs, entry))
              else Some (Done FAT32_OK, (fs, entry))
        | Some (r, (fs, (entry, _))) => Some (Done r, (fs, entry))
        end
  end.

Fixpoint lookup_loop (fuel : nat) (path : list Z) (position directory : Z)
    (s : fat32_fs D * dirent) : option (fat32_result * (fat32_fs D * dirent)) :=
  match fuel with
  | O => None
  | S fuel =>
      match lookup_step path position directory s with
      | None => None
      | Some (Done r, s) => Some (r, s)
      | Some (Descend position directory, s) => lookup_loop fuel path position directory s
      end
  end.

(** Every round but the last consumes a character of the path. *)
Definition lookup (path : list Z) (s : fat32_fs D * dirent)
    : option (fat32_result * (fat32_fs D * dirent)) :=
  lookup_loop (S (length path)) path 0 (root_cluster (fst s)) s.

(** *** Mounting *)

Definition with_mounted (b : bool) fs : fat32_fs D :=
  mk_fs (device fs) (volume_start fs) (bytes_per_sector fs) (sectors_per_cluster fs)
    (reserved_sectors fs) (fat_start fs) (fat_sectors fs) (data_start fs) (cluster_count fs)
    (root_cluster fs) (sector_buffer fs) b.

(** One round of the search of the partition table [mbr]: the start and size of the
    partition when it holds a volume. *)
Definition try_partition (mbr : list Z) (pass partition : Z) : M (fat32_fs D) (option (Z * Z)) :=
  λ fs,
  let part := 446 + partition *u 16 in
  let type := nthZ mbr (part + 4) in
  let start := fat32 mbr (part + 8) in
  let size := fat32 mbr (part + 12) in
  let conventional := (type =? 0x0B) || (type =? 0x0C) || (type =? 0x1B) || (type =? 0x1C) in
  let count := sector_count (device fs) in
  if negb (eqb (pass =? 0) conventional) || (start =? 0) || (size =? 0) then (None, fs)
  else if negb (count =? 0) && ((count <=? start) || (count -u start <? size)) then (None, fs)
  else
    let '(r, fs) := device_read start fs in
    let b := sector_buffer fs in
    if negb (r =? 0) || negb (looks_like_fat32_bpb b (sector_size (device fs))) ||
       (size <? fat32 b 32) || (0xFFFFFFFF -u fat32 b 32 <? start)
    then (None, fs)
    else (Some (start, size), fs).

(** From the first sector in the buffer to the start and size of the volume, whose
    first sector is then in the buffer; a size of 0 stands for the whole device. *)
Definition find_volume : M (fat32_fs D) (option (Z * Z)) := λ fs,
  let b := sector_buffer fs in
  if looks_like_fat32_bpb b (sector_size (device fs)) then (Some (0, 0), fs)
  else if negb (fat16 b 510 =? 0xAA55) then (None, fs)
  else for_exit 0 2 (λ pass, for_exit 0 4 (try_partition b pass)) fs.

(** The checks of the volume's first sector and the members they set. *)
Definition read_geometry (volume_start volume_sectors : Z) fs : fat32_result * fat32_fs D :=
  let b := sector_buffer fs in
  let dev := device fs in
  let bps := fat16 b 11 in
  let spc := nthZ b 13 in
  let reserved := fat16 b 14 in
  let fs := mk_fs dev volume_start bps spc reserved (fat_start fs) (fat_sectors fs)
    (data_start fs) (cluster_count fs) (root_cluster fs) b (mounted fs) in
  if negb (bps =? sector_size dev) || (bps <? 512) || negb (power_of_two bps) ||
     negb (bps mod 4 =? 0) || negb (power_of_two spc) || (128 <? spc) ||
     (reserved =? 0) || (nthZ b 16 =? 0) || (2 <? nthZ b 16) ||
     negb (fat16 b 17 =? 0) || negb (fat16 b 19 =? 0) || negb (fat16 b 22 =? 0) ||
     negb (fat16 b 42 =? 0) || (negb (nthZ b 66 =? 0x28) && negb (nthZ b 66 =? 0x29))
  then (FAT32_EBADFS, fs)
  else
    let total_sectors := fat32 b 32 in
    let fat_size := fat32 b 36 in
    let root := fat32 b 44 .& 0x0FFFFFFF in
    let fs := mk_fs dev volume_start bps spc reserved (fat_start fs) (fat_sectors fs)
      (data_start fs) (cluster_count fs) root b (mounted fs) in
    if (total_sectors =? 0) || (fat_size =? 0) ||
       negb ((fat32 b 44 .& 0xF0000000) =? 0) || (root <? 2)
    then (FAT32_EBADFS, fs)
    else if (0xFFFFFFFF -u total_sectors <? volume_start) ||
       (negb (volume_sectors =? 0) && (volume_sectors <? total_sectors)) ||
       (negb (sector_count dev =? 0) &&
        ((sector_count dev <? volume_start) ||
         (sector_count dev -u volume_start <? total_sectors)))
    then (FAT32_EBADFS, fs)
    else
      let data := u64 (reserved + u64 (nthZ b 16 * fat_size)) in
      if (total_sectors <=? data) || (0xFFFFFFFF <? data) then (FAT32_EBADFS, fs)
      else
        let data_sectors := total_sectors -u u32 data in
        let clusters := data_sectors / spc in
        if (clusters =? 0) || (0x0FFFFFF5 <? clusters) || (clusters <=? root -u 2)
        then (FAT32_EBADFS, fs)
        else if u64 (fat_size * bps) / 4 <? u64 (clusters + 2) then (FAT32_EBADFS, fs)
        else (FAT32_OK, mk_fs dev volume_start bps spc reserved reserved fat_size (u32 data)
          clusters root b true).

(** [dev] is [None] for a null pointer. *)
Definition fat32_mount (dev : option D) fs : fat32_result * fat32_fs D :=
  match dev with
  | None => (FAT32_EINVAL, fs)
  | Some dev =>
      if negb (has_read_sector dev) || (sector_size dev <? 512) ||
         (FAT32_MAX_SECTOR_SIZE <? sector_size dev)
      then (FAT32_EINVAL, fs)
      else
        let fs := with_mounted false (with_io dev (sector_buffer fs) fs) in
        let '(r, fs) := device_read 0 fs in
        if negb (r =? 0) then (FAT32_EIO, fs)
        else
          match find_volume fs with
          | (None, fs) => (FAT32_EBADFS, fs)
          | (Some (volume_start, volume_sectors), fs) =>
              read_geometry volume_start volume_sectors fs
          end
  end.

(** *** Listing and reading *)

(** [path] is [None] for a null pointer. *)
Definition fat32_list_directory {C} (path : option (list Z)) (callback : dirent → C → Z * C)
    (fs : fat32_fs D) (c : C) : option (fat32_result * (fat32_fs D * C)) :=
  if negb (mounted fs) then Some (FAT32_EBADFS, (fs, c))
  else
    match lookup (default [47] path) (fs, mk_dirent [] 0 0 0) with
    | None => None
    | Some (FAT32_OK, (fs, entry)) =>
        if (attributes entry .& 0x10) =? 0 then Some (FAT32_ENOTDIR, (fs, c))
        else scan_directory callback (first_cluster entry) (fs, c)
    | Some (result, (fs, _)) => Some (result, (fs, c))
    end.

(** The state of the loops of [fat32_read_file]. *)
Record reading := mk_reading {
  r_fs : fat32_fs D;
  r_buffer : list Z;
  r_copied : Z;
  r_remaining : Z;
}.

(** One sector; a round with nothing remaining is the end of the loop. *)
Definition read_file_sector (cluster sector_in_cluster : Z) : M reading (option fat32_result) :=
  λ s,
  let fs := r_fs s in
  if r_remaining s =? 0 then (None, s)
  else
    let sector := data_start fs +u (cluster -u 2) *u sectors_per_cluster fs +u sector_in_cluster in
    let amount := if r_remaining s <? bytes_per_sector fs then r_remaining s
                  else bytes_per_sector fs in
    match read_sector sector fs with
    | (FAT32_OK, fs) =>
        let buffer := for_loop 0 amount
          (λ i b, setZ b (r_copied s +u i) (nthZ (sector_buffer fs) i)) (r_buffer s) in
        (None, mk_reading fs buffer (r_copied s +u amount) (r_remaining s -u amount))
    | (result, fs) =>
        (Some result, mk_reading fs (r_buffer s) (r_copied s) (r_remaining s))
    end.

Definition with_fs (fs : fat32_fs D) (s : reading) : reading :=
  mk_reading fs (r_buffer s) (r_copied s) (r_remaining s).

(** The loop over the clusters; [None] when the fuel runs out. *)
Fixpoint read_file_clusters (fuel : nat) (cluster visited : Z) (s : reading)
    : option (fat32_result * reading) :=
  match fuel with
  | O => None
  | S fuel =>
      if r_remaining s =? 0 then Some (FAT32_OK, s)
      else
        let visited := visited +u 1 in
        if cluster_count (r_fs s) <? visited then Some (FAT32_ELOOP, s)
        else
          match for_exit 0 (sectors_per_cluster (r_fs s)) (read_file_sector cluster) s with
          | (Some result, s) => Some (result, s)
          | (None, s) =>
              if negb (r_remaining s =? 0) then
                match next_cluster cluster (r_fs s) with
                | (FAT32_OK, next, fs) =>
                    if next =? END_OF_CHAIN then Some (FAT32_EBADFS, with_fs fs s)
                    else read_file_clusters fuel next visited (with_fs fs s)
                | (result, _, fs) => Some (result, with_fs fs s)
                end
              else read_file_clusters fuel cluster visited s
          end
  end.

(** The result, [*bytes_read], the buffer and the file system afterwards.  [path]
    and [buffer] are [None] for null pointers; [bytes_read] is [*bytes_read] before. *)
Definition fat32_read_file (path buffer : option (list Z)) (capacity bytes_read : Z) fs
    : option (fat32_result * Z * option (list Z) * fat32_fs D) :=
  match path with
  | None => Some (FAT32_EINVAL, bytes_read, buffer, fs)
  | Some path =>
      if negb (mounted fs) then Some (FAT32_EBADFS, 0, buffer, fs)
      else
        match lookup path (fs, mk_dirent [] 0 0 0) with
        | None => None
        | Some (FAT32_OK, (fs, entry)) =>
            if negb ((attributes entry .& 0x10) =? 0) then Some (FAT32_EISDIR, 0, buffer, fs)
            else if negb (size entry =? 0) && negb (bool_decide (is_Some buffer))
            then Some (FAT32_EINVAL, 0, buffer, fs)
            else if capacity <? size entry then Some (FAT32_ENOSPC, 0, buffer, fs)
            else if size entry =? 0 then Some (FAT32_OK, 0, buffer, fs)
            else if negb (valid_cluster fs (first_cluster entry))
            then Some (FAT32_EBADFS, 0, buffer, fs)
            else
              match read_file_clusters (S (chain_fuel fs)) (first_cluster entry) 0
                (mk_reading fs (default [] buffer) 0 (size entry)) with
              | None => None
              | Some (FAT32_OK, s) => Some (FAT32_OK, r_copied s, Some (r_buffer s), r_fs s)
              | Some (result, s) => Some (result, 0, Some (r_buffer s), r_fs s)
              end
        | Some (result, (fs, _)) => Some (result, 0, buffer, fs)
        end
  end.

End code.

Definition fat32_result_string (result : fat32_result) : string :=
  match result with
  | FAT32_OK => "ok"
  | FAT32_EINVAL => "invalid argument"
  | FAT32_EIO => "disk I/O error"
  | FAT32_EBADFS => "invalid FAT32 filesystem"
  | FAT32_ENOTFOUND => "not found"
  | FAT32_ENOTDIR => "not a directory"
  | FAT32_EISDIR => "is a directory"
  | FAT32_EOVERFLOW => "filesystem too large"
  | FAT32_ELOOP => "cluster chain loop"
  | FAT32_ENOSPC => "buffer too small"
  end.

(** ** Specification *)

(** Names are compared up to the case of letters. *)
Definition same_name (a b : list Z) : Prop := uppercase (c_string a) = uppercase (c_string b).

(** A name field of [n] bytes, filled up with spaces. *)
Definition padded (n : nat) (l : list Z) : list Z := l ++ replicate (n - length l) 32.

(** The 32 bytes of the directory entry of the file [base].[ext]; [stamps] are the
    bytes 12 to 19 and [times] the bytes 22 to 25, which the code does not read. *)
Definition short_entry (base ext : list Z) (attr sz cluster : Z) (stamps times : list Z) : list Z :=
  padded 8 base ++ padded 3 ext ++ [attr] ++ stamps ++ le_bytes 2 (cluster / 2 ^ 16) ++ times ++
  le_bytes 2 (cluster mod 2 ^ 16) ++ le_bytes 4 sz.

(** A field of a short name: no trailing space. *)
Definition name_field (n : nat) (l : list Z) : Prop :=
  (length l ≤ n)%nat ∧ bytes l ∧ last l ≠ Some 32.

(** A path component: characters other than separators and the terminator. *)
Definition plain (w : list Z) : Prop :=
  w ≠ [] ∧ Forall (λ c, c ≠ 0 ∧ is_separator c = false) w.

(** ** Lemmas *)

(** *** Numbers on the disk *)

Lemma lor_bytes a b n : 0 ≤ n → 0 ≤ a < 2 ^ n → a .| (b * 2 ^ n) = a + b * 2 ^ n.
Proof. intros. rewrite Z.lor_comm, lor_disjoint_add by done. lia. Qed.

Lemma fat16_value b o : bytes b → fat16 b o = nthZ b o + nthZ b (o + 1) * 2 ^ 8.
Proof.
  intros Hb. pose proof (nthZ_byte b o Hb). pose proof (nthZ_byte b (o + 1) Hb).
  unfold is_byte in *. unfold fat16. rewrite shiftl_mul by lia. u_small.
  rewrite lor_bytes by lia. apply u16_small. lia.
Qed.

Lemma fat32_value b o : bytes b →
  fat32 b o = nthZ b o + nthZ b (o + 1) * 2 ^ 8 + nthZ b (o + 2) * 2 ^ 16 + nthZ b (o + 3) * 2 ^ 24.
Proof.
  intros Hb. pose proof (nthZ_byte b o Hb). pose proof (nthZ_byte b (o + 1) Hb).
  pose proof (nthZ_byte b (o + 2) Hb). pose proof (nthZ_byte b (o + 3) Hb).
  unfold is_byte in *. unfold fat32. rewrite !shiftl_mul by lia. u_small.
  rewrite (lor_bytes (nthZ b o)), (lor_bytes _ _ 16), (lor_bytes _ _ 24) by lia. done.
Qed.

Lemma fat16_range b o : bytes b → 0 ≤ fat16 b o < 2 ^ 16.
Proof.
  intros Hb. rewrite fat16_value by done. pose proof (nthZ_byte b o Hb).
  pose proof (nthZ_byte b (o + 1) Hb). unfold is_byte in *. lia.
Qed.

Lemma fat32_range b o : bytes b → 0 ≤ fat32 b o < 2 ^ 32.
Proof.
  intros Hb. rewrite fat32_value by done. pose proof (nthZ_byte b o Hb).
  pose proof (nthZ_byte b (o + 1) Hb). pose proof (nthZ_byte b (o + 2) Hb).
  pose proof (nthZ_byte b (o + 3) Hb). unfold is_byte in *. lia.
Qed.

Lemma fat16_ext b b' o : nthZ b' o = nthZ b o → nthZ b' (o + 1) = nthZ b (o + 1) →
  fat16 b' o = fat16 b o.
Proof. unfold fat16. by intros -> ->. Qed.

Lemma fat32_ext b b' o :
  (∀ i, 0 ≤ i < 4 → nthZ b' (o + i) = nthZ b (o + i)) → fat32 b' o = fat32 b o.
Proof.
  intros H. pose proof (H 0 ltac:(lia)) as H0. rewrite Z.add_0_r in H0.
  unfold fat32. by rewrite H0, !H by lia.
Qed.

Lemma power_of_two_spec v : 0 ≤ v < 2 ^ 32 → power_of_two v = true → ∃ k, 0 ≤ k ∧ v = 2 ^ k.
Proof.
  unfold power_of_two. intros Hv H. bool_hyps. rewrite u32_small in * by lia.
  pose proof (Z.log2_spec v ltac:(lia)) as [Hlo Hhi]. pose proof (Z.log2_nonneg v).
  set (k := Z.log2 v) in *. exists k. split; [done|].
  destruct (decide (v = 2 ^ k)) as [|Hne]; [done|]. exfalso.
  assert (Z.log2 (v - 1) = k) as Hk by (apply Z.log2_unique; lia).
  assert (Z.testbit (Z.land v (v - 1)) k = true) as Ht.
  { rewrite Z.land_spec. replace (Z.testbit v k) with true by (symmetry; by apply Z.bit_log2; lia).
    rewrite <- Hk. apply Z.bit_log2. lia. }
  match goal with H : _ .& _ = 0 |- _ => rewrite H in Ht end. by rewrite Z.bits_0 in Ht.
Qed.

(** *** Names *)

Lemma count_while_range f l : 0 ≤ count_while f l ≤ Z.of_nat (length l).
Proof. induction l as [|c l IH]; simpl; [lia|]. case_match; lia. Qed.

Lemma field_end_range raw low n : low ≤ field_end raw low n ≤ low + Z.of_nat n.
Proof. induction n as [|n IH]; simpl; [lia|]. case_match; lia. Qed.

(** The field ends after its last character that is not a space. *)
Lemma field_end_spec raw low n k :
  0 ≤ k ≤ Z.of_nat n → (∀ i, k ≤ i < Z.of_nat n → nthZ raw (low + i) = 32) →
  (k = 0 ∨ nthZ raw (low + k - 1) ≠ 32) → field_end raw low n = low + k.
Proof.
  intros Hk Hsp Hlast. induction n as [|n IH]; simpl; [lia|].
  destruct (decide (k = Z.of_nat (S n))) as [->|].
  - destruct (Z.eqb_spec (nthZ raw (low + Z.of_nat n)) 32) as [E|]; [|done].
    destruct Hlast as [|Hl]; [lia|]. by replace (low + Z.of_nat (S n) - 1) with (low + Z.of_nat n) in Hl by lia.
  - rewrite Hsp by lia. cbn. apply IH; [lia|]. intros. apply Hsp. lia.
Qed.

Lemma entry_name_length raw e : entry_from_raw raw = Some e → lenZ (name e) ≤ 12.
Proof.
  unfold entry_from_raw, lenZ. intros H.
  match type of H with (if ?c then _ else _) = _ => destruct c end; [done|].
  pose proof (field_end_range raw 0 8). pose proof (field_end_range raw 8 3).
  generalize dependent (field_end raw 0 8). generalize dependent (field_end raw 8 3).
  intros ext_end ? base_end H ?. injection H as <-. cbn [name].
  rewrite length_app, length_take.
  destruct (Z.ltb_spec 8 ext_end); cbn [length]; rewrite ?length_take; lia.
Qed.
Lemma nthZ_replicate n x i : 0 ≤ i < Z.of_nat n → nthZ (replicate n x) i = x.
Proof. intros Hi. apply nthZ_lookup; [|lia]. apply lookup_replicate_2. lia. Qed.

Lemma lenZ_app l k : lenZ (l ++ k) = lenZ l + lenZ k.
Proof. unfold lenZ. rewrite length_app. lia. Qed.

Lemma lenZ_padded n l : (length l ≤ n)%nat → lenZ (padded n l) = Z.of_nat n.
Proof. intros. unfold lenZ, padded. rewrite length_app, length_replicate. lia. Qed.

(** The end of a padded field, wherever it lies. *)
Lemma field_end_padded pre n l post :
  name_field n l → field_end (pre ++ padded n l ++ post) (lenZ pre) n = lenZ pre + lenZ l.
Proof.
  intros (Hn & _ & Hlast). pose proof (lenZ_nonneg l). apply field_end_spec.
  - unfold lenZ. lia.
  - intros i Hi. rewrite nthZ_app_r by lia. rewrite nthZ_app_l by (rewrite lenZ_padded by done; lia).
    unfold padded. rewrite nthZ_app_r by lia. apply nthZ_replicate. unfold lenZ in *. lia.
  - destruct (decide (l = [])) as [->|Hne]; [by left|right]. intros E. apply Hlast.
    rewrite last_lookup. assert (0 < lenZ l) by (destruct l; [done|unfold lenZ; cbn; lia]).
    rewrite nthZ_app_r in E by lia.
    rewrite nthZ_app_l in E by (rewrite lenZ_padded by done; unfold lenZ in *; lia).
    unfold padded in E. rewrite nthZ_app_l in E by lia.
    destruct (lookup_lt_is_Some_2 l (Nat.pred (length l))) as [y Hy]; [unfold lenZ in *; lia|].
    rewrite (nthZ_lookup l _ y) in E; [by rewrite Hy, E| |lia].
    rewrite <- Hy. f_equal. unfold lenZ. lia.
Qed.

(** The number stored at an offset. *)
Lemma fat16_at pre v post :
  0 ≤ v < 2 ^ 16 → bytes (pre ++ le_bytes 2 v ++ post) →
  fat16 (pre ++ le_bytes 2 v ++ post) (lenZ pre) = v.
Proof.
  intros Hv Hb. rewrite fat16_value by done.
  rewrite !(nthZ_app_r pre) by lia.
  replace (lenZ pre - lenZ pre) with 0 by lia. replace (lenZ pre + 1 - lenZ pre) with 1 by lia.
  change (v mod 2 ^ 8 + v / 2 ^ 8 mod 2 ^ 8 * 2 ^ 8 = v). dlia.
Qed.

Lemma fat32_at pre v post :
  0 ≤ v < 2 ^ 32 → bytes (pre ++ le_bytes 4 v ++ post) →
  fat32 (pre ++ le_bytes 4 v ++ post) (lenZ pre) = v.
Proof.
  intros Hv Hb. rewrite fat32_value by done.
  rewrite !(nthZ_app_r pre) by lia.
  replace (lenZ pre - lenZ pre) with 0 by lia. replace (lenZ pre + 1 - lenZ pre) with 1 by lia.
  replace (lenZ pre + 2 - lenZ pre) with 2 by lia. replace (lenZ pre + 3 - lenZ pre) with 3 by lia.
  change (v mod 2 ^ 8 + v / 2 ^ 8 mod 2 ^ 8 * 2 ^ 8 + v / 2 ^ 8 / 2 ^ 8 mod 2 ^ 8 * 2 ^ 16
    + v / 2 ^ 8 / 2 ^ 8 / 2 ^ 8 mod 2 ^ 8 * 2 ^ 24 = v). dlia.
Qed.

(** [names_equal] decides whether two strings are the same name. *)
Lemma names_equal_spec a b : reflect (same_name a b) (names_equal a b).
Proof.
  apply iff_reflect. unfold same_name, uppercase. revert b.
  induction a as [|x a IH]; intros [|y b]; cbn [names_equal c_string].
  - done.
  - by destruct (Z.eqb_spec y 0).
  - by destruct (Z.eqb_spec x 0).
  - destruct (Z.eqb_spec x 0) as [->|Hx], (Z.eqb_spec y 0) as [->|Hy]; cbn [orb fmap list_fmap].
    + done.
    + split; [done|]. intros E%Z.eqb_eq. congruence.
    + split; [done|]. intros E%Z.eqb_eq. congruence.
    + destruct (Z.eqb_spec (upper x) (upper y)) as [->|Hne].
      * rewrite <- IH. split; [by intros [= ->]|by intros ->].
      * split; [by intros [=]|done].
Qed.

Lemma count_while_prefix f w rest :
  Forall (λ c, f c = true) w → (∀ c rest', rest = c :: rest' → f c = false) →
  count_while f (w ++ rest) = lenZ w.
Proof.
  intros Hw Hr. induction Hw as [|c w Hc Hw IH]; simpl.
  - destruct rest as [|c rest]; [done|]. simpl. by rewrite (Hr c rest eq_refl).
  - rewrite Hc, IH. unfold lenZ. simpl. lia.
Qed.

Lemma drop_lenZ pre rest : drop (Z.to_nat (lenZ pre)) (pre ++ rest) = rest.
Proof. unfold lenZ. rewrite Nat2Z.id. apply drop_app_length. Qed.

(** [component] on a path split at the position, after separators [seps]. *)
Lemma component_plain pre seps w rest :
  Forall (λ c, is_separator c = true) seps → plain w →
  (∀ c rest', rest = c :: rest' → c = 0 ∨ is_separator c = true) →
  component (pre ++ seps ++ w ++ rest) (lenZ pre) =
    if 12 <? lenZ w then (-1, lenZ pre, take 12 (w ++ rest))
    else (1, lenZ (pre ++ seps ++ w), uppercase w).
Proof.
  intros Hs [Hne Hw] Hr. destruct w as [|c w]; [done|]. inversion Hw as [|? ? [Hc0 Hcs] Hw']; subst.
  unfold component. rewrite drop_lenZ, (count_while_prefix _ seps) by
    (done || (intros ? ? [= <- _]; done)).
  rewrite <- lenZ_app, app_assoc. rewrite nthZ_app_r by lia. rewrite Z.sub_diag.
  change (nthZ ((c :: w) ++ rest) 0) with c. rewrite (proj2 (Z.eqb_neq c 0)) by done.
  rewrite drop_lenZ.
  rewrite (count_while_prefix _ (c :: w)).
  - change (FAT32_NAME_SIZE - 1) with 12. case_if; [done|].
    rewrite <- lenZ_app, <- app_assoc. do 2 f_equal. unfold lenZ. rewrite Nat2Z.id.
    by rewrite take_app_length.
  - eapply Forall_impl; [exact Hw|]. intros x [Hx0 Hxs]. simpl.
    by rewrite (proj2 (Z.eqb_neq x 0)), Hxs.
  - intros x rest' E. destruct (Hr x rest' E) as [-> | Hx]; [done|]. rewrite Hx.
    by rewrite orb_true_r.
Qed.

(** At the end of the path there is no component. *)
Lemma component_end pre seps :
  Forall (λ c, is_separator c = true) seps →
  component (pre ++ seps) (lenZ pre) = (0, lenZ (pre ++ seps), []).
Proof.
  intros Hs. unfold component. rewrite drop_lenZ.
  pose proof (count_while_prefix is_separator seps [] Hs ltac:(done)) as E.
  rewrite app_nil_r in E. rewrite E, <- lenZ_app, nthZ_ge by lia. done.
Qed.

Section short_entries.
Context (base ext : list Z) (attr sz cluster : Z) (stamps times : list Z).
Hypothesis Hb : name_field 8 base.
Hypothesis He : name_field 3 ext.
Hypothesis Ha : is_byte attr.
Hypothesis Hsz : 0 ≤ sz < 2 ^ 32.
Hypothesis Hcl : 0 ≤ cluster < 2 ^ 32.
Hypothesis Hst : bytes stamps.
Hypothesis Lst : lenZ stamps = 8.
Hypothesis Hti : bytes times.
Hypothesis Lti : lenZ times = 4.

Let raw : list Z := short_entry base ext attr sz cluster stamps times.

Lemma padded_bytes n l : bytes l → bytes (padded n l).
Proof. intros. apply Forall_app_2; [done|]. apply Forall_replicate. done. Qed.

Lemma short_bytes : bytes raw.
Proof.
  destruct Hb as (_ & ? & _), He as (_ & ? & _).
  unfold raw, short_entry, bytes. rewrite !Forall_app, Forall_singleton.
  do 2 (split; [by apply padded_bytes|]). do 2 (split; [done|]).
  split; [apply le_bytes_bytes|split; [done|]]. split; apply le_bytes_bytes.
Qed.

Lemma short_base : field_end raw 0 8 = lenZ base ∧ take (Z.to_nat (lenZ base)) raw = base.
Proof.
  split; [exact (field_end_padded [] 8 base _ Hb)|].
  unfold raw, short_entry, padded, lenZ. rewrite Nat2Z.id, <- app_assoc. apply take_app_length.
Qed.

Lemma short_ext : field_end raw 8 3 = 8 + lenZ ext ∧
  take (Z.to_nat (8 + lenZ ext - 8)) (drop 8 raw) = ext.
Proof.
  pose proof (lenZ_padded 8 base (proj1 Hb)) as L. split.
  - pose proof (field_end_padded (padded 8 base) 3 ext) as E. rewrite L in E. by apply E.
  - unfold raw, short_entry. rewrite drop_app_length' by (unfold lenZ in L; lia).
    unfold padded, lenZ. rewrite <- app_assoc.
    replace (Z.to_nat _) with (length ext) by lia. apply take_app_length.
Qed.

Lemma short_attr : nthZ raw 11 = attr.
Proof.
  pose proof (lenZ_padded 8 base (proj1 Hb)) as L. pose proof (lenZ_padded 3 ext (proj1 He)) as L'.
  unfold raw, short_entry. rewrite nthZ_app_r, nthZ_app_r by lia. by rewrite L, L'.
Qed.

Lemma short_numbers :
  fat16 raw 20 = cluster / 2 ^ 16 ∧ fat16 raw 26 = cluster mod 2 ^ 16 ∧ fat32 raw 28 = sz.
Proof.
  pose proof (lenZ_padded 8 base (proj1 Hb)) as L. pose proof (lenZ_padded 3 ext (proj1 He)) as L'.
  pose proof short_bytes as Hraw. unfold raw, short_entry in *.
  set (p20 := padded 8 base ++ padded 3 ext ++ [attr] ++ stamps).
  set (p26 := p20 ++ le_bytes 2 (cluster / 2 ^ 16) ++ times).
  set (p28 := p26 ++ le_bytes 2 (cluster mod 2 ^ 16)).
  assert (lenZ p20 = 20) as L20 by (unfold p20; rewrite !lenZ_app, L, L', Lst; done).
  assert (lenZ p26 = 26) as L26 by (unfold p26; rewrite !lenZ_app, L20, Lti; done).
  assert (lenZ p28 = 28) as L28 by (unfold p28; rewrite !lenZ_app, L26; done).
  split; [|split].
  - pose proof (fat16_at p20 (cluster / 2 ^ 16)
      (times ++ le_bytes 2 (cluster mod 2 ^ 16) ++ le_bytes 4 sz) ltac:(dlia)) as E.
    rewrite L20 in E. unfold p20 in E. rewrite <- !app_assoc in E. apply E, Hraw.
  - pose proof (fat16_at p26 (cluster mod 2 ^ 16) (le_bytes 4 sz) ltac:(dlia)) as E.
    rewrite L26 in E. unfold p26, p20 in E. rewrite <- !app_assoc in E. apply E, Hraw.
  - pose proof (fat32_at p28 sz [] Hsz) as E. rewrite L28, app_nil_r in E.
    unfold p28, p26, p20 in E. rewrite <- !app_assoc in E. apply E, Hraw.
Qed.
End short_entries.

(** ** Properties *)

(** C26. A directory entry written for a short name is read back: the name without
    the padding and with a dot before a non-empty extension, the attributes, the
    size and the first cluster; and no entry gives a name that overflows the
    13 bytes of [fat32_dirent_t]. *)
Theorem entry_from_raw_short base ext attr sz cluster stamps times :
  name_field 8 base → name_field 3 ext → base ≠ [] →
  nthZ base 0 ≠ 0 → nthZ base 0 ≠ 0xE5 →
  is_byte attr → Z.testbit attr 3 = false → 0 ≤ sz < 2 ^ 32 → 0 ≤ cluster < 2 ^ 32 →
  bytes stamps → lenZ stamps = 8 → bytes times → lenZ times = 4 →
  entry_from_raw (short_entry base ext attr sz cluster stamps times) =
    Some (mk_dirent (base ++ if decide (ext = []) then [] else 46 :: ext) attr sz cluster) ∧
  ∀ raw e, entry_from_raw raw = Some e → lenZ (name e) < FAT32_NAME_SIZE.
Proof.
  intros Hb He Hne H0 HE5 Ha Hvol Hsz Hcl Hst Lst Hti Lti. split; cycle 1.
  { intros raw e E. pose proof (entry_name_length raw e E). unfold FAT32_NAME_SIZE. lia. }
  destruct (short_base base ext attr sz cluster stamps times Hb) as [B1 B2].
  destruct (short_ext base ext attr sz cluster stamps times Hb He) as [X1 X2].
  pose proof (short_attr base ext attr sz cluster stamps times Hb He) as A.
  destruct (short_numbers base ext attr sz cluster stamps times Hb He Ha Hsz Hcl Hst Lst Hti Lti)
    as (N1 & N2 & N3).
  assert (nthZ (short_entry base ext attr sz cluster stamps times) 0 = nthZ base 0) as E0
    by (destruct base; [done|reflexivity]).
  set (raw := short_entry _ _ _ _ _ _ _) in *. clearbody raw. unfold entry_from_raw.
  rewrite E0, A, B1, B2, X1, X2, N1, N2, N3, (proj2 (Z.eqb_neq _ 0)), (proj2 (Z.eqb_neq _ 0xE5)) by done.
  pose proof (land_bit attr 3 ltac:(lia)) as L. rewrite Hvol in L. change (1 ≪ 3) with 8 in L.
  rewrite L. destruct (Z.eqb_spec attr 0x0F) as [->|_]; [done|]. cbn [orb]. do 2 f_equal.
  - f_equal. case_decide as Ex; [by subst|]. rewrite (proj2 (Z.ltb_lt _ _)); [done|].
    destruct ext; [done|]. unfold lenZ. simpl. lia.
  - rewrite shiftl_mul, u32_small, lor_disjoint_add by dlia. dlia.
Qed.


(** README.TXT, 5 bytes at cluster 0x12345. *)
Lemma entry_from_raw_short_witness :
  let readme := [82; 69; 65; 68; 77; 69] in let txt := [84; 88; 84] in
  entry_from_raw (short_entry readme txt 0x20 5 0x12345 (replicate 8 0) (replicate 4 0)) =
    Some (mk_dirent [82; 69; 65; 68; 77; 69; 46; 84; 88; 84] 0x20 5 0x12345) ∧
  ∀ raw e, entry_from_raw raw = Some e → lenZ (name e) < FAT32_NAME_SIZE.
Proof.
  apply (entry_from_raw_short [82; 69; 65; 68; 77; 69] [84; 88; 84] 0x20 5 0x12345
    (replicate 8 0) (replicate 4 0));
    try done; try lia; try (apply Forall_replicate; done).
  - split; [cbn; lia|split; [by repeat constructor|done]].
  - split; [cbn; lia|split; [by repeat constructor|done]].
Defined.
End Fat32.
