(* ===== verification/Fat32Volume.v ===== *)
(** FAT32 volumes: the geometry [fat32_mount] establishes, the sectors the mounted
    file system reads, and the links of the file allocation table. *)

From S2P Require Import Prelude Interfaces Block Fat32.

Module Fat32Volume.
Import Block Fat32.

(** ** Definitions *)

Section spec.
Context {D : Type} {BD : BlockDevice D} {BDS : BlockDeviceSpec D}.
Implicit Types (fs : fat32_fs D).

(** The first sector after the data area, counted on the device. *)
Definition volume_end fs : Z :=
  volume_start fs + data_start fs + cluster_count fs * sectors_per_cluster fs.

(** A mounted volume: the sector size is a power of two and the device's, FAT, data
    area and root lie where they should, the table has an entry for every cluster,
    and the volume lies inside the device and the 32-bit sector numbers. *)
Record fs_ok fs : Prop := {
  ok_mounted : mounted fs = true;
  ok_device : device_ok (device fs);
  ok_driver : has_read_sector (device fs) = true;
  ok_buffer : bytes (sector_buffer fs) ∧ lenZ (sector_buffer fs) = FAT32_MAX_SECTOR_SIZE;
  ok_sector : bytes_per_sector fs = sector_size (device fs) ∧
    512 ≤ bytes_per_sector fs ≤ FAT32_MAX_SECTOR_SIZE ∧ ∃ k, 0 ≤ k ∧ bytes_per_sector fs = 2 ^ k;
  ok_cluster : 1 ≤ sectors_per_cluster fs ≤ 128;
  ok_fat : 1 ≤ fat_start fs ∧ 1 ≤ fat_sectors fs ∧ fat_start fs + fat_sectors fs ≤ data_start fs;
  ok_table : (cluster_count fs + 2) * 4 ≤ fat_sectors fs * bytes_per_sector fs;
  ok_count : 1 ≤ cluster_count fs ≤ 0x0FFFFFF5;
  ok_root : 2 ≤ root_cluster fs < cluster_count fs + 2;
  ok_start : 0 ≤ volume_start fs;
  ok_end : volume_end fs < 2 ^ 32 ∧
    (sector_count (device fs) = 0 ∨ volume_end fs ≤ sector_count (device fs));
}.

(** The sectors of the volume, as the device numbers them. *)
Definition in_volume fs (n : Z) : Prop := volume_start fs ≤ n < volume_end fs.

(** The buffer and the state of the device may differ, nothing else; and the device has
    only been read, in sectors that satisfy [Q]. *)
Definition only_read (Q : Z → Prop) fs fs' : Prop :=
  ∃ d b, fs' = with_io d b fs ∧ (device_ok (device fs) → device_ok d) ∧
    sector_size d = sector_size (device fs) ∧ sector_count d = sector_count (device fs) ∧
    has_read_sector d = has_read_sector (device fs) ∧
    contents d = contents (device fs) ∧ (∀ k, readable (device fs) k → readable d k) ∧
    (bytes (sector_buffer fs) → bytes b) ∧ lenZ b = lenZ (sector_buffer fs) ∧ reads Q (device fs) d.

(** The volume after some of its sectors were read. *)
Definition same_volume fs fs' : Prop := only_read (in_volume fs) fs fs'.

(** Sector [n] of the volume. *)
Definition sector_bytes fs (n : Z) : list Z := contents (device fs) (volume_start fs + n).

Definition cluster_in fs (c : Z) : Prop := 2 ≤ c < cluster_count fs + 2.

(** The entry of a cluster in the first copy of the table: 28 bits. *)
Definition fat_value fs (c : Z) : Z :=
  fat32 (sector_bytes fs (fat_start fs + 4 * c / bytes_per_sector fs))
    (4 * c mod bytes_per_sector fs) mod 2 ^ 28.

Inductive link := Last | Next (c : Z) | Bad.

Definition fat_link fs (c : Z) : link :=
  let v := fat_value fs c in
  if 0x0FFFFFF8 <=? v then Last
  else if (v <? 0x0FFFFFF0) && (2 <=? v) && (v <? cluster_count fs + 2) then Next v
  else Bad.

(** Every cluster of the list links to the one after it. *)
Fixpoint linked fs (l : list Z) : Prop :=
  match l with
  | c :: ((d :: _) as l') => fat_link fs c = Next d ∧ linked fs l'
  | _ => True
  end.

(** The sector, of the volume, with the table entry of [c]. *)
Definition table_sector fs (c : Z) : Z := fat_start fs + 4 * c / bytes_per_sector fs.

(** The sector, of the volume, of sector [i] of cluster [c]. *)
Definition cluster_sector fs (c i : Z) : Z := data_start fs + (c - 2) * sectors_per_cluster fs + i.

(** A file system being mounted on [dev], with the first bytes of sector [n] of the
    device in the buffer. *)
Record probing (dev : D) fs : Prop := {
  pr_ok : device_ok (device fs);
  pr_device : has_read_sector (device fs) = has_read_sector dev ∧
    sector_size (device fs) = sector_size dev ∧ sector_count (device fs) = sector_count dev ∧
    contents (device fs) = contents dev;
  pr_buffer : bytes (sector_buffer fs) ∧ lenZ (sector_buffer fs) = FAT32_MAX_SECTOR_SIZE;
  pr_mounted : mounted fs = false;
}.
Definition holds_sector (dev : D) (n : Z) fs : Prop :=
  ∀ i, 0 ≤ i < sector_size dev → nthZ (sector_buffer fs) i = nthZ (contents dev n) i.

(** The geometry the first sector [b] of the volume describes. *)
Definition described (b : list Z) (start : Z) fs : Prop :=
  volume_start fs = start ∧ bytes_per_sector fs = fat16 b 11 ∧
  sectors_per_cluster fs = nthZ b 13 ∧ fat_start fs = fat16 b 14 ∧ fat_sectors fs = fat32 b 36 ∧
  data_start fs = fat16 b 14 + nthZ b 16 * fat32 b 36 ∧
  cluster_count fs = (fat32 b 32 - data_start fs) / nthZ b 13 ∧ root_cluster fs = fat32 b 44.

End spec.

(** ** Lemmas *)

Section lemmas.
Context {D : Type} {BD : BlockDevice D} {BDS : BlockDeviceSpec D}.
Implicit Types (fs : fat32_fs D).

Lemma with_io_self fs : with_io (device fs) (sector_buffer fs) fs = fs.
Proof. by destruct fs. Qed.

#[export] Instance same_volume_preorder : PreOrder (same_volume (D := D)).
Proof.
  split.
  - intros fs. exists (device fs), (sector_buffer fs). rewrite with_io_self.
    do 9 (split; [done|]). constructor.
  - intros fs1 fs2 fs3 (d & b & -> & E0 & E1 & E2 & E3 & E4 & E5 & E6 & E7 & E8)
      (d' & b' & -> & F0 & F1 & F2 & F3 & F4 & F5 & F6 & F7 & F8).
    cbn [device sector_buffer with_io] in *.
    exists d', b'. split_and!; try congruence; auto. by transitivity d.
Qed.

Lemma only_read_mono (Q Q' : Z → Prop) fs fs' :
  (∀ n, Q n → Q' n) → only_read Q fs fs' → only_read Q' fs fs'.
Proof.
  intros HQ (d & b & -> & E0 & E1 & E2 & E3 & E4 & E5 & E6 & E7 & E8). exists d, b.
  do 9 (split; [done|]). by apply (reads_mono Q).
Qed.

Lemma only_read_reads Q fs fs' : only_read Q fs fs' → reads Q (device fs) (device fs').
Proof. by intros (d & b & -> & _ & _ & _ & _ & _ & _ & _ & _ & H). Qed.

Lemma same_volume_ok fs fs' : fs_ok fs → same_volume fs fs' → fs_ok fs'.
Proof.
  intros [H1 H0 H2 [H3 H3'] H4 H5 H6 H7 H8 H9 H10 H11] (d & b & -> & E0 & E1 & E2 & E3 & E4 & E5 & E6 & E7 & _).
  split; cbn [device sector_buffer with_io mounted bytes_per_sector sectors_per_cluster fat_start
    fat_sectors data_start cluster_count root_cluster volume_start]; try done.
  - by apply E0.
  - by rewrite E3.
  - split; [by apply E6|congruence].
  - by rewrite E1.
  - by rewrite E2.
Qed.

(** What is stored on a volume does not change while it is read. *)
Lemma same_volume_sectors fs fs' : same_volume fs fs' →
  sector_bytes fs' = sector_bytes fs ∧ fat_link fs' = fat_link fs ∧
  (∀ l, linked fs' l = linked fs l) ∧
  cluster_sector fs' = cluster_sector fs ∧ cluster_in fs' = cluster_in fs ∧
  bytes_per_sector fs' = bytes_per_sector fs ∧ sectors_per_cluster fs' = sectors_per_cluster fs ∧
  cluster_count fs' = cluster_count fs ∧ root_cluster fs' = root_cluster fs ∧
  mounted fs' = mounted fs.
Proof.
  intros (d & b & -> & _ & _ & _ & _ & E & _).
  assert (sector_bytes (with_io d b fs) = sector_bytes fs) as Es
    by (unfold sector_bytes; cbn [device with_io volume_start]; by rewrite E).
  assert (fat_link (with_io d b fs) = fat_link fs) as El.
  { unfold fat_link, fat_value. rewrite Es. done. }
  split; [done|split; [done|split; [|done]]].
  intros l. induction l as [|c [|d' l] IH]; [done|done|].
  change (linked (with_io d b fs) (c :: d' :: l)) with
    (fat_link (with_io d b fs) c = Next d' ∧ linked (with_io d b fs) (d' :: l)).
  by rewrite El, IH.
Qed.

Lemma device_read_spec n fs r fs' :
  device_ok (device fs) → bytes (sector_buffer fs) → sector_size (device fs) ≤ lenZ (sector_buffer fs) →
  device_read n fs = (r, fs') →
  only_read (eq n) fs fs' ∧
  (r = 0 → ∀ i, 0 ≤ i < sector_size (device fs) →
     nthZ (sector_buffer fs') i = nthZ (contents (device fs) n) i).
Proof.
  intros Hd Hb Hl. unfold device_read.
  destruct (block_read_sector n (sector_buffer fs) (device fs)) as [[r' b] d] eqn:E.
  intros [= <- <-].
  destruct (block_read_spec _ _ _ _ _ _ E Hd Hb Hl) as (? & ? & ? & ? & ? & ? & ? & ? & Hok).
  apply block_reads in E. split; [by exists d, b|]. intros ->. by apply Hok.
Qed.

Lemma ok_buffer_size fs : fs_ok fs → sector_size (device fs) ≤ lenZ (sector_buffer fs).
Proof.
  intros H. destruct (ok_sector _ H) as (<- & ? & _). destruct (ok_buffer _ H) as [_ ->]. lia.
Qed.

(** Reading sector [n] of the volume: either an I/O error, or its contents are in
    the buffer. *)
Lemma read_sector_spec n fs r fs' :
  fs_ok fs → 0 ≤ n → volume_start fs + n < volume_end fs → read_sector n fs = (r, fs') →
  fs_ok fs' ∧ same_volume fs fs' ∧ reads (eq (volume_start fs + n)) (device fs) (device fs') ∧
  (r = FAT32_EIO ∨
   r = FAT32_OK ∧ ∀ i, 0 ≤ i < bytes_per_sector fs →
     nthZ (sector_buffer fs') i = nthZ (sector_bytes fs n) i).
Proof.
  intros Hok Hn Hv. unfold read_sector. destruct (ok_buffer _ Hok) as [Hb _].
  pose proof (ok_buffer_size _ Hok) as Hl. pose proof (ok_start _ Hok). pose proof (ok_end _ Hok) as [He _].
  match goal with |- context [if ?b then _ else _] => destruct b eqn:Ec end.
  { intros [= <- <-]. split; [done|]. split; [reflexivity|]. split; [constructor|by left]. }
  rewrite u32_small by lia. destruct (device_read (volume_start fs + n) fs) as [r' fs1] eqn:E.
  destruct (device_read_spec _ _ _ _ (ok_device _ Hok) Hb Hl E) as [Hsame Hr]. intros [= <- <-].
  assert (same_volume fs fs1) as Hs.
  { apply (only_read_mono (eq (volume_start fs + n))); [|done]. intros k <-. unfold in_volume. lia. }
  split; [by apply (same_volume_ok fs)|]. split; [done|]. split; [by apply only_read_reads|].
  destruct (Z.eqb_spec r' 0) as [->|]; [right|by left]. split; [done|].
  destruct (ok_sector _ Hok) as (Es & _). rewrite <- Es in Hr. unfold sector_bytes. by apply Hr.
Qed.

(** A sector inside the volume that the device can read is read. *)
Lemma read_sector_readable n fs :
  fs_ok fs → 0 ≤ n → volume_start fs + n < volume_end fs →
  readable (device fs) (volume_start fs + n) → fst (read_sector n fs) = FAT32_OK.
Proof.
  intros Hok Hn Hv Hrd. unfold read_sector. destruct (ok_buffer _ Hok) as [Hb _].
  pose proof (ok_buffer_size _ Hok) as Hl. pose proof (ok_start _ Hok).
  pose proof (ok_end _ Hok) as [He Hc]. destruct (ok_sector _ Hok) as (Es & ? & _).
  pose proof (sector_count_range (device fs)).
  rewrite (ok_mounted _ Hok). cbn [negb orb].
  assert ((negb (sector_count (device fs) =? 0) &&
    ((sector_count (device fs) <? volume_start fs) ||
     (sector_count (device fs) -u volume_start fs <=? n)))%bool = false) as ->.
  { destruct (Z.eqb_spec (sector_count (device fs)) 0); cbn [negb andb]; [done|].
    destruct Hc as [|Hc]; [done|]. rewrite u32_small by lia.
    apply orb_false_intro; [apply Z.ltb_ge|apply Z.leb_gt]; lia. }
  rewrite (u32_small (0xFFFFFFFF - _)), (proj2 (Z.ltb_ge _ _)) by lia. cbn [orb].
  rewrite u32_small by lia. unfold device_read.
  pose proof (block_read_readable (volume_start fs + n) (sector_buffer fs) (device fs) (ok_device _ Hok) Hrd Hb Hl
    (ok_driver _ Hok) ltac:(lia) ltac:(lia)) as E.
  destruct (block_read_sector _ _ _) as [[r b] d]. cbn in E |- *. by subst r.
Qed.

(** The sector number computed for sector [i] of a valid cluster does not wrap, and
    lies in the data area. *)
Lemma cluster_sector_spec fs c i :
  fs_ok fs → cluster_in fs c → 0 ≤ i < sectors_per_cluster fs →
  data_start fs +u (c -u 2) *u sectors_per_cluster fs +u i = cluster_sector fs c i ∧
  data_start fs ≤ cluster_sector fs c i ∧
  volume_start fs + cluster_sector fs c i < volume_end fs.
Proof.
  unfold cluster_in, cluster_sector, volume_end. intros Hok Hc Hi.
  pose proof (ok_start _ Hok). pose proof (ok_end _ Hok) as [He _]. unfold volume_end in He.
  pose proof (ok_count _ Hok). pose proof (ok_cluster _ Hok). pose proof (ok_fat _ Hok).
  assert ((c - 2) * sectors_per_cluster fs + sectors_per_cluster fs
    ≤ cluster_count fs * sectors_per_cluster fs) by nia.
  assert (0 ≤ (c - 2) * sectors_per_cluster fs) by nia.
  rewrite (u32_small (c - 2)), (u32_small ((c - 2) * _)) by lia. u_small. lia.
Qed.

Lemma valid_cluster_spec fs c :
  fs_ok fs → c < 2 ^ 32 → valid_cluster fs c = true ↔ cluster_in fs c.
Proof.
  intros Hok Hc. pose proof (ok_count _ Hok). unfold valid_cluster, cluster_in.
  destruct (Z.leb_spec 2 c); cbn [andb]; [|split; [done|lia]].
  rewrite u32_small by lia. rewrite Z.ltb_lt. lia.
Qed.

(** The place of a cluster's entry in the table: no wrap, inside the table, and not
    across the end of a sector. *)
Lemma fat_entry_place fs c :
  fs_ok fs → cluster_in fs c →
  let offset := 4 * c in
  offset < 2 ^ 32 ∧ 0 ≤ offset / bytes_per_sector fs < fat_sectors fs ∧
  0 ≤ offset mod bytes_per_sector fs ∧ offset mod bytes_per_sector fs + 4 ≤ bytes_per_sector fs.
Proof.
  intros Hok Hc offset. subst offset. unfold cluster_in in Hc. pose proof (ok_count _ Hok).
  destruct (ok_sector _ Hok) as (_ & Hbps & k & Hk & Ek). pose proof (ok_table _ Hok).
  assert (2 ≤ k) as Hk2.
  { destruct (decide (k < 2)); [|lia]. assert (2 ^ k ≤ 2 ^ 1) by (apply Z.pow_le_mono_r; lia). lia. }
  split; [lia|split; [split|]].
  - apply Z.div_pos; lia.
  - apply Z.div_lt_upper_bound; nia.
  - split; [apply Z.mod_pos_bound; lia|].
    rewrite Ek. replace (2 ^ k) with (4 * 2 ^ (k - 2)).
    + rewrite Z.mul_mod_distr_l by (pose proof (Z.pow_pos_nonneg 2 (k - 2)); lia).
      pose proof (Z.mod_pos_bound c (2 ^ (k - 2)) ltac:(apply Z.pow_pos_nonneg; lia)). lia.
    + change 4 with (2 ^ 2). rewrite <- Z.pow_add_r by lia. f_equal. lia.
Qed.

Lemma fat_value_range fs c : 0 ≤ fat_value fs c < 2 ^ 28.
Proof. apply Z.mod_pos_bound. lia. Qed.

(** Following a link: the outcome is what the table entry says, or an I/O error. *)
Lemma next_cluster_spec c fs r nx fs' :
  fs_ok fs → cluster_in fs c → next_cluster c fs = (r, nx, fs') →
  fs_ok fs' ∧ same_volume fs fs' ∧
  reads (eq (volume_start fs + table_sector fs c)) (device fs) (device fs') ∧
  (r = FAT32_EIO ∨ (r = FAT32_OK ∧ nx = END_OF_CHAIN ∧ fat_link fs c = Last) ∨
   (r = FAT32_OK ∧ nx ≠ END_OF_CHAIN ∧ cluster_in fs nx ∧ fat_link fs c = Next nx) ∨
   (r = FAT32_EBADFS ∧ fat_link fs c = Bad)).
Proof.
  intros Hok Hc. pose proof (ok_count _ Hok). unfold next_cluster.
  rewrite (proj2 (valid_cluster_spec fs c Hok ltac:(unfold cluster_in in Hc; lia)) Hc). cbn [negb].
  destruct (fat_entry_place fs c Hok Hc) as (P1 & P2 & P3 & P4). pose proof (ok_fat _ Hok).
  destruct (ok_sector _ Hok) as (_ & Hbps & _). unfold FAT32_MAX_SECTOR_SIZE in Hbps.
  rewrite (Z.mul_comm c 4), (u32_small (4 * c)) by (unfold cluster_in in Hc; lia).
  rewrite (proj2 (Z.leb_gt _ _)), (u32_small (_ + 4)), (proj2 (Z.ltb_ge _ _)) by lia.
  pose proof (ok_end _ Hok) as [He _]. unfold volume_end in He. pose proof (ok_start _ Hok).
  pose proof (ok_cluster _ Hok). assert (data_start fs < 2 ^ 32) by nia.
  rewrite u32_small by lia. set (sec := fat_start fs + 4 * c / bytes_per_sector fs) in *.
  destruct (read_sector sec fs) as [r1 fs1] eqn:Er.
  assert (volume_start fs + sec < volume_end fs) as Hsec by (unfold volume_end; subst sec; nia).
  destruct (read_sector_spec sec fs r1 fs1 Hok ltac:(subst sec; lia) Hsec Er)
    as (Hok1 & Hs1 & Hrd & [->|[-> Hb]]).
  { intros [= <- <- <-]. split; [done|split; [done|split; [done|by left]]]. }
  assert (fat32 (sector_buffer fs1) (4 * c mod bytes_per_sector fs) .& 0x0FFFFFFF = fat_value fs c) as ->.
  { rewrite (land_mask _ _ 28) by lia. unfold fat_value. fold sec. f_equal.
    apply fat32_ext. intros i Hi. apply Hb. lia. }
  destruct (same_volume_sectors _ _ Hs1) as (_ & _ & _ & _ & _ & _ & _ & Ecnt & _).
  pose proof (fat_value_range fs c) as Hv.
  assert (valid_cluster fs1 (fat_value fs c) =
    ((2 <=? fat_value fs c) && (fat_value fs c <? cluster_count fs + 2))%bool) as Hval.
  { apply eq_bool_prop_intro. rewrite !Is_true_true, (valid_cluster_spec fs1) by (done || lia).
    unfold cluster_in. rewrite Ecnt, andb_true_iff, Z.leb_le, Z.ltb_lt. done. }
  rewrite Hval. unfold fat_link. set (v := fat_value fs c) in *.
  destruct (Z.leb_spec 0x0FFFFFF8 v); cbv iota zeta.
  { intros [= <- <- <-]. split; [done|split; [done|split; [done|]]]. right; by left. }
  destruct (Z.eqb_spec v 0x0FFFFFF7), (Z.leb_spec 0x0FFFFFF0 v), (Z.ltb_spec v 0x0FFFFFF8),
    (Z.ltb_spec v 0x0FFFFFF0); try lia; cbn [orb andb negb];
    try (intros [= <- <- <-]; split; [done|split; [done|split; [done|]]]; right; right; right; done).
  destruct (Z.leb_spec 2 v), (Z.ltb_spec v (cluster_count fs + 2)); cbn [orb andb negb];
    intros [= <- <- <-]; (split; [done|split; [done|split; [done|]]]); right; right;
    [left|right; done|right; done|right; done].
  split; [done|split; [|done]]. unfold END_OF_CHAIN. lia.
Qed.

(** With readable sectors there is no I/O error. *)
Lemma next_cluster_readable c fs :
  fs_ok fs → cluster_in fs c →
  readable (device fs) (volume_start fs + (fat_start fs + 4 * c / bytes_per_sector fs)) →
  fst (fst (next_cluster c fs)) ≠ FAT32_EIO.
Proof.
  intros Hok Hc Hrd. pose proof (ok_count _ Hok). unfold next_cluster.
  rewrite (proj2 (valid_cluster_spec fs c Hok ltac:(unfold cluster_in in Hc; lia)) Hc). cbn [negb].
  destruct (fat_entry_place fs c Hok Hc) as (P1 & P2 & P3 & P4). pose proof (ok_fat _ Hok).
  destruct (ok_sector _ Hok) as (_ & Hbps & _). unfold FAT32_MAX_SECTOR_SIZE in Hbps.
  rewrite (Z.mul_comm c 4), (u32_small (4 * c)) by (unfold cluster_in in Hc; lia).
  rewrite (proj2 (Z.leb_gt _ _)), (u32_small (_ + 4)), (proj2 (Z.ltb_ge _ _)) by lia.
  pose proof (ok_end _ Hok) as [He _]. pose proof He as He'. unfold volume_end in He'.
  pose proof (ok_start _ Hok).
  pose proof (ok_cluster _ Hok). assert (data_start fs < 2 ^ 32) by nia.
  rewrite u32_small by lia. set (sec := fat_start fs + 4 * c / bytes_per_sector fs) in *.
  pose proof (read_sector_readable sec fs Hok ltac:(subst sec; lia)
    ltac:(unfold volume_end; subst sec; nia) Hrd) as E.
  destruct (read_sector sec fs) as [r1 fs1]. cbn in E. subst r1. by repeat case_match.
Qed.

(** *** Mounting *)

Lemma probing_read dev n fs r fs' :
  probing dev fs → sector_size dev ≤ FAT32_MAX_SECTOR_SIZE → device_read n fs = (r, fs') →
  probing dev fs' ∧ (r = 0 → holds_sector dev n fs').
Proof.
  intros [PK (P0 & P1 & P2 & P3) (P4 & P5) P6] Hsz E.
  destruct (device_read_spec _ _ _ _ PK P4 ltac:(rewrite P1, P5; done) E)
    as [(d & b & -> & E0 & E1 & E2 & E3 & E4 & _ & E6 & E7 & _) Hr].
  cbn [sector_buffer with_io] in *. split.
  - split; cbn [device sector_buffer with_io mounted].
    + by apply E0.
    + rewrite E1, E2, E3, E4. done.
    + split; [by apply E6|congruence].
    + done.
  - intros Hr0 i Hi. rewrite <- P3. apply Hr; [done|]. by rewrite P1.
Qed.

Lemma try_partition_spec dev mbr pass part fs r fs' :
  probing dev fs → sector_size dev ≤ FAT32_MAX_SECTOR_SIZE → bytes mbr →
  try_partition mbr pass part fs = (r, fs') →
  probing dev fs' ∧
  ∀ start size, r = Some (start, size) →
    holds_sector dev start fs' ∧ 0 < start < 2 ^ 32 ∧ 0 < size < 2 ^ 32.
Proof.
  intros Hp Hsz Hm. unfold try_partition. cbv zeta.
  pose proof (fat32_range mbr (446 + part *u 16 + 8) Hm) as R1.
  pose proof (fat32_range mbr (446 + part *u 16 + 12) Hm) as R2.
  set (start := fat32 mbr (446 + part *u 16 + 8)) in *.
  set (sz := fat32 mbr (446 + part *u 16 + 12)) in *.
  match goal with |- (if ?b then _ else _) = _ → _ => destruct b eqn:E1 end;
    [intros [= <- <-]; by split|].
  match goal with |- (if ?b then _ else _) = _ → _ => destruct b eqn:E2 end;
    [intros [= <- <-]; by split|].
  destruct (device_read start fs) as [r1 fs1] eqn:Er.
  destruct (probing_read dev _ _ _ _ Hp Hsz Er) as [Hp1 Hh].
  match goal with |- (if ?b then _ else _) = _ → _ => destruct b eqn:E3 end;
    [intros [= <- <-]; by split|].
  intros [= <- <-]. split; [done|]. intros ? ? [= <- <-]. bool_hyps. split; [by apply Hh|lia].
Qed.

Lemma find_volume_spec dev fs r fs' :
  probing dev fs → sector_size dev ≤ FAT32_MAX_SECTOR_SIZE → holds_sector dev 0 fs →
  find_volume fs = (r, fs') →
  probing dev fs' ∧
  ∀ start size, r = Some (start, size) →
    holds_sector dev start fs' ∧ 0 ≤ start < 2 ^ 32 ∧ 0 ≤ size < 2 ^ 32.
Proof.
  intros Hp Hsz Hh. unfold find_volume. destruct (looks_like_fat32_bpb _ _).
  { intros [= <- <-]. split; [done|]. intros ? ? [= <- <-]. split; [done|lia]. }
  destruct (negb _); [intros [= <- <-]; by split|]. intros E.
  set (mbr := sector_buffer fs) in *. assert (bytes mbr) as Hm by apply Hp.
  set (Q := λ (x : Z * Z) fs, probing dev fs ∧ holds_sector dev x.1 fs ∧
    0 < x.1 < 2 ^ 32 ∧ 0 < x.2 < 2 ^ 32).
  assert (∀ pass fs0, probing dev fs0 →
    match for_exit 0 4 (try_partition mbr pass) fs0 with
    | (None, fs1) => probing dev fs1
    | (Some x, fs1) => Q x fs1
    end) as Hin.
  { intros pass fs0 Hp0. apply (for_exit_ind (λ _, probing dev) Q); [done|done|].
    intros i fs1 Hi Hp1. destruct (try_partition mbr pass i fs1) as [x fs2] eqn:Et.
    destruct (try_partition_spec dev _ _ _ _ _ _ Hp1 Hsz Hm Et) as [Hp2 Hx].
    destruct x as [[st sz]|]; [|done]. destruct (Hx st sz eq_refl) as (? & ? & ?). done. }
  pose proof (for_exit_ind (λ _, probing dev) Q 0 2
    (λ pass, for_exit 0 4 (try_partition mbr pass)) fs ltac:(lia) Hp) as H.
  rewrite E in H. destruct r as [[st sz]|].
  - destruct H as (H1 & H2 & H3 & H4); [intros i s0 _; apply Hin|]. split; [done|].
    cbn in *. intros ? ? [= <- <-]. split; [done|lia].
  - split; [apply H; intros i s0 _; apply Hin|done].
Qed.

Lemma read_geometry_spec dev start size fs r fs' :
  probing dev fs → has_read_sector dev = true → sector_size dev ≤ FAT32_MAX_SECTOR_SIZE →
  0 ≤ start < 2 ^ 32 → 0 ≤ size < 2 ^ 32 →
  read_geometry start size fs = (r, fs') →
  (r = FAT32_OK ∧ fs_ok fs' ∧ contents (device fs') = contents dev ∧
     described (sector_buffer fs) start fs') ∨
  (r = FAT32_EBADFS ∧ mounted fs' = false).
Proof.
  intros [PK (P0 & P1 & P2 & P3) (P4 & P5) P6] Hh Hsz Hst Hs. unfold read_geometry. cbv zeta.
  set (b := sector_buffer fs) in *. rewrite P1, P2.
  pose proof (fat16_range b 11 P4). pose proof (fat16_range b 14 P4).
  pose proof (fat32_range b 32 P4). pose proof (fat32_range b 36 P4).
  pose proof (fat32_range b 44 P4) as R44. pose proof (nthZ_byte b 13 P4) as B13.
  pose proof (nthZ_byte b 16 P4) as B16. unfold is_byte in *.
  pose proof (sector_count_range dev).
  match goal with |- (if ?c then _ else _) = _ → _ => destruct c eqn:E1 end;
    [intros [= <- <-]; by right|].
  match goal with |- (if ?c then _ else _) = _ → _ => destruct c eqn:E2 end;
    [intros [= <- <-]; by right|].
  match goal with |- (if ?c then _ else _) = _ → _ => destruct c eqn:E3 end;
    [intros [= <- <-]; by right|].
  match goal with |- (if ?c then _ else _) = _ → _ => destruct c eqn:E4 end;
    [intros [= <- <-]; by right|].
  match goal with |- (if ?c then _ else _) = _ → _ => destruct c eqn:E5 end;
    [intros [= <- <-]; by right|].
  match goal with |- (if ?c then _ else _) = _ → _ => destruct c eqn:E6 end;
    [intros [= <- <-]; by right|].
  intros [= <- <-]. left. split; [done|].
  bool_hyps.
  destruct (power_of_two_spec (fat16 b 11)) as (k & Hk & Ek); [lia|done|].
  destruct (power_of_two_spec (nthZ b 13)) as (k' & Hk' & Ek'); [lia|done|].
  assert (1 ≤ nthZ b 13) by (pose proof (Z.pow_pos_nonneg 2 k'); lia).
  assert (fat32 b 44 .& 0x0FFFFFFF = fat32 b 44) as Eroot.
  { rewrite (land_align _ _ 28) in * by lia. rewrite (land_mask _ _ 28) by lia. dlia. }
  rewrite Eroot in *.
  assert (0 ≤ nthZ b 16 * fat32 b 36 ≤ 2 * 2 ^ 32) by nia.
  rewrite (u64_small (nthZ b 16 * _)), (u64_small (_ + _ * _)) in * by lia.
  set (data := fat16 b 14 + nthZ b 16 * fat32 b 36) in *.
  assert (0 ≤ data) by (subst data; lia).
  rewrite (u32_small data), (u32_small (fat32 b 32 - data)) in * by lia.
  set (clusters := (fat32 b 32 - data) / nthZ b 13) in *.
  assert (clusters * nthZ b 13 ≤ fat32 b 32 - data) as Hcl
    by (subst clusters; rewrite Z.mul_comm; apply Z.mul_div_le; lia).
  assert (fat16 b 14 + fat32 b 36 ≤ data) by (subst data; nia).
  assert (0 ≤ fat32 b 36 * fat16 b 11 < 2 ^ 32 * 2 ^ 16) by nia.
  assert (0 ≤ clusters) by (subst clusters; apply Z.div_pos; lia).
  rewrite (u64_small (fat32 b 36 * _)), (u64_small (clusters + 2)) in E6 by lia.
  rewrite (u32_small (0xFFFFFFFF - _)), (u32_small (fat32 b 44 - 2)) in * by lia.
  split; [|split].
  - split; cbn [mounted device sector_buffer bytes_per_sector sectors_per_cluster fat_start
      fat_sectors data_start cluster_count root_cluster volume_start]; try done; try lia.
    + by rewrite P0.
    + split; [lia|split; [lia|by exists k]].
    + dlia.
    + unfold volume_end. cbn [volume_start data_start cluster_count sectors_per_cluster].
      rewrite P2. split; [lia|].
      destruct (Z.eqb_spec (sector_count dev) 0); [by left|right].
      match goal with H : (_ && _)%bool = false |- _ => cbn [negb andb] in H; bool_hyps end.
      rewrite (u32_small (sector_count dev - start)) in * by lia. lia.
  - done.
  - done.
Qed.

Lemma described_ext b b' start fs :
  (∀ o, 0 ≤ o < 512 → nthZ b o = nthZ b' o) → described b start fs → described b' start fs.
Proof.
  intros En. unfold described.
  rewrite !(fat16_ext b' b), !(fat32_ext b' b), !En by (intros; apply En; lia) || lia. done.
Qed.

(** [fat32_mount] on a device. *)
Lemma fat32_mount_spec dev fs r fs' :
  device_ok dev → bytes (sector_buffer fs) → lenZ (sector_buffer fs) = FAT32_MAX_SECTOR_SIZE →
  fat32_mount (Some dev) fs = (r, fs') →
  (r = FAT32_EINVAL ∧ fs' = fs) ∨
  ((r = FAT32_EIO ∨ r = FAT32_EBADFS) ∧ mounted fs' = false) ∨
  (r = FAT32_OK ∧ fs_ok fs' ∧ contents (device fs') = contents dev ∧
   ∃ start, described (contents dev start) start fs').
Proof.
  intros Hdev Hb Hl. unfold fat32_mount.
  match goal with |- (if ?c then _ else _) = _ → _ => destruct c eqn:E1 end;
    [intros [= <- <-]; by left|]. bool_hyps.
  set (fs0 := with_mounted false (with_io dev (sector_buffer fs) fs)).
  assert (probing dev fs0) as Hp0 by done.
  destruct (device_read 0 fs0) as [r1 fs1] eqn:Er.
  destruct (probing_read dev _ _ _ _ Hp0 ltac:(lia) Er) as [Hp1 Hh1].
  destruct (Z.eqb_spec r1 0) as [->|]; cbn [negb]; cycle 1.
  { intros [= <- <-]. right; left. split; [by left|]. apply Hp1. }
  destruct (find_volume fs1) as [v fs2] eqn:Ef.
  destruct (find_volume_spec dev _ _ _ Hp1 ltac:(lia) (Hh1 eq_refl) Ef) as [Hp2 Hv].
  destruct v as [[start sz]|]; cycle 1.
  { intros [= <- <-]. right; left. split; [by right|]. apply Hp2. }
  destruct (Hv start sz eq_refl) as (Hh & R1 & R2). intros E.
  destruct (read_geometry_spec dev start sz fs2 r fs' Hp2 ltac:(done) ltac:(lia) R1 R2 E)
    as [(-> & Hok & Hc & Hd)|[-> Hm]]; [|right; left; split; [by right|done]].
  right; right. split; [done|split; [done|split; [done|]]]. exists start.
  eapply described_ext; [|exact Hd]. intros o Ho. apply Hh. lia.
Qed.
End lemmas.

(** ** Properties *)

Section properties.
Context {D : Type} {BD : BlockDevice D} {BDS : BlockDeviceSpec D}.
Implicit Types (fs : fat32_fs D).

(** C27. [fat32_mount] succeeds only on a volume whose geometry is consistent and
    lies inside the device, and then the file system holds the geometry described
    by a sector of the device, with no computed quantity having wrapped; a refusal
    leaves the file system untouched or not mounted, and no other result occurs. *)
Theorem fat32_mount_correct dev fs r fs' :
  device_ok dev → bytes (sector_buffer fs) → lenZ (sector_buffer fs) = FAT32_MAX_SECTOR_SIZE →
  fat32_mount (Some dev) fs = (r, fs') →
  (r = FAT32_EINVAL ∧ fs' = fs) ∨
  ((r = FAT32_EIO ∨ r = FAT32_EBADFS) ∧ mounted fs' = false) ∨
  (r = FAT32_OK ∧ fs_ok fs' ∧ contents (device fs') = contents dev ∧
   ∃ start, described (contents dev start) start fs').
Proof. apply fat32_mount_spec. Qed.

(** C30. [next_cluster] decodes the table entry of a cluster: the end-of-chain marks
    give the end, a link to a cluster of the volume gives that cluster, and free,
    reserved, bad and out-of-range values are refused; otherwise the sector could
    not be read.  The volume stays mounted as it was. *)
Theorem next_cluster_correct c fs r nx fs' :
  fs_ok fs → cluster_in fs c → next_cluster c fs = (r, nx, fs') →
  fs_ok fs' ∧ same_volume fs fs' ∧
  (r = FAT32_EIO ∨ (r = FAT32_OK ∧ nx = END_OF_CHAIN ∧ fat_link fs c = Last) ∨
   (r = FAT32_OK ∧ nx ≠ END_OF_CHAIN ∧ cluster_in fs nx ∧ fat_link fs c = Next nx) ∨
   (r = FAT32_EBADFS ∧ fat_link fs c = Bad)).
Proof.
  intros Hok Hc E. by destruct (next_cluster_spec c fs r nx fs' Hok Hc E) as (H1 & H2 & _ & H3).
Qed.
End properties.

(** ** Instances: a small volume

    A disk of 9 sectors of 512 bytes: one reserved sector, a table of one sector, 7
    clusters of one sector.  The root directory (cluster 2) holds README.TXT, 600
    bytes in clusters 3 and 5, and the directory SUB (cluster 4). *)

Definition write_all (l : list (Z * Z)) (b : list Z) : list Z :=
  foldl (λ b '(i, v), setZ b i v) b l.

Definition example_bpb : list Z :=
  write_all [(11, 0); (12, 2); (13, 1); (14, 1); (16, 1); (32, 9); (36, 1); (44, 2); (66, 0x29);
    (510, 0x55); (511, 0xAA)] (replicate 512 0).
Definition example_fat : list Z :=
  concat (le_bytes 4 <$> [0x0FFFFFF8; 0x0FFFFFFF; 0x0FFFFFF8; 5; 0x0FFFFFF8; 0x0FFFFFFF]).
Definition readme_entry : list Z :=
  short_entry [82; 69; 65; 68; 77; 69] [84; 88; 84] 0x20 600 3 (replicate 8 0) (replicate 4 0).
Definition sub_entry : list Z :=
  short_entry [83; 85; 66] [] 0x10 0 4 (replicate 8 0) (replicate 4 0).
Definition dot_entries : list Z :=
  short_entry [46] [] 0x10 0 4 (replicate 8 0) (replicate 4 0) ++
  short_entry [46; 46] [] 0x10 0 0 (replicate 8 0) (replicate 4 0).
Definition example_disk : disk :=
  mk_disk 512 [example_bpb; example_fat; readme_entry ++ sub_entry; replicate 512 65; dot_entries;
    replicate 512 66; []; []; []].

Definition blank_fs : fat32_fs disk :=
  mk_fs example_disk 0 0 0 0 0 0 0 0 0 (replicate 4096 0) false.
Definition example_fs : fat32_fs disk := snd (fat32_mount (Some example_disk) blank_fs).

Lemma blank_buffer : bytes (sector_buffer blank_fs) ∧
  lenZ (sector_buffer blank_fs) = FAT32_MAX_SECTOR_SIZE.
Proof. split; [by apply Forall_replicate|]. unfold lenZ. cbn [sector_buffer blank_fs]. by rewrite length_replicate. Qed.

Lemma example_device_ok : device_ok example_disk.
Proof. exact I. Qed.

Lemma example_mounts : fst (fat32_mount (Some example_disk) blank_fs) = FAT32_OK.
Proof. vm_compute. reflexivity. Qed.

Lemma example_fs_ok : fs_ok example_fs.
Proof.
  destruct blank_buffer as [Hb Hl]. unfold example_fs. pose proof example_mounts as E.
  destruct (fat32_mount (Some example_disk) blank_fs) as [r fs'] eqn:Em. cbn in E |- *.
  destruct (fat32_mount_spec example_disk blank_fs r fs' example_device_ok Hb Hl Em) as [[? _]|[[[?|?] _]|(_ & Hok & _)]]; congruence.
Qed.

Lemma fat32_mount_correct_witness :
  let '(r, fs') := fat32_mount (Some example_disk) blank_fs in
  r = FAT32_OK ∧
  ((r = FAT32_EINVAL ∧ fs' = blank_fs) ∨
   ((r = FAT32_EIO ∨ r = FAT32_EBADFS) ∧ mounted fs' = false) ∨
   (r = FAT32_OK ∧ fs_ok fs' ∧ contents (device fs') = contents example_disk ∧
    ∃ start, described (contents example_disk start) start fs')).
Proof.
  pose proof example_mounts as E.
  destruct (fat32_mount (Some example_disk) blank_fs) as [r fs'] eqn:Em.
  split; [exact E|].
  exact (fat32_mount_correct example_disk blank_fs r fs' example_device_ok (proj1 blank_buffer) (proj2 blank_buffer) Em).
Defined.

Lemma next_cluster_correct_witness :
  let '(r, nx, fs') := next_cluster 3 example_fs in
  (r, nx) = (FAT32_OK, 5) ∧ fs_ok fs' ∧ same_volume example_fs fs' ∧
  (r = FAT32_EIO ∨ (r = FAT32_OK ∧ nx = END_OF_CHAIN ∧ fat_link example_fs 3 = Last) ∨
   (r = FAT32_OK ∧ nx ≠ END_OF_CHAIN ∧ cluster_in example_fs nx ∧
      fat_link example_fs 3 = Next nx) ∨
   (r = FAT32_EBADFS ∧ fat_link example_fs 3 = Bad)).
Proof.
  assert (fst (next_cluster 3 example_fs) = (FAT32_OK, 5)) as E by (vm_compute; reflexivity).
  destruct (next_cluster 3 example_fs) as [[r nx] fs'] eqn:En. split; [exact E|].
  apply (next_cluster_correct 3 example_fs r nx fs' example_fs_ok); [|exact En].
  vm_compute. split; congruence.
Defined.

End Fat32Volume.
