(* ===== verification/Fat32Mount.v ===== *)
(** FAT32 volumes that are mounted: [fat32_mount] accepts every sound volume, on a
    device without partitions or in a partition. *)

From S2P Require Import Prelude Interfaces Block Fat32 Fat32Volume.

Module Fat32Mount.
Import Block Fat32 Fat32Volume.

(** ** Specification *)

(** The first sector [b] of a FAT32 volume at [start] on a device with [count] sectors
    of [ssize] bytes; a device with 0 sectors does not say how many it has. *)
Definition volume_data (b : list Z) : Z := fat16 b 14 + nthZ b 16 * fat32 b 36.
Definition volume_clusters (b : list Z) : Z := (fat32 b 32 - volume_data b) / nthZ b 13.

Record valid_volume (b : list Z) (ssize count start : Z) : Prop := {
  vv_signature : fat16 b 510 = 0xAA55;
  vv_sector : fat16 b 11 = ssize;
  vv_cluster : ∃ k, 0 ≤ k ≤ 7 ∧ nthZ b 13 = 2 ^ k;
  vv_reserved : 1 ≤ fat16 b 14;
  vv_fats : 1 ≤ nthZ b 16 ≤ 2;
  vv_old_fields : fat16 b 17 = 0 ∧ fat16 b 19 = 0 ∧ fat16 b 22 = 0;
  vv_version : fat16 b 42 = 0 ∧ (nthZ b 66 = 0x28 ∨ nthZ b 66 = 0x29);
  vv_place : start + fat32 b 32 < 2 ^ 32 ∧ (count = 0 ∨ start + fat32 b 32 ≤ count);
  vv_table : 1 ≤ fat32 b 36;
  vv_data : volume_data b < fat32 b 32;
  vv_clusters : 1 ≤ volume_clusters b ≤ 0x0FFFFFF5;
  vv_entries : (volume_clusters b + 2) * 4 ≤ fat32 b 36 * ssize;
  vv_root : 2 ≤ fat32 b 44 < volume_clusters b + 2;
}.

(** The entries of a partition table. *)
Definition part_start (mbr : list Z) (i : Z) : Z := fat32 mbr (446 + 16 * i + 8).
Definition part_size (mbr : list Z) (i : Z) : Z := fat32 mbr (446 + 16 * i + 12).
Definition fat_type (mbr : list Z) (i : Z) : bool :=
  let t := nthZ mbr (446 + 16 * i + 4) in (t =? 0x0B) || (t =? 0x0C) || (t =? 0x1B) || (t =? 0x1C).

(** The search goes over the entries with a FAT32 type, then over the others; an entry
    that is empty is passed over. *)
Definition passed_over (mbr : list Z) (fat : bool) (i : Z) : Prop :=
  fat_type mbr i ≠ fat ∨ part_start mbr i = 0 ∨ part_size mbr i = 0.

Section spec.
Context {D : Type} {BD : BlockDevice D} {BDS : BlockDeviceSpec D}.

(** The device holds a volume at [start]: it begins with one, or it begins with a
    partition table whose first entry to consider is that of the volume. *)
Definition volume_at (dev : D) (start : Z) : Prop :=
  let mbr := contents dev 0 in
  let valid := valid_volume (contents dev start) (sector_size dev) (sector_count dev) start in
  (start = 0 ∧ valid) ∨
  (fat16 mbr 510 = 0xAA55 ∧ fat16 mbr 11 ≠ sector_size dev ∧ 0 < start ∧ valid ∧
   ∃ i fat, 0 ≤ i < 4 ∧ fat_type mbr i = fat ∧ part_start mbr i = start ∧
     fat32 (contents dev start) 32 ≤ part_size mbr i ∧
     start + part_size mbr i < 2 ^ 32 ∧
     (sector_count dev = 0 ∨ start + part_size mbr i ≤ sector_count dev) ∧
     (∀ j, 0 ≤ j < i → passed_over mbr fat j) ∧
     (fat = false → ∀ j, 0 ≤ j < 4 → passed_over mbr true j)).

(** A device [fat32_mount] takes, whose first sectors can be read. *)
Definition mountable (dev : D) (start : Z) : Prop :=
  device_ok dev ∧ has_read_sector dev = true ∧ 512 ≤ sector_size dev ≤ FAT32_MAX_SECTOR_SIZE ∧
  (∃ k, 0 ≤ k ∧ sector_size dev = 2 ^ k) ∧ readable dev 0 ∧ readable dev start ∧ volume_at dev start.
End spec.

(** ** Lemmas *)

Lemma power_of_two_pow k : 0 ≤ k < 32 → power_of_two (2 ^ k) = true.
Proof.
  intros Hk. unfold power_of_two. pose proof (Z.pow_pos_nonneg 2 k ltac:(lia) ltac:(lia)).
  assert (2 ^ k ≤ 2 ^ 31) by (apply Z.pow_le_mono_r; lia).
  rewrite (proj2 (Z.eqb_neq _ 0)), u32_small by lia.
  rewrite (land_mask (2 ^ k) (2 ^ k - 1) k), Z_mod_same_full by lia. done.
Qed.

Section lemmas.
Context {D : Type} {BD : BlockDevice D} {BDS : BlockDeviceSpec D}.
Implicit Types (fs : fat32_fs D).

(** The fields of the first sector are bytes of it, so two buffers that agree on a
    sector describe the same volume. *)
Lemma valid_volume_ext b b' ssize count start :
  512 ≤ ssize → (∀ i, 0 ≤ i < ssize → nthZ b' i = nthZ b i) →
  valid_volume b ssize count start → valid_volume b' ssize count start.
Proof.
  intros Hs He.
  assert (∀ o, 0 ≤ o ≤ 510 → fat16 b' o = fat16 b o) as E16 by (intros; apply fat16_ext; apply He; lia).
  assert (∀ o, 0 ≤ o ≤ 508 → fat32 b' o = fat32 b o) as E32.
  { intros o Ho. apply fat32_ext. intros i Hi. apply He. lia. }
  assert (volume_data b' = volume_data b) as Ed.
  { unfold volume_data. by rewrite E16, E32, He by lia. }
  assert (volume_clusters b' = volume_clusters b) as Ec.
  { unfold volume_clusters. by rewrite Ed, E32, He by lia. }
  intros []. split; rewrite ?Ec, ?Ed, ?E16, ?E32, ?He by lia; done.
Qed.

(** The checks of [looks_like_fat32_bpb] and of [read_geometry] let a valid volume pass. *)
Lemma valid_looks b ssize count start :
  bytes b → 512 ≤ ssize ≤ FAT32_MAX_SECTOR_SIZE → (∃ k, 0 ≤ k ∧ ssize = 2 ^ k) → 0 ≤ start →
  valid_volume b ssize count start → looks_like_fat32_bpb b ssize = true.
Proof.
  unfold FAT32_MAX_SECTOR_SIZE. intros Hb Hs (k & Hk & Ek) Hst
    [V1 V2 (k' & Hk' & Ek') V4 V5 (V6 & V7 & _) _ [V8 _] V9 V10 _ _ _].
  unfold looks_like_fat32_bpb, FAT32_MAX_SECTOR_SIZE. rewrite V1, V2, V6, V7, Ek'. cbn [negb Z.eqb].
  assert (k < 32) by (apply (Z.pow_lt_mono_r_iff 2); lia).
  assert (1 ≤ 2 ^ k' ≤ 128).
  { pose proof (Z.pow_pos_nonneg 2 k'). change 128 with (2 ^ 7). split; [lia|]. apply Z.pow_le_mono_r; lia. }
  assert (power_of_two ssize = true) as -> by (rewrite Ek; by apply power_of_two_pow).
  rewrite (power_of_two_pow k') by lia.
  assert (0 ≤ volume_data b) by (unfold volume_data; pose proof (fat16_range b 14 Hb); pose proof (fat32_range b 36 Hb); nia).
  repeat match goal with
  | |- context [?x =? ?y] => destruct (Z.eqb_spec x y); try lia
  | |- context [?x <? ?y] => destruct (Z.ltb_spec x y); try lia
  end; done.
Qed.

Lemma read_geometry_complete start size fs :
  bytes (sector_buffer fs) → 512 ≤ sector_size (device fs) ≤ FAT32_MAX_SECTOR_SIZE →
  (∃ k, 0 ≤ k ∧ sector_size (device fs) = 2 ^ k) → 0 ≤ start →
  valid_volume (sector_buffer fs) (sector_size (device fs)) (sector_count (device fs)) start →
  0 ≤ size < 2 ^ 32 → size = 0 ∨ fat32 (sector_buffer fs) 32 ≤ size →
  fst (read_geometry start size fs) = FAT32_OK.
Proof.
  unfold FAT32_MAX_SECTOR_SIZE. set (b := sector_buffer fs).
  intros Hb Hs (k & Hk & Ek) Hst [V1 V2 (k' & Hk' & Ek') V4 V5 (V6 & V7 & V8) (V9 & V10) (V11 & V12) V13 V14 V15 V16 V17]
    Hsz Hsize.
  pose proof (fat16_range b 14 Hb). pose proof (fat32_range b 36 Hb). pose proof (fat32_range b 32 Hb).
  pose proof (sector_count_range (device fs)).
  assert (k < 32) by (apply (Z.pow_lt_mono_r_iff 2); lia).
  assert (1 ≤ 2 ^ k' ≤ 128).
  { pose proof (Z.pow_pos_nonneg 2 k'). change 128 with (2 ^ 7). split; [lia|]. apply Z.pow_le_mono_r; lia. }
  assert (sector_size (device fs) mod 4 = 0) as E4.
  { rewrite Ek. assert (2 < k) by (apply (Z.pow_lt_mono_r_iff 2); lia).
    replace k with (k - 2 + 2) by lia. rewrite Z.pow_add_r by lia. change (2 ^ 2) with 4. apply Z_mod_mult. }
  unfold read_geometry. cbv zeta. fold b. rewrite V2, V6, V7, V8, V9, Ek', Z.eqb_refl, E4.
  assert (power_of_two (sector_size (device fs)) = true) as -> by (rewrite Ek; by apply power_of_two_pow).
  rewrite (power_of_two_pow k') by lia.
  assert (fat32 b 44 .& 0x0FFFFFFF = fat32 b 44 ∧ fat32 b 44 .& 0xF0000000 = 0) as [-> ->].
  { assert (0 ≤ fat32 b 44 < 2 ^ 28) by lia. split.
    - rewrite (land_mask _ _ 28) by lia. apply Z.mod_small. lia.
    - rewrite (land_align _ _ 28) by lia. by rewrite Z.div_small. }
  assert (0 ≤ nthZ b 16 * fat32 b 36 ≤ 2 * 2 ^ 32) by nia.
  rewrite (u64_small (nthZ b 16 * _)), (u64_small (_ + _ * _)) by lia.
  change (fat16 b 14 + nthZ b 16 * fat32 b 36) with (volume_data b).
  assert (0 ≤ volume_data b) by (unfold volume_data; lia).
  rewrite (u32_small (volume_data b)), (u32_small (fat32 b 32 - _)) by lia. rewrite <- Ek'.
  change ((fat32 b 32 - volume_data b) / nthZ b 13) with (volume_clusters b). rewrite Ek'.
  rewrite (u32_small (fat32 b 44 - 2)), (u64_small (volume_clusters b + 2)),
    (u32_small (0xFFFFFFFF - _)) by lia.
  assert (0 ≤ fat32 b 36 * sector_size (device fs) < 2 ^ 64) by nia.
  rewrite (u64_small (fat32 b 36 * _)) by lia.
  assert (volume_clusters b + 2 ≤ fat32 b 36 * sector_size (device fs) / 4) by (apply Z.div_le_lower_bound; lia).
  assert (((nthZ b 66 =? 0x28) || (nthZ b 66 =? 0x29))%bool = true) as Esig.
  { destruct V10 as [-> | ->]; done. }
  match goal with |- fst (if ?c then _ else _) = _ => assert (c = false) as -> end.
  { rewrite <- negb_orb, Esig. repeat (apply orb_false_intro); try done; apply Z.ltb_ge || apply Z.eqb_neq; lia. }
  match goal with |- fst (if ?c then _ else _) = _ => assert (c = false) as -> end.
  { repeat (apply orb_false_intro); try done; apply Z.ltb_ge || apply Z.eqb_neq; lia. }
  match goal with |- fst (if ?c then _ else _) = _ => assert (c = false) as -> end.
  { apply orb_false_intro; [apply orb_false_intro; [apply Z.ltb_ge; lia|]|].
    - destruct Hsize as [->|]; [done|]. apply andb_false_intro2, Z.ltb_ge. lia.
    - destruct V12 as [->|]; [done|]. apply andb_false_intro2. rewrite u32_small by lia.
      apply orb_false_intro; apply Z.ltb_ge; lia. }
  match goal with |- fst (if ?c then _ else _) = _ => assert (c = false) as -> end.
  { apply orb_false_intro; [apply Z.leb_gt|apply Z.ltb_ge]; lia. }
  match goal with |- fst (if ?c then _ else _) = _ => assert (c = false) as -> end.
  { apply orb_false_intro; [apply orb_false_intro; [apply Z.eqb_neq|apply Z.ltb_ge]; lia|apply Z.leb_gt; lia]. }
  rewrite (proj2 (Z.ltb_ge _ _)) by lia. done.
Qed.

(** *** The search for the volume *)

(** The state while the search reads: the first sector of the device and that of the
    volume can be read. *)
Definition ready (dev : D) (start : Z) fs : Prop :=
  probing dev fs ∧ readable (device fs) 0 ∧ readable (device fs) start.

Lemma ready_read dev start n fs :
  ready dev start fs → has_read_sector dev = true → 512 ≤ sector_size dev ≤ FAT32_MAX_SECTOR_SIZE →
  n = 0 ∨ n = start → sector_count dev = 0 ∨ n < sector_count dev →
  ∃ fs', device_read n fs = (0, fs') ∧ ready dev start fs' ∧ holds_sector dev n fs'.
Proof.
  intros ([P1 (P2 & P3 & P4 & P5) (P6 & P7) P8] & H0 & Hst) Hh Hs Hn Hc.
  destruct (device_read n fs) as [r fs'] eqn:E. exists fs'.
  assert (r = 0) as ->.
  { unfold device_read in E.
    pose proof (block_read_readable n (sector_buffer fs) (device fs) P1 ltac:(by destruct Hn as [-> | ->]) P6
      ltac:(rewrite P3, P7; lia) ltac:(by rewrite P2) ltac:(rewrite P3; lia) ltac:(by rewrite P4)) as Hr.
    destruct (block_read_sector _ _ _) as [[r' b] d]. cbn in Hr. congruence. }
  split; [done|].
  destruct (device_read_spec n fs 0 fs' P1 P6 ltac:(rewrite P3, P7; lia) E)
    as [(d & b & -> & E0 & E1 & E2 & E3 & E4 & E5 & E6 & E7) Hr].
  assert (probing dev fs ∧ sector_size dev ≤ FAT32_MAX_SECTOR_SIZE) as [Hp Hmax] by (split; [done|lia]).
  destruct (probing_read dev n fs 0 _ Hp Hmax E) as [Hp' Hh'].
  split; [|by apply Hh']. split; [done|]. split; [by apply E5|by apply E5].
Qed.

Lemma part_index i : 0 ≤ i < 4 → 446 + i *u 16 = 446 + 16 * i.
Proof. intros. rewrite u32_small by lia. lia. Qed.

(** An entry that is passed over is not looked at. *)
Lemma try_passed mbr pass i fs :
  0 ≤ i < 4 → passed_over mbr (pass =? 0) i → try_partition mbr pass i fs = (None, fs).
Proof.
  intros Hi H. unfold try_partition. cbv zeta. rewrite (part_index i Hi).
  fold (part_start mbr i) (part_size mbr i) (fat_type mbr i).
  match goal with |- (if ?c then _ else _) = _ => assert (c = true) as -> end; [|done].
  destruct H as [H|[-> | ->]].
  - assert (eqb (pass =? 0) (fat_type mbr i) = false) as ->; [|done].
    by destruct (pass =? 0), (fat_type mbr i).
  - by rewrite orb_true_r.
  - by rewrite orb_true_r.
Qed.

(** The entry of a valid volume is taken. *)
Lemma try_found dev mbr pass i start fs :
  ready dev start fs → has_read_sector dev = true → 512 ≤ sector_size dev ≤ FAT32_MAX_SECTOR_SIZE →
  (∃ k, 0 ≤ k ∧ sector_size dev = 2 ^ k) → bytes mbr →
  0 ≤ i < 4 → fat_type mbr i = (pass =? 0) → 0 < start → part_start mbr i = start →
  fat32 (contents dev start) 32 ≤ part_size mbr i → start + part_size mbr i < 2 ^ 32 →
  (sector_count dev = 0 ∨ start + part_size mbr i ≤ sector_count dev) →
  valid_volume (contents dev start) (sector_size dev) (sector_count dev) start →
  ∃ fs', try_partition mbr pass i fs = (Some (start, part_size mbr i), fs') ∧
    ready dev start fs' ∧ holds_sector dev start fs'.
Proof.
  intros Hr Hh Hs Hk Hm Hi Ht H0 Est Hsz Hend Hc Hv.
  assert (0 < fat32 (contents dev start) 32) as Htot.
  { pose proof (vv_data _ _ _ _ Hv) as H1. unfold volume_data in H1.
    pose proof (fat16_range (contents dev start) 14 (contents_bytes _ _)).
    pose proof (fat32_range (contents dev start) 36 (contents_bytes _ _)). pose proof (vv_fats _ _ _ _ Hv). nia. }
  assert (sector_count dev = 0 ∨ start < sector_count dev) as Hc'.
  { destruct Hc as [Hc|Hc]; [by left|right; lia]. }
  destruct (ready_read dev start start fs Hr Hh Hs ltac:(by right) Hc') as (fs' & E & Hr' & Hh').
  exists fs'. split; [|done]. unfold try_partition. cbv zeta. rewrite (part_index i Hi).
  fold (part_start mbr i) (part_size mbr i) (fat_type mbr i). rewrite Ht, eqb_reflx, Est.
  rewrite (proj2 (Z.eqb_neq start 0)), (proj2 (Z.eqb_neq (part_size mbr i) 0)) by lia. cbn [negb orb].
  destruct Hr as ([_ (_ & P3 & P4 & _) _ _] & _). rewrite P4.
  match goal with |- (if ?c then _ else _) = _ => assert (c = false) as -> end.
  { destruct Hc as [->|Hc]; [done|]. pose proof (sector_count_range dev). apply andb_false_intro2.
    rewrite u32_small by lia. apply orb_false_intro; [apply Z.leb_gt|apply Z.ltb_ge]; lia. }
  rewrite E. destruct Hr' as ([_ (_ & P3' & _) (P6' & _) _] & _).
  assert (valid_volume (sector_buffer fs') (sector_size dev) (sector_count dev) start) as Hv'.
  { eapply valid_volume_ext; [|exact Hh'|exact Hv]. lia. }
  assert (0 ≤ start) as Hst by lia. rewrite P3', (valid_looks _ _ _ _ P6' Hs Hk Hst Hv').
  assert (fat32 (sector_buffer fs') 32 = fat32 (contents dev start) 32) as ->.
  { apply fat32_ext. intros j Hj. apply Hh'. lia. }
  pose proof (vv_place _ _ _ _ Hv) as [Hp _].
  rewrite (u32_small (0xFFFFFFFF - _)) by lia.
  rewrite (proj2 (Z.ltb_ge (part_size mbr i) _)), (proj2 (Z.ltb_ge _ start)) by lia. done.
Qed.

Lemma find_volume_complete dev start fs :
  ready dev start fs → has_read_sector dev = true → 512 ≤ sector_size dev ≤ FAT32_MAX_SECTOR_SIZE →
  (∃ k, 0 ≤ k ∧ sector_size dev = 2 ^ k) → holds_sector dev 0 fs → volume_at dev start →
  ∃ size fs', find_volume fs = (Some (start, size), fs') ∧ ready dev start fs' ∧
    holds_sector dev start fs' ∧ 0 ≤ size < 2 ^ 32 ∧ (size = 0 ∨ fat32 (contents dev start) 32 ≤ size) ∧
    valid_volume (contents dev start) (sector_size dev) (sector_count dev) start.
Proof.
  intros Hr Hh Hs Hk Hh0 Hv. unfold find_volume.
  destruct (pr_device _ _ (proj1 Hr)) as (_ & P3 & _). destruct (pr_buffer _ _ (proj1 Hr)) as [P6 _].
  assert (∀ o, 0 ≤ o ≤ 510 → fat16 (sector_buffer fs) o = fat16 (contents dev 0) o) as E16.
  { intros o Ho. apply fat16_ext; apply Hh0; lia. }
  rewrite P3. destruct Hv as [[-> Hv]|(Hsig & Hno & Hst & Hv & i & fat & Hi & Ht & Es & Hsz & Hend & Hc & Hbefore & Hfat)].
  - assert (valid_volume (sector_buffer fs) (sector_size dev) (sector_count dev) 0) as Hv'.
    { eapply valid_volume_ext; [|exact Hh0|exact Hv]. lia. }
    rewrite (valid_looks _ _ _ _ P6 Hs Hk ltac:(done) Hv'). exists 0, fs.
    do 3 (split; [done|]). split; [lia|split; [by left|done]].
  - assert (looks_like_fat32_bpb (sector_buffer fs) (sector_size dev) = false) as ->.
    { unfold looks_like_fat32_bpb. rewrite !E16, Hsig by lia. cbn [negb Z.eqb Pos.eqb].
      by rewrite (proj2 (Z.eqb_neq _ _)) by done. }
    rewrite (E16 510), Hsig by lia. cbn [negb Z.eqb Pos.eqb]. set (mbr := sector_buffer fs).
    assert (∀ o, 0 ≤ o ≤ 508 → fat32 mbr o = fat32 (contents dev 0) o) as E32.
    { intros o Ho. apply fat32_ext. intros j Hj. apply Hh0. lia. }
    assert (∀ j, 0 ≤ j < 4 → fat_type mbr j = fat_type (contents dev 0) j ∧
      part_start mbr j = part_start (contents dev 0) j ∧ part_size mbr j = part_size (contents dev 0) j) as Em.
    { intros j Hj. unfold fat_type, part_start, part_size. subst mbr. rewrite !E32, Hh0 by lia. done. }
    destruct (Em i Hi) as (E1 & E2 & E3).
    assert (∀ f j, 0 ≤ j < 4 → passed_over (contents dev 0) f j → passed_over mbr f j) as Hpass.
    { intros f j Hj. unfold passed_over. by destruct (Em j Hj) as (-> & -> & ->). }
    set (pass := if fat then 0 else 1).
    assert ((pass =? 0) = fat) as Ep by (by destruct fat).
    rewrite <- E1, <- Ep in Ht. rewrite <- E2 in Es. rewrite <- E3 in Hsz, Hend, Hc.
    destruct (try_found dev mbr pass i start fs Hr Hh Hs Hk P6 Hi Ht Hst Es Hsz Hend Hc Hv)
      as (fs' & Ef & Hr' & Hh').
    exists (part_size mbr i), fs'. split; [|split; [done|split; [done|]]].
    + apply (for_exit_at 0 2 pass); [by destruct fat| |].
      * intros p Hp. assert (p = 0 ∧ fat = false) as [-> Ef0] by (destruct fat; subst pass; split; done || lia).
        apply for_exit_skip. intros j Hj. apply try_passed; [done|]. apply Hpass; [done|by apply Hfat].
      * apply (for_exit_at 0 4 i); [done| |exact Ef].
        intros j Hj. apply try_passed; [lia|]. rewrite Ep. apply Hpass; [lia|by apply Hbefore].
    + pose proof (fat32_range mbr (446 + 16 * i + 12) P6).
      split; [done|split; [by right|done]].
Qed.

(** The mount of a volume. *)
Lemma fat32_mount_complete dev start fs :
  mountable dev start → bytes (sector_buffer fs) → lenZ (sector_buffer fs) = FAT32_MAX_SECTOR_SIZE →
  ∃ fs', fat32_mount (Some dev) fs = (FAT32_OK, fs') ∧ fs_ok fs' ∧
    contents (device fs') = contents dev ∧ described (contents dev start) start fs'.
Proof.
  intros (Hok & Hh & Hs & Hk & H0 & Hst & Hv) Hb Hl. unfold fat32_mount. rewrite Hh.
  rewrite (proj2 (Z.ltb_ge _ 512)), (proj2 (Z.ltb_ge _ (sector_size dev))) by lia. cbn [negb orb].
  set (fs0 := with_mounted false (with_io dev (sector_buffer fs) fs)).
  assert (ready dev start fs0) as Hr0 by done.
  assert (sector_count dev = 0 ∨ 0 < sector_count dev) as Hc by (pose proof (sector_count_range dev); lia).
  destruct (ready_read dev start 0 fs0 Hr0 Hh Hs ltac:(by left) Hc) as (fs1 & -> & Hr1 & Hh1).
  cbn [negb Z.eqb].
  destruct (find_volume_complete dev start fs1 Hr1 Hh Hs Hk Hh1 Hv)
    as (size & fs2 & -> & Hr2 & Hh2 & Hsz & Hsize & Hval).
  destruct (pr_device _ _ (proj1 Hr2)) as (_ & P3 & P4 & _). destruct (pr_buffer _ _ (proj1 Hr2)) as [P6 _].
  assert (0 ≤ start < 2 ^ 32) as Hst0.
  { pose proof (vv_place _ _ _ _ Hval) as [? _]. pose proof (fat32_range (contents dev start) 32 (contents_bytes _ _)).
    destruct Hv as [[-> _]|(_ & _ & ? & _)]; lia. }
  assert (fst (read_geometry start size fs2) = FAT32_OK) as Er.
  { apply read_geometry_complete; rewrite ?P3, ?P4; try done.
    - lia.
    - eapply valid_volume_ext; [|exact Hh2|exact Hval]. lia.
    - assert (fat32 (sector_buffer fs2) 32 = fat32 (contents dev start) 32) as ->; [|done].
      apply fat32_ext. intros j Hj. apply Hh2. lia. }
  assert (sector_size dev ≤ FAT32_MAX_SECTOR_SIZE) as Hmax by lia.
  destruct (read_geometry start size fs2) as [r fs'] eqn:E. cbn in Er. subst r.
  destruct (read_geometry_spec dev start size fs2 _ fs' (proj1 Hr2) Hh Hmax Hst0 Hsz E)
    as [(_ & H1 & H2 & H3)|[? _]]; [|done].
  exists fs'. split; [done|split; [done|split; [done|]]].
  eapply described_ext; [|exact H3]. intros o Ho. apply Hh2. lia.
Qed.

(** ** Properties *)

(** C28. [fat32_mount] accepts every sound volume: one with which the device begins, and
    one in the first partition to consider, those with a FAT32 type before the others,
    empty ones passed over.  The file system then has the geometry that the volume's
    first sector describes. *)
Theorem fat32_mount_accepts dev start fs :
  mountable dev start → bytes (sector_buffer fs) → lenZ (sector_buffer fs) = FAT32_MAX_SECTOR_SIZE →
  ∃ fs', fat32_mount (Some dev) fs = (FAT32_OK, fs') ∧ fs_ok fs' ∧
    contents (device fs') = contents dev ∧ described (contents dev start) start fs'.
Proof. apply fat32_mount_complete. Qed.
End lemmas.

(** ** Instances: the disk of [Fat32Volume] behind a partition table, whose second entry
    is the volume's. *)

Definition example_mbr : list Z :=
  write_all [(466, 0x0C); (470, 1); (474, 9); (510, 0x55); (511, 0xAA)] (replicate 512 0).
Definition partitioned_disk : disk :=
  mk_disk 512 (example_mbr :: disk_sectors example_disk).

Lemma example_valid : valid_volume example_bpb 512 10 1.
Proof.
  split; try (by vm_compute).
  - by exists 0.
  - split; [done|by right].
  - split; [by vm_compute|right; by vm_compute].
Qed.

Lemma partitioned_mountable : mountable partitioned_disk 1.
Proof.
  split; [done|split; [done|split; [done|split; [by exists 9|split; [by vm_compute|split; [by vm_compute|]]]]]].
  right. split; [by vm_compute|split; [by vm_compute|split; [lia|split]]].
  - exact example_valid.
  - exists 1, true. do 5 (split; [by vm_compute|]). split; [right; by vm_compute|]. split; [|done].
    intros j Hj. assert (j = 0) as -> by lia. right. left. by vm_compute.
Qed.

Lemma fat32_mount_accepts_witness :
  ∃ fs', fat32_mount (Some partitioned_disk) (mk_fs partitioned_disk 0 0 0 0 0 0 0 0 0 (replicate 4096 0) false) =
    (FAT32_OK, fs') ∧ volume_start fs' = 1 ∧ cluster_count fs' = 7.
Proof.
  destruct (fat32_mount_accepts partitioned_disk 1
    (mk_fs partitioned_disk 0 0 0 0 0 0 0 0 0 (replicate 4096 0) false) partitioned_mountable
    (proj1 blank_buffer) (proj2 blank_buffer)) as (fs' & E & _ & _ & H1 & _ & _ & _ & _ & H3 & H2 & _).
  exists fs'. split; [exact E|split; [exact H1|]]. rewrite H2, H3. by vm_compute.
Defined.
End Fat32Mount.
