(* ===== verification/Fat32Files.v ===== *)
(** FAT32 directories and files: the loops over cluster chains end on any volume,
    directory scans and path lookup against the entries stored, and the contents
    [fat32_read_file] delivers. *)

From S2P Require Import Prelude Interfaces Block Fat32 Fat32Volume.

Module Fat32Files.
Import Block Fat32 Fat32Volume.

(** ** Definitions *)

Section spec.
Context {D : Type} {BD : BlockDevice D} {BDS : BlockDeviceSpec D}.
Implicit Types (fs : fat32_fs D).

(** The file systems differ in the buffer and the state of the device only. *)
Definition same_geometry fs fs' : Prop := ∃ d b, fs' = with_io d b fs.

Definition cluster_size fs : Z := sectors_per_cluster fs * bytes_per_sector fs.

(** Byte [j] of cluster [c], and byte [i] of the file in the clusters [l]. *)
Definition byte_in_cluster fs (c j : Z) : Z :=
  nthZ (sector_bytes fs (cluster_sector fs c (j / bytes_per_sector fs)))
    (j mod bytes_per_sector fs).
Definition file_byte fs (l : list Z) (i : Z) : Z :=
  byte_in_cluster fs (nth (Z.to_nat (i / cluster_size fs)) l 0) (i mod cluster_size fs).

(** [l] is the part of the chain of cluster [c] that [n] bytes take. *)
Definition chain_for fs (c n : Z) (l : list Z) : Prop :=
  head l = Some c ∧ linked fs l ∧ Forall (cluster_in fs) l ∧
  (lenZ l - 1) * cluster_size fs < n ≤ lenZ l * cluster_size fs.

(** Every sector of the volume can be read. *)
Definition volume_readable fs : Prop :=
  ∀ n, volume_start fs ≤ n < volume_end fs → readable (device fs) n.

(** *** Directories *)

(** The 32-byte entries of a sector, a cluster, a chain of clusters. *)
Definition raw_at (b : list Z) (k : Z) : list Z := take 32 (drop (Z.to_nat (32 * k)) b).
Definition cluster_raws fs (c : Z) : list (list Z) :=
  i ← range 0 (sectors_per_cluster fs);
  raw_at (sector_bytes fs (cluster_sector fs c i)) <$> range 0 (bytes_per_sector fs / 32).
Definition dir_raws fs (l : list Z) : list (list Z) := c ← l; cluster_raws fs c.

(** What a callback makes of the entries of a directory up to the end mark: whether
    the mark or a callback ended the scan, and the callback's state. *)
Fixpoint fold_entries {C} (callback : dirent → C → Z * C) (raws : list (list Z)) (c : C)
    : bool * C :=
  match raws with
  | [] => (false, c)
  | raw :: raws =>
      if nthZ raw 0 =? 0 then (true, c)
      else
        match entry_from_raw raw with
        | Some entry =>
            let '(r, c) := callback entry c in
            if negb (r =? 0) then (true, c) else fold_entries callback raws c
        | None => fold_entries callback raws c
        end
  end.

(** A scan of the directory at cluster [c] that meets no error ends in one of its
    clusters or at the end of its chain, after at most [n] clusters; the code visits
    no more clusters than there are. *)
Definition scans_within {C} (n : Z) (callback : dirent → C → Z * C) fs (c : Z) (x x' : C) : Prop :=
  ∃ l stopped, head l = Some c ∧ linked fs l ∧ Forall (cluster_in fs) l ∧ lenZ l ≤ n ∧
    fold_entries callback (dir_raws fs l) x = (stopped, x') ∧
    (stopped = true ∨ ∃ z, last l = Some z ∧ fat_link fs z = Last).
Definition scans {C} (callback : dirent → C → Z * C) fs : Z → C → C → Prop :=
  scans_within (cluster_count fs) callback fs.

(** The entries before the end mark. *)
Fixpoint entries_of (raws : list (list Z)) : list dirent :=
  match raws with
  | [] => []
  | raw :: raws =>
      if nthZ raw 0 =? 0 then []
      else match entry_from_raw raw with Some e => e :: entries_of raws | None => entries_of raws end
  end.

(** [e] is the first entry of the directory at [c] whose name is [w]. *)
Definition found_in fs (c : Z) (w : list Z) (e : dirent) : Prop :=
  ∃ l before after, head l = Some c ∧ linked fs l ∧ Forall (cluster_in fs) l ∧
    lenZ l ≤ cluster_count fs ∧ entries_of (dir_raws fs l) = before ++ e :: after ∧
    same_name (name e) w ∧ Forall (λ e', ¬ same_name (name e') w) before.

(** The components of a path from a position on. *)
Inductive components (path : list Z) : Z → list (list Z) → Prop :=
| components_end pos p w : component path pos = (0, p, w) → components path pos []
| components_cons pos p w ws : component path pos = (1, p, w) → components path p ws →
    components path pos (w :: ws).

Definition is_directory (e : dirent) : Prop := attributes e .& 0x10 ≠ 0.

(** The entry the components lead to from the directory at a cluster.  A final "."
    names the root only. *)
Inductive resolves fs : Z → list (list Z) → dirent → Prop :=
| resolves_root : resolves fs (root_cluster fs) [] (mk_dirent [] 0x10 0 (root_cluster fs))
| resolves_dot dir w ws e : same_name w [46] → resolves fs dir ws e →
    resolves fs dir (w :: ws) e
| resolves_last dir w e : ¬ same_name w [46] → found_in fs dir w e → resolves fs dir [w] e
| resolves_in dir w ws d e : ¬ same_name w [46] → found_in fs dir w d → is_directory d →
    cluster_in fs (first_cluster d) → ws ≠ [] → resolves fs (first_cluster d) ws e →
    resolves fs dir (w :: ws) e.

End spec.

(** ** Lemmas *)

Section lemmas.
Context {D : Type} {BD : BlockDevice D} {BDS : BlockDeviceSpec D}.
Implicit Types (fs : fat32_fs D).

(** *** Reading sectors of a file *)

Lemma copy_loop_spec (src b : list Z) o n :
  0 ≤ o → 0 ≤ n → o + n < 2 ^ 32 → o + n ≤ lenZ b →
  let b' := for_loop 0 n (λ i b, setZ b (o +u i) (nthZ src i)) b in
  lenZ b' = lenZ b ∧
  ∀ k, nthZ b' k = if decide (o ≤ k < o + n) then nthZ src (k - o) else nthZ b k.
Proof.
  intros Ho Hn Hw Hl b'. subst b'.
  refine (for_loop_ind (λ j b', lenZ b' = lenZ b ∧
    ∀ k, nthZ b' k = if decide (o ≤ k < o + j) then nthZ src (k - o) else nthZ b k) 0 n _ b _ _ _);
    [done| |].
  - split; [done|]. intros k. by rewrite decide_False by lia.
  - intros j b' Hj [El IH]. u_small. rewrite lenZ_setZ by lia. split; [done|]. intros k.
    destruct (decide (k = o + j)) as [->|Hne].
    + rewrite nthZ_setZ_eq, decide_True by lia. f_equal. lia.
    + rewrite nthZ_setZ_ne, IH by lia. repeat case_decide; lia || done.
Qed.

(** A state of the reading loop: within the buffer and the 32-bit range. *)
Definition reading_ok (s : reading (D := D)) : Prop :=
  fs_ok (r_fs s) ∧ 0 ≤ r_copied s ∧ 0 ≤ r_remaining s ∧
  r_copied s + r_remaining s < 2 ^ 32 ∧ r_copied s + r_remaining s ≤ lenZ (r_buffer s).

(** [s'] is [s] after [n] more bytes, which are [src 0], [src 1], ... *)
Definition advanced (n : Z) (src : Z → Z) (s s' : reading (D := D)) : Prop :=
  reading_ok s' ∧ same_volume (r_fs s) (r_fs s') ∧
  r_copied s' = r_copied s + n ∧ r_remaining s' = r_remaining s - n ∧
  lenZ (r_buffer s') = lenZ (r_buffer s) ∧
  ∀ k, nthZ (r_buffer s') k =
    if decide (r_copied s ≤ k < r_copied s + n) then src (k - r_copied s) else nthZ (r_buffer s) k.

Lemma advanced_0 src s : reading_ok s → advanced 0 src s s.
Proof.
  intros H. split; [done|]. split; [reflexivity|]. do 3 (split; [lia|]).
  intros k. by rewrite decide_False by lia.
Qed.

Lemma advanced_trans n n' src s s' s'' :
  0 ≤ n → 0 ≤ n' →
  advanced n src s s' → advanced n' (λ k, src (n + k)) s' s'' → advanced (n + n') src s s''.
Proof.
  intros Hn Hn' (_ & A2 & A3 & A4 & A5 & A6) (B1 & B2 & B3 & B4 & B5 & B6).
  split; [done|]. split; [by etransitivity|]. do 3 (split; [lia|]). intros k.
  rewrite B6, A3, A6. repeat case_decide; try lia; try done. f_equal. lia.
Qed.

Lemma advanced_ext n src src' s s' :
  (∀ k, 0 ≤ k < n → src k = src' k) → advanced n src s s' → advanced n src' s s'.
Proof.
  intros He (A1 & A2 & A3 & A4 & A5 & A6). repeat (split; [done|]). intros k.
  rewrite A6. case_decide; [|done]. apply He. lia.
Qed.

(** What the loops leave when they stop with an error. *)
Definition failed (r : fat32_result) (s s' : reading (D := D)) : Prop :=
  r ≠ FAT32_OK ∧ same_volume (r_fs s) (r_fs s') ∧ lenZ (r_buffer s') = lenZ (r_buffer s).

Lemma read_file_sector_spec c i s r s' :
  reading_ok s → cluster_in (r_fs s) c → 0 ≤ i < sectors_per_cluster (r_fs s) →
  read_file_sector c i s = (r, s') →
  match r with
  | None => advanced (Z.min (r_remaining s) (bytes_per_sector (r_fs s)))
      (nthZ (sector_bytes (r_fs s) (cluster_sector (r_fs s) c i))) s s'
  | Some r => r = FAT32_EIO ∧ failed r s s'
  end.
Proof.
  intros Hs Hc Hi. pose proof Hs as (Hok & H1 & H2 & H3 & H4). unfold read_file_sector.
  destruct (ok_sector _ Hok) as (_ & Hbps & _).
  destruct (Z.eqb_spec (r_remaining s) 0) as [E|Hne].
  { intros [= <- <-]. rewrite E, Z.min_l by lia. by apply advanced_0. }
  destruct (cluster_sector_spec (r_fs s) c i Hok Hc Hi) as (-> & Hlo & Hhi).
  pose proof (ok_end _ Hok) as [He _]. pose proof (ok_start _ Hok). pose proof (ok_fat _ Hok).
  destruct (read_sector _ (r_fs s)) as [r1 fs1] eqn:Er.
  destruct (read_sector_spec (cluster_sector (r_fs s) c i) _ _ _ Hok ltac:(lia) Hhi Er)
    as (Hok1 & Hs1 & _ & [->|[-> Hb]]).
  { intros [= <- <-]. split; [done|]. split; [done|]. done. }
  destruct (same_volume_sectors _ _ Hs1) as (_ & _ & _ & _ & _ & Eb & _).
  intros [= <- <-]. unfold advanced, reading_ok. cbn [r_fs r_buffer r_copied r_remaining].
  set (n := if r_remaining s <? bytes_per_sector (r_fs s) then r_remaining s
            else bytes_per_sector (r_fs s)).
  assert (n = Z.min (r_remaining s) (bytes_per_sector (r_fs s))) as En.
  { subst n. destruct (Z.ltb_spec (r_remaining s) (bytes_per_sector (r_fs s))); lia. }
  rewrite <- En. assert (0 ≤ n ≤ r_remaining s) by lia.
  destruct (copy_loop_spec (sector_buffer fs1) (r_buffer s) (r_copied s) n) as [El Ek]; [lia..|].
  u_small. split; [split; [done|lia]|]. split; [done|]. do 3 (split; [done|]).
  intros k. rewrite Ek. case_decide; [|done]. apply Hb. lia.
Qed.

Lemma byte_in_cluster_at fs c i k :
  0 ≤ i → 0 ≤ k < bytes_per_sector fs →
  byte_in_cluster fs c (i * bytes_per_sector fs + k) = nthZ (sector_bytes fs (cluster_sector fs c i)) k.
Proof.
  intros Hi Hk. unfold byte_in_cluster.
  rewrite Z.div_add_l, Z.div_small, Z.add_0_r by lia.
  by rewrite (Z.add_comm (_ * _)), Z.mod_add, Z.mod_small by lia.
Qed.

Lemma same_volume_bytes fs fs' : same_volume fs fs' →
  byte_in_cluster fs' = byte_in_cluster fs ∧ cluster_size fs' = cluster_size fs ∧
  file_byte fs' = file_byte fs.
Proof.
  intros H. destruct (same_volume_sectors _ _ H) as (E1 & _ & _ & E2 & _ & E3 & E4 & _).
  assert (byte_in_cluster fs' = byte_in_cluster fs) as Eb by (unfold byte_in_cluster; by rewrite E1, E2, E3).
  assert (cluster_size fs' = cluster_size fs) as Ec by (unfold cluster_size; by rewrite E3, E4).
  split; [done|split; [done|]]. unfold file_byte. by rewrite Eb, Ec.
Qed.

Lemma failed_after r n src s s' s'' : advanced n src s s' → failed r s' s'' → failed r s s''.
Proof.
  intros (_ & A2 & _ & _ & A5 & _) (F1 & F2 & F3).
  split; [done|]. split; [by etransitivity|congruence].
Qed.

Lemma read_cluster_spec c s r s' :
  reading_ok s → cluster_in (r_fs s) c →
  for_exit 0 (sectors_per_cluster (r_fs s)) (read_file_sector c) s = (r, s') →
  match r with
  | None => advanced (Z.min (r_remaining s) (cluster_size (r_fs s))) (byte_in_cluster (r_fs s) c) s s'
  | Some r => r = FAT32_EIO ∧ failed r s s'
  end.
Proof.
  intros Hs Hc E. pose proof Hs as (Hok & H1 & H2 & H3 & H4).
  destruct (ok_sector _ Hok) as (_ & Hbps & _). pose proof (ok_cluster _ Hok) as Hspc.
  pose proof (for_exit_ind
    (λ i s1, advanced (Z.min (r_remaining s) (i * bytes_per_sector (r_fs s)))
       (byte_in_cluster (r_fs s) c) s s1)
    (λ r s1, r = FAT32_EIO ∧ failed r s s1)
    0 (sectors_per_cluster (r_fs s)) (read_file_sector c) s ltac:(lia)) as H.
  rewrite E in H. destruct r as [r|]; apply H; clear H E.
  1, 3: rewrite Z.mul_0_l, Z.min_r by lia; by apply advanced_0.
  all: intros i s1 Hi Ha; pose proof Ha as (A1 & A2 & A3 & A4 & A5 & A6).
  all: destruct (same_volume_sectors _ _ A2) as (E1 & _ & _ & E2 & E3 & E4 & E5 & _).
  all: destruct (read_file_sector c i s1) as [r1 s2] eqn:Er.
  all: pose proof (read_file_sector_spec c i s1 r1 s2 A1 ltac:(by rewrite E3) ltac:(lia) Er) as Hr.
  all: destruct r1 as [r1|];
    [destruct Hr as [-> Hf]; split; [done|]; by apply (failed_after _ _ _ _ _ _ Ha)|].
  all: rewrite E1, E2, E4 in Hr.
  all: set (n1 := Z.min (r_remaining s) (i * bytes_per_sector (r_fs s))) in *.
  all: set (n2 := Z.min (r_remaining s1) (bytes_per_sector (r_fs s))) in *.
  all: replace (Z.min (r_remaining s) ((i + 1) * bytes_per_sector (r_fs s))) with (n1 + n2)
    by (subst n1 n2; lia).
  all: eapply (advanced_trans n1 n2); [subst n1; lia|subst n2; lia|exact Ha|].
  all: eapply advanced_ext; [|exact Hr]; intros k Hk; cbv beta.
  all: replace n1 with (i * bytes_per_sector (r_fs s)) by (subst n1 n2; lia).
  all: symmetry; apply byte_in_cluster_at; [lia|subst n2; lia].
Qed.

Lemma file_byte_first fs c l i :
  0 ≤ i < cluster_size fs → file_byte fs (c :: l) i = byte_in_cluster fs c i.
Proof. intros Hi. unfold file_byte. by rewrite Z.div_small, Z.mod_small by lia. Qed.

Lemma file_byte_next fs c l i :
  0 < cluster_size fs → 0 ≤ i → file_byte fs (c :: l) (cluster_size fs + i) = file_byte fs l i.
Proof.
  intros Hc Hi. unfold file_byte.
  replace (cluster_size fs + i) with (i + 1 * cluster_size fs) by lia.
  rewrite Z.div_add, Z.mod_add by lia.
  pose proof (Z.div_pos i (cluster_size fs) Hi Hc).
  by replace (Z.to_nat (i / cluster_size fs + 1)) with (S (Z.to_nat (i / cluster_size fs))) by lia.
Qed.

Lemma cluster_size_pos fs : fs_ok fs → 512 ≤ cluster_size fs.
Proof.
  intros Hok. destruct (ok_sector _ Hok) as (_ & Hbps & _). pose proof (ok_cluster _ Hok).
  unfold cluster_size. nia.
Qed.

Lemma chain_for_one fs c n : cluster_in fs c → 0 < n ≤ cluster_size fs → chain_for fs c n [c].
Proof. intros Hc Hn. split; [done|]. split; [done|]. split; [by constructor|]. unfold lenZ. simpl. lia. Qed.

Lemma chain_for_cons fs c d n l :
  cluster_in fs c → fat_link fs c = Next d → 0 < n → cluster_size fs < n + cluster_size fs →
  chain_for fs d n l → chain_for fs c (n + cluster_size fs) (c :: l).
Proof.
  intros Hc Hl Hn Hcs (Hh & Hlk & Hin & Hb). destruct l as [|d' l]; [done|]. injection Hh as ->.
  split; [done|]. split; [done|]. split; [by constructor|]. unfold lenZ in *. simpl in *. lia.
Qed.

(** The loop over the clusters delivers the bytes of the chain, or fails. *)
Lemma read_file_clusters_spec fuel c visited s r s' :
  reading_ok s → cluster_in (r_fs s) c → 0 < r_remaining s →
  read_file_clusters fuel c visited s = Some (r, s') →
  (r = FAT32_OK ∧ ∃ l, chain_for (r_fs s) c (r_remaining s) l ∧
     advanced (r_remaining s) (file_byte (r_fs s) l) s s') ∨
  failed r s s'.
Proof.
  revert c visited s. induction fuel as [|fuel IH]; intros c visited s Hs Hc Hrem E; [done|].
  pose proof Hs as (Hok & H1 & H2 & H3 & H4). pose proof (cluster_size_pos _ Hok) as Hcs.
  cbn [read_file_clusters] in E. rewrite (proj2 (Z.eqb_neq (r_remaining s) 0)) in E by lia.
  destruct (cluster_count (r_fs s) <? visited +u 1).
  { injection E as <- <-. right. split; [done|]. split; [reflexivity|done]. }
  destruct (for_exit 0 (sectors_per_cluster (r_fs s)) (read_file_sector c) s) as [r1 s1] eqn:Er.
  pose proof (read_cluster_spec c s r1 s1 Hs Hc Er) as Hr.
  destruct r1 as [r1|]; [injection E as <- <-; right; apply Hr|].
  pose proof Hr as (A1 & A2 & A3 & A4 & A5 & A6).
  destruct (Z.eqb_spec (r_remaining s1) 0) as [E0|Hne]; cbn [negb] in E.
  - destruct fuel as [|fuel]; [done|]. cbn [read_file_clusters] in E.
    rewrite (proj2 (Z.eqb_eq (r_remaining s1) 0)) in E by done. injection E as <- <-.
    left. split; [done|]. exists [c]. split; [apply chain_for_one; [done|lia]|].
    replace (r_remaining s) with (Z.min (r_remaining s) (cluster_size (r_fs s))) at 1 by lia.
    eapply advanced_ext; [|exact Hr]. intros k Hk. symmetry. apply file_byte_first. lia.
  - pose proof A1 as (Hok1 & B1 & B2 & B3 & B4).
    destruct (same_volume_sectors _ _ A2) as (_ & El & _ & _ & Ein & _).
    destruct (same_volume_bytes _ _ A2) as (Eb & Ec & Ef).
    destruct (next_cluster c (r_fs s1)) as [[r2 nx] fs2] eqn:En.
    destruct (next_cluster_spec c (r_fs s1) r2 nx fs2 Hok1 ltac:(by rewrite Ein) En)
      as (Hok2 & Hs2 & _ & Hcase).
    assert (∀ r, r ≠ FAT32_OK → failed r s (with_fs fs2 s1)) as Hfail.
    { intros r0 Hr0. split; [done|]. split; [by etransitivity|done]. }
    destruct Hcase as [->|[(-> & -> & _)|[(-> & Hnx & Hin & Hl)|[-> _]]]];
      [injection E as <- <-; right; by apply Hfail
      |injection E as <- <-; right; by apply Hfail| |injection E as <- <-; right; by apply Hfail].
    rewrite (proj2 (Z.eqb_neq _ _)) in E by done.
    destruct (same_volume_sectors _ _ Hs2) as (_ & El2 & _ & _ & Ein2 & _).
    destruct (same_volume_bytes _ _ Hs2) as (Eb2 & Ec2 & Ef2).
    apply IH in E; [|split; [exact Hok2|done]|cbn [r_fs with_fs]; by rewrite Ein2|cbn; lia].
    cbn [r_fs r_remaining with_fs] in E. destruct E as [(-> & l & Hch & Ha)|Hf].
    + left. split; [done|]. exists (c :: l).
      assert (Z.min (r_remaining s) (cluster_size (r_fs s)) = cluster_size (r_fs s)) as Em by lia.
      rewrite Em in *. split.
      * replace (r_remaining s) with (r_remaining s1 + cluster_size (r_fs s)) by lia.
        apply (chain_for_cons _ c nx); try lia; [done|by rewrite <- El|].
        destruct Hch as (C1 & C2 & C3 & C4). unfold chain_for.
        rewrite <- Ec, <- Ec2, <- Ein, <- Ein2. split; [done|].
        destruct (same_volume_sectors _ _ A2) as (_ & _ & <- & _).
        destruct (same_volume_sectors _ _ Hs2) as (_ & _ & <- & _). done.
      * replace (r_remaining s) with (cluster_size (r_fs s) + r_remaining s1) by lia.
        eapply (advanced_trans (cluster_size (r_fs s)) (r_remaining s1)); [lia|lia| |].
        -- eapply advanced_ext; [|exact Hr]. intros k Hk. symmetry. by apply file_byte_first.
        -- eapply advanced_ext.
           2: { destruct Ha as (G1 & G2 & G3 & G4 & G5 & G6).
                split; [exact G1|]. split; [by etransitivity|].
                split; [exact G3|]. split; [exact G4|]. split; [exact G5|exact G6]. }
           intros k Hk. cbv beta. rewrite file_byte_next by lia. by rewrite Ef2, Ef.
    + right. destruct Hf as (F1 & F2 & F3). split; [done|]. split; [|cbn in F3; congruence].
      etransitivity; [exact A2|]. by etransitivity.
Qed.

(** *** The loops end, whatever is on the disk *)

#[export] Instance same_geometry_preorder : PreOrder (same_geometry (D := D)).
Proof.
  split.
  - intros fs. exists (device fs), (sector_buffer fs). by rewrite with_io_self.
  - intros fs1 fs2 fs3 (d & b & ->) (d' & b' & ->). by exists d', b'.
Qed.

Lemma same_geometry_count fs fs' : same_geometry fs fs' →
  cluster_count fs' = cluster_count fs ∧ root_cluster fs' = root_cluster fs.
Proof. intros (d & b & ->). done. Qed.

Lemma read_sector_geometry n fs : same_geometry fs (snd (read_sector n fs)).
Proof.
  unfold read_sector. case_match; [reflexivity|]. unfold device_read.
  destruct (block_read_sector _ _ _) as [[r b] d]. by exists d, b.
Qed.

Lemma next_cluster_geometry c fs : same_geometry fs (snd (next_cluster c fs)).
Proof.
  unfold next_cluster. case_match; [reflexivity|]. cbv zeta. case_match; [reflexivity|].
  case_match; [reflexivity|].
  pose proof (read_sector_geometry (fat_start fs +u c *u 4 / bytes_per_sector fs) fs) as Hg.
  destruct (read_sector _ fs) as [r fs1]. cbn in Hg. by repeat case_match.
Qed.

Lemma for_exit_preserves {S R} (P : S → Prop) a b (body : Z → M S (option R)) s :
  (∀ i s, P s → P (snd (body i s))) → P s → P (snd (for_exit a b body s)).
Proof.
  intros Hstep. unfold for_exit. revert s. induction (range a b) as [|i l IH]; intros s Hs; [done|].
  cbn [exit_loop]. unfold mbind, M_bind. pose proof (Hstep i s Hs) as H1.
  destruct (body i s) as [[r|] s1]; [done|]. by apply IH.
Qed.

Lemma read_cluster_geometry c n s :
  same_geometry (r_fs s) (r_fs (snd (for_exit 0 n (read_file_sector c) s))).
Proof.
  apply (for_exit_preserves (λ s1, same_geometry (r_fs s) (r_fs s1))); [|reflexivity].
  intros i s1 H1. unfold read_file_sector. destruct (r_remaining s1 =? 0); [done|]. cbv zeta.
  pose proof (read_sector_geometry (data_start (r_fs s1) +u
    (c -u 2) *u sectors_per_cluster (r_fs s1) +u i) (r_fs s1)) as H2.
  destruct (read_sector _ _) as [r fs1]. cbn in H2. destruct r; cbn; by etransitivity.
Qed.

Lemma read_file_clusters_total fuel c visited s :
  0 ≤ cluster_count (r_fs s) < 2 ^ 32 - 1 → 0 ≤ visited ≤ cluster_count (r_fs s) →
  cluster_count (r_fs s) - visited + 1 < Z.of_nat fuel →
  read_file_clusters fuel c visited s ≠ None.
Proof.
  revert c visited s. induction fuel as [|fuel IH]; intros c visited s Hc Hv Hf; [lia|].
  cbn [read_file_clusters]. case_match; [done|]. cbv zeta. rewrite u32_small by lia.
  destruct (Z.ltb_spec (cluster_count (r_fs s)) (visited + 1)); [done|].
  pose proof (read_cluster_geometry c (sectors_per_cluster (r_fs s)) s) as Hg.
  destruct (for_exit _ _ _ s) as [[r|] s1]; [done|]. cbn in Hg.
  destruct (same_geometry_count _ _ Hg) as [E1 _].
  case_match.
  - pose proof (next_cluster_geometry c (r_fs s1)) as Hg2.
    destruct (next_cluster c (r_fs s1)) as [[r nx] fs2]. cbn in Hg2.
    destruct (same_geometry_count _ _ Hg2) as [E3 _].
    destruct r; try done. case_match; [done|]. apply IH; cbn; lia.
  - apply IH; lia.
Qed.

(** *** Readable volumes *)

Lemma volume_readable_same fs fs' :
  volume_readable fs → same_volume fs fs' → volume_readable fs'.
Proof. intros H (d & b & -> & _ & _ & _ & _ & _ & Hr & _) n Hn. by apply Hr, H. Qed.

Lemma read_cluster_readable c s :
  reading_ok s → cluster_in (r_fs s) c → volume_readable (r_fs s) →
  fst (for_exit 0 (sectors_per_cluster (r_fs s)) (read_file_sector c) s) = None.
Proof.
  intros Hs Hc Hrd. pose proof Hs as (Hok & _). pose proof (ok_cluster _ Hok).
  pose proof (for_exit_ind (λ _ s1, reading_ok s1 ∧ same_volume (r_fs s) (r_fs s1))
    (λ _ _, False) 0 (sectors_per_cluster (r_fs s)) (read_file_sector c) s ltac:(lia)) as H0.
  destruct (for_exit _ _ _ s) as [[r|] s'] eqn:E; [|done]. exfalso. apply H0; clear H0 E.
  { split; [done|reflexivity]. }
  intros i s1 Hi [H1 Hv1]. pose proof H1 as (Hok1 & _).
  destruct (same_volume_sectors _ _ Hv1) as (_ & _ & _ & _ & E3 & _ & E5 & _).
  destruct (read_file_sector c i s1) as [r2 s2] eqn:Er.
  pose proof (read_file_sector_spec c i s1 r2 s2 H1 ltac:(by rewrite E3) ltac:(lia) Er) as Hr.
  destruct r2 as [r2|]; cycle 1.
  { destruct Hr as (A1 & A2 & _). split; [done|by etransitivity]. }
  destruct Hr as [-> _]. unfold read_file_sector in Er. case_match; [done|]. cbv zeta in Er.
  destruct (cluster_sector_spec (r_fs s1) c i Hok1 ltac:(by rewrite E3) ltac:(lia)) as (Ecs & Hlo & Hhi).
  rewrite Ecs in Er. pose proof (ok_fat _ Hok1). pose proof (ok_start _ Hok1).
  assert (readable (device (r_fs s1)) (volume_start (r_fs s1) + cluster_sector (r_fs s1) c i)) as Hr1
    by (apply (volume_readable_same _ _ Hrd Hv1); lia).
  pose proof (read_sector_readable (cluster_sector (r_fs s1) c i) (r_fs s1) Hok1 ltac:(lia) Hhi Hr1) as E.
  destruct (read_sector _ _) as [r3 fs3]. cbn in E. by subst r3.
Qed.

Lemma read_file_clusters_complete fuel c visited s l :
  reading_ok s → volume_readable (r_fs s) → 0 < r_remaining s →
  chain_for (r_fs s) c (r_remaining s) l →
  0 ≤ visited → visited + lenZ l ≤ cluster_count (r_fs s) → lenZ l < Z.of_nat fuel →
  ∃ s', read_file_clusters fuel c visited s = Some (FAT32_OK, s').
Proof.
  revert c visited s fuel. induction l as [|c0 l IH]; intros c visited s fuel Hs Hrd Hrem Hch Hv Hcnt Hf.
  { by destruct Hch as [? _]. }
  pose proof Hs as (Hok & H1 & H2 & H3 & H4). pose proof (ok_count _ Hok).
  destruct Hch as (Hh & Hlk & Hin & Hb). injection Hh as ->. inversion Hin as [|? ? Hc Hin']; subst.
  assert (lenZ (c :: l) = lenZ l + 1) as El by (unfold lenZ; simpl; lia).
  rewrite El in *. pose proof (lenZ_nonneg l). pose proof (cluster_size_pos _ Hok) as Hcs.
  destruct fuel as [|fuel]; [lia|]. cbn [read_file_clusters].
  rewrite (proj2 (Z.eqb_neq (r_remaining s) 0)) by lia. cbv zeta. rewrite u32_small by lia.
  rewrite (proj2 (Z.ltb_ge _ _)) by lia.
  pose proof (read_cluster_readable c s Hs Hc Hrd) as E.
  destruct (for_exit _ _ _ s) as [r1 s1] eqn:Er. cbn in E. subst r1.
  pose proof (read_cluster_spec c s None s1 Hs Hc Er) as Hr.
  pose proof Hr as (A1 & A2 & A3 & A4 & A5 & A6). pose proof A1 as (Hok1 & B1 & B2 & B3 & B4).
  destruct (Z.eqb_spec (r_remaining s1) 0) as [E0|Hne]; cbn [negb].
  { destruct fuel as [|fuel]; [lia|]. cbn [read_file_clusters].
    rewrite (proj2 (Z.eqb_eq (r_remaining s1) 0)) by done. by exists s1. }
  destruct l as [|d l]; [unfold lenZ in *; simpl in *; lia|]. destruct Hlk as [Hl Hlk].
  destruct (same_volume_sectors _ _ A2) as (_ & E1 & E2 & _ & E3 & _ & _ & E4 & _).
  destruct (same_volume_bytes _ _ A2) as (_ & E5 & _).
  pose proof (volume_readable_same _ _ Hrd A2) as Hrd1.
  destruct (fat_entry_place (r_fs s1) c Hok1 ltac:(by rewrite E3)) as (_ & P2 & _).
  pose proof (ok_fat _ Hok1). pose proof (ok_start _ Hok1).
  pose proof (ok_count _ Hok1). pose proof (ok_cluster _ Hok1).
  assert (readable (device (r_fs s1)) (volume_start (r_fs s1) +
    (fat_start (r_fs s1) + 4 * c / bytes_per_sector (r_fs s1)))) as Hrt
    by (apply Hrd1; unfold volume_end; nia).
  pose proof (next_cluster_readable c (r_fs s1) Hok1 ltac:(by rewrite E3) Hrt) as Hnio.
  destruct (next_cluster c (r_fs s1)) as [[r2 nx] fs2] eqn:En. cbn in Hnio.
  destruct (next_cluster_spec c (r_fs s1) r2 nx fs2 Hok1 ltac:(by rewrite E3) En)
    as (Hok2 & Hs2 & _ & Hcase). rewrite E1, Hl in Hcase.
  destruct Hcase as [?|[(_ & _ & ?)|[(-> & Hnx & Hnin & [= <-])|[_ ?]]]]; try done.
  rewrite (proj2 (Z.eqb_neq _ _)) by done.
  destruct (same_volume_sectors _ _ Hs2) as (_ & _ & F2 & _ & F3 & _ & _ & F4 & _).
  destruct (same_volume_bytes _ _ Hs2) as (_ & F5 & _).
  apply (IH d); cbn [r_fs r_remaining with_fs]; try lia.
  - split; [exact Hok2|done].
  - by apply (volume_readable_same (r_fs s1)).
  - unfold chain_for. rewrite F2, F3, F5, E2, E3, E5. split; [done|]. split; [done|].
    split; [done|]. unfold lenZ in *. simpl in *. lia.
Qed.
(** *** Directory entries *)

Lemma lookup_nthZ l i : (i < length l)%nat → l !! i = Some (nthZ l (Z.of_nat i)).
Proof.
  intros Hi. destruct (lookup_lt_is_Some_2 l i Hi) as [x Hx]. rewrite Hx. f_equal.
  symmetry. apply nthZ_lookup; [by rewrite Nat2Z.id|lia].
Qed.

Lemma raw_at_ext b b' k n :
  (∀ i, 0 ≤ i < n → nthZ b i = nthZ b' i) → 0 ≤ k → 32 * k + 32 ≤ n → n ≤ lenZ b → n ≤ lenZ b' →
  raw_at b k = raw_at b' k.
Proof.
  intros He Hk Hn Hb Hb'. unfold raw_at, lenZ in *. apply list_eq. intros i.
  destruct (decide (i < 32)%nat); cycle 1.
  { by rewrite !lookup_take_ge by lia. }
  rewrite !lookup_take_lt, !lookup_drop by lia.
  rewrite !lookup_nthZ by lia. f_equal. apply He. lia.
Qed.

Lemma field_end_take raw low n m :
  0 ≤ low → low + Z.of_nat n ≤ Z.of_nat m → field_end (take m raw) low n = field_end raw low n.
Proof.
  intros Hl. induction n as [|n IH]; intros Hn; cbn [field_end]; [done|].
  rewrite nthZ_take by lia. by rewrite IH by lia.
Qed.

(** An entry is its first 32 bytes. *)
Lemma entry_from_raw_take raw : entry_from_raw (take 32 raw) = entry_from_raw raw.
Proof.
  unfold entry_from_raw. rewrite !field_end_take by lia. rewrite !nthZ_take by lia.
  match goal with |- context [if ?b then None else _] => destruct b end; [done|].
  pose proof (field_end_range raw 0 8). pose proof (field_end_range raw 8 3).
  generalize dependent (field_end raw 0 8). generalize dependent (field_end raw 8 3).
  intros x Hx y Hy. cbv zeta. do 2 f_equal.
  - rewrite take_take, Nat.min_l by lia. f_equal. case_match; [|done].
    by rewrite skipn_firstn_comm, take_take, Nat.min_l by lia.
  - apply fat32_ext. intros i Hi. apply nthZ_take; lia.
  - f_equal; [f_equal; f_equal|]; apply fat16_ext; apply nthZ_take; lia.
Qed.

Section scanning.
Context {C : Type} (callback : dirent → C → Z * C).

Lemma fold_entries_app l1 l2 c :
  fold_entries callback (l1 ++ l2) c =
    let '(stopped, c') := fold_entries callback l1 c in
    if stopped : bool then (true, c') else fold_entries callback l2 c'.
Proof.
  revert c. induction l1 as [|raw l1 IH]; intros c; simpl; [done|].
  case_match; [done|]. destruct (entry_from_raw raw) as [e|]; [|apply IH].
  destruct (callback e c) as [r c']. case_match; [done|]. apply IH.
Qed.

(** The loop over the entries of the sector in the buffer. *)
Lemma scan_entries_spec l fs c :
  Forall (λ k, 0 ≤ k) l →
  exit_loop l (scan_entry callback) (fs, c) =
    let '(stopped, c') := fold_entries callback (raw_at (sector_buffer fs) <$> l) c in
    (if stopped : bool then Some FAT32_OK else None, (fs, c')).
Proof.
  intros Hl. revert c. induction Hl as [|k l Hk Hl IH]; intros c; [done|].
  change (raw_at (sector_buffer fs) <$> k :: l) with
    (raw_at (sector_buffer fs) k :: (raw_at (sector_buffer fs) <$> l)).
  cbn [exit_loop fold_entries]. unfold mbind, M_bind, scan_entry at 1, raw_at at 1 2.
  rewrite nthZ_take, entry_from_raw_take by lia. cbv zeta.
  destruct (nthZ _ 0 =? 0); [done|]. destruct (entry_from_raw _) as [e|]; [|apply IH].
  destruct (callback e c) as [r c']. destruct (negb (r =? 0)); [done|]. apply IH.
Qed.

Lemma scan_sector_spec cl i fs c r fs' c' :
  fs_ok fs → cluster_in fs cl → 0 ≤ i < sectors_per_cluster fs →
  scan_sector callback cl i (fs, c) = (r, (fs', c')) →
  fs_ok fs' ∧ same_volume fs fs' ∧
  (r = Some FAT32_EIO ∨ ∃ stopped, r = (if stopped : bool then Some FAT32_OK else None) ∧
     fold_entries callback (raw_at (sector_bytes fs (cluster_sector fs cl i)) <$>
       range 0 (bytes_per_sector fs / 32)) c = (stopped, c')).
Proof.
  intros Hok Hc Hi. unfold scan_sector.
  destruct (cluster_sector_spec fs cl i Hok Hc Hi) as (-> & Hlo & Hhi).
  pose proof (ok_end _ Hok) as [He _]. pose proof (ok_start _ Hok). pose proof (ok_fat _ Hok).
  destruct (read_sector (cluster_sector fs cl i) fs) as [r1 fs1] eqn:Er.
  destruct (read_sector_spec (cluster_sector fs cl i) _ _ _ Hok ltac:(lia) Hhi Er)
    as (Hok1 & Hs1 & _ & [->|[-> Hb]]).
  { intros [= <- <- <-]. split; [done|split; [done|by left]]. }
  destruct (same_volume_sectors _ _ Hs1) as (_ & _ & _ & _ & _ & -> & _).
  unfold for_exit. rewrite scan_entries_spec; cycle 1.
  { apply Forall_forall. intros k Hk. apply elem_of_range in Hk. lia. }
  assert ((raw_at (sector_buffer fs1) <$> range 0 (bytes_per_sector fs / 32)) =
    (raw_at (sector_bytes fs (cluster_sector fs cl i)) <$> range 0 (bytes_per_sector fs / 32))) as ->.
  { apply list_fmap_ext. intros j k Hk. apply list_elem_of_lookup_2, elem_of_range in Hk.
    destruct (ok_sector _ Hok) as (Es & Hbps & _).
    apply (raw_at_ext _ _ _ (bytes_per_sector fs)); [exact Hb|lia| | |].
    - assert (k + 1 ≤ bytes_per_sector fs / 32) as Hk' by lia.
      pose proof (Z.mul_div_le (bytes_per_sector fs) 32). lia.
    - destruct (ok_buffer _ Hok1) as [_ ->]. lia.
    - unfold sector_bytes. rewrite contents_length. lia. }
  destruct (fold_entries _ _ c) as [stopped c1]. intros [= <- <- <-].
  split; [done|split; [done|right]]. by exists stopped.
Qed.
End scanning.

Lemma range_split a m b : a ≤ m ≤ b → range a b = range a m ++ range m b.
Proof.
  intros [Ha Hm]. revert m Hm Ha.
  enough (∀ n : nat, ∀ m, b - m = Z.of_nat n → a ≤ m → range a b = range a m ++ range m b) as Hn
    by (intros m ? ?; apply (Hn (Z.to_nat (b - m))); lia).
  induction n as [|n IH]; intros m En Ha.
  - rewrite (range_nil m b) by lia. rewrite app_nil_r. by replace m with b by lia.
  - rewrite (IH (m + 1)), range_snoc, (range_cons m b) by lia. by rewrite <- app_assoc.
Qed.

(** One cluster of a directory. *)
Lemma scan_cluster_spec {C} (callback : dirent → C → Z * C) cl fs c r fs' c' :
  fs_ok fs → cluster_in fs cl →
  for_exit 0 (sectors_per_cluster fs) (scan_sector callback cl) (fs, c) = (r, (fs', c')) →
  fs_ok fs' ∧ same_volume fs fs' ∧
  (r = Some FAT32_EIO ∨ ∃ stopped, r = (if stopped : bool then Some FAT32_OK else None) ∧
     fold_entries callback (cluster_raws fs cl) c = (stopped, c')).
Proof.
  intros Hok Hc E. pose proof (ok_cluster _ Hok) as Hspc.
  set (part := λ a b, i ← range a b;
    raw_at (sector_bytes fs (cluster_sector fs cl i)) <$> range 0 (bytes_per_sector fs / 32)).
  assert (∀ a m b, a ≤ m ≤ b → part a b = part a m ++ part m b) as Hpart.
  { intros a m b Hm. unfold part. by rewrite (range_split a m b), bind_app by done. }
  assert (∀ a, part a (a + 1) =
    (raw_at (sector_bytes fs (cluster_sector fs cl a)) <$> range 0 (bytes_per_sector fs / 32))) as Hone.
  { intros a. unfold part. rewrite (range_cons a (a + 1)), (range_nil (a + 1)) by lia. apply app_nil_r. }
  change (cluster_raws fs cl) with (part 0 (sectors_per_cluster fs)). clearbody part.
  assert (part 0 0 = []) as H00.
  { pose proof (Hpart 0 0 0 ltac:(lia)) as Hp. destruct (part 0 0); [done|].
    apply (f_equal length) in Hp. rewrite length_app in Hp. simpl in Hp. lia. }
  set (I := λ (i : Z) (s : fat32_fs D * C), fs_ok (fst s) ∧ same_volume fs (fst s) ∧
    fold_entries callback (part 0 i) c = (false, snd s)).
  set (Q := λ (r : fat32_result) (s : fat32_fs D * C), fs_ok (fst s) ∧ same_volume fs (fst s) ∧
    (r = FAT32_EIO ∨ r = FAT32_OK ∧
       fold_entries callback (part 0 (sectors_per_cluster fs)) c = (true, snd s))).
  assert (I 0 (fs, c)) as HI0.
  { split; [done|split; [reflexivity|]]. by rewrite H00. }
  pose proof (for_exit_ind I Q 0 (sectors_per_cluster fs) (scan_sector callback cl) (fs, c)
    ltac:(lia) HI0) as Hl. rewrite E in Hl.
  destruct r as [r|]; destruct Hl as (G1 & G2 & G3).
  2: split; [done|split; [done|]]; destruct G3 as [-> | [-> Hf]]; [by left|right; by exists true].
  3: split; [done|split; [done|right; by exists false]].
  all: intros i [fs1 c1] Hi (Hok1 & Hv1 & Hf); cbn [fst snd] in *.
  all: destruct (same_volume_sectors _ _ Hv1) as (S1 & _ & _ & S2 & S3 & S4 & S5 & _).
  all: destruct (scan_sector callback cl i (fs1, c1)) as [r2 [fs2 c2]] eqn:Er.
  all: assert (0 ≤ i < sectors_per_cluster fs1) as Hi1 by lia.
  all: destruct (scan_sector_spec callback cl i fs1 c1 r2 fs2 c2 Hok1 ltac:(by rewrite S3) Hi1 Er)
    as (Hok2 & Hv2 & Hcase).
  all: assert (same_volume fs fs2) as Hv by (etransitivity; [exact Hv1|exact Hv2]).
  all: destruct Hcase as [->|(stopped & -> & Hst)]; [split; [done|split; [done|by left]]|].
  all: rewrite S1, S2, S4, <- Hone in Hst.
  all: assert (fold_entries callback (part 0 (i + 1)) c = (stopped, c2)) as Hnext
    by (rewrite (Hpart 0 i) by lia; by rewrite fold_entries_app, Hf).
  all: destruct stopped; [|done]; split; [done|split; [done|right; split; [done|]]].
  all: rewrite (Hpart 0 (i + 1)) by lia; by rewrite fold_entries_app, Hnext.
Qed.

Lemma same_volume_raws fs fs' : same_volume fs fs' →
  cluster_raws fs' = cluster_raws fs ∧ dir_raws fs' = dir_raws fs.
Proof.
  intros H. destruct (same_volume_sectors _ _ H) as (E1 & _ & _ & E2 & _ & E3 & E4 & _).
  assert (cluster_raws fs' = cluster_raws fs) as Ec
    by (unfold cluster_raws; by rewrite E1, E2, E3, E4).
  split; [done|]. unfold dir_raws. by rewrite Ec.
Qed.

(** What directory scans and path lookup depend on. *)
Definition agree fs fs' : Prop :=
  dir_raws fs' = dir_raws fs ∧ fat_link fs' = fat_link fs ∧ (∀ l, linked fs' l = linked fs l) ∧
  cluster_in fs' = cluster_in fs ∧ cluster_count fs' = cluster_count fs ∧
  root_cluster fs' = root_cluster fs.

#[global] Instance agree_symmetric : Symmetric agree.
Proof. unfold agree. intros fs fs' (-> & -> & H & -> & -> & ->). split_and!; done. Qed.

Lemma same_volume_agree fs fs' : same_volume fs fs' → agree fs fs'.
Proof.
  intros H. destruct (same_volume_raws _ _ H) as [_ E].
  destruct (same_volume_sectors _ _ H) as (_ & E2 & E3 & _ & E4 & _ & _ & E5 & E6 & _).
  by split_and!.
Qed.

Lemma agree_scans {C} n (callback : dirent → C → Z * C) fs fs' c x x' :
  agree fs fs' → scans_within n callback fs' c x x' → scans_within n callback fs c x x'.
Proof.
  intros (E1 & E2 & E3 & E4 & _) (l & st & H1 & H2 & H3 & H4 & H5 & H6).
  rewrite E1, E2, E3, E4 in *. by exists l, st.
Qed.

(** The scan of a cluster chain, when it returns. *)
Lemma scan_clusters_spec {C} (callback : dirent → C → Z * C) fuel cl visited fs c r fs' c' :
  fs_ok fs → cluster_in fs cl → 0 ≤ visited ≤ cluster_count fs →
  scan_clusters callback fuel cl visited (fs, c) = Some (r, (fs', c')) →
  fs_ok fs' ∧ same_volume fs fs' ∧
  (r = FAT32_OK → scans_within (cluster_count fs - visited) callback fs cl c c').
Proof.
  revert cl visited fs c. induction fuel as [|fuel IH]; intros cl visited fs c Hok Hc Hv E; [done|].
  cbn [scan_clusters] in E. pose proof (ok_count _ Hok) as Hcnt.
  rewrite (proj2 (valid_cluster_spec fs cl Hok ltac:(unfold cluster_in in Hc; lia)) Hc) in E.
  cbn [negb] in E. cbv zeta in E. rewrite u32_small in E by lia.
  destruct (Z.ltb_spec (cluster_count fs) (visited + 1)).
  { injection E as <- <- <-. split; [done|split; [reflexivity|done]]. }
  destruct (for_exit _ _ _ (fs, c)) as [r1 [fs1 c1]] eqn:Er.
  destruct (scan_cluster_spec callback cl fs c r1 fs1 c1 Hok Hc Er) as (Hok1 & Hv1 & Hcase).
  destruct Hcase as [->|(stopped & -> & Hf)].
  { injection E as <- <- <-. split; [done|split; [done|done]]. }
  assert (lenZ [cl] = 1) as L1 by done. assert (dir_raws fs [cl] = cluster_raws fs cl) as R1
    by apply app_nil_r.
  destruct stopped.
  { injection E as <- <- <-. split; [done|split; [done|]]. intros _. exists [cl], true.
    rewrite R1. split_and!; [done|done|by constructor|lia|done|by left]. }
  destruct (same_volume_sectors _ _ Hv1) as (_ & El & _ & _ & Ein & _ & _ & Ecnt & _).
  destruct (next_cluster cl fs1) as [[r2 nx] fs2] eqn:En.
  destruct (next_cluster_spec cl fs1 r2 nx fs2 Hok1 ltac:(by rewrite Ein) En) as (Hok2 & Hv2 & _ & Hcase).
  assert (same_volume fs fs2) as Hv02 by (etransitivity; [exact Hv1|exact Hv2]).
  rewrite El in Hcase.
  destruct Hcase as [->|[(-> & -> & Hl)|[(-> & Hnx & Hin & Hl)|[-> _]]]];
    [by injection E as <- <- <-| | |by injection E as <- <- <-].
  - rewrite Z.eqb_refl in E. injection E as <- <- <-. split; [done|split; [done|]]. intros _.
    exists [cl], false. rewrite R1. split_and!; [done|done|by constructor|lia|done|right; by exists cl].
  - rewrite (proj2 (Z.eqb_neq _ _)) in E by done.
    destruct (same_volume_sectors _ _ Hv02) as (_ & _ & _ & _ & Ein2 & _ & _ & Ecnt2 & _).
    apply IH in E; [|done|by rewrite Ein2, <- Ein|lia].
    destruct E as (Hok' & Hv' & Hr). split; [done|split; [by etransitivity|]]. intros Hok3.
    specialize (Hr Hok3). apply (agree_scans _ _ fs) in Hr; [|by apply same_volume_agree].
    destruct Hr as (l & st & H1 & H2 & H3 & H4 & H5 & H6). destruct l as [|d l]; [done|].
    injection H1 as ->. exists (cl :: nx :: l), st.
    split; [done|]. split; [by split|]. split; [by constructor|].
    split; [unfold lenZ in *; cbn [length] in *; lia|]. split; [|exact H6].
    change (dir_raws fs (cl :: nx :: l)) with (cluster_raws fs cl ++ dir_raws fs (nx :: l)).
    by rewrite fold_entries_app, Hf.
Qed.

Lemma scan_cluster_readable {C} (callback : dirent → C → Z * C) cl fs c :
  fs_ok fs → cluster_in fs cl → volume_readable fs →
  fst (for_exit 0 (sectors_per_cluster fs) (scan_sector callback cl) (fs, c)) ≠ Some FAT32_EIO.
Proof.
  intros Hok Hc Hrd. pose proof (ok_cluster _ Hok).
  pose proof (for_exit_ind (λ (_ : Z) (s : fat32_fs D * C), fs_ok (fst s) ∧ same_volume fs (fst s))
    (λ r _, r ≠ FAT32_EIO) 0 (sectors_per_cluster fs) (scan_sector callback cl) (fs, c)
    ltac:(lia)) as Hl.
  destruct (for_exit _ _ _ (fs, c)) as [[r|] s'] eqn:E; [|done]. cbn. intros [= ->].
  apply Hl; [by split; [|reflexivity]| |done]. clear Hl E.
  intros i [fs1 c1] Hi [Hok1 Hv1]. cbn [fst] in *.
  destruct (same_volume_sectors _ _ Hv1) as (_ & _ & _ & _ & E3 & _ & E5 & _).
  assert (0 ≤ i < sectors_per_cluster fs1) as Hi1 by lia.
  destruct (scan_sector callback cl i (fs1, c1)) as [r2 [fs2 c2]] eqn:Er.
  destruct (scan_sector_spec callback cl i fs1 c1 r2 fs2 c2 Hok1 ltac:(by rewrite E3) Hi1 Er)
    as (Hok2 & Hv2 & Hcase).
  destruct Hcase as [->|([|] & -> & _)]; [exfalso|done|cbn [fst]; split; [done|by etransitivity]].
  destruct (cluster_sector_spec fs1 cl i Hok1 ltac:(by rewrite E3) Hi1) as (Ecs & Hlo & Hhi).
  pose proof (ok_fat _ Hok1). pose proof (ok_start _ Hok1).
  assert (readable (device fs1) (volume_start fs1 + cluster_sector fs1 cl i)) as Hr1
    by (apply (volume_readable_same _ _ Hrd Hv1); lia).
  pose proof (read_sector_readable (cluster_sector fs1 cl i) fs1 Hok1 ltac:(lia) Hhi Hr1) as E.
  unfold scan_sector in Er. rewrite Ecs in Er.
  destruct (read_sector _ fs1) as [r3 fs3]. cbn in E. subst r3. unfold for_exit in Er.
  rewrite scan_entries_spec in Er; [by destruct (fold_entries _ _ c1) as [[|] ?]|].
  apply Forall_forall. intros k Hk. apply elem_of_range in Hk. lia.
Qed.

(** On a readable volume a scan the specification describes succeeds. *)
Lemma scan_clusters_complete {C} (callback : dirent → C → Z * C) n fuel cl visited fs c c' :
  fs_ok fs → cluster_in fs cl → volume_readable fs → 0 ≤ visited → visited + n ≤ cluster_count fs →
  n ≤ Z.of_nat fuel → scans_within n callback fs cl c c' →
  ∃ fs', scan_clusters callback fuel cl visited (fs, c) = Some (FAT32_OK, (fs', c')).
Proof.
  intros Hok Hc Hrd Hv Hn Hf (l & st & H1 & H2 & H3 & H4 & H5 & H6).
  revert fuel cl visited n fs c Hok Hc Hrd Hv Hn Hf H1 H2 H3 H4 H5 H6.
  induction l as [|cl0 l IH]; intros fuel cl visited n fs c Hok Hc Hrd Hv Hn Hf H1 H2 H3 H4 H5 H6;
    [done|]. injection H1 as ->.
  assert (lenZ (cl :: l) = lenZ l + 1) as El by (unfold lenZ; cbn [length]; lia).
  pose proof (lenZ_nonneg l). destruct fuel as [|fuel]; [lia|]. cbn [scan_clusters].
  pose proof (ok_count _ Hok) as Hcnt.
  rewrite (proj2 (valid_cluster_spec fs cl Hok ltac:(unfold cluster_in in Hc; lia)) Hc).
  cbn [negb]. cbv zeta. rewrite u32_small, (proj2 (Z.ltb_ge _ _)) by lia.
  pose proof (scan_cluster_readable callback cl fs c Hok Hc Hrd) as Hnio.
  destruct (for_exit _ _ _ (fs, c)) as [r1 [fs1 c1]] eqn:Er. cbn [fst] in Hnio.
  destruct (scan_cluster_spec callback cl fs c r1 fs1 c1 Hok Hc Er) as (Hok1 & Hv1 & Hcase).
  destruct Hcase as [->|(stopped & -> & Hf1)]; [done|].
  change (dir_raws fs (cl :: l)) with (cluster_raws fs cl ++ dir_raws fs l) in H5.
  rewrite fold_entries_app, Hf1 in H5. destruct stopped.
  { injection H5 as <- <-. by exists fs1. }
  destruct (same_volume_sectors _ _ Hv1) as (_ & E1 & _ & _ & E3 & _ & _ & E4 & _).
  pose proof (volume_readable_same _ _ Hrd Hv1) as Hrd1.
  destruct (fat_entry_place fs1 cl Hok1 ltac:(by rewrite E3)) as (_ & P2 & _).
  pose proof (ok_fat _ Hok1). pose proof (ok_start _ Hok1).
  pose proof (ok_count _ Hok1). pose proof (ok_cluster _ Hok1).
  assert (readable (device fs1) (volume_start fs1 + (fat_start fs1 + 4 * cl / bytes_per_sector fs1)))
    as Hrt by (apply Hrd1; unfold volume_end; nia).
  pose proof (next_cluster_readable cl fs1 Hok1 ltac:(by rewrite E3) Hrt) as Hnio2.
  destruct (next_cluster cl fs1) as [[r2 nx] fs2] eqn:En. cbn in Hnio2.
  destruct (next_cluster_spec cl fs1 r2 nx fs2 Hok1 ltac:(by rewrite E3) En) as (Hok2 & Hv2 & _ & Hcase).
  assert (same_volume fs fs2) as Hv02 by (etransitivity; [exact Hv1|exact Hv2]).
  rewrite E1 in Hcase. destruct l as [|d l].
  - cbn in H5. injection H5 as <- <-.
    destruct H6 as [|(z & [= <-] & Hlast)]; [done|]. rewrite Hlast in Hcase.
    destruct Hcase as [?|[(-> & -> & _)|[(_ & _ & _ & ?)|[_ ?]]]]; try done. by exists fs2.
  - destruct H2 as [Hl H2]. rewrite Hl in Hcase.
    destruct Hcase as [?|[(_ & _ & ?)|[(-> & Hnx & Hin & [= <-])|[_ ?]]]]; try done.
    rewrite (proj2 (Z.eqb_neq _ _)) by done.
    destruct (same_volume_sectors _ _ Hv02) as (_ & F1 & F2 & _ & F3 & _ & _ & F4 & _).
    destruct (same_volume_raws _ _ Hv02) as (_ & F5). inversion H3 as [|? ? _ H3']; subst.
    apply (IH fuel d (visited + 1) (n - 1)); try done; try lia.
    + by rewrite F3, <- E3.
    + by apply (volume_readable_same fs).
    + by rewrite F2.
    + by rewrite F3.
    + by rewrite F5.
    + by rewrite F1.
Qed.

Lemma scan_cluster_geometry {C} (callback : dirent → C → Z * C) cl n fs c :
  same_geometry fs (fst (snd (for_exit 0 n (scan_sector callback cl) (fs, c)))).
Proof.
  apply (for_exit_preserves (λ s : fat32_fs D * C, same_geometry fs (fst s))); [|reflexivity].
  intros i [fs1 c1] H1. cbn [fst] in H1. unfold scan_sector. cbv zeta.
  pose proof (read_sector_geometry (data_start fs1 +u (cl -u 2) *u sectors_per_cluster fs1 +u i) fs1)
    as H2.
  destruct (read_sector _ fs1) as [r fs2]. cbn in H2.
  destruct r; try (cbn; by etransitivity).
  apply (for_exit_preserves (λ s : fat32_fs D * C, same_geometry fs (fst s))); [|by etransitivity].
  intros k [fs3 c3] H3. unfold scan_entry. cbv zeta. destruct (nthZ _ 0 =? 0); [done|].
  destruct (entry_from_raw _); [|done]. by destruct (callback _ c3).
Qed.

(** Every scan ends, with the geometry as it was. *)
Lemma scan_clusters_total {C} (callback : dirent → C → Z * C) fuel cl visited fs c :
  0 ≤ cluster_count fs < 2 ^ 32 - 1 → 0 ≤ visited ≤ cluster_count fs →
  cluster_count fs - visited < Z.of_nat fuel →
  ∃ r fs' c', scan_clusters callback fuel cl visited (fs, c) = Some (r, (fs', c')) ∧
    same_geometry fs fs'.
Proof.
  revert cl visited fs c. induction fuel as [|fuel IH]; intros cl visited fs c Hc Hv Hf; [lia|].
  cbn [scan_clusters]. destruct (negb _); [by eexists _, fs, c|]. cbv zeta. rewrite u32_small by lia.
  destruct (Z.ltb_spec (cluster_count fs) (visited + 1)); [by eexists _, fs, c|].
  pose proof (scan_cluster_geometry callback cl (sectors_per_cluster fs) fs c) as Hg.
  destruct (for_exit _ _ _ (fs, c)) as [[r|] [fs1 c1]]; [by eexists r, fs1, c1|]. cbn in Hg.
  pose proof (next_cluster_geometry cl fs1) as Hg2.
  destruct (next_cluster cl fs1) as [[r nx] fs2]. cbn in Hg2.
  assert (same_geometry fs fs2) as Hg02 by (etransitivity; [exact Hg|exact Hg2]).
  destruct (same_geometry_count _ _ Hg02) as [E _].
  destruct r; try (by eexists _, fs2, c1).
  destruct (nx =? END_OF_CHAIN); [by eexists _, fs2, c1|].
  destruct (IH nx (visited + 1) fs2 c1) as (r & fs3 & c3 & Es & Hg3); [lia|lia|lia|].
  exists r, fs3, c3. split; [done|]. etransitivity; [exact Hg02|exact Hg3].
Qed.

Lemma scan_directory_total {C} (callback : dirent → C → Z * C) cl fs c :
  0 ≤ cluster_count fs < 2 ^ 32 - 1 →
  ∃ r fs' c', scan_directory callback cl (fs, c) = Some (r, (fs', c')) ∧ same_geometry fs fs'.
Proof.
  intros Hc. unfold scan_directory. cbn [fst].
  destruct (negb _); [by eexists _, fs, c|].
  apply scan_clusters_total; unfold chain_fuel; lia.
Qed.

(** *** Paths *)

Lemma count_while_stop f l x rest :
  drop (Z.to_nat (count_while f l)) l = x :: rest → f x = false.
Proof.
  induction l as [|c l IH]; [done|]. cbn [count_while]. destruct (f c) eqn:Ec; cycle 1.
  { intros [= <- _]. done. }
  pose proof (count_while_range f l).
  replace (Z.to_nat (1 + count_while f l)) with (S (Z.to_nat (count_while f l))) by lia. apply IH.
Qed.

(** The position after the separators. *)
Definition skip (path : list Z) (pos : Z) : Z :=
  pos + count_while is_separator (drop (Z.to_nat pos) path).

Lemma skip_le path pos : pos ≤ skip path pos.
Proof.
  pose proof (count_while_range is_separator (drop (Z.to_nat pos) path)). unfold skip. lia.
Qed.

Lemma skip_stop path pos x rest :
  0 ≤ pos → drop (Z.to_nat (skip path pos)) path = x :: rest → is_separator x = false.
Proof.
  intros Hp. unfold skip. pose proof (count_while_range is_separator (drop (Z.to_nat pos) path)).
  rewrite Z2Nat.inj_add, <- drop_drop by lia. apply count_while_stop.
Qed.

Lemma skip_skip path pos : 0 ≤ pos → skip path (skip path pos) = skip path pos.
Proof.
  intros Hp. unfold skip at 1.
  destruct (drop (Z.to_nat (skip path pos)) path) as [|x rest] eqn:E; [cbn; lia|].
  cbn [count_while]. rewrite (skip_stop path pos x rest) by done. lia.
Qed.

(** Skipping separators first does not change the component found. *)
Lemma component_skip path pos r p w :
  0 ≤ pos → 0 ≤ r → component path (skip path pos) = (r, p, w) ↔ component path pos = (r, p, w).
Proof.
  intros Hp Hr. unfold component. fold (skip path pos) (skip path (skip path pos)).
  rewrite skip_skip by done. destruct (_ =? 0); [done|]. case_match; [|done].
  split; intros [= <- _ _]; lia.
Qed.

Lemma component_advances path pos p w :
  0 ≤ pos → component path pos = (1, p, w) → pos < p ≤ lenZ path.
Proof.
  intros Hpos. unfold component.
  pose proof (count_while_range is_separator (drop (Z.to_nat pos) path)) as Hs.
  set (q := pos + count_while is_separator (drop (Z.to_nat pos) path)) in *.
  destruct (Z.eqb_spec (nthZ path q) 0) as [|Hq]; [done|].
  destruct (Z.ltb_spec (FAT32_NAME_SIZE - 1)
    (count_while (λ c, negb ((c =? 0) || is_separator c)) (drop (Z.to_nat q) path))); [done|].
  intros [= <- _]. assert (q < lenZ path) as Hql.
  { destruct (decide (lenZ path ≤ q)); [|lia]. by rewrite nthZ_ge in Hq. }
  destruct (drop (Z.to_nat q) path) as [|x rest] eqn:Ed.
  { apply (f_equal length) in Ed. rewrite length_drop in Ed. unfold lenZ in *. simpl in Ed. lia. }
  assert (nthZ path q = x) as Ex.
  { apply nthZ_lookup; [|lia]. pose proof (lookup_drop path (Z.to_nat q) 0) as El.
    rewrite Ed, Nat.add_0_r in El. done. }
  pose proof (count_while_range (λ c, negb ((c =? 0) || is_separator c)) (x :: rest)) as Hn.
  pose proof (f_equal length Ed) as Hlen. rewrite length_drop in Hlen. cbn [length] in *.
  enough (1 ≤ count_while (λ c, negb ((c =? 0) || is_separator c)) (x :: rest)) by (unfold lenZ in *; lia).
  assert (is_separator x = false) as Hx.
  { apply (skip_stop path pos x rest Hpos). done. }
  cbn [count_while]. rewrite (proj2 (Z.eqb_neq x 0)), Hx by congruence. cbn [orb negb].
  pose proof (count_while_range (λ c, negb ((c =? 0) || is_separator c)) rest). lia.
Qed.

Lemma component_cases path pos : ∃ p w,
  component path pos = (-1, pos, w) ∨
  component path pos = (0, skip path pos, w) ∧ nthZ path (skip path pos) = 0 ∨
  component path pos = (1, p, w) ∧ nthZ path (skip path pos) ≠ 0.
Proof.
  unfold component. fold (skip path pos).
  destruct (Z.eqb_spec (nthZ path (skip path pos)) 0); [by exists 0, []; right; left|].
  case_match; [exists 0; eexists; by left|eexists _, _; by right; right].
Qed.

Lemma components_skip path pos ws :
  0 ≤ pos → components path (skip path pos) ws ↔ components path pos ws.
Proof.
  intros Hp.
  assert (∀ r p w, 0 ≤ r → component path (skip path pos) = (r, p, w) ↔ component path pos = (r, p, w))
    as Hs by (intros; by apply component_skip).
  split; intros H; inversion H as [? p w E|? p w ws' E Hc]; subst;
    apply Hs in E; try lia; by econstructor.
Qed.

(** A path with nothing but separators left has no more components, and conversely. *)
Lemma components_nil path pos : 0 ≤ pos → components path pos [] ↔ nthZ path (skip path pos) = 0.
Proof.
  intros Hp. destruct (component_cases path pos) as (p & w & [E|[[E Hn]|[E Hn]]]).
  - split.
    + intros H. inversion H as [? ? ? E'|]; subst. by rewrite E in E'.
    + intros Hz. unfold component in E. fold (skip path pos) in E.
      by rewrite (proj2 (Z.eqb_eq _ _) Hz) in E.
  - split; [done|]. intros _. by econstructor.
  - split; [|done]. intros H. inversion H as [? ? ? E'|]; subst. by rewrite E in E'.
Qed.

(** *** The entries found *)

Lemma raw_at_bytes b k : bytes b → bytes (raw_at b k).
Proof. intros. by apply Forall_take, Forall_drop. Qed.

Lemma dir_raws_bytes fs l : Forall bytes (dir_raws fs l).
Proof.
  unfold dir_raws, cluster_raws. apply Forall_forall. intros raw Hr.
  apply list_elem_of_bind in Hr as (c & Hr & _). apply list_elem_of_bind in Hr as (i & Hr & _).
  apply list_elem_of_fmap in Hr as (k & -> & _). apply raw_at_bytes, contents_bytes.
Qed.

Lemma elem_of_entries raws e : e ∈ entries_of raws → ∃ raw, raw ∈ raws ∧ entry_from_raw raw = Some e.
Proof.
  induction raws as [|raw raws IH]; cbn [entries_of]; [by rewrite elem_of_nil|].
  destruct (nthZ raw 0 =? 0); [by rewrite elem_of_nil|].
  assert (e ∈ entries_of raws → ∃ raw', raw' ∈ raw :: raws ∧ entry_from_raw raw' = Some e) as Hnext.
  { intros He. destruct (IH He) as (raw' & ? & ?). exists raw'. split; [by right|done]. }
  destruct (entry_from_raw raw) as [e'|] eqn:Ee; [|exact Hnext].
  intros [->|He]%elem_of_cons; [|by apply Hnext]. exists raw. split; [by left|done].
Qed.

(** The search with [find_callback], and the entries of a directory. *)
Lemma find_fold w raws e0 st e :
  fold_entries (find_callback w) raws (e0, false) = (st, (e, true)) ↔
  st = true ∧ ∃ before after, entries_of raws = before ++ e :: after ∧ same_name (name e) w ∧
    Forall (λ e', ¬ same_name (name e') w) before.
Proof.
  revert e0. induction raws as [|raw raws IH]; intros e0; cbn [fold_entries entries_of].
  { split; [done|]. by intros (_ & [|] & ? & ? & _). }
  destruct (nthZ raw 0 =? 0). { split; [done|]. by intros (_ & [|] & ? & ? & _). }
  destruct (entry_from_raw raw) as [e'|]; [|apply IH].
  unfold find_callback at 1. destruct (names_equal_spec (name e') w) as [Hs|Hs].
  - change (negb (1 =? 0)) with true. cbv iota. split.
    + intros [= <- <-]. split; [done|]. by exists [], (entries_of raws).
    + intros (-> & [|e1 before] & after & E & Hn & Hb); injection E as -> _; [done|].
      by apply Forall_cons in Hb as [? _].
  - change (negb (0 =? 0)) with false. cbv iota. rewrite IH. split.
    + intros (-> & before & after & -> & Hn & Hb). split; [done|].
      exists (e' :: before), after. split; [done|split; [done|by constructor]].
    + intros (-> & [|e1 before] & after & E & Hn & Hb); injection E as -> E; [done|].
      apply Forall_cons in Hb as [_ Hb]. split; [done|]. by exists before, after.
Qed.

Lemma found_scan fs c w e e0 : scans (find_callback w) fs c (e0, false) (e, true) ↔ found_in fs c w e.
Proof.
  split.
  - intros (l & st & H1 & H2 & H3 & H4 & Hf & _). apply find_fold in Hf as (_ & before & after & Hf).
    by exists l, before, after.
  - intros (l & before & after & H1 & H2 & H3 & H4 & Hf). exists l, true.
    do 4 (split; [done|]). split; [|by left]. apply find_fold. split; [done|]. by exists before, after.
Qed.

Lemma entry_ranges raw e : bytes raw → entry_from_raw raw = Some e →
  0 ≤ size e < 2 ^ 32 ∧ 0 ≤ first_cluster e < 2 ^ 32.
Proof.
  intros Hb. unfold entry_from_raw.
  match goal with |- (if ?c then _ else _) = _ → _ => destruct c end; [done|].
  cbv zeta. intros [= <-]. cbn [size first_cluster]. split; [by apply fat32_range|].
  apply lor_range; [lia|apply u32_range|]. pose proof (fat16_range raw 26 Hb). lia.
Qed.

(** A name found in a directory is that of an entry of it. *)
Lemma found_in_entry fs c w e : found_in fs c w e →
  same_name (name e) w ∧ 0 ≤ size e < 2 ^ 32 ∧ 0 ≤ first_cluster e < 2 ^ 32.
Proof.
  intros (l & before & after & _ & _ & _ & _ & Hf & Hn & _). split; [done|].
  destruct (elem_of_entries (dir_raws fs l) e) as (raw & Hin & He).
  { rewrite Hf. apply elem_of_app. right. by left. }
  apply (entry_ranges raw); [|done].
  pose proof (dir_raws_bytes fs l) as Hb. rewrite Forall_forall in Hb. by apply Hb.
Qed.

Lemma resolves_ranges fs dir ws e : fs_ok fs → resolves fs dir ws e →
  0 ≤ size e < 2 ^ 32 ∧ 0 ≤ first_cluster e < 2 ^ 32.
Proof.
  intros Hok. induction 1 as [|? ? ? ? _ _ IH|? ? ? _ Hf|? ? ? ? ? _ _ _ _ _ _ IH]; try done.
  - pose proof (ok_root _ Hok). pose proof (ok_count _ Hok). cbn [size first_cluster]. lia.
  - by apply found_in_entry in Hf as [_ ?].
Qed.

Lemma agree_found fs fs' c w e : agree fs fs' → found_in fs' c w e → found_in fs c w e.
Proof.
  intros H. rewrite <- !(found_scan _ _ _ _ e). unfold scans. pose proof H as (_ & _ & _ & _ & E & _).
  rewrite E. intros Hs. by apply (agree_scans _ _ fs fs').
Qed.

Lemma agree_resolves fs fs' dir ws e : agree fs fs' → resolves fs' dir ws e → resolves fs dir ws e.
Proof.
  intros H. pose proof H as (_ & _ & _ & E1 & _ & E2).
  induction 1 as [| | |? ? ? ? ? ? Hf ? ? ? ? IH].
  - rewrite E2. constructor.
  - by apply resolves_dot.
  - apply resolves_last; [done|]. by apply (agree_found fs fs').
  - apply (resolves_in fs _ _ _ d); [done|by apply (agree_found fs fs')|done| |done|done].
    by rewrite <- E1.
Qed.

(** *** Looking paths up *)

(** The directory scan of the specification, and the code's. *)
Lemma scan_directory_spec {C} (callback : dirent → C → Z * C) cl fs c r fs' c' :
  fs_ok fs → cluster_in fs cl →
  scan_directory callback cl (fs, c) = Some (r, (fs', c')) →
  fs_ok fs' ∧ same_volume fs fs' ∧ (r = FAT32_OK → scans callback fs cl c c').
Proof.
  intros Hok Hc. pose proof (ok_count _ Hok). unfold scan_directory. cbn [fst].
  rewrite (proj2 (valid_cluster_spec fs cl Hok ltac:(unfold cluster_in in Hc; lia)) Hc).
  cbn [negb]. intros E.
  assert (0 ≤ 0 ≤ cluster_count fs) as Hv by lia.
  destruct (scan_clusters_spec _ _ _ _ _ _ _ _ _ Hok Hc Hv E) as (H1 & H2 & H3).
  split; [done|split; [done|]]. unfold scans. by rewrite <- (Z.sub_0_r (cluster_count fs)).
Qed.

Lemma scan_directory_complete {C} (callback : dirent → C → Z * C) cl fs c c' :
  fs_ok fs → cluster_in fs cl → volume_readable fs → scans callback fs cl c c' →
  ∃ fs', scan_directory callback cl (fs, c) = Some (FAT32_OK, (fs', c')).
Proof.
  intros Hok Hc Hrd Hs. pose proof (ok_count _ Hok). unfold scan_directory. cbn [fst].
  rewrite (proj2 (valid_cluster_spec fs cl Hok ltac:(unfold cluster_in in Hc; lia)) Hc).
  cbn [negb].
  apply (scan_clusters_complete _ (cluster_count fs)); try done; unfold chain_fuel; lia.
Qed.

Lemma lookup_step_total path pos dir fs e :
  0 ≤ cluster_count fs < 2 ^ 32 - 1 → 0 ≤ pos →
  ∃ round fs' e', lookup_step path pos dir (fs, e) = Some (round, (fs', e')) ∧ same_geometry fs fs' ∧
    ∀ pos' dir', round = Descend pos' dir' → pos < pos' ≤ lenZ path.
Proof.
  intros Hc Hpos. unfold lookup_step.
  destruct (component_cases path pos) as (p & w & [->|[[-> _]|[E _]]]).
  - by eexists _, fs, e.
  - change (0 <? 0) with false. change (0 =? 0) with true. cbv iota.
    destruct (_ || _)%bool; by eexists _, fs, _.
  - rewrite E. change (1 <? 0) with false. change (1 =? 0) with false. cbv iota.
    pose proof (component_advances path pos p w Hpos E) as Hp.
    destruct (names_equal w [46]).
    { eexists _, fs, e. split; [done|split; [reflexivity|]]. by intros ? ? [= <- <-]. }
    destruct (scan_directory_total (find_callback w) dir fs (e, false) Hc)
      as (r & fs1 & [e1 found] & -> & Hg).
    destruct r; try by eexists _, fs1, e1.
    destruct (negb found); [by eexists _, fs1, e1|]. fold (skip path p).
    destruct (negb (nthZ path (skip path p) =? 0)); [|by eexists _, fs1, e1].
    destruct (_ =? 0); [by eexists _, fs1, e1|].
    destruct (negb _); [by eexists _, fs1, e1|].
    eexists _, fs1, e1. split; [done|split; [done|]]. intros ? ? [= <- _].
    pose proof (skip_le path p). unfold skip in *.
    pose proof (count_while_range is_separator (drop (Z.to_nat p) path)) as Hr.
    rewrite length_drop in Hr. unfold lenZ in *. lia.
Qed.

(** Looking a path up ends, on any volume. *)
Lemma lookup_loop_total fuel path pos dir fs e :
  0 ≤ cluster_count fs < 2 ^ 32 - 1 → 0 ≤ pos ≤ lenZ path → lenZ path - pos < Z.of_nat fuel →
  ∃ r fs' e', lookup_loop fuel path pos dir (fs, e) = Some (r, (fs', e')) ∧ same_geometry fs fs'.
Proof.
  revert pos dir fs e. induction fuel as [|fuel IH]; intros pos dir fs e Hc Hp Hf; [lia|].
  cbn [lookup_loop].
  destruct (lookup_step_total path pos dir fs e Hc ltac:(lia)) as ([r|pos' dir'] & fs1 & e1 & -> & Hg & Hd).
  { by exists r, fs1, e1. }
  specialize (Hd pos' dir' eq_refl). destruct (same_geometry_count _ _ Hg) as [E _].
  destruct (IH pos' dir' fs1 e1) as (r & fs2 & e2 & El & Hg2); [lia|lia|lia|].
  exists r, fs2, e2. split; [done|]. etransitivity; [exact Hg|exact Hg2].
Qed.

Lemma lookup_total path fs e :
  0 ≤ cluster_count fs < 2 ^ 32 - 1 →
  ∃ r fs' e', lookup path (fs, e) = Some (r, (fs', e')) ∧ same_geometry fs fs'.
Proof.
  intros Hc. unfold lookup. apply lookup_loop_total; [done|unfold lenZ; lia|unfold lenZ; lia].
Qed.

(** A round of [lookup]. *)
Lemma lookup_loop_spec fuel path pos dir fs e r fs' e' :
  fs_ok fs → cluster_in fs dir → 0 ≤ pos → (pos = 0 → dir = root_cluster fs) →
  lookup_loop fuel path pos dir (fs, e) = Some (r, (fs', e')) →
  fs_ok fs' ∧ same_volume fs fs' ∧
  (r = FAT32_OK → ∃ ws, components path pos ws ∧ resolves fs dir ws e').
Proof.
  revert pos dir fs e. induction fuel as [|fuel IH]; intros pos dir fs e Hok Hd Hpos Hroot E; [done|].
  cbn [lookup_loop] in E. unfold lookup_step in E.
  destruct (component_cases path pos) as (p & w & [Ec|[[Ec Hz]|[Ec Hz]]]); rewrite Ec in E.
  - injection E as <- <- <-. split; [done|split; [reflexivity|done]].
  - change (0 <? 0) with false in E. change (0 =? 0) with true in E. cbv iota in E.
    destruct ((skip path pos =? 0) || (dir =? root_cluster fs))%bool eqn:Er;
      injection E as <- <- <-; (split; [done|split; [reflexivity|]]); [|done].
    intros _. exists []. split; [by econstructor|].
    assert (dir = root_cluster fs) as ->; [|constructor].
    apply orb_prop in Er as [Er|Er]; apply Z.eqb_eq in Er; [|done]. apply Hroot.
    pose proof (skip_le path pos). lia.
  - change (1 <? 0) with false in E. change (1 =? 0) with false in E. cbv iota in E.
    pose proof (component_advances path pos p w Hpos Ec) as Hp.
    destruct (names_equal_spec w [46]) as [Edot|Edot].
    { apply IH in E; [|done|done|lia|lia]. destruct E as (? & ? & Hr).
      split; [done|split; [done|]]. intros Hro. destruct (Hr Hro) as (ws & Hcs & Hrs).
      exists (w :: ws). split; [by econstructor|by apply resolves_dot]. }
    destruct (scan_directory (find_callback w) dir (fs, (e, false))) as [[r1 [fs1 [e1 found]]]|] eqn:Es;
      [|done].
    destruct (scan_directory_spec _ _ _ _ _ _ _ Hok Hd Es) as (Hok1 & Hv1 & Hscan).
    destruct r1; try (injection E as <- <- <-; split; [done|split; [done|done]]).
    destruct found; cbn [negb] in E; [|injection E as <- <- <-; split; [done|split; [done|done]]].
    assert (found_in fs dir w e1) as Hf by (apply (found_scan _ _ _ _ e); by apply Hscan).
    destruct (found_in_entry _ _ _ _ Hf) as (_ & _ & Hfc).
    fold (skip path p) in E. destruct (Z.eqb_spec (nthZ path (skip path p)) 0) as [Hend|Hmore];
      cbn [negb] in E.
    { injection E as <- <- <-. split; [done|split; [done|]]. intros _. exists [w].
      split; [|by apply resolves_last]. econstructor; [exact Ec|].
      apply components_nil; [lia|done]. }
    destruct (Z.eqb_spec (attributes e1 .& 0x10) 0) as [|Hattr];
      [injection E as <- <- <-; split; [done|split; [done|done]]|].
    destruct (valid_cluster fs1 (first_cluster e1)) eqn:Ev; cbn [negb] in E;
      [|injection E as <- <- <-; split; [done|split; [done|done]]].
    apply valid_cluster_spec in Ev; [|done|lia].
    pose proof (skip_le path p). apply IH in E; [|done|done|lia|lia].
    destruct E as (Hok2 & Hv2 & Hr). split; [done|]. split; [by etransitivity|].
    intros Hro. destruct (Hr Hro) as (ws & Hcs & Hrs). exists (w :: ws).
    apply (proj1 (components_skip path p ws ltac:(lia))) in Hcs.
    split; [by econstructor|].
    destruct (same_volume_sectors _ _ Hv1) as (_ & _ & _ & _ & E3 & _).
    apply (resolves_in fs dir w ws e1); [done|done|done|by rewrite <- E3| |].
    + intros ->. apply components_nil in Hcs; [done|lia].
    + by apply (agree_resolves fs fs1); [apply same_volume_agree|].
Qed.

Lemma lookup_loop_complete fuel path pos dir ws fs e e' :
  fs_ok fs → cluster_in fs dir → volume_readable fs → 0 ≤ pos ≤ lenZ path →
  lenZ path - pos < Z.of_nat fuel → components path pos ws → resolves fs dir ws e' →
  ∃ fs', lookup_loop fuel path pos dir (fs, e) = Some (FAT32_OK, (fs', e')).
Proof.
  revert pos dir ws fs e. induction fuel as [|fuel IH];
    intros pos dir ws fs e Hok Hd Hrd Hpos Hf Hcs Hrs; [lia|].
  cbn [lookup_loop]. unfold lookup_step. inversion Hcs as [? p w Ec|? p w ws' Ec Hcs']; subst.
  - inversion Hrs; subst. rewrite Ec. change (0 <? 0) with false. change (0 =? 0) with true.
    cbv iota. rewrite Z.eqb_refl, orb_true_r. by exists fs.
  - rewrite Ec. change (1 <? 0) with false. change (1 =? 0) with false. cbv iota.
    pose proof (component_advances path pos p w ltac:(lia) Ec) as Hp.
    destruct (names_equal_spec w [46]) as [Edot|Edot].
    { inversion Hrs; subst; try contradiction. apply (IH p dir ws'); try done; lia. }
    assert (∃ d, found_in fs dir w d ∧ ((ws' = [] ∧ d = e') ∨ (ws' ≠ [] ∧ is_directory d ∧
      cluster_in fs (first_cluster d) ∧ resolves fs (first_cluster d) ws' e'))) as (d & Hfd & Hcase).
    { inversion Hrs; subst; try contradiction; eexists; split; try done; [by left|by right]. }
    pose proof (proj2 (found_scan fs dir w d e) Hfd) as Hs.
    destruct (scan_directory_complete _ _ _ _ _ Hok Hd Hrd Hs) as [fs1 Es]. rewrite Es.
    destruct (scan_directory_spec _ _ _ _ _ _ _ Hok Hd Es) as (Hok1 & Hv1 & _).
    cbn [negb]. fold (skip path p).
    assert (skip path p ≤ lenZ path) as Hskip.
    { unfold skip. pose proof (count_while_range is_separator (drop (Z.to_nat p) path)) as Hr.
      rewrite length_drop in Hr. unfold lenZ in *. lia. }
    pose proof (skip_le path p). pose proof (components_nil path p ltac:(lia)) as Hnil.
    destruct Hcase as [[-> ->]|(Hne & Hdir & Hin & Hrs')].
    { apply Hnil in Hcs'. rewrite Hcs'. by exists fs1. }
    destruct (Z.eqb_spec (nthZ path (skip path p)) 0) as [E0|E0]; cbn [negb].
    { apply Hnil in E0. inversion E0; subst. inversion Hcs'; subst; congruence. }
    rewrite (proj2 (Z.eqb_neq _ _)) by done. pose proof (same_volume_agree _ _ Hv1) as Hag.
    pose proof Hag as (_ & _ & _ & E4 & E5 & _).
    pose proof (ok_count _ Hok). unfold cluster_in in Hin.
    rewrite (proj2 (valid_cluster_spec fs1 (first_cluster d) Hok1 ltac:(lia)))
      by (unfold cluster_in; lia).
    cbn [negb]. apply (IH (skip path p) (first_cluster d) ws'); try done; try lia.
    + rewrite E4. done.
    + by apply (volume_readable_same fs).
    + apply components_skip; [lia|done].
    + apply (agree_resolves fs1 fs); [by symmetry|done].
Qed.

(** *** The operations end *)

Lemma list_directory_total {C} (callback : dirent → C → Z * C) path fs c :
  0 ≤ cluster_count fs < 2 ^ 32 - 1 →
  ∃ r fs' c', fat32_list_directory path callback fs c = Some (r, (fs', c')) ∧ same_geometry fs fs'.
Proof.
  intros Hc. unfold fat32_list_directory. destruct (negb (mounted fs)); [by eexists _, fs, c|].
  destruct (lookup_total (default [47] path) fs (mk_dirent [] 0 0 0) Hc) as (r & fs1 & e & -> & Hg).
  destruct r; try by eexists _, fs1, c. destruct (_ =? 0); [by eexists _, fs1, c|].
  destruct (same_geometry_count _ _ Hg) as [E _].
  destruct (scan_directory_total callback (first_cluster e) fs1 c ltac:(lia))
    as (r & fs2 & c2 & -> & Hg2).
  exists r, fs2, c2. split; [done|]. by etransitivity.
Qed.

Lemma read_file_total file buf capacity n0 fs :
  0 ≤ cluster_count fs < 2 ^ 32 - 1 →
  ∃ r n b' fs', fat32_read_file file buf capacity n0 fs = Some (r, n, b', fs').
Proof.
  intros Hc. unfold fat32_read_file. destruct file as [path|]; [|by eexists _, _, _, _].
  destruct (negb (mounted fs)); [by eexists _, _, _, _|].
  destruct (lookup_total path fs (mk_dirent [] 0 0 0) Hc) as (r & fs1 & e & -> & Hg).
  destruct (same_geometry_count _ _ Hg) as [E _].
  destruct r; try by eexists _, _, _, _. do 5 (case_match; [by eexists _, _, _, _|]).
  destruct (read_file_clusters _ _ 0 _) as [[r2 s2]|] eqn:Er; [destruct r2; by eexists _, _, _, _|].
  exfalso. revert Er. apply read_file_clusters_total; cbn [r_fs]; unfold chain_fuel; lia.
Qed.

(** What the callback keeps true, scanning keeps true. *)
Lemma scan_clusters_keeps {C} (callback : dirent → C → Z * C) (Q : C → Prop) fuel cl visited s r s' :
  (∀ e c, Q c → Q (snd (callback e c))) → Q (snd s) →
  scan_clusters callback fuel cl visited s = Some (r, s') → Q (snd s').
Proof.
  intros HQ. revert cl visited s. induction fuel as [|fuel IH]; intros cl visited s Hs E; [done|].
  cbn [scan_clusters] in E. destruct s as [fs c]. destruct (negb _); [by injection E as _ <-|].
  cbv zeta in E. destruct (_ <? _); [by injection E as _ <-|].
  assert (Q (snd (snd (for_exit 0 (sectors_per_cluster fs) (scan_sector callback cl) (fs, c))))) as H1.
  { apply (for_exit_preserves (λ s : fat32_fs D * C, Q (snd s))); [|done].
    intros i [fs1 c1] H1. unfold scan_sector. cbv zeta.
    destruct (read_sector _ fs1) as [r1 fs2]. destruct r1; try done.
    apply (for_exit_preserves (λ s : fat32_fs D * C, Q (snd s))); [|done].
    intros k [fs3 c3] H3. unfold scan_entry. cbv zeta. destruct (nthZ _ 0 =? 0); [done|].
    destruct (entry_from_raw _) as [en|]; [|done]. specialize (HQ en c3 H3). by destruct (callback en c3). }
  destruct (for_exit _ _ _ (fs, c)) as [[r1|] [fs1 c1]]; cbn [snd] in H1; [by injection E as _ <-|].
  destruct (next_cluster cl fs1) as [[r2 next] fs2].
  destruct r2; try (by injection E as _ <-).
  destruct (next =? END_OF_CHAIN); [by injection E as _ <-|].
  by apply (IH next (visited +u 1) (fs2, c1)).
Qed.

(** A listing, whatever its result, only reads the volume. *)
Lemma list_directory_spec {C} (callback : dirent → C → Z * C) path fs c r fs' c' :
  fs_ok fs → fat32_list_directory path callback fs c = Some (r, (fs', c')) →
  fs_ok fs' ∧ same_volume fs fs'.
Proof.
  intros Hok. unfold fat32_list_directory. rewrite (ok_mounted _ Hok). cbn [negb].
  destruct (lookup (default [47] path) (fs, mk_dirent [] 0 0 0)) as [[r1 [fs1 e]]|] eqn:El; [|done].
  unfold lookup in El. cbn [fst] in El.
  assert (cluster_in fs (root_cluster fs)) as Hroot by apply (ok_root _ Hok).
  apply lookup_loop_spec in El; [|done|done|done|done]. destruct El as (Hok1 & Hv1 & Hres).
  destruct r1; try (by intros [= _ <- _]).
  destruct (Hres eq_refl) as (ws & _ & Hrs). destruct (resolves_ranges fs _ _ _ Hok Hrs) as [_ Hfc].
  destruct (_ =? 0); [by intros [= _ <- _]|]. intros E. pose proof E as E'.
  unfold scan_directory in E'. cbn [fst] in E'.
  destruct (valid_cluster fs1 (first_cluster e)) eqn:Ev; cbn [negb] in E'; [|by injection E' as _ <- _].
  assert (cluster_in fs1 (first_cluster e)) as Hin by (apply valid_cluster_spec; [done|lia|done]).
  destruct (scan_directory_spec _ _ _ _ _ _ _ Hok1 Hin E) as (Hok2 & Hv2 & _).
  split; [done|by etransitivity].
Qed.

(** One sector of a directory, and of a file: only that sector is read. *)
Lemma scan_sector_reads {C} (callback : dirent → C → Z * C) cl i fs c :
  fs_ok fs → cluster_in fs cl → 0 ≤ i < sectors_per_cluster fs →
  reads (eq (volume_start fs + cluster_sector fs cl i)) (device fs)
    (device (fst (snd (scan_sector callback cl i (fs, c))))).
Proof.
  intros Hok Hc Hi. unfold scan_sector. pose proof (ok_fat _ Hok).
  destruct (cluster_sector_spec fs cl i Hok Hc Hi) as (-> & Hlo & Hhi).
  destruct (read_sector (cluster_sector fs cl i) fs) as [r fs1] eqn:Er.
  destruct (read_sector_spec (cluster_sector fs cl i) _ _ _ Hok ltac:(lia) Hhi Er) as (_ & _ & Hr & _).
  destruct r; try exact Hr.
  apply (for_exit_preserves (λ s : fat32_fs D * C, reads (eq (volume_start fs + cluster_sector fs cl i))
    (device fs) (device (fst s)))); [|exact Hr].
  intros k [fs2 c2] H2. unfold scan_entry. cbv zeta. destruct (nthZ _ 0 =? 0); [done|].
  destruct (entry_from_raw _) as [e|]; [|done]. by destruct (callback e c2).
Qed.

Lemma file_sector_reads cl i (s : reading (D := D)) :
  fs_ok (r_fs s) → cluster_in (r_fs s) cl → 0 ≤ i < sectors_per_cluster (r_fs s) →
  reads (eq (volume_start (r_fs s) + cluster_sector (r_fs s) cl i)) (device (r_fs s))
    (device (r_fs (snd (read_file_sector cl i s)))).
Proof.
  intros Hok Hc Hi. unfold read_file_sector. pose proof (ok_fat _ Hok).
  destruct (r_remaining s =? 0); [constructor|].
  destruct (cluster_sector_spec (r_fs s) cl i Hok Hc Hi) as (-> & Hlo & Hhi).
  destruct (read_sector (cluster_sector (r_fs s) cl i) (r_fs s)) as [r fs1] eqn:Er.
  destruct (read_sector_spec (cluster_sector (r_fs s) cl i) _ _ _ Hok ltac:(lia) Hhi Er) as (_ & _ & Hr & _).
  by destruct r.
Qed.

(** A listing ends, on a mounted volume leaves it mounted, and keeps what the callback
    keeps. *)
Lemma list_directory_safe {C} (callback : dirent → C → Z * C) (Q : C → Prop) path fs c :
  (∀ e c, Q c → Q (snd (callback e c))) → Q c → (mounted fs = true → fs_ok fs) →
  ∃ r fs' c', fat32_list_directory path callback fs c = Some (r, (fs', c')) ∧ Q c' ∧
    (mounted fs' = true → fs_ok fs').
Proof.
  intros HQ Hc Hm. destruct (mounted fs) eqn:Em; cycle 1.
  { unfold fat32_list_directory. rewrite Em. exists FAT32_EBADFS, fs, c. rewrite Em. done. }
  specialize (Hm eq_refl). pose proof (ok_count _ Hm).
  destruct (list_directory_total callback path fs c ltac:(lia)) as (r & fs' & c' & E & _).
  exists r, fs', c'. split; [exact E|].
  destruct (list_directory_spec callback path fs c r fs' c' Hm E) as [Hok' _]. split; [|done]. unfold fat32_list_directory in E. rewrite Em in E. cbn [negb] in E.
  destruct (lookup (default [47] path) (fs, mk_dirent [] 0 0 0)) as [[r1 [fs1 e]]|] eqn:El; [|done].
  destruct r1; try (by injection E as _ _ <-).
  destruct (_ =? 0); [by injection E as _ _ <-|]. unfold scan_directory in E. cbn [fst] in E.
  destruct (valid_cluster fs1 (first_cluster e)); cbn [negb] in E; [|by injection E as _ _ <-].
  exact (scan_clusters_keeps callback Q _ _ _ (fs1, c) r (fs', c') HQ Hc E).
Qed.
End lemmas.
(** ** Properties *)

Section properties.
Context {D : Type} {BD : BlockDevice D} {BDS : BlockDeviceSpec D}.
Implicit Types (fs : fat32_fs D).

(** What [fat32_read_file] returns. *)
Lemma read_file_spec fs path buf capacity n0 r n buf' fs' :
  fs_ok fs → 0 ≤ capacity < 2 ^ 32 → capacity ≤ lenZ buf →
  fat32_read_file (Some path) (Some buf) capacity n0 fs = Some (r, n, buf', fs') →
  fs_ok fs' ∧ same_volume fs fs' ∧ (r ≠ FAT32_OK → n = 0) ∧
  ∃ b', buf' = Some b' ∧ lenZ b' = lenZ buf ∧
    (r = FAT32_OK → ∃ ws e l,
       components path 0 ws ∧ resolves fs (root_cluster fs) ws e ∧ ¬ is_directory e ∧
       n = size e ∧ n ≤ capacity ∧ (0 < n → chain_for fs (first_cluster e) n l) ∧
       ∀ k, nthZ b' k = if decide (0 ≤ k < n) then file_byte fs l k else nthZ buf k).
Proof.
  intros Hok Hcap Hlen. unfold fat32_read_file. rewrite (ok_mounted _ Hok). cbn [negb].
  destruct (lookup path (fs, mk_dirent [] 0 0 0)) as [[r1 [fs1 e]]|] eqn:El; [|done].
  unfold lookup in El. cbn [fst] in El. assert (cluster_in fs (root_cluster fs)) as Hroot
    by apply (ok_root _ Hok).
  apply lookup_loop_spec in El; [|done|done|done|done]. destruct El as (Hok1 & Hv1 & Hres).
  assert (∀ r0, r0 ≠ FAT32_OK → Some (r0, 0, Some buf, fs1) = Some (r, n, buf', fs') →
    fs_ok fs' ∧ same_volume fs fs' ∧ (r ≠ FAT32_OK → n = 0) ∧
    ∃ b', buf' = Some b' ∧ lenZ b' = lenZ buf ∧
      (r = FAT32_OK → ∃ ws e l,
         components path 0 ws ∧ resolves fs (root_cluster fs) ws e ∧ ¬ is_directory e ∧
         n = size e ∧ n ≤ capacity ∧ (0 < n → chain_for fs (first_cluster e) n l) ∧
         ∀ k, nthZ b' k = if decide (0 ≤ k < n) then file_byte fs l k else nthZ buf k)) as Herr.
  { intros r0 Hr0 [= <- <- <- <-]. split; [done|split; [done|split; [done|]]]. by exists buf. }
  destruct r1; try by apply Herr. destruct (Hres eq_refl) as (ws & Hcs & Hrs). clear Hres.
  destruct (resolves_ranges fs _ _ _ Hok Hrs) as [Hsz Hfc].
  destruct (Z.eqb_spec (attributes e .& 0x10) 0) as [Hdir|]; cbn [negb]; [|by apply Herr].
  rewrite (bool_decide_eq_true_2 (is_Some (Some buf))) by done. rewrite andb_false_r.
  destruct (Z.ltb_spec capacity (size e)); [by apply Herr|].
  assert (¬ is_directory e) as Hnd by (intros Hd; apply Hd, Hdir).
  destruct (Z.eqb_spec (size e) 0) as [E0|Hne].
  { intros [= <- <- <- <-]. split; [done|split; [done|split; [done|]]]. exists buf.
    split; [done|split; [done|]]. intros _. exists ws, e, [].
    split_and!; try done; try lia. intros k. by rewrite decide_False by lia. }
  destruct (valid_cluster fs1 (first_cluster e)) eqn:Ev; cbn [negb]; [|by apply Herr].
  apply valid_cluster_spec in Ev; [|done|lia].
  set (s := mk_reading fs1 (default [] (Some buf)) 0 (size e)).
  destruct (read_file_clusters _ _ 0 s) as [[r2 s2]|] eqn:Erd; [|done].
  assert (reading_ok s) as Hs by (split; [done|]; cbn; lia).
  pose proof (read_file_clusters_spec _ _ _ s r2 s2 Hs Ev ltac:(cbn; lia) Erd) as Hcase.
  destruct (same_volume_sectors _ _ Hv1) as (_ & _ & E1 & _ & E2 & _).
  destruct (same_volume_bytes _ _ Hv1) as (_ & E3 & E4).
  destruct Hcase as [(-> & l & Hch & A1 & A2 & A3 & A4 & A5 & A6)|(F1 & F2 & F3)].
  - cbn [r_fs r_buffer r_copied r_remaining s default] in *. intros [= <- <- <- <-].
    split; [apply A1|]. split; [by etransitivity|]. split; [done|]. exists (r_buffer s2).
    split; [done|split; [done|]]. intros _. exists ws, e, l. rewrite A3.
    split_and!; try done; try lia.
    + intros _. unfold chain_for in *. rewrite E1, E2, E3 in Hch. done.
    + intros k. rewrite A6, E4, Z.sub_0_r. done.
  - cbn [r_fs r_buffer s default] in *. intros E. destruct r2; try done; injection E as <- <- <- <-;
      (split; [by apply (same_volume_ok fs1)|split; [by etransitivity|split; [done|]]]);
      by exists (r_buffer s2).
Qed.

(** C6. A successful [fat32_read_file] delivers the file the path names: the path
    leads, component by component, to an entry that is no directory, [*bytes_read]
    is its size, the buffer starts with the bytes of its cluster chain and is
    otherwise unchanged; a failure reports 0 bytes.  The volume stays as it was. *)
Theorem fat32_read_file_correct fs path buf capacity n0 r n buf' fs' :
  fs_ok fs → 0 ≤ capacity < 2 ^ 32 → capacity ≤ lenZ buf →
  fat32_read_file (Some path) (Some buf) capacity n0 fs = Some (r, n, buf', fs') →
  fs_ok fs' ∧ same_volume fs fs' ∧ (r ≠ FAT32_OK → n = 0) ∧
  ∃ b', buf' = Some b' ∧ lenZ b' = lenZ buf ∧
    (r = FAT32_OK → ∃ ws e l,
       components path 0 ws ∧ resolves fs (root_cluster fs) ws e ∧ ¬ is_directory e ∧
       n = size e ∧ n ≤ capacity ∧ (0 < n → chain_for fs (first_cluster e) n l) ∧
       ∀ k, nthZ b' k = if decide (0 ≤ k < n) then file_byte fs l k else nthZ buf k).
Proof. by apply read_file_spec. Qed.

(** When [fat32_read_file] succeeds. *)
Lemma read_file_complete fs path buf capacity n0 ws e :
  fs_ok fs → volume_readable fs → 0 ≤ capacity < 2 ^ 32 → capacity ≤ lenZ buf →
  components path 0 ws → resolves fs (root_cluster fs) ws e →
  (0 < size e → ∃ l, chain_for fs (first_cluster e) (size e) l ∧ lenZ l ≤ cluster_count fs) →
  ∃ b' fs', fat32_read_file (Some path) (Some buf) capacity n0 fs =
    Some ((if decide (is_directory e) then (FAT32_EISDIR, 0)
           else if decide (capacity < size e) then (FAT32_ENOSPC, 0)
           else (FAT32_OK, size e)), b', fs').
Proof.
  intros Hok Hrd Hcap Hlen Hcs Hrs Hch. unfold fat32_read_file. rewrite (ok_mounted _ Hok). cbn [negb].
  assert (cluster_in fs (root_cluster fs)) as Hroot by apply (ok_root _ Hok).
  assert (∃ fs1, lookup path (fs, mk_dirent [] 0 0 0) = Some (FAT32_OK, (fs1, e))) as [fs1 El].
  { apply (lookup_loop_complete _ _ _ _ ws); try done; unfold lenZ; lia. }
  rewrite El. unfold lookup in El. cbn [fst] in El.
  apply lookup_loop_spec in El; [|done|done|done|done]. destruct El as (Hok1 & Hv1 & _).
  destruct (resolves_ranges fs _ _ _ Hok Hrs) as [Hsz Hfc]. unfold is_directory.
  destruct (Z.eqb_spec (attributes e .& 0x10) 0) as [Hdir|Hdir]; cbn [negb];
    [rewrite decide_False by (intros Hd; by apply Hd)|rewrite decide_True by done; by eexists _, _].
  rewrite (bool_decide_eq_true_2 (is_Some (Some buf))) by done. rewrite andb_false_r.
  destruct (Z.ltb_spec capacity (size e));
    [rewrite decide_True by done; by eexists _, _|rewrite decide_False by lia].
  destruct (Z.eqb_spec (size e) 0) as [E0|Hne]; [rewrite E0; by eexists _, _|].
  destruct Hch as (l & (C1 & C2 & C3 & C4) & Hl); [lia|].
  assert (cluster_in fs (first_cluster e)) as Hin
    by (destruct l; [done|]; injection C1 as ->; by inversion C3).
  destruct (same_volume_sectors _ _ Hv1) as (_ & _ & E1 & _ & E2 & _ & _ & E3 & _).
  destruct (same_volume_bytes _ _ Hv1) as (_ & E4 & _).
  rewrite (proj2 (valid_cluster_spec fs1 (first_cluster e) Hok1 ltac:(lia))) by (by rewrite E2).
  cbn [negb]. set (s := mk_reading fs1 (default [] (Some buf)) 0 (size e)).
  assert (reading_ok s) as Hs by (split; [done|]; cbn; lia).
  destruct (read_file_clusters_complete (S (chain_fuel fs1)) (first_cluster e) 0 s l Hs) as [s2 E].
  - by apply (volume_readable_same fs).
  - cbn. lia.
  - cbn [r_fs r_remaining s]. unfold chain_for. by rewrite E1, E2, E4.
  - done.
  - cbn [r_fs s]. lia.
  - pose proof (ok_count _ Hok). unfold chain_fuel. lia.
  - rewrite E.
    destruct (read_file_clusters_spec _ _ _ s _ s2 Hs ltac:(cbn; by rewrite E2) ltac:(cbn; lia) E)
      as [(_ & l' & _ & _ & _ & -> & _)|[? _]]; [|done].
    by eexists _, _.
Qed.

(** C31. On a volume whose sectors can all be read, [fat32_read_file] succeeds on
    every path that leads to a file whose chain holds its size within the clusters
    there are; a directory and a file larger than the buffer are refused as such. *)
Theorem fat32_read_file_complete fs path buf capacity n0 ws e :
  fs_ok fs → volume_readable fs → 0 ≤ capacity < 2 ^ 32 → capacity ≤ lenZ buf →
  components path 0 ws → resolves fs (root_cluster fs) ws e →
  (0 < size e → ∃ l, chain_for fs (first_cluster e) (size e) l ∧ lenZ l ≤ cluster_count fs) →
  ∃ b' fs', fat32_read_file (Some path) (Some buf) capacity n0 fs =
    Some ((if decide (is_directory e) then (FAT32_EISDIR, 0)
           else if decide (capacity < size e) then (FAT32_ENOSPC, 0)
           else (FAT32_OK, size e)), b', fs').
Proof. by apply read_file_complete. Qed.
(** C32. Listing a directory and reading a file end on any device contents: cyclic
    cluster chains, directories without an end mark and entries that point anywhere
    included; the fuel of the models is never used up.  The geometry is untouched. *)
Theorem fat32_operations_end {C} fs path (callback : dirent → C → Z * C) (c : C)
    file buf capacity n0 :
  0 ≤ cluster_count fs < 2 ^ 32 - 1 →
  (∃ r fs' c', fat32_list_directory path callback fs c = Some (r, (fs', c')) ∧ same_geometry fs fs') ∧
  (∃ r n b' fs', fat32_read_file file buf capacity n0 fs = Some (r, n, b', fs')).
Proof. intros Hc. split; [by apply list_directory_total|by apply read_file_total]. Qed.

(** C10. On a readable volume, looking up a path succeeds exactly when its
    components lead from the root to an entry, and then gives that entry. *)
Theorem lookup_correct fs path e0 e :
  fs_ok fs → volume_readable fs →
  (∃ fs', lookup path (fs, e0) = Some (FAT32_OK, (fs', e))) ↔
  ∃ ws, components path 0 ws ∧ resolves fs (root_cluster fs) ws e.
Proof.
  intros Hok Hrd. assert (cluster_in fs (root_cluster fs)) as Hroot by apply (ok_root _ Hok). split.
  - intros [fs' E]. unfold lookup in E. cbn [fst] in E.
    apply lookup_loop_spec in E; [|done|done|done|done]. by apply E.
  - intros (ws & Hcs & Hrs). apply (lookup_loop_complete _ _ _ _ ws); try done; unfold lenZ; lia.
Qed.

(** C33. [fat32_list_directory] hands the callback the entries of the directory the
    path names, in the order of its chain, up to the end mark or the entry at which
    the callback asks to stop; on a readable volume it succeeds exactly when the
    path leads to a directory whose chain is sound that far. *)
Theorem fat32_list_directory_correct {C} fs path (callback : dirent → C → Z * C) (c : C) :
  fs_ok fs →
  let listed c' := ∃ ws e, components path 0 ws ∧ resolves fs (root_cluster fs) ws e ∧
    is_directory e ∧ cluster_in fs (first_cluster e) ∧ scans callback fs (first_cluster e) c c' in
  (∀ fs' c', fat32_list_directory (Some path) callback fs c = Some (FAT32_OK, (fs', c')) →
     fs_ok fs' ∧ same_volume fs fs' ∧ listed c') ∧
  (volume_readable fs → ∀ c', listed c' →
     ∃ fs', fat32_list_directory (Some path) callback fs c = Some (FAT32_OK, (fs', c'))).
Proof.
  intros Hok listed. assert (cluster_in fs (root_cluster fs)) as Hroot by apply (ok_root _ Hok).
  unfold fat32_list_directory. rewrite (ok_mounted _ Hok). cbn [negb default id from_option]. split.
  - intros fs' c'. destruct (lookup path (fs, mk_dirent [] 0 0 0)) as [[r1 [fs1 e]]|] eqn:El; [|done].
    unfold lookup in El. cbn [fst] in El.
    apply lookup_loop_spec in El; [|done|done|done|done]. destruct El as (Hok1 & Hv1 & Hres).
    destruct r1; try done. destruct (Hres eq_refl) as (ws & Hcs & Hrs).
    destruct (Z.eqb_spec (attributes e .& 0x10) 0) as [|Hdir]; [done|]. intros E.
    destruct (resolves_ranges fs _ _ _ Hok Hrs) as [_ Hfc].
    assert (cluster_in fs1 (first_cluster e)) as Hin.
    { apply valid_cluster_spec; [done|lia|]. unfold scan_directory in E. cbn [fst] in E.
      by destruct (valid_cluster fs1 (first_cluster e)). }
    destruct (scan_directory_spec _ _ _ _ _ _ _ Hok1 Hin E) as (Hok2 & Hv2 & Hs).
    pose proof (same_volume_agree _ _ Hv1) as Hag. pose proof Hag as (_ & _ & _ & E1 & E2 & _).
    split; [done|split; [by etransitivity|]]. exists ws, e. split_and!; try done.
    + by rewrite <- E1.
    + unfold scans in *. apply (agree_scans _ _ fs fs1); [done|]. rewrite <- E2. by apply Hs.
  - intros Hrd c' (ws & e & Hcs & Hrs & Hdir & Hin & Hs).
    assert (∃ fs1, lookup path (fs, mk_dirent [] 0 0 0) = Some (FAT32_OK, (fs1, e))) as [fs1 El].
    { apply (lookup_loop_complete _ _ _ _ ws); try done; unfold lenZ; lia. }
    rewrite El. unfold lookup in El. cbn [fst] in El.
    apply lookup_loop_spec in El; [|done|done|done|done]. destruct El as (Hok1 & Hv1 & _).
    rewrite (proj2 (Z.eqb_neq _ _)) by done.
    pose proof (same_volume_agree _ _ Hv1) as Hag. pose proof Hag as (_ & _ & _ & E1 & E2 & _).
    apply scan_directory_complete; [done|by rewrite E1|by apply (volume_readable_same fs)|].
    unfold scans in *. rewrite E2. by apply (agree_scans _ _ fs1 fs); [symmetry|].
Qed.

(** C29. The mounted file system reads its own volume only, and there the sectors it
    should: a round of [scan_sector] or [read_file_sector] asks the driver for that
    sector of that cluster, which lies in the data area, [next_cluster] for the sector
    with the entry of the cluster, which lies in the table; and listing a directory or
    reading a file, whatever is on the device, asks for no sector outside the volume,
    which ends inside the device and the 32-bit sector numbers. *)
Theorem reads_inside_volume fs :
  fs_ok fs →
  volume_end fs < 2 ^ 32 ∧ (sector_count (device fs) = 0 ∨ volume_end fs ≤ sector_count (device fs)) ∧
  (∀ cl, cluster_in fs cl →
     fat_start fs ≤ table_sector fs cl < fat_start fs + fat_sectors fs ∧
     reads (eq (volume_start fs + table_sector fs cl)) (device fs) (device (snd (next_cluster cl fs))) ∧
     ∀ i, 0 ≤ i < sectors_per_cluster fs →
       data_start fs ≤ cluster_sector fs cl i ∧ volume_start fs + cluster_sector fs cl i < volume_end fs ∧
       let Q := eq (volume_start fs + cluster_sector fs cl i) in
       (∀ C (callback : dirent → C → Z * C) c,
          reads Q (device fs) (device (fst (snd (scan_sector callback cl i (fs, c)))))) ∧
       (∀ buf copied remaining, reads Q (device fs)
          (device (r_fs (snd (read_file_sector cl i (mk_reading fs buf copied remaining))))))) ∧
  (∀ C (callback : dirent → C → Z * C) path c r fs' c',
     fat32_list_directory path callback fs c = Some (r, (fs', c')) →
     reads (in_volume fs) (device fs) (device fs')) ∧
  (∀ path buf capacity n0 r n buf' fs', 0 ≤ capacity < 2 ^ 32 → capacity ≤ lenZ buf →
     fat32_read_file (Some path) (Some buf) capacity n0 fs = Some (r, n, buf', fs') →
     reads (in_volume fs) (device fs) (device fs')).
Proof.
  intros Hok. destruct (ok_end _ Hok) as [He Hcnt]. split; [done|split; [done|split; [|split]]].
  - intros cl Hc. destruct (fat_entry_place fs cl Hok Hc) as (_ & Hp & _).
    split; [unfold table_sector; lia|split].
    + destruct (next_cluster cl fs) as [[r nx] fs'] eqn:E.
      by destruct (next_cluster_spec cl fs r nx fs' Hok Hc E) as (_ & _ & H & _).
    + intros i Hi. destruct (cluster_sector_spec fs cl i Hok Hc Hi) as (_ & Hlo & Hhi).
      split; [done|split; [done|split]].
      * intros C callback c. by apply scan_sector_reads.
      * intros buf copied remaining. by apply (file_sector_reads cl i (mk_reading fs buf copied remaining)).
  - intros C callback path c r fs' c' E. apply only_read_reads.
    exact (proj2 (list_directory_spec callback path fs c r fs' c' Hok E)).
  - intros path buf capacity n0 r n buf' fs' Hcap Hl E. apply only_read_reads.
    by destruct (read_file_spec fs path buf capacity n0 r n buf' fs' Hok Hcap Hl E) as (_ & H & _).
Qed.
End properties.

(** ** Instances: the small volume of [Fat32Volume] *)

Definition path_readme : list Z := [114; 101; 97; 100; 109; 101; 46; 116; 120; 116].
Definition readme : dirent :=
  mk_dirent [82; 69; 65; 68; 77; 69; 46; 84; 88; 84] 0x20 600 3.
Definition root_entry : dirent := mk_dirent [] 0x10 0 2.
Definition count_callback (_ : dirent) (n : Z) : Z * Z := (0, n + 1).

Lemma example_readable : volume_readable example_fs.
Proof.
  intros n Hn. change (volume_start example_fs) with 0 in Hn.
  assert (volume_end example_fs = 9) as E by (vm_compute; reflexivity). rewrite E in Hn.
  assert (n = 0 ∨ n = 1 ∨ n = 2 ∨ n = 3 ∨ n = 4 ∨ n = 5 ∨ n = 6 ∨ n = 7 ∨ n = 8) as Hcases by lia.
  repeat destruct Hcases as [->|Hcases]; try subst n; vm_compute; reflexivity.
Qed.

Lemma readme_components : components path_readme 0 [uppercase path_readme].
Proof.
  apply (components_cons _ _ 10); [vm_compute; reflexivity|].
  apply (components_end _ _ 10 []). vm_compute. reflexivity.
Qed.

Lemma readme_resolves : resolves example_fs (root_cluster example_fs) [uppercase path_readme] readme.
Proof.
  apply resolves_last; [by vm_compute|]. apply (found_scan _ _ _ _ root_entry). exists [2], true.
  split; [vm_compute; reflexivity|]. split; [done|].
  split; [by constructor; [vm_compute; split; congruence|]|]. split; [vm_compute; congruence|].
  split; [vm_compute; reflexivity|by left].
Qed.

Lemma readme_chain : chain_for example_fs 3 600 [3; 5].
Proof.
  split; [done|]. split; [by split; [vm_compute; reflexivity|]|].
  split; [by repeat (constructor; [vm_compute; split; congruence|])|]. vm_compute. split; congruence.
Qed.

Lemma fat32_read_file_correct_witness :
  ∃ r n b' fs', fat32_read_file (Some path_readme) (Some (replicate 700 0)) 700 0 example_fs =
    Some (r, n, Some b', fs') ∧ fs_ok fs' ∧ lenZ b' = 700 ∧ (r ≠ FAT32_OK → n = 0).
Proof.
  assert (lenZ (replicate 700 0) = 700) as El by (unfold lenZ; by rewrite length_replicate).
  destruct (fat32_read_file (Some path_readme) (Some (replicate 700 0)) 700 0 example_fs)
    as [[[[r n] b'] fs']|] eqn:E.
  - destruct (fat32_read_file_correct example_fs path_readme (replicate 700 0) 700 0 r n b' fs'
      example_fs_ok ltac:(lia) ltac:(lia) E) as (H1 & _ & H2 & b1 & -> & H3 & _).
    exists r, n, b1, fs'. split; [reflexivity|]. split; [exact H1|]. split; [congruence|exact H2].
  - exfalso.
    destruct (read_file_total (Some path_readme) (Some (replicate 700 0)) 700 0 example_fs
      ltac:(vm_compute; split; congruence)) as (r & n & b' & fs' & H).
    congruence.
Defined.

Lemma fat32_read_file_complete_witness :
  ∃ b' fs', fat32_read_file (Some path_readme) (Some (replicate 700 0)) 700 0 example_fs =
    Some (FAT32_OK, 600, b', fs').
Proof.
  destruct (fat32_read_file_complete example_fs path_readme (replicate 700 0) 700 0
    [uppercase path_readme] readme example_fs_ok example_readable ltac:(lia)
    ltac:(unfold lenZ; rewrite length_replicate; lia) readme_components readme_resolves)
    as (b' & fs' & E).
  - intros _. exists [3; 5]. split; [exact readme_chain|vm_compute; congruence].
  - exists b', fs'. exact E.
Defined.

Lemma fat32_operations_end_witness :
  ∃ r fs' c', fat32_list_directory (Some [47]) count_callback example_fs 0 = Some (r, (fs', c')) ∧
    same_geometry example_fs fs'.
Proof.
  apply (fat32_operations_end example_fs (Some [47]) count_callback 0 None None 0 0).
  vm_compute. split; congruence.
Defined.

(** The volume on a recorder: reading README.TXT asks for the root directory, the two
    clusters of the file and the table. *)
Definition recorded_fs : fat32_fs (recorder disk) :=
  snd (fat32_mount (Some (mk_recorder example_disk []))
    (mk_fs (mk_recorder example_disk []) 0 0 0 0 0 0 0 0 0 (replicate 4096 0) false)).

Lemma recorded_fs_ok : fs_ok recorded_fs.
Proof.
  destruct blank_buffer as [Hb Hl]. unfold recorded_fs.
  assert (device_ok (mk_recorder example_disk [])) as Hd by exact example_device_ok.
  set (fs := mk_fs (mk_recorder example_disk []) 0 0 0 0 0 0 0 0 0 (replicate 4096 0) false).
  assert (fst (fat32_mount (Some (mk_recorder example_disk [])) fs) = FAT32_OK) as E by (vm_compute; reflexivity).
  destruct (fat32_mount (Some (mk_recorder example_disk [])) fs) as [r fs'] eqn:Em. cbn [fst snd] in *.
  destruct (fat32_mount_spec (mk_recorder example_disk []) fs r fs' Hd Hb Hl Em)
    as [[? _]|[[[?|?] _]|(_ & Hok & _)]]; congruence.
Qed.

Definition readme_requests (s : option (fat32_result * Z * option (list Z) * fat32_fs (recorder disk))) : list Z :=
  match s with Some (_, fs') => requests (device fs') | None => [] end.

Lemma reads_inside_volume_witness :
  ∃ r n b' fs' l, fat32_read_file (Some path_readme) (Some (replicate 700 0)) 700 0 recorded_fs =
      Some (r, n, b', fs') ∧
    requests (device fs') = [0; 2; 3; 1; 5] ∧
    requests (device fs') = requests (device recorded_fs) ++ l ∧ Forall (in_volume recorded_fs) l.
Proof.
  destruct (reads_inside_volume recorded_fs recorded_fs_ok) as (_ & _ & _ & _ & H).
  assert (lenZ (replicate 700 0) = 700) as El by (unfold lenZ; by rewrite length_replicate).
  assert (readme_requests (fat32_read_file (Some path_readme) (Some (replicate 700 0)) 700 0 recorded_fs) =
    [0; 2; 3; 1; 5]) as E3 by (vm_compute; reflexivity).
  destruct (fat32_read_file (Some path_readme) (Some (replicate 700 0)) 700 0 recorded_fs)
    as [[[[r n] b'] fs']|] eqn:E; [|discriminate E3].
  destruct (reads_requests _ _ _ (H path_readme (replicate 700 0) 700 0 r n b' fs' ltac:(lia) ltac:(lia) E))
    as (l & El' & Hl).
  exists r, n, b', fs', l. split; [reflexivity|split; [exact E3|split; [exact El'|exact Hl]]].
Defined.

Lemma lookup_correct_witness :
  ∃ fs', lookup path_readme (example_fs, root_entry) = Some (FAT32_OK, (fs', readme)).
Proof.
  apply (lookup_correct example_fs path_readme root_entry readme example_fs_ok example_readable).
  exists [uppercase path_readme]. split; [exact readme_components|exact readme_resolves].
Defined.

Lemma fat32_list_directory_correct_witness :
  ∃ fs', fat32_list_directory (Some [47]) count_callback example_fs 0 = Some (FAT32_OK, (fs', 2)).
Proof.
  apply (fat32_list_directory_correct example_fs [47] count_callback 0 example_fs_ok);
    [exact example_readable|].
  exists [], root_entry. split; [apply (components_end _ _ 1 []); vm_compute; reflexivity|].
  split; [exact (resolves_root example_fs)|]. split; [done|].
  split; [vm_compute; split; congruence|]. exists [2], true.
  split; [vm_compute; reflexivity|]. split; [done|].
  split; [by constructor; [vm_compute; split; congruence|]|]. split; [vm_compute; congruence|].
  split; [vm_compute; reflexivity|by left].
Defined.

(** A final "." and a ".." that leads to the root are not understood, although the
    directory is there: SUB, SUB/. and SUB/.. of the small volume. *)
Theorem dot_paths_fail :
  let list path := fst <$> fat32_list_directory (Some path) count_callback example_fs 0 in
  list [83; 85; 66] = Some FAT32_OK ∧
  list [83; 85; 66; 47; 46] = Some FAT32_ENOTFOUND ∧
  list [83; 85; 66; 47; 46; 46] = Some FAT32_EBADFS.
Proof. vm_compute. split_and!; reflexivity. Qed.

End Fat32Files.
