(* ===== verification/Io.v ===== *)
(** Port input and output, [drivers/io.c], the clock chip, [drivers/cmos.c], and the
    interrupt controllers these functions program. *)

From S2P Require Import Prelude Interfaces.

Module Io.

(** ** Definitions *)

Definition PIC1 : Z := 0x20.
Definition PIC2 : Z := 0xA0.
Definition PIC1_COMMAND : Z := PIC1.
Definition PIC1_DATA : Z := PIC1 + 1.
Definition PIC2_COMMAND : Z := PIC2.
Definition PIC2_DATA : Z := PIC2 + 1.

Section code.
Context {P : Type} {IO : Ports P}.

(** An [unsigned short] names the port; the registers hold 8, 16 or 32 bits. *)
Definition inb (port : Z) : M P Z := λ p, let '(v, p) := in8 (u16 port) p in (u8 v, p).
Definition outb (port value : Z) (p : P) : P := out8 (u16 port) (u8 value) p.
Definition inl (port : Z) : M P Z := λ p, let '(v, p) := in32 (u16 port) p in (u32 v, p).
Definition outl (port value : Z) (p : P) : P := out32 (u16 port) (u32 value) p.
Definition inw (port : Z) : M P Z := λ p, let '(v, p) := in16 (u16 port) p in (u16 v, p).

Definition picremap (p : P) : P :=
  let p := outb PIC1_COMMAND 0x11 p in
  let p := outb PIC2_COMMAND 0x11 p in
  let p := outb PIC1_DATA 0x20 p in
  let p := outb PIC2_DATA 0x28 p in
  let p := outb PIC1_DATA 0x04 p in
  let p := outb PIC2_DATA 0x02 p in
  let p := outb PIC1_DATA 0x01 p in
  let p := outb PIC2_DATA 0x01 p in
  let p := outb PIC1_DATA 0xFD p in
  outb PIC2_DATA 0xFF p.

Definition end_interrupt (irq : Z) (p : P) : P :=
  let p := if 8 <=? irq then outb PIC2_COMMAND 0x20 p else p in
  outb PIC1_COMMAND 0x20 p.

Definition pic_get_irr (p : P) : Z * P := inb 0x20 (outb 0x20 0x0A p).
Definition pic_get_isr (p : P) : Z * P := inb 0x20 (outb 0x20 0x0B p).

(** [drivers/cmos.c] *)
Definition select_cmos_reg (reg : Z) (p : P) : P := outb 0x70 reg p.
Definition read_cmos : M P Z := inb 0x71.

Definition get_cmos_memory_size (p : P) : Z * P :=
  let p := outb 0x70 0x30 p in
  let '(lowmem, p) := inb 0x71 p in
  let p := outb 0x70 0x31 p in
  let '(highmem, p) := inb 0x71 p in
  (u16 (lowmem .| (highmem ≪ 8)), p).

End code.

(** ** Specification

    The two 8259A interrupt controllers and channel 0 of the 8254 timer, as far as
    the kernel programs them (their data sheets). *)

(** What a controller expects at its data port: the rest of an initialisation, or
    the interrupt mask. *)
Inductive pic_expects := ICW2 | ICW3 | ICW4 | OCW1.

(** [base] is the vector of its first line, [in_service] the lines being served,
    [ready] whether it was initialised for the 8086. *)
Record pic := mk_pic {
  expects : pic_expects;
  base : Z;
  cascade : Z;
  ready : bool;
  mask : Z;
  in_service : Z;
}.

(** The line of highest priority, the lowest one, leaves service. *)
Definition end_of_interrupt (s : Z) : Z := s .& (s - 1).

Definition pic_command (v : Z) (c : pic) : pic :=
  if Z.testbit v 4 then mk_pic ICW2 (base c) (cascade c) false 0 0
  else if v =? 0x20 then
    mk_pic (expects c) (base c) (cascade c) (ready c) (mask c) (end_of_interrupt (in_service c))
  else c.

Definition pic_data (v : Z) (c : pic) : pic :=
  match expects c with
  | ICW2 => mk_pic ICW3 (v .& 0xF8) (cascade c) (ready c) (mask c) (in_service c)
  | ICW3 => mk_pic ICW4 (base c) v (ready c) (mask c) (in_service c)
  | ICW4 => mk_pic OCW1 (base c) (cascade c) (Z.testbit v 0) (mask c) (in_service c)
  | OCW1 => mk_pic OCW1 (base c) (cascade c) (ready c) v (in_service c)
  end.

(** Channel 0 of the timer: its mode, the low byte while the high byte is awaited,
    and the value it counts down from. *)
Record pit := mk_pit { pit_mode : Z; low_byte : option Z; reload : Z }.

Definition pit_control (v : Z) (t : pit) : pit :=
  if v ≫ 6 =? 0 then mk_pit (v ≫ 1 .& 7) None (reload t) else t.
Definition pit_data (v : Z) (t : pit) : pit :=
  match low_byte t with
  | None => mk_pit (pit_mode t) (Some v) (reload t)
  | Some l => mk_pit (pit_mode t) None (if l + v * 2 ^ 8 =? 0 then 2 ^ 16 else l + v * 2 ^ 8)
  end.

Record chips := mk_chips { master : pic; slave : pic; timer : pit }.

Definition chip_write (port v : Z) (c : chips) : chips :=
  if port =? 0x20 then mk_chips (pic_command v (master c)) (slave c) (timer c)
  else if port =? 0x21 then mk_chips (pic_data v (master c)) (slave c) (timer c)
  else if port =? 0xA0 then mk_chips (master c) (pic_command v (slave c)) (timer c)
  else if port =? 0xA1 then mk_chips (master c) (pic_data v (slave c)) (timer c)
  else if port =? 0x43 then mk_chips (master c) (slave c) (pit_control v (timer c))
  else if port =? 0x40 then mk_chips (master c) (slave c) (pit_data v (timer c))
  else c.

(** The hardware contains these chips at the ports of a PC: writes reach them, and
    the data port of the first controller reads as its mask. *)
Class PcChips (P : Type) `{Ports P} := {
  chips_of : P → chips;
  chips_out8 port v p : chips_of (out8 port v p) = chip_write port v (chips_of p);
  chips_in8 port p : chips_of (snd (in8 port p)) = chips_of p;
  chips_mask p : fst (in8 0x21 p) = mask (master (chips_of p));
}.

(** A machine that consists of the chips; everything else reads all ones. *)
#[global] Instance chips_ports : Ports chips := {|
  in8 port c := (if port =? 0x21 then mask (master c) else 0xFF, c);
  in16 _ c := (0xFFFF, c);
  in32 _ c := (0xFFFFFFFF, c);
  out8 := chip_write;
  out32 _ _ c := c;
|}.
#[global, program] Instance chips_pc : PcChips chips := {| chips_of c := c |}.
Next Obligation. done. Qed.
Next Obligation. done. Qed.
Next Obligation. done. Qed.

(** The state after power on. *)
Definition power_on : chips :=
  mk_chips (mk_pic OCW1 8 4 true 0 0) (mk_pic OCW1 0x70 2 true 0 0) (mk_pit 3 None (2 ^ 16)).

(** ** Lemmas *)

Section lemmas.
Context {P : Type} {IO : Ports P} {PC : PcChips P}.

Lemma chips_outb port v p :
  0 ≤ port < 2 ^ 16 → 0 ≤ v < 2 ^ 8 → chips_of (outb port v p) = chip_write port v (chips_of p).
Proof. intros. unfold outb. by rewrite chips_out8, u16_small, u8_small by lia. Qed.

Lemma chips_inb port p : chips_of (snd (inb port p)) = chips_of p.
Proof.
  unfold inb. pose proof (chips_in8 (u16 port) p). by destruct (in8 (u16 port) p).
Qed.

Lemma chips_read_mask p :
  0 ≤ mask (master (chips_of p)) < 2 ^ 8 → fst (inb 0x21 p) = mask (master (chips_of p)).
Proof.
  intros Hm. unfold inb. change (u16 0x21) with 0x21. pose proof (chips_mask p) as E.
  destruct (in8 0x21 p) as [v p']. cbn in *. subst v. by apply u8_small.
Qed.

(** The controllers after [picremap]. *)
Lemma picremap_chips p :
  chips_of (picremap p) = mk_chips (mk_pic OCW1 0x20 4 true 0xFD 0) (mk_pic OCW1 0x28 2 true 0xFF 0)
    (timer (chips_of p)).
Proof. unfold picremap. by rewrite !chips_outb by (cbv; split; congruence). Qed.

End lemmas.
End Io.
