(* ===== verification/Terminal.v ===== *)
(** The terminal, [drivers/terminal.c]: text in the 80 by 25 cells of the screen, and
    a refinement of its operations to a plain sequence of cells with a position. *)

From S2P Require Import Prelude Interfaces Io.

Module Terminal.
Import Io.

(** ** Definitions *)

Definition VGA_WIDTH : Z := 80.
Definition VGA_HEIGHT : Z := 25.

Definition BLACK : Z := 0x00.
Definition WHITE : Z := 0x0F.
Definition BLUE : Z := 0x01.
Definition GREEN : Z := 0x02.
Definition CYAN : Z := 0x03.
Definition RED : Z := 0x04.
Definition PURPLE : Z := 0x05.
Definition BROWN : Z := 0x06.
Definition GRAY : Z := 0x07.
Definition DARK_GRAY : Z := 0x08.
Definition LIGHT_BLUE : Z := 0x09.
Definition LIGHT_GREEN : Z := 0x0A.
Definition LIGHT_CYAN : Z := 0x0B.
Definition LIGHT_RED : Z := 0x0C.
Definition LIGHT_PURPLE : Z := 0x0D.
Definition YELLOW : Z := 0x0E.

(** The cells at 0xB8000 and the cursor.  A [char] is the byte that holds it; where
    it is promoted to [int] the code below takes its signed value [i8]. *)
Record terminal := mk_terminal {
  video : list Z;
  cursor_x : Z;
  cursor_y : Z;
}.

Definition with_cursor (x y : Z) (t : terminal) : terminal := mk_terminal (video t) x y.

(** [video[i] = v;] *)
Definition set_cell (i v : Z) (t : terminal) : terminal :=
  mk_terminal (setZ (video t) i (u16 v)) (cursor_x t) (cursor_y t).

(** The two loops of [scroll]. *)
Definition move_rows (t : terminal) : terminal :=
  for_loop 1 VGA_HEIGHT (λ y, for_loop 0 VGA_WIDTH (λ x t,
    set_cell ((y - 1) * VGA_WIDTH + x) (nthZ (video t) (y * VGA_WIDTH + x)) t)) t.
Definition blank_last_row (t : terminal) : terminal :=
  for_loop 0 VGA_WIDTH (λ x, set_cell ((VGA_HEIGHT - 1) * VGA_WIDTH + x) 0x0F20) t.

Definition scroll (t : terminal) : terminal :=
  if cursor_y t <? VGA_HEIGHT then t
  else
    let t := blank_last_row (move_rows t) in
    with_cursor (cursor_x t) (VGA_HEIGHT - 1) t.

(** [cursor_x++] and the wrap to the next line. *)
Definition advance (t : terminal) : terminal :=
  let t := with_cursor (cursor_x t + 1) (cursor_y t) t in
  if VGA_WIDTH <=? cursor_x t then with_cursor 0 (cursor_y t + 1) t else t.

Definition print_char (color c : Z) (t : terminal) : terminal :=
  let t :=
    if c =? 10 then with_cursor 0 (cursor_y t + 1) t
    else
      let position := cursor_y t * VGA_WIDTH + cursor_x t in
      advance (set_cell position ((color ≪ 8) .| i8 c) t) in
  scroll t.

(** At most 100 characters; the body of the loop stops it at the terminator. *)
Definition print (text : list Z) (color : Z) (t : terminal) : terminal :=
  snd (for_exit 0 100 (λ i t,
    if nthZ text i =? 0 then (Some (), t) else (None, print_char color (nthZ text i) t)) t).

Definition backspace (t : terminal) : terminal :=
  if 0 <? cursor_x t then
    let t := with_cursor (cursor_x t - 1) (cursor_y t) t in
    set_cell (cursor_y t * VGA_WIDTH + cursor_x t) 0x0F20 t
  else t.

Definition putchar (c : Z) (t : terminal) : terminal :=
  if c =? 10 then scroll (with_cursor 0 (cursor_y t + 1) t)
  else if c =? 8 then backspace t
  else
    let position := cursor_y t * VGA_WIDTH + cursor_x t in
    scroll (advance (set_cell position ((0x0F ≪ 8) .| i8 c) t)).

Definition clear (color : Z) (t : terminal) : terminal :=
  let t := for_loop 0 (VGA_WIDTH * VGA_HEIGHT) (λ i, set_cell i ((color ≪ 12) .| 0x0020)) t in
  with_cursor 0 0 t.

(** "0123456789ABCDEF" *)
Definition hex : list Z := [48; 49; 50; 51; 52; 53; 54; 55; 56; 57; 65; 66; 67; 68; 69; 70].

Definition print_hex_byte (value : Z) (t : terminal) : terminal :=
  let t := putchar (nthZ hex ((value ≫ 4) .& 0xF)) t in
  putchar (nthZ hex (value .& 0xF)) t.

(** [i] runs through 28, 24, ..., 0. *)
Definition print_hex_dword (value : Z) (t : terminal) : terminal :=
  let t := putchar 48 t in
  let t := putchar 120 t in
  for_loop 0 8 (λ k, putchar (nthZ hex ((value ≫ (28 - 4 * k)) .& 0xF))) t.

(** The digits of [value] behind those in [digits]; the array has room for 10. *)
Fixpoint number_digits (fuel : nat) (value : Z) (digits : list Z) : list Z :=
  match fuel with
  | O => digits
  | S fuel =>
      if 0 <? value then number_digits fuel (value / 10) (digits ++ [u8 (48 + value mod 10)])
      else digits
  end.

(** An unsigned int of 32 bits has at most 10 digits. *)
Definition print_number (value : Z) (t : terminal) : terminal :=
  if value =? 0 then putchar 48 t
  else foldr putchar t (number_digits 11 value []).

(** The cursor of the display hardware. *)
Section ports.
Context {P : Type} {IO : Ports P}.

Definition enable_cursor (cursor_start cursor_end : Z) (p : P) : P :=
  let p := outb 0x3D4 0x0A p in
  let '(v, p) := inb 0x3D5 p in
  let p := outb 0x3D5 ((v .& 0xC0) .| cursor_start) p in
  let p := outb 0x3D4 0x0B p in
  let '(v, p) := inb 0x3D5 p in
  outb 0x3D5 ((v .& 0xE0) .| cursor_end) p.

Definition update_cursor (x y : Z) (p : P) : P :=
  let pos := u16 (y * VGA_WIDTH + x) in
  let p := outb 0x3D4 0x0F p in
  let p := outb 0x3D5 (pos .& 0xFF) p in
  let p := outb 0x3D4 0x0E p in
  outb 0x3D5 ((pos ≫ 8) .& 0xFF) p.

Definition disable_cursor (p : P) : P :=
  let p := outb 0x3D4 0x0A p in
  outb 0x3D5 0x20 p.

Definition terminal_init (s : terminal * P) : terminal * P :=
  let '(t, p) := s in
  let t := with_cursor 0 0 t in
  let p := disable_cursor p in
  (clear BLACK t, p).
End ports.

(** ** Specification *)

(** The screen as a sequence of 2000 cells and a position in it. *)
Definition SCREEN : Z := VGA_WIDTH * VGA_HEIGHT.
Definition blank : Z := 0x0F20.
Definition blank_row : list Z := replicate 80 blank.

Definition screen : Type := list Z * Z.

(** A position past the end moves everything up by a row. *)
Definition normalise (s : screen) : screen :=
  let '(cells, pos) := s in
  if SCREEN <=? pos then (drop 80 cells ++ blank_row, pos - VGA_WIDTH) else s.

(** The cell of a character. *)
Definition cell (color c : Z) : Z := u16 (color * 2 ^ 8 .| i8 c).

(** A line feed goes to the start of the next row, a character is stored at the
    position, a backspace blanks the cell before it in the same row. *)
Definition emit (color c : Z) (s : screen) : screen :=
  let '(cells, pos) := s in
  normalise (if decide (c = 10) then (cells, (pos / VGA_WIDTH + 1) * VGA_WIDTH)
             else (setZ cells pos (cell color c), pos + 1)).
Definition rub_out (s : screen) : screen :=
  let '(cells, pos) := s in
  if decide (pos mod VGA_WIDTH = 0) then s else (setZ cells (pos - 1) blank, pos - 1).
Definition type_char (c : Z) (s : screen) : screen :=
  if decide (c = 8) then rub_out s else emit WHITE c s.

(** A screen the operations work on: all cells there, the cursor inside. *)
Record screen_ok (t : terminal) : Prop := {
  sc_length : lenZ (video t) = SCREEN;
  sc_cells : Forall (λ v, 0 ≤ v < 2 ^ 16) (video t);
  sc_x : 0 ≤ cursor_x t < VGA_WIDTH;
  sc_y : 0 ≤ cursor_y t < VGA_HEIGHT;
}.

Definition view (t : terminal) : screen := (video t, cursor_y t * VGA_WIDTH + cursor_x t).

(** The value of a list of decimal digits, the first one the least. *)
Fixpoint digits_value (l : list Z) : Z :=
  match l with
  | [] => 0
  | d :: l => (d - 48) + 10 * digits_value l
  end.
Definition is_digit (d : Z) : Prop := 48 ≤ d < 58.

(** The operations other components use, and what they do to the sequence of cells. *)
Inductive operation :=
| Putchar (c : Z)
| Print (text : list Z) (color : Z)
| Clear (color : Z)
| Backspace.

Definition perform (o : operation) (t : terminal) : terminal :=
  match o with
  | Putchar c => putchar c t
  | Print text color => print text color t
  | Clear color => clear color t
  | Backspace => backspace t
  end.

Definition on_screen (o : operation) (s : screen) : screen :=
  match o with
  | Putchar c => type_char c s
  | Print text color => foldl (λ s c, emit color c s) s (take 100 (c_string text))
  | Clear color => (replicate 2000 (u16 (color * 2 ^ 12 .| 0x20)), 0)
  | Backspace => rub_out s
  end.

(** Characters written one after the other. *)
Definition put_all (l : list Z) (t : terminal) : terminal := foldl (λ t c, putchar c t) t l.

(** The value of hexadecimal digits, the first one the most significant. *)
Definition hex_value (l : list Z) : Z := foldl (λ v d, 16 * v + d) 0 l.

(** ** Lemmas *)

Lemma nthZ_ext l l' : length l = length l' → (∀ i, 0 ≤ i < lenZ l → nthZ l i = nthZ l' i) → l = l'.
Proof.
  intros Hl He. apply list_eq. intros i. destruct (decide (i < length l)%nat) as [Hi|].
  - destruct (lookup_lt_is_Some_2 l i Hi) as [x Hx].
    destruct (lookup_lt_is_Some_2 l' i ltac:(lia)) as [y Hy].
    pose proof (He (Z.of_nat i) ltac:(unfold lenZ; lia)) as E.
    rewrite (nthZ_lookup l _ x), (nthZ_lookup l' _ y) in E by (rewrite ?Nat2Z.id; done || lia).
    congruence.
  - rewrite !lookup_ge_None_2 by lia. done.
Qed.

(** [t'] has the cells [f] and the cursor of [t]. *)
Definition filled (t t' : terminal) (f : Z → Z) : Prop :=
  lenZ (video t') = lenZ (video t) ∧ cursor_x t' = cursor_x t ∧ cursor_y t' = cursor_y t ∧
  ∀ i, 0 ≤ i < lenZ (video t) → nthZ (video t') i = f i.

(** A row of cells written in order. *)
Lemma filled_row t t' a n f g :
  0 ≤ a → 0 ≤ n → a + n ≤ lenZ (video t) → filled t t' f →
  ∀ h : Z → terminal → Z,
  (∀ x t', 0 ≤ x < n → filled t t' (λ i, if decide (a ≤ i < a + x) then g i else f i) →
     u16 (h x t') = g (a + x)) →
  filled t (for_loop 0 n (λ x t, set_cell (a + x) (h x t) t) t')
    (λ i, if decide (a ≤ i < a + n) then g i else f i).
Proof.
  intros Ha Hn Hl Hf h Hh.
  refine (for_loop_ind (λ x t', filled t t' (λ i, if decide (a ≤ i < a + x) then g i else f i))
    0 n _ t' Hn _ _).
  - destruct Hf as (E1 & E2 & E3 & E4). do 3 (split; [done|]). intros i Hi.
    rewrite decide_False by lia. by apply E4.
  - intros x t1 Hx Hf1. pose proof (Hh x t1 Hx Hf1) as Hg. destruct Hf1 as (E1 & E2 & E3 & E4).
    unfold set_cell. split; [cbn [video]; rewrite lenZ_setZ by lia; lia|]. do 2 (split; [done|]).
    intros i Hi. cbn [video]. destruct (decide (i = a + x)) as [->|Hne].
    + rewrite nthZ_setZ_eq, decide_True by lia. done.
    + rewrite nthZ_setZ_ne, E4 by lia. repeat case_decide; try lia; done.
Qed.

Lemma screen_cell t i : screen_ok t → 0 ≤ nthZ (video t) i < 2 ^ 16.
Proof.
  intros H. unfold nthZ. case_if; [lia|]. rewrite nth_lookup.
  destruct (video t !! _) eqn:E; simpl; [|lia]. by apply (Forall_lookup_1 _ _ _ _ (sc_cells _ H) E).
Qed.

Lemma move_rows_spec t :
  lenZ (video t) = 2000 → (∀ i, 0 ≤ nthZ (video t) i < 2 ^ 16) →
  filled t (move_rows t)
    (λ i, if decide (i < 1920) then nthZ (video t) (i + 80) else nthZ (video t) i).
Proof.
  intros Hl Hc. set (f := λ y i, if decide (i < (y - 1) * 80) then nthZ (video t) (i + 80)
    else nthZ (video t) i).
  enough (filled t (move_rows t) (f 25)) as H by exact H. unfold move_rows.
  refine (for_loop_ind (λ y t', filled t t' (f y)) 1 VGA_HEIGHT _ t _ _ _); [done| |].
  - do 3 (split; [done|]). intros i Hi. unfold f. by rewrite decide_False by lia.
  - intros y t1 Hyr Hf. unfold VGA_HEIGHT, VGA_WIDTH in *.
    destruct (filled_row t t1 ((y - 1) * 80) 80 _ (λ i, nthZ (video t) (i + 80))
      ltac:(lia) ltac:(lia) ltac:(lia) Hf (λ x t, nthZ (video t) (y * 80 + x))) as (E1 & E2 & E3 & E4).
    { intros x t2 Hx (_ & _ & _ & E4). rewrite E4 by lia. unfold f.
      rewrite !decide_False by lia. rewrite u16_small by apply Hc. f_equal. lia. }
    do 3 (split; [done|]). intros i Hi. rewrite E4 by done. unfold f.
    repeat case_decide; try lia; done.
Qed.

Lemma blank_last_row_spec t rows f :
  lenZ (video t) = 2000 → filled t rows f →
  filled t (blank_last_row rows) (λ i, if decide (1920 ≤ i < 2000) then blank else f i).
Proof.
  intros Hl H1.
  exact (filled_row t rows 1920 80 f (λ _, blank) ltac:(lia) ltac:(lia) ltac:(lia) H1
    (λ _ _, 0x0F20) ltac:(done)).
Qed.

Lemma scrolled t rows :
  lenZ (video t) = 2000 →
  filled t rows (λ i, if decide (1920 ≤ i < 2000) then blank else
    if decide (i < 1920) then nthZ (video t) (i + 80) else nthZ (video t) i) →
  video rows = drop 80 (video t) ++ blank_row.
Proof.
  intros Hl (E1 & E2 & E3 & E4). apply nthZ_ext.
  - unfold lenZ in *. rewrite length_app, length_drop. change (length blank_row) with 80%nat. lia.
  - intros i Hi. rewrite E1 in Hi. rewrite E4 by done. cbv beta.
    assert (lenZ (drop 80 (video t)) = 1920) as Ld by (unfold lenZ in *; rewrite length_drop; lia).
    destruct (decide (i < 1920)) as [Hlt|Hge]; [rewrite decide_False by lia|rewrite decide_True by lia].
    + rewrite nthZ_app_l, nthZ_drop by lia. f_equal. lia.
    + rewrite nthZ_app_r, Ld by lia. symmetry.
      apply nthZ_lookup; [|lia]. apply lookup_replicate_2. lia.
Qed.

Lemma scroll_spec t :
  lenZ (video t) = SCREEN → (∀ i, 0 ≤ nthZ (video t) i < 2 ^ 16) → cursor_y t = VGA_HEIGHT →
  scroll t = mk_terminal (drop 80 (video t) ++ blank_row) (cursor_x t) (VGA_HEIGHT - 1).
Proof.
  intros Hl Hc Hy.
  pose proof (blank_last_row_spec t _ _ Hl (move_rows_spec t Hl Hc)) as H1.
  unfold scroll. rewrite Hy, Z.ltb_irrefl.
  generalize dependent (blank_last_row (move_rows t)). intros rows H1. unfold with_cursor.
  rewrite (scrolled t rows Hl H1). destruct H1 as (_ & -> & _). done.
Qed.

(** A screen whose cursor may stand on the row below the last one. *)
Definition before_scroll (t : terminal) : Prop :=
  lenZ (video t) = SCREEN ∧ Forall (λ v, 0 ≤ v < 2 ^ 16) (video t) ∧
  0 ≤ cursor_x t < VGA_WIDTH ∧ 0 ≤ cursor_y t ≤ VGA_HEIGHT.

Lemma cells_range l i : Forall (λ v, 0 ≤ v < 2 ^ 16) l → 0 ≤ nthZ l i < 2 ^ 16.
Proof.
  intros H. unfold nthZ. case_if; [lia|]. rewrite nth_lookup.
  destruct (l !! _) eqn:E; simpl; [|lia]. by apply (Forall_lookup_1 _ _ _ _ H E).
Qed.

Lemma scroll_view t : before_scroll t → screen_ok (scroll t) ∧ view (scroll t) = normalise (view t).
Proof.
  intros (Hl & Hc & Hx & Hy). unfold normalise, view, SCREEN, VGA_WIDTH, VGA_HEIGHT in *.
  destruct (decide (cursor_y t = 25)) as [E|Hne].
  - rewrite (scroll_spec t Hl) by (done || intros; by apply cells_range).
    rewrite E, (proj2 (Z.leb_le _ _)) by lia. split; [|cbn [video cursor_x cursor_y]; unfold VGA_HEIGHT; f_equal; lia].
    split; cbn [video cursor_x cursor_y]; unfold VGA_HEIGHT, VGA_WIDTH; try lia.
    + unfold SCREEN, VGA_WIDTH, VGA_HEIGHT, lenZ in *. rewrite length_app, length_drop.
      change (length blank_row) with 80%nat. lia.
    + apply Forall_app_2; [by apply Forall_drop|]. apply Forall_replicate. unfold blank. lia.
  - unfold scroll, VGA_HEIGHT. rewrite (proj2 (Z.ltb_lt _ _)), (proj2 (Z.leb_gt _ _)) by lia.
    split; [|done]. split; unfold SCREEN, VGA_WIDTH, VGA_HEIGHT in *; done || lia.
Qed.

Lemma newline_view t : screen_ok t →
  let t' := scroll (with_cursor 0 (cursor_y t + 1) t) in
  screen_ok t' ∧ ∀ color, view t' = emit color 10 (view t).
Proof.
  intros [Hl Hc Hx Hy] t'. subst t'. destruct (scroll_view (with_cursor 0 (cursor_y t + 1) t)) as [H1 H2].
  { unfold before_scroll. cbn [with_cursor video cursor_x cursor_y]. unfold VGA_WIDTH, VGA_HEIGHT in *. repeat split; done || lia. }
  split; [done|]. intros color. rewrite H2. unfold emit, view. cbn [with_cursor video cursor_x cursor_y].
  rewrite decide_True by done. do 2 f_equal. unfold VGA_WIDTH in *.
  rewrite Z.div_add_l, Z.div_small by lia. lia.
Qed.

Lemma character_view t color c : screen_ok t → c ≠ 10 →
  let t' := scroll (advance (set_cell (cursor_y t * VGA_WIDTH + cursor_x t) ((color ≪ 8) .| i8 c) t)) in
  screen_ok t' ∧ view t' = emit color c (view t).
Proof.
  intros [Hl Hc Hx Hy] Hne t'. subst t'. rewrite shiftl_mul by lia.
  set (t1 := advance (set_cell _ _ t)).
  assert (video t1 = setZ (video t) (cursor_y t * VGA_WIDTH + cursor_x t) (cell color c) ∧
    cursor_y t1 * VGA_WIDTH + cursor_x t1 = cursor_y t * VGA_WIDTH + cursor_x t + 1 ∧
    0 ≤ cursor_x t1 < VGA_WIDTH ∧ 0 ≤ cursor_y t1 ≤ VGA_HEIGHT) as (E1 & E2 & E3 & E4).
  { subst t1. unfold advance, set_cell, with_cursor, VGA_WIDTH, VGA_HEIGHT in *. cbn [video cursor_x cursor_y].
    destruct (Z.leb_spec 80 (cursor_x t + 1)); cbn [video cursor_x cursor_y]; split_and!; done || lia. }
  clearbody t1. destruct (scroll_view t1) as [H1 H2].
  { unfold before_scroll. rewrite E1, lenZ_setZ by (unfold SCREEN, VGA_WIDTH, VGA_HEIGHT in *; lia). split; [done|]. split; [|done].
    apply Forall_setZ; [apply u16_range|done]. }
  split; [done|]. rewrite H2. unfold emit, view. by rewrite decide_False, E1, E2 by done.
Qed.

Lemma print_char_spec color c t : screen_ok t →
  screen_ok (print_char color c t) ∧ view (print_char color c t) = emit color c (view t).
Proof.
  intros H. unfold print_char. destruct (Z.eqb_spec c 10) as [->|Hne].
  - destruct (newline_view t H) as [H1 H2]. split; [done|apply H2].
  - by apply character_view.
Qed.

Lemma backspace_spec t : screen_ok t →
  screen_ok (backspace t) ∧ view (backspace t) = rub_out (view t).
Proof.
  intros [Hl Hc Hx Hy]. unfold backspace, rub_out, view.
  assert ((cursor_y t * VGA_WIDTH + cursor_x t) mod VGA_WIDTH = cursor_x t) as ->.
  { unfold VGA_WIDTH in *. rewrite Z.add_comm, Z.mod_add, Z.mod_small by lia. done. }
  destruct (Z.ltb_spec 0 (cursor_x t)); [rewrite decide_False by lia|rewrite decide_True by lia; by split].
  unfold set_cell, with_cursor. cbn [video cursor_x cursor_y]. unfold VGA_WIDTH, VGA_HEIGHT in *. split.
  - split; cbn [video cursor_x cursor_y]; unfold VGA_WIDTH, VGA_HEIGHT; try lia.
    + by rewrite lenZ_setZ by (unfold SCREEN, VGA_WIDTH, VGA_HEIGHT in *; lia).
    + by apply Forall_setZ.
  - replace (cursor_y t * 80 + (cursor_x t - 1)) with (cursor_y t * 80 + cursor_x t - 1) by lia. done.
Qed.

Lemma putchar_spec c t : screen_ok t →
  screen_ok (putchar c t) ∧ view (putchar c t) = type_char c (view t).
Proof.
  intros H. unfold putchar, type_char. destruct (Z.eqb_spec c 10) as [->|Hne].
  - destruct (newline_view t H) as [H1 H2]. split; [done|apply H2].
  - destruct (Z.eqb_spec c 8) as [->|Hne8].
    + rewrite decide_True by done. by apply backspace_spec.
    + rewrite decide_False by done. by apply character_view.
Qed.

(** The loop of [print] takes the characters of the string, at most 100. *)
Lemma c_string_drop (text : list Z) k : 0 ≤ k →
  c_string (drop (Z.to_nat k) text) =
    if nthZ text k =? 0 then [] else nthZ text k :: c_string (drop (Z.to_nat (k + 1)) text).
Proof.
  intros Hk. destruct (decide (lenZ text ≤ k)) as [Hge|Hlt].
  - rewrite nthZ_ge by done. rewrite drop_ge by (unfold lenZ in *; lia). done.
  - destruct (lookup_lt_is_Some_2 text (Z.to_nat k)) as [c Hc]; [unfold lenZ in *; lia|].
    rewrite (nthZ_lookup text k c Hc Hk), (drop_S _ c) by done.
    by replace (Z.to_nat (k + 1)) with (S (Z.to_nat k)) by lia.
Qed.

Lemma print_spec text color t : screen_ok t →
  screen_ok (print text color t) ∧
  view (print text color t) = foldl (λ s c, emit color c s) (view t) (take 100 (c_string text)).
Proof.
  intros H0. unfold print, for_exit.
  enough (∀ n k t, 0 ≤ k → k + Z.of_nat n = 100 → screen_ok t →
    let t' := snd (exit_loop (range k 100) (λ i t,
      if nthZ text i =? 0 then (Some (), t) else (None, print_char color (nthZ text i) t)) t) in
    screen_ok t' ∧ view t' = foldl (λ s c, emit color c s) (view t)
      (take n (c_string (drop (Z.to_nat k) text)))) as Hgen.
  { apply (Hgen 100%nat 0 t); [lia|lia|done]. }
  clear t H0. induction n as [|n IH]; intros k t Hk Hn Ht.
  { rewrite range_nil by lia. done. }
  rewrite range_cons by lia. cbn [exit_loop]. unfold mbind, M_bind. rewrite c_string_drop by done.
  destruct (nthZ text k =? 0); [done|]. cbn [take foldl].
  destruct (print_char_spec color (nthZ text k) t Ht) as [H1 <-]. by apply IH; [lia|lia|].
Qed.

Lemma clear_spec color t : screen_ok t →
  screen_ok (clear color t) ∧
  view (clear color t) = (replicate 2000 (u16 (color * 2 ^ 12 .| 0x20)), 0).
Proof.
  intros [Hl Hc Hx Hy]. unfold clear. rewrite shiftl_mul by lia.
  set (v := u16 (color * 2 ^ 12 .| 0x20)).
  assert (filled t (for_loop 0 (VGA_WIDTH * VGA_HEIGHT)
    (λ i, set_cell i (color * 2 ^ 12 .| 0x0020)) t)
    (λ i, if decide (i < VGA_WIDTH * VGA_HEIGHT) then v else nthZ (video t) i)) as H.
  { refine (for_loop_ind (λ x t', filled t t' (λ i, if decide (i < x) then v else nthZ (video t) i))
      0 (VGA_WIDTH * VGA_HEIGHT) _ t _ _ _); [done| |].
    - do 3 (split; [done|]). intros i Hi. by rewrite decide_False by lia.
    - intros x t1 Hxr (E1 & E2 & E3 & E4). unfold set_cell. change (VGA_WIDTH * VGA_HEIGHT) with SCREEN in Hxr.
      split; [cbn [video]; rewrite lenZ_setZ by lia; lia|]. do 2 (split; [done|]). intros i Hi. cbn [video].
      destruct (decide (i = x)) as [->|Hne].
      + rewrite nthZ_setZ_eq, decide_True by lia. done.
      + rewrite nthZ_setZ_ne, E4 by lia. repeat case_decide; try lia; done. }
  generalize dependent (for_loop 0 (VGA_WIDTH * VGA_HEIGHT)
    (λ i, set_cell i (color * 2 ^ 12 .| 0x0020)) t). intros t1 (E1 & _ & _ & E4).
  assert (video t1 = replicate 2000 v) as Ev.
  { unfold SCREEN, VGA_WIDTH, VGA_HEIGHT, lenZ in *. apply nthZ_ext.
    - rewrite length_replicate. lia.
    - intros i Hi. unfold lenZ in Hi. rewrite E4, decide_True by lia. symmetry.
      apply nthZ_lookup; [|lia]. apply lookup_replicate_2. lia. }
  unfold view, with_cursor. cbn [video cursor_x cursor_y]. rewrite Ev. split; [|done].
  split; cbn [video cursor_x cursor_y]; unfold VGA_WIDTH, VGA_HEIGHT; try lia.
  - unfold lenZ. rewrite length_replicate. done.
  - apply Forall_replicate, u16_range.
Qed.

(** *** Numbers *)

Lemma number_digits_spec fuel v digits :
  0 ≤ v < 10 ^ Z.of_nat fuel →
  ∃ ds, number_digits fuel v digits = digits ++ ds ∧ Forall is_digit ds ∧ digits_value ds = v ∧
    last ds ≠ Some 48 ∧ ∀ k : nat, v < 10 ^ Z.of_nat k → (length ds ≤ k)%nat.
Proof.
  revert v digits. induction fuel as [|fuel IH]; intros v digits Hv.
  { exists []. rewrite app_nil_r. change (10 ^ Z.of_nat 0) with 1 in Hv.
    split; [done|]. split; [done|]. split; [cbn; lia|]. split; [done|]. intros. cbn. lia. }
  cbn [number_digits]. destruct (Z.ltb_spec 0 v); cycle 1.
  { exists []. rewrite app_nil_r. split; [done|]. split; [done|]. split; [cbn; lia|].
    split; [done|]. intros. cbn. lia. }
  pose proof (Z.mod_pos_bound v 10 ltac:(lia)) as Hm. rewrite u8_small by lia.
  replace (Z.of_nat (S fuel)) with (1 + Z.of_nat fuel) in Hv by lia.
  rewrite Z.pow_add_r in Hv by lia.
  destruct (IH (v / 10) (digits ++ [48 + v mod 10])) as (ds & E & Hds & Hval & Hlast & Hlen); [dlia|].
  exists ((48 + v mod 10) :: ds). rewrite E, <- app_assoc. split; [done|].
  split; [constructor; [unfold is_digit; lia|done]|].
  split; [cbn [digits_value]; rewrite Hval; dlia|]. split.
  - destruct ds as [|d ds]; [|done]. cbn in Hval |- *. intros [= Hz]. dlia.
  - intros [|k] Hk; [change (10 ^ Z.of_nat 0) with 1 in Hk; lia|]. cbn [length].
    replace (Z.of_nat (S k)) with (1 + Z.of_nat k) in Hk by lia. rewrite Z.pow_add_r in Hk by lia.
    apply le_n_S, Hlen. dlia.
Qed.

(** The hexadecimal digit of a number below 16. *)
Definition hex_digit (d : Z) : Z := if d <? 10 then 48 + d else 55 + d.

Lemma hex_spec d : 0 ≤ d < 16 → nthZ hex d = hex_digit d.
Proof.
  intros Hd. assert (∃ n : nat, d = Z.of_nat n ∧ (n < 16)%nat) as (n & -> & Hn)
    by (exists (Z.to_nat d); lia).
  do 16 (destruct n as [|n]; [reflexivity|]). lia.
Qed.

Lemma perform_spec o t : screen_ok t →
  screen_ok (perform o t) ∧ view (perform o t) = on_screen o (view t).
Proof.
  destruct o; [apply putchar_spec|apply print_spec|apply clear_spec|apply backspace_spec].
Qed.

(** Every operation keeps the screen. *)
Lemma putchar_screen c t : screen_ok t → screen_ok (putchar c t).
Proof. intros Ht. apply (perform_spec (Putchar c) t Ht). Qed.
Lemma print_screen l color t : screen_ok t → screen_ok (print l color t).
Proof. intros Ht. apply (perform_spec (Print l color) t Ht). Qed.
Lemma clear_screen color t : screen_ok t → screen_ok (clear color t).
Proof. intros Ht. apply (perform_spec (Clear color) t Ht). Qed.
Lemma put_all_screen l t : screen_ok t → screen_ok (put_all l t).
Proof.
  revert t. induction l as [|c l IH]; intros t Ht; [done|]. by apply IH, putchar_screen.
Qed.
Lemma print_hex_byte_screen v t : screen_ok t → screen_ok (print_hex_byte v t).
Proof. intros Ht. by do 2 apply putchar_screen. Qed.
Lemma print_number_screen v t : screen_ok t → screen_ok (print_number v t).
Proof.
  intros Ht. unfold print_number. destruct (v =? 0); [by apply putchar_screen|].
  generalize (number_digits 11 v []). intros l. induction l as [|c l IH]; [done|].
  by apply putchar_screen.
Qed.
#[export] Hint Resolve putchar_screen print_screen clear_screen put_all_screen print_hex_byte_screen
  print_number_screen : levos.

Lemma print_hex_byte_spec v t : 0 ≤ v < 2 ^ 8 →
  print_hex_byte v t = put_all [hex_digit (v / 16); hex_digit (v mod 16)] t.
Proof.
  intros Hv. unfold print_hex_byte. rewrite shiftr_div by lia.
  rewrite !(land_mask _ 0xF 4) by lia. rewrite !hex_spec by (apply Z.mod_pos_bound; lia).
  rewrite (Z.mod_small (v / 2 ^ 4)) by dlia. done.
Qed.

(** The hexadecimal digits of a 32-bit number. *)
Definition nibbles (v : Z) : list Z := (λ k, v / 2 ^ (28 - 4 * k) mod 16) <$> range 0 8.

Lemma nibbles_spec v : 0 ≤ v < 2 ^ 32 →
  hex_value (nibbles v) = v ∧ Forall (λ d, 0 ≤ d < 16) (nibbles v) ∧ length (nibbles v) = 8%nat.
Proof.
  intros Hv. unfold nibbles. split; [|split].
  - change (range 0 8) with [0; 1; 2; 3; 4; 5; 6; 7]. unfold hex_value. cbn [fmap list_fmap foldl].
    cbn [Z.mul Z.sub Z.add Z.opp Z.pos_sub Pos.mul Pos.add Z.succ_double Z.pred_double Z.double
      Pos.pred_double Pos.succ].
    change (28 - 0) with 28. change (2 ^ 28) with 268435456. change (2 ^ 24) with 16777216.
    change (2 ^ 20) with 1048576. change (2 ^ 16) with 65536. change (2 ^ 12) with 4096.
    change (2 ^ 8) with 256. change (2 ^ 4) with 16. change (2 ^ 0) with 1. dlia.
  - apply Forall_fmap, Forall_true. intros k. apply Z.mod_pos_bound. lia.
  - done.
Qed.

Lemma print_hex_dword_spec v t : 0 ≤ v < 2 ^ 32 →
  print_hex_dword v t = put_all ([48; 120] ++ (hex_digit <$> nibbles v)) t.
Proof.
  intros Hv. unfold print_hex_dword, nibbles, put_all, for_loop. rewrite foldl_app.
  change (foldl (λ t c, putchar c t) t [48; 120]) with (putchar 120 (putchar 48 t)).
  generalize (putchar 120 (putchar 48 t)). assert (Forall (λ k, 0 ≤ k < 8) (range 0 8)) as Hr.
  { apply Forall_forall. intros k Hk. by apply elem_of_range in Hk. }
  revert Hr. generalize (range 0 8). induction 1 as [|k l Hk Hl IH]; intros t'; [done|].
  cbn [foldl fmap list_fmap]. rewrite shiftr_div, (land_mask _ 0xF 4) by lia.
  rewrite hex_spec by (apply Z.mod_pos_bound; lia). apply IH.
Qed.

Lemma foldr_put l t : foldr putchar t l = put_all (rev l) t.
Proof.
  unfold put_all. induction l as [|c l IH]; [done|]. cbn [foldr rev]. by rewrite foldl_app, IH.
Qed.

(** ** Properties *)

(** C13. The terminal implements a screen of 2000 cells with a position: whatever is
    written, every cell written lies on the screen, the cursor stays on it, the
    cells and the position are those of the plain description of each operation,
    and the rows move up by one exactly when the position passes the last cell. *)
Theorem terminal_refines_screen ops t :
  screen_ok t →
  let t' := foldl (λ t o, perform o t) t ops in
  screen_ok t' ∧ view t' = foldl (λ s o, on_screen o s) (view t) ops.
Proof.
  revert t. induction ops as [|o ops IH]; intros t Ht; [done|]. cbn [foldl].
  destruct (perform_spec o t Ht) as [H1 <-]. by apply IH.
Qed.

(** C34. [print_number] writes the decimal digits of its argument, most significant
    first and without leading zeros, and never uses more than the 10 places of its
    array; [print_hex_byte] writes two and [print_hex_dword], after "0x", eight
    hexadecimal digits whose value is the argument. *)
Theorem printed_numbers_correct v t :
  0 ≤ v < 2 ^ 32 →
  (∃ ds, Forall is_digit ds ∧ digits_value (rev ds) = v ∧ (1 ≤ length ds ≤ 10)%nat ∧
     (v ≠ 0 → head ds ≠ Some 48) ∧ print_number v t = put_all ds t) ∧
  (∃ ds, Forall (λ d, 0 ≤ d < 16) ds ∧ length ds = 8%nat ∧ hex_value ds = v ∧
     print_hex_dword v t = put_all ([48; 120] ++ (hex_digit <$> ds)) t) ∧
  (v < 2 ^ 8 → ∃ a b, 0 ≤ a < 16 ∧ 0 ≤ b < 16 ∧ v = 16 * a + b ∧
     print_hex_byte v t = put_all [hex_digit a; hex_digit b] t).
Proof.
  intros Hv. split; [|split].
  - unfold print_number. destruct (Z.eqb_spec v 0) as [->|Hne].
    { exists [48]. split; [by constructor|]. split; [done|]. split; [cbn; lia|]. done. }
    destruct (number_digits_spec 11 v [] ltac:(lia)) as (ds & -> & Hds & Hval & Hlast & Hlen).
    exists (rev ds). cbn [app]. rewrite rev_involutive, length_rev.
    split; [by apply Forall_rev|]. split; [done|]. split.
    { split; [|apply Hlen; lia]. destruct ds; [cbn in Hval; lia|cbn; lia]. }
    split; [|apply foldr_put]. intros _. rewrite rev_alt. change (head (reverse ds) ≠ Some 48). by rewrite head_reverse.
  - destruct (nibbles_spec v Hv) as (H1 & H2 & H3). exists (nibbles v).
    split; [done|]. split; [done|]. split; [done|]. by apply print_hex_dword_spec.
  - intros Hb. exists (v / 16), (v mod 16). rewrite print_hex_byte_spec by lia.
    split; [dlia|]. split; [dlia|]. split; [dlia|done].
Qed.

(** ** Instances *)

Definition empty_screen : terminal := clear BLACK (mk_terminal (replicate 2000 0) 0 0).

Lemma zero_screen_ok : screen_ok (mk_terminal (replicate 2000 0) 0 0).
Proof.
  split; cbn [video cursor_x cursor_y]; unfold VGA_WIDTH, VGA_HEIGHT; try lia.
  - unfold lenZ. rewrite length_replicate. done.
  - by apply Forall_replicate.
Qed.

(** Characters, a line break and a backspace on a screen of zeros. *)
Lemma terminal_refines_screen_witness :
  let t := mk_terminal (replicate 2000 0) 0 0 in
  let ops := [Clear BLACK; Putchar 65; Putchar 10; Print [72; 105] YELLOW; Backspace] in
  screen_ok (foldl (λ t o, perform o t) t ops) ∧
  view (foldl (λ t o, perform o t) t ops) = foldl (λ s o, on_screen o s) (view t) ops.
Proof. apply terminal_refines_screen. exact zero_screen_ok. Defined.

Lemma printed_numbers_correct_witness :
  ∃ ds, Forall is_digit ds ∧ digits_value (rev ds) = 4096 ∧ (1 ≤ length ds ≤ 10)%nat ∧
     (4096 ≠ 0 → head ds ≠ Some 48) ∧ print_number 4096 empty_screen = put_all ds empty_screen.
Proof. exact (proj1 (printed_numbers_correct 4096 empty_screen ltac:(lia))). Defined.
End Terminal.
