(* ===== verification/Keyboard.v ===== *)
(** The keyboard, [drivers/keyboard.c]: scan codes, and the ring buffer between the
    interrupt handler and the shell as a bounded queue. *)

From S2P Require Import Prelude Interfaces Io.

Module Keyboard.
Import Io.

(** ** Definitions *)

Definition KEYBOARD_BUFFER_SIZE : Z := 128.

(** The variables of the file; [volatile int] flags that are 0 or 1 are booleans. *)
Record keyboard := mk_keyboard {
  keyboard_buffer : list Z;
  buffer_head : Z;
  buffer_tail : Z;
  left_shift : bool;
  right_shift : bool;
  caps_lock : bool;
}.

(** The initialised elements of the two tables; all others are 0. *)
Definition table : list (Z * Z) :=
  [(0x02, 49); (0x03, 50); (0x04, 51); (0x05, 52); (0x06, 53); (0x07, 54); (0x08, 55);
   (0x09, 56); (0x0A, 57); (0x0B, 48); (0x0C, 45); (0x0D, 61); (0x10, 113); (0x11, 119);
   (0x12, 101); (0x13, 114); (0x14, 116); (0x15, 121); (0x16, 117); (0x17, 105); (0x18, 111);
   (0x19, 112); (0x1E, 97); (0x1F, 115); (0x20, 100); (0x21, 102); (0x22, 103); (0x23, 104);
   (0x24, 106); (0x25, 107); (0x26, 108); (0x27, 59); (0x28, 39); (0x29, 96); (0x2B, 92);
   (0x33, 44); (0x34, 46); (0x35, 47); (0x2C, 122); (0x2D, 120); (0x2E, 99); (0x2F, 118);
   (0x30, 98); (0x31, 110); (0x32, 109); (0x1C, 10); (0x39, 32); (0x0E, 8)].
Definition shifted_table : list (Z * Z) :=
  [(0x02, 33); (0x03, 64); (0x04, 35); (0x05, 36); (0x06, 37); (0x07, 94); (0x08, 38);
   (0x09, 42); (0x0A, 40); (0x0B, 41); (0x0C, 95); (0x0D, 43); (0x10, 81); (0x11, 87);
   (0x12, 69); (0x13, 82); (0x14, 84); (0x15, 89); (0x16, 85); (0x17, 73); (0x18, 79);
   (0x19, 80); (0x1A, 123); (0x1B, 125); (0x1E, 65); (0x1F, 83); (0x20, 68); (0x21, 70);
   (0x22, 71); (0x23, 72); (0x24, 74); (0x25, 75); (0x26, 76); (0x27, 58); (0x28, 34);
   (0x29, 126); (0x2B, 124); (0x2C, 90); (0x2D, 88); (0x2E, 67); (0x2F, 86); (0x30, 66);
   (0x31, 78); (0x32, 77); (0x33, 60); (0x34, 62); (0x35, 63)].

Fixpoint entry (l : list (Z * Z)) (i : Z) : Z :=
  match l with
  | [] => 0
  | (j, c) :: l => if j =? i then c else entry l i
  end.

(** [buffer_tail = t;] and the other assignments. *)
Definition with_tail (t : Z) (k : keyboard) : keyboard :=
  mk_keyboard (keyboard_buffer k) (buffer_head k) t (left_shift k) (right_shift k) (caps_lock k).
Definition with_left_shift (b : bool) (k : keyboard) : keyboard :=
  mk_keyboard (keyboard_buffer k) (buffer_head k) (buffer_tail k) b (right_shift k) (caps_lock k).
Definition with_right_shift (b : bool) (k : keyboard) : keyboard :=
  mk_keyboard (keyboard_buffer k) (buffer_head k) (buffer_tail k) (left_shift k) b (caps_lock k).
Definition with_caps_lock (b : bool) (k : keyboard) : keyboard :=
  mk_keyboard (keyboard_buffer k) (buffer_head k) (buffer_tail k) (left_shift k) (right_shift k) b.

Definition keyboard_getchar (k : keyboard) : Z * keyboard :=
  if buffer_head k =? buffer_tail k then (0, k)
  else
    let c := nthZ (keyboard_buffer k) (buffer_tail k) in
    (c, with_tail (u32 (buffer_tail k + 1) mod KEYBOARD_BUFFER_SIZE) k).

Definition keyboard_buffer_put (c : Z) (k : keyboard) : keyboard :=
  let next := u32 (buffer_head k + 1) mod KEYBOARD_BUFFER_SIZE in
  if next =? buffer_tail k then k
  else
    mk_keyboard (setZ (keyboard_buffer k) (buffer_head k) c) next (buffer_tail k) (left_shift k)
      (right_shift k) (caps_lock k).

Definition scancode_to_ascii (scancode : Z) (k : keyboard) : Z :=
  let upper := left_shift k || right_shift k in
  if negb ((scancode .& 0x80) =? 0) then 0
  else
    let value := entry table scancode in
    if (97 <=? value) && (value <=? 122) then
      let upper := if caps_lock k then negb upper else upper in
      if upper then i8 (value - 97 + 65) else value
    else if upper && negb (entry shifted_table (scancode .& 0x7F) =? 0)
    then entry shifted_table (scancode .& 0x7F)
    else value.

(** [keyboard_irq] once it has read the scan code. *)
Definition handle_scancode (scancode : Z) (k : keyboard) : keyboard :=
  let code := scancode .& 0x7F in
  if code =? 0x2A then with_left_shift ((scancode .& 0x80) =? 0) k
  else if code =? 0x36 then with_right_shift ((scancode .& 0x80) =? 0) k
  else if code =? 0x3A then
    if (scancode .& 0x80) =? 0 then with_caps_lock (negb (caps_lock k)) k else k
  else if (scancode .& 0x80) =? 0 then
    let asciichar := scancode_to_ascii code k in
    if negb (asciichar =? 0) then keyboard_buffer_put asciichar k else k
  else k.

Section ports.
Context {P : Type} {IO : Ports P}.

Definition keyboard_irq (s : keyboard * P) : keyboard * P :=
  let '(k, p) := s in
  let '(scancode, p) := inb 0x60 p in
  (handle_scancode scancode k, p).

Definition init_keyboard (s : keyboard * P) : keyboard * P :=
  let '(k, p) := s in
  let '(mask, p) := inb 0x21 p in
  let k := with_caps_lock false (with_right_shift false (with_left_shift false k)) in
  (k, outb 0x21 (u8 (Z.land mask (Z.lnot (1 ≪ 1)))) p).
End ports.

(** ** Specification *)

(** The characters waiting, oldest first. *)
Definition waiting (k : keyboard) : list Z :=
  (λ i, nthZ (keyboard_buffer k) ((buffer_tail k + i) mod KEYBOARD_BUFFER_SIZE)) <$>
    range 0 ((buffer_head k - buffer_tail k) mod KEYBOARD_BUFFER_SIZE).

Record keyboard_ok (k : keyboard) : Prop := {
  kb_length : lenZ (keyboard_buffer k) = KEYBOARD_BUFFER_SIZE;
  kb_head : 0 ≤ buffer_head k < KEYBOARD_BUFFER_SIZE;
  kb_tail : 0 ≤ buffer_tail k < KEYBOARD_BUFFER_SIZE;
}.

(** A queue of at most 127 characters; what does not fit is dropped. *)
Definition enqueue (c : Z) (q : list Z) : list Z := if decide (length q < 127)%nat then q ++ [c] else q.
Definition dequeue (q : list Z) : Z * list Z :=
  match q with
  | [] => (0, [])
  | c :: q => (c, q)
  end.

(** The modifier keys: both shifts and the lock. *)
Definition modifiers : Type := bool * bool * bool.
Definition modifiers_of (k : keyboard) : modifiers := (left_shift k, right_shift k, caps_lock k).

(** A scan code is a key, and a bit that says it was released. *)
Definition key_of (code : Z) : Z := code mod 128.
Definition released (code : Z) : bool := 128 <=? code.

(** The modifiers after a scan code. *)
Definition modify (code : Z) (m : modifiers) : modifiers :=
  let '(l, r, caps) := m in
  if key_of code =? 0x2A then (negb (released code), r, caps)
  else if key_of code =? 0x36 then (l, negb (released code), caps)
  else if key_of code =? 0x3A then (l, r, xorb caps (negb (released code)))
  else m.

(** The character a key press types: a letter in the case the modifiers give, the
    other symbol of a key with shift, if it has one. *)
Definition typed (code : Z) (m : modifiers) : option Z :=
  let '(l, r, caps) := m in
  let plain := entry table code in
  let shifted := entry shifted_table code in
  if released code || (key_of code =? 0x2A) || (key_of code =? 0x36) || (key_of code =? 0x3A)
  then None
  else
    let c :=
      if bool_decide (97 ≤ plain ≤ 122) then (if xorb (l || r) caps then shifted else plain)
      else if (l || r) && bool_decide (shifted ≠ 0) then shifted else plain in
    if decide (c = 0) then None else Some c.

(** Key presses and releases, and characters fetched; the characters fetched are
    collected. *)
Inductive event := Code (code : Z) | Fetch.

Definition run (e : event) (s : keyboard * list Z) : keyboard * list Z :=
  let '(k, out) := s in
  match e with
  | Code code => (handle_scancode code k, out)
  | Fetch => let '(c, k) := keyboard_getchar k in (k, out ++ [c])
  end.

Definition run_queue (e : event) (s : list Z * modifiers * list Z) : list Z * modifiers * list Z :=
  let '(q, m, out) := s in
  match e with
  | Code code => (match typed code m with Some c => enqueue c q | None => q end, modify code m, out)
  | Fetch => let '(c, q) := dequeue q in (q, m, out ++ [c])
  end.

(** What the keyboard can type. *)
Definition typeable (c : Z) : Prop := c = 8 ∨ c = 10 ∨ 32 ≤ c < 127.

(** ** Lemmas *)

(** The checks that run over all scan codes and modifiers. *)
Definition all_codes : list Z := range 0 256.
Definition all_modifiers : list modifiers :=
  l ← [false; true]; r ← [false; true]; caps ← [false; true]; [(l, r, caps)].

Lemma elem_of_all_modifiers m : m ∈ all_modifiers.
Proof. destruct m as [[[] []] []]; vm_compute; set_solver. Qed.

Definition with_modifiers (m : modifiers) : keyboard :=
  let '(l, r, caps) := m in mk_keyboard [] 0 0 l r caps.

(** The code of [handle_scancode], for a press, against [typed] and [modify]. *)
Definition decodes (code : Z) (m : modifiers) : bool :=
  let k := with_modifiers m in
  let code7 := code .& 0x7F in
  let c := scancode_to_ascii code7 k in
  let special := (code7 =? 0x2A) || (code7 =? 0x36) || (code7 =? 0x3A) in
  bool_decide (code7 = key_of code) && eqb ((code .& 0x80) =? 0) (negb (released code)) &&
  bool_decide (typed code m =
    if special || released code || (c =? 0) then None else Some c) &&
  match typed code m with
  | Some c => bool_decide (c = 8) || bool_decide (c = 10) || ((32 <=? c) && (c <? 127))
  | None => true
  end.

Lemma all_decode : forallb (λ code, forallb (decodes code) all_modifiers) all_codes = true.
Proof. vm_compute. reflexivity. Qed.

Lemma decodes_all code m : 0 ≤ code < 256 → decodes code m = true.
Proof.
  intros Hc. pose proof all_decode as H. rewrite forallb_forall in H.
  assert (code ∈ all_codes) as Hin by (by apply elem_of_range).
  specialize (H code (proj1 (list_elem_of_In _ _) Hin)). rewrite forallb_forall in H.
  apply H, list_elem_of_In, elem_of_all_modifiers.
Qed.

(** *** The ring buffer *)

Lemma fmap_range_shift {A} (f : Z → A) a b : f <$> range (a + 1) (b + 1) = (λ i, f (i + 1)) <$> range a b.
Proof.
  unfold range. replace (b + 1 - (a + 1)) with (b - a) by lia. generalize (Z.to_nat (b - a)). intros n.
  revert a. induction n as [|n IH]; intros a; [done|]. cbn [count_up fmap list_fmap]. f_equal. apply IH.
Qed.

Lemma length_waiting k :
  length (waiting k) = Z.to_nat ((buffer_head k - buffer_tail k) mod KEYBOARD_BUFFER_SIZE).
Proof.
  unfold waiting, range. rewrite length_fmap, Z.sub_0_r. generalize (Z.to_nat ((buffer_head k - buffer_tail k) mod KEYBOARD_BUFFER_SIZE)).
  intros n. generalize 0. induction n as [|n IH]; intros a; [done|]. cbn [count_up length]. by rewrite IH.
Qed.

Lemma waiting_nil k : keyboard_ok k → waiting k = [] ↔ buffer_head k = buffer_tail k.
Proof.
  intros [_ H1 H2]. unfold KEYBOARD_BUFFER_SIZE in *.
  rewrite <- length_zero_iff_nil, length_waiting. unfold KEYBOARD_BUFFER_SIZE. split; intros; dlia.
Qed.

Lemma put_spec c k : keyboard_ok k →
  keyboard_ok (keyboard_buffer_put c k) ∧ buffer_tail (keyboard_buffer_put c k) = buffer_tail k ∧
  modifiers_of (keyboard_buffer_put c k) = modifiers_of k ∧
  waiting (keyboard_buffer_put c k) = enqueue c (waiting k) ∧
  (buffer_head k ≠ buffer_tail k →
     buffer_head (keyboard_buffer_put c k) ≠ buffer_tail k ∧
     nthZ (keyboard_buffer (keyboard_buffer_put c k)) (buffer_tail k) =
       nthZ (keyboard_buffer k) (buffer_tail k)).
Proof.
  intros Hk. pose proof Hk as [Hl Hh Ht]. unfold enqueue. rewrite length_waiting.
  unfold keyboard_buffer_put. unfold KEYBOARD_BUFFER_SIZE in *. rewrite u32_small by lia.
  destruct (Z.eqb_spec ((buffer_head k + 1) mod 128) (buffer_tail k)) as [E|Hne].
  { rewrite decide_False by dlia. split_and!; done. }
  rewrite decide_True by dlia.
  split; [split; cbn [keyboard_buffer buffer_head buffer_tail]; unfold KEYBOARD_BUFFER_SIZE;
    [by rewrite lenZ_setZ by lia|dlia|lia]|].
  split; [done|]. split; [done|]. split.
  - unfold waiting, KEYBOARD_BUFFER_SIZE. cbn [keyboard_buffer buffer_head buffer_tail].
    replace (((buffer_head k + 1) mod 128 - buffer_tail k) mod 128)
      with ((buffer_head k - buffer_tail k) mod 128 + 1) by dlia.
    rewrite range_snoc by dlia. rewrite fmap_app. f_equal.
    + apply list_fmap_ext. intros j i Hi. apply list_elem_of_lookup_2, elem_of_range in Hi.
      apply nthZ_setZ_ne; [lia|dlia].
    + cbn [fmap list_fmap]. f_equal.
      replace ((buffer_tail k + (buffer_head k - buffer_tail k) mod 128) mod 128)
        with (buffer_head k) by dlia.
      apply nthZ_setZ_eq. lia.
  - intros Hd. split; [done|]. cbn [keyboard_buffer]. apply nthZ_setZ_ne; [lia|done].
Qed.

Lemma getchar_spec k : keyboard_ok k →
  let '(c, k') := keyboard_getchar k in
  keyboard_ok k' ∧ modifiers_of k' = modifiers_of k ∧ (c, waiting k') = dequeue (waiting k).
Proof.
  intros Hk. pose proof Hk as [Hl Hh Ht]. unfold keyboard_getchar.
  destruct (Z.eqb_spec (buffer_head k) (buffer_tail k)) as [E|Hne].
  { split; [done|split; [done|]]. by rewrite (proj2 (waiting_nil k Hk) E). }
  unfold with_tail, KEYBOARD_BUFFER_SIZE in *. rewrite u32_small by lia.
  split; [split; cbn; unfold KEYBOARD_BUFFER_SIZE; [done|lia|dlia]|]. split; [done|].
  unfold waiting, KEYBOARD_BUFFER_SIZE. cbn [keyboard_buffer buffer_head buffer_tail].
  set (n := (buffer_head k - buffer_tail k) mod 128).
  assert ((buffer_head k - (buffer_tail k + 1) mod 128) mod 128 = n - 1) as -> by (subst n; dlia).
  assert (0 < n) by (subst n; dlia). rewrite (range_cons 0 n) by done.
  change (dequeue (?f <$> 0 :: ?l)) with (f 0, f <$> l). cbn beta. f_equal.
  - f_equal. dlia.
  - pose proof (fmap_range_shift
      (λ i, nthZ (keyboard_buffer k) ((buffer_tail k + i) mod 128)) 0 (n - 1)) as E.
    replace (n - 1 + 1) with n in E by lia. rewrite E.
    apply list_fmap_ext. intros j i Hi. apply list_elem_of_lookup_2, elem_of_range in Hi.
    f_equal. rewrite Z.add_mod_idemp_l by lia. f_equal. lia.
Qed.

(** *** Scan codes *)

Lemma scancode_modifiers code k :
  scancode_to_ascii code k = scancode_to_ascii code (with_modifiers (modifiers_of k)).
Proof. done. Qed.

Lemma handle_scancode_spec code k : 0 ≤ code < 256 → keyboard_ok k →
  let k' := handle_scancode code k in
  keyboard_ok k' ∧ buffer_tail k' = buffer_tail k ∧ modifiers_of k' = modify code (modifiers_of k) ∧
  waiting k' = match typed code (modifiers_of k) with
               | Some c => enqueue c (waiting k)
               | None => waiting k
               end ∧
  (buffer_head k ≠ buffer_tail k → buffer_head k' ≠ buffer_tail k ∧
     nthZ (keyboard_buffer k') (buffer_tail k) = nthZ (keyboard_buffer k) (buffer_tail k)).
Proof.
  intros Hc Hk k'. pose proof (decodes_all code (modifiers_of k) Hc) as Hd. unfold decodes in Hd.
  apply andb_prop in Hd as [Hd _]. apply andb_prop in Hd as [Hd E3].
  apply andb_prop in Hd as [E1 E2]. apply bool_decide_eq_true in E1, E3. apply eqb_prop in E2.
  rewrite <- scancode_modifiers in E3. subst k'. unfold handle_scancode. rewrite E2, E3.
  clear E3. pose proof Hk as [Hl Hh Ht].
  destruct k as [kb h t l r caps]. unfold modify, modifiers_of. rewrite <- E1.
  destruct (code .& 0x7F =? 0x2A); [split; [by split|done]|].
  destruct (code .& 0x7F =? 0x36); [split; [by split|done]|].
  destruct (code .& 0x7F =? 0x3A).
  { destruct (released code), caps; (split; [by split|done]). }
  destruct (released code); cbn [negb orb]; [split; [by split|done]|].
  destruct (scancode_to_ascii (code .& 0x7F) _ =? 0); cbn [negb]; [split; [by split|done]|].
  by apply put_spec.
Qed.

Lemma typed_typeable code m c : 0 ≤ code < 256 → typed code m = Some c → typeable c.
Proof.
  intros Hc E. pose proof (decodes_all code m Hc) as Hd. unfold decodes in Hd.
  apply andb_prop in Hd as [_ Hd]. rewrite E in Hd. unfold typeable.
  apply orb_prop in Hd as [Hd|Hd]; [apply orb_prop in Hd as [Hd|Hd]|].
  - left. by apply bool_decide_eq_true in Hd.
  - right; left. by apply bool_decide_eq_true in Hd.
  - bool_hyps. lia.
Qed.

(** One event. *)
Lemma run_spec e k out :
  keyboard_ok k → match e with Code c => 0 ≤ c < 256 | Fetch => True end →
  let '(k', out') := run e (k, out) in
  keyboard_ok k' ∧
  (waiting k', modifiers_of k', out') = run_queue e (waiting k, modifiers_of k, out).
Proof.
  intros Hk He. destruct e as [code|].
  - destruct (handle_scancode_spec code k He Hk) as (H1 & _ & H2 & H3 & _). cbn [run run_queue].
    split; [done|]. by rewrite H2, H3.
  - pose proof (getchar_spec k Hk) as H. cbn [run run_queue].
    destruct (keyboard_getchar k) as [c k']. destruct H as (H1 & H2 & H3). split; [done|].
    by rewrite <- H3, H2.
Qed.

(** ** Properties *)

(** C14. Whatever keys are pressed and whenever characters are fetched, the keyboard
    behaves as a queue of 127 characters: a press of a key that types a character
    appends it when there is room, the modifier keys change only the modifiers, and
    a fetch takes the oldest character, or gives 0 when there is none.  Only
    printable characters, line feeds and backspaces are ever typed. *)
Theorem keyboard_refines_queue events k out :
  keyboard_ok k → Forall (λ e, match e with Code c => 0 ≤ c < 256 | Fetch => True end) events →
  let '(k', out') := foldl (λ s e, run e s) (k, out) events in
  keyboard_ok k' ∧
  (waiting k', modifiers_of k', out') =
    foldl (λ s e, run_queue e s) (waiting k, modifiers_of k, out) events ∧
  ∀ code m c, 0 ≤ code < 256 → typed code m = Some c → typeable c.
Proof.
  intros Hk He. revert k out Hk. induction He as [|e events He Hes IH]; intros k out Hk.
  - split; [done|split; [done|]]. apply typed_typeable.
  - cbn [foldl]. pose proof (run_spec e k out Hk He) as H.
    destruct (run e (k, out)) as [k1 out1]. destruct H as [H1 <-]. by apply IH.
Qed.

(** ** Instances *)

Definition idle : keyboard := mk_keyboard (replicate 128 0) 0 0 false false false.

Lemma idle_ok : keyboard_ok idle.
Proof. split; done. Qed.

(** Shift, "a", "b" fetched: "A" and "B". *)
Lemma keyboard_refines_queue_witness :
  let events := [Code 0x2A; Code 0x1E; Code 0x30; Fetch; Code 0xAA; Fetch; Fetch] in
  snd (foldl (λ s e, run e s) (idle, []) events) = [65; 66; 0] ∧
  let '(k', out') := foldl (λ s e, run e s) (idle, []) events in
  keyboard_ok k' ∧
  (waiting k', modifiers_of k', out') =
    foldl (λ s e, run_queue e s) (waiting idle, modifiers_of idle, []) events ∧
  ∀ code m c, 0 ≤ code < 256 → typed code m = Some c → typeable c.
Proof.
  split; [vm_compute; reflexivity|].
  apply (keyboard_refines_queue [Code 0x2A; Code 0x1E; Code 0x30; Fetch; Code 0xAA; Fetch; Fetch]
    idle [] idle_ok).
  repeat constructor; vm_compute; congruence.
Defined.

End Keyboard.
