(* ===== verification/Ata.v ===== *)
(** The ATA driver, [drivers/ata.c]: programmed input of sectors from the primary
    master, and the driver as an instance of the block-device interface, on a drive
    that behaves as the ATA standard says. *)

From stdpp Require Import strings.
From S2P Require Import Prelude Interfaces Io Block.

Module Ata.
Import Io.

(** ** Definitions *)

Definition ATA_PRIMARY_IO : Z := 0x1F0.
Definition ATA_REG_DATA : Z := 0.
Definition ATA_REG_SECCOUNT0 : Z := 2.
Definition ATA_REG_LBA0 : Z := 3.
Definition ATA_REG_LBA1 : Z := 4.
Definition ATA_REG_LBA2 : Z := 5.
Definition ATA_REG_HDDEVSEL : Z := 6.
Definition ATA_REG_STATUS : Z := 7.
Definition ATA_REG_COMMAND : Z := 7.
Definition ATA_REG_ALTSTATUS : Z := 0x206.

Definition ATA_CMD_IDENTIFY : Z := 0xEC.
Definition ATA_CMD_READ_SECTORS : Z := 0x20.
Definition ATA_SR_ERR : Z := 0x01.
Definition ATA_SR_DRQ : Z := 0x08.
Definition ATA_SR_DF : Z := 0x20.
Definition ATA_SR_BSY : Z := 0x80.

Definition ATA_PIO_EINVAL : Z := -1.
Definition ATA_PIO_ENODEV : Z := -2.
Definition ATA_PIO_ESTATUS : Z := -3.
Definition ATA_PIO_ETIMEOUT : Z := -4.
Definition ATA_PIO_EDRQ : Z := -5.

(** [ata_pio_device_t] with its [block] member, and the hardware it drives.
    [block.context] is the device itself once [block_context] is true, and the
    callback is [ata_pio_read_sector] once [block_read] is. *)
Record ata (P : Type) := mk_ata {
  block_sector_size : Z;
  block_sector_count : Z;
  block_read : bool;
  block_context : bool;
  io_base : Z;
  drive_select : Z;
  present : bool;
  last_error : Z;
  hardware : P;
}.
Arguments mk_ata {P}.
Arguments block_sector_size {P}.
Arguments block_sector_count {P}.
Arguments block_read {P}.
Arguments block_context {P}.
Arguments io_base {P}.
Arguments drive_select {P}.
Arguments present {P}.
Arguments last_error {P}.
Arguments hardware {P}.

(** At most [n] rounds of a loop that its body may leave. *)
Fixpoint rounds {S R} (n : positive) (body : M S (option R)) : M S (option R) :=
  match n with
  | xH => body
  | xO n =>
      r ← rounds n body;
      match r with Some v => mret (Some v) | None => rounds n body end
  | xI n =>
      r ← body;
      match r with
      | Some v => mret (Some v)
      | None =>
          r ← rounds n body;
          match r with Some v => mret (Some v) | None => rounds n body end
      end
  end.

Section code.
Context {P : Type} {IO : Ports P}.
Implicit Types (d : ata P).

Definition with_hardware (p : P) d : ata P :=
  mk_ata (block_sector_size d) (block_sector_count d) (block_read d) (block_context d) (io_base d)
    (drive_select d) (present d) (last_error d) p.
Definition with_present (b : bool) d : ata P :=
  mk_ata (block_sector_size d) (block_sector_count d) (block_read d) (block_context d) (io_base d)
    (drive_select d) b (last_error d) (hardware d).
Definition with_last_error (e : Z) d : ata P :=
  mk_ata (block_sector_size d) (block_sector_count d) (block_read d) (block_context d) (io_base d)
    (drive_select d) (present d) e (hardware d).
Definition with_sector_count (n : Z) d : ata P :=
  mk_ata (block_sector_size d) n (block_read d) (block_context d) (io_base d)
    (drive_select d) (present d) (last_error d) (hardware d).

(** Access to the registers of the device. *)
Definition reg_in (reg : Z) : M (ata P) Z := λ d,
  let '(v, p) := inb (u16 (io_base d + reg)) (hardware d) in (v, with_hardware p d).
Definition reg_inw (reg : Z) : M (ata P) Z := λ d,
  let '(v, p) := inw (u16 (io_base d + reg)) (hardware d) in (v, with_hardware p d).
Definition reg_out (reg value : Z) d : ata P :=
  with_hardware (outb (u16 (io_base d + reg)) value (hardware d)) d.

Definition ata_status : M (ata P) Z := reg_in ATA_REG_STATUS.

Definition ata_delay d : ata P :=
  let '(_, d) := reg_in ATA_REG_ALTSTATUS d in
  let '(_, d) := reg_in ATA_REG_ALTSTATUS d in
  let '(_, d) := reg_in ATA_REG_ALTSTATUS d in
  let '(_, d) := reg_in ATA_REG_ALTSTATUS d in
  d.

Definition ata_fail (error : Z) d : Z * ata P :=
  let d := with_last_error error d in
  (error, if error =? ATA_PIO_ENODEV then with_present false d else d).

(** One round of the loop of [ata_wait]. *)
Definition ata_poll (data_request : bool) : M (ata P) (option Z) := λ d,
  let '(status, d) := ata_status d in
  if (status =? 0) || (status =? 0xFF) then
    let '(r, d) := ata_fail ATA_PIO_ENODEV d in (Some r, d)
  else if negb ((status .& (ATA_SR_ERR .| ATA_SR_DF)) =? 0) then
    let '(r, d) := ata_fail ATA_PIO_ESTATUS d in (Some r, d)
  else if ((status .& ATA_SR_BSY) =? 0) &&
          (negb data_request || negb ((status .& ATA_SR_DRQ) =? 0)) then (Some 0, d)
  else (None, d).

Definition ata_wait (data_request : bool) d : Z * ata P :=
  let d := ata_delay d in
  match rounds 1000000 (ata_poll data_request) d with
  | (Some r, d) => (r, d)
  | (None, d) => ata_fail ATA_PIO_ETIMEOUT d
  end.

(** [identify] collects the words; the array is local. *)
Definition read_words : M (ata P) (list Z) := λ d,
  for_loop 0 256 (λ _ '(words, d),
    let '(w, d) := reg_inw ATA_REG_DATA d in (words ++ [w], d)) ([], d).

(** The sector count, the low 24 bits of the address and the command. *)
Definition ata_command (count lba0 lba1 lba2 command : Z) d : ata P :=
  let d := reg_out ATA_REG_SECCOUNT0 count d in
  let d := reg_out ATA_REG_LBA0 lba0 d in
  let d := reg_out ATA_REG_LBA1 lba1 d in
  let d := reg_out ATA_REG_LBA2 lba2 d in
  reg_out ATA_REG_COMMAND command d.

(** The pointer given is not null. *)
Definition ata_pio_init d : ata P :=
  let d := mk_ata 512 0 true true ATA_PRIMARY_IO 0xE0 false ATA_PIO_ENODEV (hardware d) in
  let d := reg_out ATA_REG_HDDEVSEL (drive_select d) d in
  let d := ata_delay d in
  let '(status, d) := ata_status d in
  if (status =? 0) || (status =? 0xFF) then with_last_error ATA_PIO_ENODEV d
  else
    let '(r, d) := ata_wait false d in
    if negb (r =? 0) then d
    else
      let d := ata_command 0 0 0 0 ATA_CMD_IDENTIFY d in
      let '(r, d) := ata_wait true d in
      if negb (r =? 0) then d
      else
        let '(identify, d) := read_words d in
        let sectors := nthZ identify 60 .| u32 (nthZ identify 61 ≪ 16) in
        let d :=
          if negb (sectors =? 0)
          then with_sector_count (if 0x10000000 <? sectors then 0x10000000 else sectors) d
          else d in
        with_last_error 0 (with_present true d).

(** [None] is a null pointer. *)
Definition ata_pio_is_present (device : option (ata P)) : bool :=
  match device with Some d => present d | None => false end.
Definition ata_pio_last_error (device : option (ata P)) : Z :=
  match device with Some d => last_error d | None => ATA_PIO_EINVAL end.

(** The loop that stores 256 words at the start of the buffer. *)
Definition store_words : M (list Z * ata P) () := λ s,
  ((), for_loop 0 256 (λ i '(buffer, d),
    let '(w, d) := reg_inw ATA_REG_DATA d in
    (setZ (setZ buffer (2 * i) (u8 w)) (2 * i + 1) (u8 (w ≫ 8)), d)) s).

(** The part of [ata_pio_read_sector] up to the data, for a device that is present;
    [Some] is a result returned early. *)
Definition ata_request (sector : Z) : M (ata P) (option Z) := λ d,
  let '(r, d) := ata_wait false d in
  if negb (r =? 0) then (Some (last_error d), d)
  else
    let d := reg_out ATA_REG_HDDEVSEL (u8 (drive_select d .| ((sector ≫ 24) .& 0x0F))) d in
    let '(r, d) := ata_wait false d in
    if negb (r =? 0) then (Some (last_error d), d)
    else
      let d := ata_command 1 (u8 sector) (u8 (sector ≫ 8)) (u8 (sector ≫ 16)) ATA_CMD_READ_SECTORS d in
      let '(r, d) := ata_wait true d in
      (if negb (r =? 0) then Some (last_error d) else None, d).

(** The rest of it: the status and the data. *)
Definition ata_transfer (buffer : list Z) d : Z * list Z * ata P :=
  let '(status, d) := reg_in ATA_REG_STATUS d in
  if negb ((status .& (ATA_SR_ERR .| ATA_SR_DF)) =? 0) then
    let '(r, d) := ata_fail ATA_PIO_ESTATUS d in (r, buffer, d)
  else if (status .& ATA_SR_DRQ) =? 0 then
    let '(r, d) := ata_fail ATA_PIO_EDRQ d in (r, buffer, d)
  else
    let '(_, (buffer, d)) := store_words (buffer, d) in
    (0, buffer, with_last_error 0 d).

(** The block device is the [block] member of [d] and the buffer is not null. *)
Definition ata_pio_read_sector (sector : Z) (buffer : list Z) d : Z * list Z * ata P :=
  if negb (block_sector_size d =? 512) || negb (block_context d) || (0x0FFFFFFF <? sector)
  then (ATA_PIO_EINVAL, buffer, d)
  else if negb (present d) then
    let '(r, d) := ata_fail ATA_PIO_ENODEV d in (r, buffer, d)
  else
    match ata_request sector d with
    | (Some r, d) => (r, buffer, d)
    | (None, d) => ata_transfer buffer d
    end.
End code.

Definition ata_pio_error_string (error : Z) : string :=
  if error =? 0 then "ok"
  else if error =? ATA_PIO_EINVAL then "invalid argument"
  else if error =? ATA_PIO_ENODEV then "ATA primary-master device not present"
  else if error =? ATA_PIO_ESTATUS then "ATA device reported an error"
  else if error =? ATA_PIO_ETIMEOUT then "ATA device timed out"
  else if error =? ATA_PIO_EDRQ then "ATA device did not request data"
  else "ATA I/O error".

(** ** Specification *)

(** The registers of a drive: the device and address registers, and the words that the
    command in progress has still to transfer. *)
Record ata_regs := mk_regs {
  r_select : Z;
  r_count : Z;
  r_lba0 : Z;
  r_lba1 : Z;
  r_lba2 : Z;
  r_data : list Z;
}.

Definition with_data (l : list Z) (r : ata_regs) : ata_regs :=
  mk_regs (r_select r) (r_count r) (r_lba0 r) (r_lba1 r) (r_lba2 r) l.

(** The device register: bit 4 is clear for the master, bit 6 is set when the address
    registers hold the number of a sector. *)
Definition selects_master (r : ata_regs) : bool := negb (Z.testbit (r_select r) 4).
Definition lba_mode (r : ata_regs) : bool := Z.testbit (r_select r) 6.

(** The 28-bit address, and the number of sectors. *)
Definition lba (r : ata_regs) : Z :=
  r_lba0 r + r_lba1 r * 2 ^ 8 + r_lba2 r * 2 ^ 16 + r_select r mod 2 ^ 4 * 2 ^ 24.
Definition transfer_count (r : ata_regs) : Z := if r_count r =? 0 then 256 else r_count r.

(** A write to one of the registers. *)
Definition register_write (port v : Z) (r : ata_regs) : ata_regs :=
  if port =? 0x1F2 then mk_regs (r_select r) v (r_lba0 r) (r_lba1 r) (r_lba2 r) (r_data r)
  else if port =? 0x1F3 then mk_regs (r_select r) (r_count r) v (r_lba1 r) (r_lba2 r) (r_data r)
  else if port =? 0x1F4 then mk_regs (r_select r) (r_count r) (r_lba0 r) v (r_lba2 r) (r_data r)
  else if port =? 0x1F5 then mk_regs (r_select r) (r_count r) (r_lba0 r) (r_lba1 r) v (r_data r)
  else if port =? 0x1F6 then mk_regs v (r_count r) (r_lba0 r) (r_lba1 r) (r_lba2 r) (r_data r)
  else r.

(** The words the master transfers for a command; [None] for the other device, for
    addresses that are not sector numbers, and for commands the driver does not use. *)
Definition command_data (sectors : Z → list Z) (identity : list Z) (command : Z) (r : ata_regs)
    : option (list Z) :=
  if negb (selects_master r) then None
  else if command =? ATA_CMD_IDENTIFY then Some identity
  else if (command =? ATA_CMD_READ_SECTORS) && lba_mode r then
    Some (i ← range 0 (transfer_count r); sectors (lba r + i))
  else None.

(** The status: BSY, and that data are announced, BSY being clear and DRQ set. *)
Definition busy (status : Z) : bool := Z.testbit status 7.
Definition announces (status : Z) : bool := negb (busy status) && Z.testbit status 3.

(** The behaviour of a drive at the primary ports (ATA, PIO data-in commands).  Registers
    and commands are accepted while BSY is clear and no transfer is in progress, which is
    [quiet]; nothing is said of other writes.  A command that is accepted transfers its
    words in blocks of a sector, each of which is announced, or ends with an error, now or
    later; then nothing is left to transfer.  The status may change from one access to the
    next as it likes, except that a quiet drive stays quiet and announced data stay
    announced until they have been read.

    Three properties are those of the drives this driver can work with, which the standard
    does not promise: while a command is in progress no error is shown, not even while the
    drive is busy; and the command is done within the million polls the driver has for it;
    and the operations of other devices do not disturb it. *)
Class AtaDrive (P : Type) `{Ports P} := {
  sectors_of : P → Z → list Z;
  identity_of : P → list Z;
  regs_of : P → ata_regs;
  status_of : P → Z;
  prompt : P → Prop;
  same_disk p p' := sectors_of p' = sectors_of p ∧ identity_of p' = identity_of p ∧ (prompt p → prompt p');
  quiet p := busy (status_of p) = false ∧ r_data (regs_of p) = [];
  sectors_words p n : length (sectors_of p n) = 256%nat ∧ Forall (λ w, 0 ≤ w < 2 ^ 16) (sectors_of p n);
  identity_words p : length (identity_of p) = 256%nat ∧ Forall (λ w, 0 ≤ w < 2 ^ 16) (identity_of p);
  drive_register port v p : 0x1F2 ≤ port ≤ 0x1F5 → quiet p →
    let p' := out8 port v p in
    same_disk p p' ∧ regs_of p' = register_write port v (regs_of p) ∧ quiet p';
  (** The other device may be busy. *)
  drive_device v p : quiet p →
    let p' := out8 0x1F6 v p in same_disk p p' ∧ regs_of p' = register_write 0x1F6 v (regs_of p);
  drive_command v p l : quiet p → command_data (sectors_of p) (identity_of p) v (regs_of p) = Some l →
    let p' := out8 0x1F7 v p in
    same_disk p p' ∧ (regs_of p' = with_data l (regs_of p) ∨
      ¬ prompt p ∧ regs_of p' = with_data [] (regs_of p));
  drive_in port p : port = 0x1F7 ∨ port = 0x3F6 →
    let p' := snd (in8 port p) in
    same_disk p p' ∧ (quiet p → quiet p') ∧
    (announces (status_of p) = true → announces (status_of p') = true) ∧
    (regs_of p' = regs_of p ∨ ¬ prompt p ∧ announces (status_of p) = false ∧
       regs_of p' = with_data [] (regs_of p));
  drive_status p : fst (in8 0x1F7 p) = status_of p;
  drive_data p :
    let '(w, p') := in16 0x1F0 p in
    same_disk p p' ∧
    (announces (status_of p) = true →
       w = nthZ (r_data (regs_of p)) 0 ∧ regs_of p' = with_data (drop 1 (r_data (regs_of p))) (regs_of p) ∧
       (lenZ (r_data (regs_of p')) mod 256 ≠ 0 → announces (status_of p') = true));
  drive_announces p : announces (status_of p) = true → r_data (regs_of p) ≠ [];
  drive_working p : selects_master (regs_of p) = true → r_data (regs_of p) ≠ [] →
    Z.testbit (status_of p) 0 = false ∧ Z.testbit (status_of p) 5 = false ∧
    (busy (status_of p) = true ∨ announces (status_of p) = true);
  drive_done p : selects_master (regs_of p) = true → r_data (regs_of p) ≠ [] →
    ∃ k, Z.of_nat k < 1000000 ∧ let q := Nat.iter k (λ p, snd (in8 0x1F7 p)) p in
      r_data (regs_of q) = [] ∨ announces (status_of q) = true;
  drive_elsewhere port p : ¬ (0x1F0 ≤ port ≤ 0x1F7) → port ≠ 0x3F6 → ∀ p',
    p' = snd (in8 port p) ∨ (∃ v, p' = out8 port v p) →
    same_disk p p' ∧ regs_of p' = regs_of p ∧ (quiet p → quiet p');
  (** A prompt drive is never busy, and announces the data it has; it has no errors. *)
  prompt_status p : prompt p → selects_master (regs_of p) = true →
    status_of p = if decide (r_data (regs_of p) = []) then 0x50 else 0x58;
}.

(** The bytes of words, least significant byte first. *)
Definition word_bytes (l : list Z) : list Z := w ← l; [u8 w; u8 (w ≫ 8)].

(** The contents of the sector as a block of [n] bytes. *)
Definition sector_block (l : list Z) (n : Z) : list Z := (λ i, nthZ (word_bytes l) i) <$> range 0 n.

(** A device [ata_pio_init] has set up. *)
Definition ata_ready {P} (d : ata P) : Prop :=
  io_base d = ATA_PRIMARY_IO ∧ drive_select d = 0xE0 ∧ block_context d = true ∧
  block_sector_size d = 512 ∧ block_read d = true ∧ 0 ≤ block_sector_count d < 2 ^ 32.

(** The master is selected and no command is in progress; so it is between two reads of
    a device that is present. *)
Definition settled {P} {IO : Ports P} {AD : AtaDrive P} (p : P) : Prop :=
  selects_master (regs_of p) = true ∧ r_data (regs_of p) = [].
Definition ata_idle {P} {IO : Ports P} {AD : AtaDrive P} (d : ata P) : Prop :=
  present d = true → settled (hardware d).

(** The device between two reads. *)
Definition ata_ok {P} {IO : Ports P} {AD : AtaDrive P} (d : ata P) : Prop := ata_ready d ∧ ata_idle d.

(** The capacity a drive reports in words 60 and 61 of its identity. *)
Definition capacity (identity : list Z) : Z := nthZ identity 60 + nthZ identity 61 * 2 ^ 16.

(** Status [i] of the drive, when nothing but the status is read from [p] on. *)
Fixpoint nth_status {P} `{Ports P} (port : Z) (n : nat) (p : P) : Z :=
  match n with
  | O => fst (inb port p)
  | S n => nth_status port n (snd (inb port p))
  end.

(** What [ata_wait] makes of a status. *)
Definition verdict (data_request : bool) (status : Z) : option Z :=
  if bool_decide (status = 0 ∨ status = 0xFF) then Some ATA_PIO_ENODEV
  else if Z.testbit status 0 || Z.testbit status 5 then Some ATA_PIO_ESTATUS
  else if negb (Z.testbit status 7) && (negb data_request || Z.testbit status 3) then Some 0
  else None.

(** ** Lemmas *)

Lemma rounds_ind {S R} (I : S → Prop) (Q : R → S → Prop) n (body : M S (option R)) s :
  I s →
  (∀ s, I s → match body s with (None, s') => I s' | (Some r, s') => Q r s' end) →
  match rounds n body s with (None, s') => I s' | (Some r, s') => Q r s' end.
Proof.
  intros Hs Hstep. revert s Hs. induction n as [n IH|n IH|]; intros s Hs; cbn [rounds];
    unfold mbind, M_bind.
  - pose proof (Hstep s Hs) as H. destruct (body s) as [[r|] s1]; [done|].
    pose proof (IH s1 H) as H1. destruct (rounds n body s1) as [[r|] s2]; [done|]. by apply IH.
  - pose proof (IH s Hs) as H. destruct (rounds n body s) as [[r|] s1]; [done|]. by apply IH.
  - by apply Hstep.
Qed.

Lemma rounds_first {S R} n (body : M S (option R)) s r s' :
  body s = (Some r, s') → rounds n body s = (Some r, s').
Proof.
  intros E. induction n as [n IH|n IH|]; cbn [rounds]; unfold mbind, M_bind;
    [by rewrite E|by rewrite IH|done].
Qed.

Fixpoint rounds_nat {S R} (n : nat) (body : M S (option R)) : M S (option R) :=
  match n with
  | O => mret None
  | S n => r ← body; match r with Some v => mret (Some v) | None => rounds_nat n body end
  end.

Lemma rounds_nat_add {S R} n m (body : M S (option R)) s :
  rounds_nat (n + m) body s =
    match rounds_nat n body s with
    | (Some r, s) => (Some r, s)
    | (None, s) => rounds_nat m body s
    end.
Proof.
  revert s. induction n as [|n IH]; intros s; [done|]. cbn [Nat.add rounds_nat]. unfold mbind, M_bind.
  destruct (body s) as [[r|] s1]; [done|]. apply IH.
Qed.

(** [rounds] is the loop of so many rounds. *)
Lemma rounds_spec {S R} n (body : M S (option R)) s :
  rounds n body s = rounds_nat (Pos.to_nat n) body s.
Proof.
  revert s. induction n as [n IH|n IH|]; intros s; cbn [rounds]; unfold mbind, M_bind.
  - rewrite Pos2Nat.inj_xI. replace (Datatypes.S (2 * Pos.to_nat n)) with (1 + (Pos.to_nat n + Pos.to_nat n))%nat by lia.
    rewrite rounds_nat_add. cbn [rounds_nat]. unfold mbind, M_bind.
    destruct (body s) as [[r|] s1]; [done|]. cbn. rewrite rounds_nat_add, IH.
    destruct (rounds_nat (Pos.to_nat n) body s1) as [[r|] s2]; [done|]. by rewrite IH.
  - rewrite Pos2Nat.inj_xO. replace (2 * Pos.to_nat n)%nat with (Pos.to_nat n + Pos.to_nat n)%nat by lia.
    rewrite rounds_nat_add, IH.
    destruct (rounds_nat (Pos.to_nat n) body s) as [[r|] s2]; [done|]. by rewrite IH.
  - change (Pos.to_nat 1) with 1%nat. cbn [rounds_nat]. unfold mbind, M_bind.
    by destruct (body s) as [[r|] s1].
Qed.

Lemma testbit_u8 v i : 0 ≤ i < 8 → Z.testbit (u8 v) i = Z.testbit v i.
Proof. intros. apply Z.mod_pow2_bits_low. lia. Qed.

Lemma land_two_bits v i j : 0 ≤ i → 0 ≤ j →
  negb ((v .& (1 ≪ i .| 1 ≪ j)) =? 0) = (Z.testbit v i || Z.testbit v j)%bool.
Proof.
  intros Hi Hj. rewrite Z.land_lor_distr_r, <- !land_bit by lia.
  apply eq_bool_prop_intro. rewrite !Is_true_true, orb_true_iff, !negb_true_iff, !Z.eqb_neq.
  rewrite Z.lor_eq_0_iff. destruct (decide (v .& 1 ≪ i = 0)), (decide (v .& 1 ≪ j = 0)); naive_solver.
Qed.

(** The conditions of the code on a status byte. *)
Lemma verdict_spec dr v :
  (if (v =? 0) || (v =? 0xFF) then Some ATA_PIO_ENODEV
   else if negb ((v .& (ATA_SR_ERR .| ATA_SR_DF)) =? 0) then Some ATA_PIO_ESTATUS
   else if ((v .& ATA_SR_BSY) =? 0) && (negb dr || negb ((v .& ATA_SR_DRQ) =? 0)) then Some 0
   else None) = verdict dr v.
Proof.
  unfold verdict. pose proof (land_two_bits v 0 5 ltac:(lia) ltac:(lia)) as E.
  change (1 ≪ 0 .| 1 ≪ 5) with (ATA_SR_ERR .| ATA_SR_DF) in E. rewrite E.
  pose proof (land_bit v 7 ltac:(lia)) as E7. change (1 ≪ 7) with ATA_SR_BSY in E7.
  pose proof (land_bit v 3 ltac:(lia)) as E3. change (1 ≪ 3) with ATA_SR_DRQ in E3.
  rewrite E3, <- E7, negb_involutive.
  destruct (Z.eqb_spec v 0), (Z.eqb_spec v 0xFF); cbn [orb]; case_bool_decide; try lia; done.
Qed.

Section driver.
Context {P : Type} {IO : Ports P}.
Implicit Types (d : ata P).

(** One poll, on any hardware. *)
Lemma ata_poll_spec dr d :
  let '(status, d') := ata_status d in
  ata_poll dr d = match verdict dr status with
                  | Some r => if r =? 0 then (Some 0, d') else
                      let '(r, d') := ata_fail r d' in (Some r, d')
                  | None => (None, d')
                  end.
Proof.
  unfold ata_poll. destruct (ata_status d) as [status d']. rewrite <- verdict_spec.
  destruct ((status =? 0) || _)%bool; [done|]. destruct (negb (_ =? 0)); [done|].
  by destruct (_ && _)%bool.
Qed.

(** What no operation on the registers changes. *)
Definition same_config d d' : Prop :=
  block_sector_size d' = block_sector_size d ∧ block_sector_count d' = block_sector_count d ∧
  block_read d' = block_read d ∧ block_context d' = block_context d ∧ io_base d' = io_base d ∧
  drive_select d' = drive_select d.
Definition same_flags d d' : Prop := present d' = present d ∧ last_error d' = last_error d.

#[export] Instance same_config_preorder : PreOrder same_config.
Proof. split; [done|]. unfold same_config. intros d1 d2 d3 H1 H2. destruct_and!. split_and!; congruence. Qed.
#[export] Instance same_flags_preorder : PreOrder same_flags.
Proof. split; [done|]. unfold same_flags. intros d1 d2 d3 [] []. split; congruence. Qed.

Lemma reg_in_config reg d : same_config d (snd (reg_in reg d)) ∧ same_flags d (snd (reg_in reg d)).
Proof. unfold reg_in. by destruct (inb _ _). Qed.

Lemma ata_delay_config d : same_config d (ata_delay d) ∧ same_flags d (ata_delay d).
Proof.
  unfold ata_delay. pose proof (reg_in_config ATA_REG_ALTSTATUS d) as [H1 G1].
  destruct (reg_in ATA_REG_ALTSTATUS d) as [? d1]. cbn in H1, G1.
  pose proof (reg_in_config ATA_REG_ALTSTATUS d1) as [H2 G2].
  destruct (reg_in ATA_REG_ALTSTATUS d1) as [? d2]. cbn in H2, G2.
  pose proof (reg_in_config ATA_REG_ALTSTATUS d2) as [H3 G3].
  destruct (reg_in ATA_REG_ALTSTATUS d2) as [? d3]. cbn in H3, G3.
  pose proof (reg_in_config ATA_REG_ALTSTATUS d3) as [H4 G4].
  destruct (reg_in ATA_REG_ALTSTATUS d3) as [? d4]. cbn in H4, G4.
  split; by do 3 (etransitivity; [eassumption|]).
Qed.

(** How a failure is recorded. *)
Definition recorded (r : Z) d d' : Prop :=
  same_config d d' ∧ (r = 0 → same_flags d d') ∧
  (r ≠ 0 → last_error d' = r ∧ present d' = if decide (r = ATA_PIO_ENODEV) then false else present d).

Lemma ata_fail_spec r d : r ≠ 0 →
  fst (ata_fail r d) = r ∧ recorded r d (snd (ata_fail r d)) ∧ hardware (snd (ata_fail r d)) = hardware d.
Proof.
  intros Hr. unfold ata_fail, recorded. cbn [fst snd]. destruct (Z.eqb_spec r ATA_PIO_ENODEV) as [->|].
  - split; [done|split; [|done]]. split; [done|split; [done|]]. intros _.
    by rewrite decide_True by done.
  - split; [done|split; [|done]]. split; [done|split; [done|]]. intros _.
    by rewrite decide_False by done.
Qed.

Lemma recorded_after r d d' d'' :
  same_config d d' → same_flags d d' → recorded r d' d'' → recorded r d d''.
Proof.
  intros H1 [F1 F2] (G1 & G2 & G3). split; [by etransitivity|]. split.
  - intros E. destruct (G2 E). split; congruence.
  - intros E. destruct (G3 E) as [-> ->]. by rewrite F1.
Qed.

(** The polls, on any hardware: the first status that decides is the outcome. *)
Lemma polls_spec n dr d :
  let st k := nth_status (u16 (io_base d + ATA_REG_STATUS)) k (hardware d) in
  match rounds_nat n (ata_poll dr) d with
  | (Some r, d') => ∃ k, (k < n)%nat ∧ (∀ j, (j < k)%nat → verdict dr (st j) = None) ∧
      verdict dr (st k) = Some r ∧ recorded r d d'
  | (None, d') => (∀ j, (j < n)%nat → verdict dr (st j) = None) ∧ same_config d d' ∧ same_flags d d'
  end.
Proof.
  revert d. induction n as [|n IH]; intros d st; subst st.
  { cbn. split; [lia|done]. }
  cbn [rounds_nat]. unfold mbind, M_bind. pose proof (ata_poll_spec dr d) as Hp.
  unfold ata_status in Hp. pose proof (reg_in_config ATA_REG_STATUS d) as [Hc Hf].
  assert (fst (reg_in ATA_REG_STATUS d) = nth_status (u16 (io_base d + ATA_REG_STATUS)) 0 (hardware d) ∧
    hardware (snd (reg_in ATA_REG_STATUS d)) = snd (inb (u16 (io_base d + ATA_REG_STATUS)) (hardware d)))
    as [Hs Hh] by (unfold reg_in; cbn [nth_status]; by destruct (inb _ _)).
  destruct (reg_in ATA_REG_STATUS d) as [status d1]. cbn [fst snd] in *. rewrite Hp. clear Hp.
  destruct (verdict dr status) as [r|] eqn:Ev.
  - assert (recorded r d (if r =? 0 then d1 else snd (ata_fail r d1))) as Hr.
    { destruct (Z.eqb_spec r 0) as [->|Hne]; [by split|].
      apply (recorded_after r d d1); [done|done|]. by apply ata_fail_spec. }
    destruct (Z.eqb_spec r 0) as [->|Hne]; cycle 1.
    + pose proof (ata_fail_spec r d1 Hne) as (E & _). destruct (ata_fail r d1) as [r' d2].
      cbn in E, Hr |- *. subst r'. exists O. split; [lia|]. split; [lia|]. by rewrite <- Hs.
    + exists O. split; [lia|]. split; [lia|]. by rewrite <- Hs.
  - specialize (IH d1). cbn zeta in IH. rewrite Hh in IH.
    replace (io_base d1) with (io_base d) in IH by (symmetry; apply Hc).
    destruct (rounds_nat n (ata_poll dr) d1) as [[r|] d2].
    + destruct IH as (k & Hk & Hj & Hv & Hr). exists (S k). split; [lia|]. split.
      * intros [|j] Hjk; [by rewrite <- Hs|]. apply Hj. lia.
      * split; [done|]. by apply (recorded_after r d d1).
    + destruct IH as (Hj & Hc2 & Hf2). split; [|split; by etransitivity].
      intros [|j] Hjk; [by rewrite <- Hs|]. apply Hj. lia.
Qed.

(** [ata_wait] ends after at most a million polls, whatever the hardware does. *)
Lemma ata_wait_outcome dr d r d' :
  ata_wait dr d = (r, d') →
  let st k := nth_status (u16 (io_base d + ATA_REG_STATUS)) k (hardware (ata_delay d)) in
  recorded r d d' ∧
  ((∃ k, Z.of_nat k < 1000000 ∧ (∀ j, (j < k)%nat → verdict dr (st j) = None) ∧
      verdict dr (st k) = Some r) ∨
   (r = ATA_PIO_ETIMEOUT ∧ ∀ j, Z.of_nat j < 1000000 → verdict dr (st j) = None)).
Proof.
  unfold ata_wait. destruct (ata_delay_config d) as [Hc Hf].
  replace (io_base d) with (io_base (ata_delay d)) by apply Hc.
  rewrite rounds_spec. pose proof (positive_nat_Z 1000000) as En.
  set (n := Pos.to_nat 1000000) in *. clearbody n.
  pose proof (polls_spec n dr (ata_delay d)) as Hp. cbv zeta in *.
  destruct (rounds_nat n (ata_poll dr) (ata_delay d)) as [[r1|] d1].
  - intros [= <- <-]. destruct Hp as (k & Hk & Hj & Hv & Hr). split.
    + by apply (recorded_after r1 d (ata_delay d)).
    + left. exists k. split; [lia|done].
  - destruct Hp as (Hj & Hc2 & Hf2). intros E. split.
    + pose proof (ata_fail_spec ATA_PIO_ETIMEOUT d1 ltac:(done)) as (E1 & E2 & _).
      rewrite E in E1, E2. cbn [fst snd] in E1, E2. subst r.
      apply (recorded_after _ d d1); [by etransitivity|by etransitivity|done].
    + right. split; [by injection E as <- _|]. intros j Hjn. apply Hj. lia.
Qed.
End driver.

Section drive.
Context {P : Type} {IO : Ports P} {AD : AtaDrive P}.
Implicit Types (d : ata P).

(** The disk is the same. *)
Definition same_data d d' : Prop := same_disk (hardware d) (hardware d').
Definition announcing d : Prop := announces (status_of (hardware d)) = true.

(** Later, without an access by the driver but to the status: the command in progress
    may have ended with an error. *)
Definition later d d' : Prop :=
  same_data d d' ∧ (regs_of (hardware d') = regs_of (hardware d) ∨
    ¬ prompt (hardware d) ∧ regs_of (hardware d') = with_data [] (regs_of (hardware d))).

#[export] Instance same_data_preorder : PreOrder same_data.
Proof. split; [done|]. unfold same_data, same_disk. intros d1 d2 d3 H1 H2. destruct_and!. split_and!; try congruence. auto. Qed.

#[export] Instance later_preorder : PreOrder later.
Proof.
  split; [intros d; split; [done|by left]|]. intros d1 d2 d3 [H1 E1] [H2 E2].
  split; [by etransitivity|]. destruct H1 as (_ & _ & Hp).
  destruct E1 as [E1|[N1 E1]], E2 as [E2|[N2 E2]]; rewrite E2, E1; [by left|right|right|right];
    (split; [naive_solver|done]).
Qed.

(** Nothing to transfer stays so. *)
Lemma later_empty d d' : later d d' → r_data (regs_of (hardware d)) = [] → r_data (regs_of (hardware d')) = [].
Proof. by intros [_ [->|[_ ->]]] E. Qed.

Lemma later_select d d' : later d d' → r_select (regs_of (hardware d')) = r_select (regs_of (hardware d)).
Proof. by intros [_ [->|[_ ->]]]. Qed.

Lemma later_master d d' : later d d' →
  selects_master (regs_of (hardware d')) = selects_master (regs_of (hardware d)).
Proof. intros H. unfold selects_master. by rewrite (later_select d d' H). Qed.

Lemma later_settled d d' : later d d' → settled (hardware d) → settled (hardware d').
Proof. intros H [H1 H2]. split; [by rewrite (later_master d d' H)|by apply (later_empty d d')]. Qed.

(** The drive between polls. *)
Definition status_poll (p : P) : P := snd (in8 0x1F7 p).

Lemma reg_in_drive reg d : io_base d = ATA_PRIMARY_IO → reg = ATA_REG_STATUS ∨ reg = ATA_REG_ALTSTATUS →
  let d' := snd (reg_in reg d) in
  later d d' ∧ (quiet (hardware d) → quiet (hardware d')) ∧
  (announcing d → announcing d' ∧ regs_of (hardware d') = regs_of (hardware d)) ∧
  (reg = ATA_REG_STATUS →
     fst (reg_in reg d) = u8 (status_of (hardware d)) ∧ hardware d' = status_poll (hardware d)).
Proof.
  intros Hb Hreg. unfold reg_in, inb, later, same_data, announcing, status_poll. rewrite Hb.
  assert (u16 (u16 (ATA_PRIMARY_IO + reg)) = 0x1F7 ∨ u16 (u16 (ATA_PRIMARY_IO + reg)) = 0x3F6) as Hport.
  { destruct Hreg as [->| ->]; [by left|by right]. }
  pose proof (drive_in (u16 (u16 (ATA_PRIMARY_IO + reg))) (hardware d) Hport) as (H1 & H2 & H3 & H4).
  assert (reg = ATA_REG_STATUS → fst (in8 (u16 (u16 (ATA_PRIMARY_IO + reg))) (hardware d)) =
    status_of (hardware d) ∧
    snd (in8 (u16 (u16 (ATA_PRIMARY_IO + reg))) (hardware d)) = snd (in8 0x1F7 (hardware d))) as Hs
    by (intros ->; split; [apply drive_status|done]).
  destruct (in8 _ (hardware d)) as [v p]. cbn [fst snd hardware with_hardware] in *.
  split; [split; [done|]; destruct H4 as [?|(? & _ & ?)]; [by left|by right]|]. split; [done|]. split.
  - intros Ha. split; [by apply H3|]. destruct H4 as [?|(_ & ? & _)]; [done|congruence].
  - intros E. destruct (Hs E) as [-> ->]. done.
Qed.

Lemma reg_in_base reg d : io_base (snd (reg_in reg d)) = io_base d.
Proof. apply (reg_in_config reg d). Qed.

Lemma ata_delay_drive d : io_base d = ATA_PRIMARY_IO →
  later d (ata_delay d) ∧ (quiet (hardware d) → quiet (hardware (ata_delay d))) ∧
  (announcing d → announcing (ata_delay d)).
Proof.
  intros Hb. unfold ata_delay.
  assert (∀ d1, io_base d1 = ATA_PRIMARY_IO → let d2 := snd (reg_in ATA_REG_ALTSTATUS d1) in
    later d1 d2 ∧ (quiet (hardware d1) → quiet (hardware d2)) ∧ (announcing d1 → announcing d2) ∧
    io_base d2 = ATA_PRIMARY_IO) as Hstep.
  { intros d1 Hb1. destruct (reg_in_drive ATA_REG_ALTSTATUS d1 Hb1) as (H1 & H2 & H3 & _); [by right|].
    cbv zeta in *. rewrite reg_in_base. naive_solver. }
  destruct (Hstep d Hb) as (A1 & Q1 & B1 & C1). destruct (reg_in ATA_REG_ALTSTATUS d) as [? d1]. cbn [snd] in *.
  destruct (Hstep d1 C1) as (A2 & Q2 & B2 & C2). destruct (reg_in ATA_REG_ALTSTATUS d1) as [? d2]. cbn [snd] in *.
  destruct (Hstep d2 C2) as (A3 & Q3 & B3 & C3). destruct (reg_in ATA_REG_ALTSTATUS d2) as [? d3]. cbn [snd] in *.
  destruct (Hstep d3 C3) as (A4 & Q4 & B4 & C4). destruct (reg_in ATA_REG_ALTSTATUS d3) as [? d4]. cbn [snd] in *.
  split; [by do 3 (etransitivity; [eassumption|])|]. split; [intros ?; by apply Q4, Q3, Q2, Q1|intros ?; by apply B4, B3, B2, B1].
Qed.

Lemma verdict_announces v : verdict true (u8 v) = Some 0 → announces v = true.
Proof.
  unfold verdict, announces, busy. rewrite !testbit_u8 by lia. case_bool_decide; [done|].
  destruct (Z.testbit v 0 || Z.testbit v 5)%bool; [done|]. cbn [negb orb].
  by destruct (negb (Z.testbit v 7) && Z.testbit v 3)%bool.
Qed.

Lemma verdict_quiet v : verdict false (u8 v) = Some 0 → busy v = false.
Proof.
  unfold verdict, busy. rewrite !testbit_u8 by lia. case_bool_decide; [done|].
  destruct (Z.testbit v 0 || Z.testbit v 5)%bool; [done|]. cbn [negb orb].
  by destruct (Z.testbit v 7).
Qed.

(** A status of a command in progress is no failure. *)
Lemma working_verdict v r :
  Z.testbit v 0 = false → Z.testbit v 5 = false → busy v = true ∨ announces v = true →
  verdict true (u8 v) = Some r → r = 0.
Proof.
  intros H0 H5 Hv. unfold verdict. rewrite !testbit_u8, H0, H5 by lia. case_bool_decide as E.
  { exfalso. destruct E as [E|E].
    - pose proof (testbit_u8 v 7 ltac:(lia)) as E7. pose proof (testbit_u8 v 3 ltac:(lia)) as E3.
      rewrite E, Z.bits_0 in E7, E3. unfold announces, busy in Hv. rewrite <- E7, <- E3 in Hv.
      destruct Hv; done.
    - pose proof (testbit_u8 v 0 ltac:(lia)) as E0. rewrite E, H0 in E0. done. }
  cbn [orb]. destruct (_ && _)%bool; [by intros [= <-]|done].
Qed.

Lemma announces_verdict v :
  Z.testbit v 0 = false → Z.testbit v 5 = false → announces v = true → verdict true (u8 v) = Some 0.
Proof.
  intros H0 H5 Ha. pose proof (working_verdict v) as H. unfold announces, busy in *.
  apply andb_prop in Ha as [H7 H3]. destruct (verdict true (u8 v)) as [r|] eqn:E.
  - f_equal. apply (H r); try done. right. by rewrite H7, H3.
  - exfalso. revert E. unfold verdict. rewrite !testbit_u8, H0, H5, H7, H3 by lia. by case_bool_decide.
Qed.

(** One poll of the drive. *)
Lemma ata_poll_drive dr d : io_base d = ATA_PRIMARY_IO →
  let '(r, d') := ata_poll dr d in
  later d d' ∧ io_base d' = ATA_PRIMARY_IO ∧ (quiet (hardware d) → quiet (hardware d')) ∧
  (announcing d → announcing d' ∧ regs_of (hardware d') = regs_of (hardware d)) ∧
  r = verdict dr (u8 (status_of (hardware d))) ∧ (r = None → hardware d' = status_poll (hardware d)).
Proof.
  intros Hb. pose proof (ata_poll_spec dr d) as Hp. unfold ata_status in Hp.
  destruct (reg_in_drive ATA_REG_STATUS d Hb) as (H1 & H2 & H3 & H4); [by left|].
  destruct (H4 eq_refl) as [H5 H6]. pose proof (reg_in_base ATA_REG_STATUS d) as Hb1.
  destruct (reg_in ATA_REG_STATUS d) as [v d1]. cbn [fst snd] in *. rewrite Hp, <- H5. clear Hp.
  destruct (verdict dr v) as [r|] eqn:Ev; cycle 1.
  { split_and!; try done. by rewrite Hb1. }
  destruct (Z.eqb_spec r 0) as [->|Hne]; [split_and!; try done; by rewrite Hb1|].
  pose proof (ata_fail_spec r d1 Hne) as (E & (Hc & _) & Hh). destruct (ata_fail r d1) as [r' d2].
  cbn [fst snd] in *. subst r'.
  assert (io_base d2 = ATA_PRIMARY_IO) as Hb2 by (rewrite <- Hb, <- Hb1; apply Hc).
  unfold later, same_data, announcing in *. rewrite Hh.
  split; [exact H1|by split_and!].
Qed.

(** Waiting with nothing to transfer. *)
Lemma ata_wait_idle d r d' : io_base d = ATA_PRIMARY_IO → r_data (regs_of (hardware d)) = [] →
  ata_wait false d = (r, d') →
  later d d' ∧ (r = 0 → quiet (hardware d')) ∧
  (prompt (hardware d) → selects_master (regs_of (hardware d)) = true → r = 0).
Proof.
  intros Hb He. unfold ata_wait. destruct (ata_delay_drive d Hb) as (Hd & _ & _).
  assert (io_base (ata_delay d) = ATA_PRIMARY_IO) as Hb1
    by (rewrite <- Hb; apply (ata_delay_config d)).
  pose proof (rounds_ind (λ d1, later d d1 ∧ io_base d1 = ATA_PRIMARY_IO)
    (λ r d1, later d d1 ∧ (r = 0 → quiet (hardware d1))) 1000000 (ata_poll false)
    (ata_delay d) (conj Hd Hb1)) as Hr.
  assert (prompt (hardware d) → selects_master (regs_of (hardware d)) = true →
    fst (rounds 1000000 (ata_poll false) (ata_delay d)) = Some 0) as Hp.
  { intros Hpr Hm. pose proof (ata_poll_drive false (ata_delay d) Hb1) as Hpoll.
    destruct (ata_poll false (ata_delay d)) as [r1 d1] eqn:E1. destruct Hpoll as (_ & _ & _ & _ & E & _).
    rewrite (prompt_status (hardware (ata_delay d))), decide_True in E.
    - subst r1. by rewrite (rounds_first _ _ _ 0 d1).
    - by apply (later_empty d).
    - by apply Hd.
    - by rewrite (later_master d). }
  assert (∀ d1, later d d1 ∧ io_base d1 = ATA_PRIMARY_IO →
    match ata_poll false d1 with
    | (Some r, d2) => later d d2 ∧ (r = 0 → quiet (hardware d2))
    | (None, d2) => later d d2 ∧ io_base d2 = ATA_PRIMARY_IO
    end) as Hstep.
  { intros d1 [H1 H2]. pose proof (ata_poll_drive false d1 H2) as H.
    destruct (ata_poll false d1) as [[r1|] d2]; destruct H as (G1 & G2 & G3 & _ & G4 & _).
    - split; [by etransitivity|]. intros ->. apply G3. split; [by apply verdict_quiet|by apply (later_empty d)].
    - split; [by etransitivity|done]. }
  specialize (Hr Hstep). clear Hstep.
  destruct (rounds 1000000 (ata_poll false) (ata_delay d)) as [[r1|] d1]; cbn [fst] in Hp.
  - intros [= <- <-]. destruct Hr as [H1 H2]. split; [done|split; [done|]].
    intros A B. specialize (Hp A B). congruence.
  - destruct Hr as [H1 _]. pose proof (ata_fail_spec ATA_PIO_ETIMEOUT d1 ltac:(done)) as (E1 & _ & E3).
    intros E. rewrite E in E1, E3. cbn [fst snd] in *. subst r.
    split; [unfold later, same_data in *; by rewrite E3|]. split; [done|]. intros A B. by specialize (Hp A B).
Qed.

(** The drive has answered a command. *)
Definition answered (p : P) : Prop := r_data (regs_of p) = [] ∨ announces (status_of p) = true.

(** Polling for data. *)
Lemma polls_data n d : io_base d = ATA_PRIMARY_IO → selects_master (regs_of (hardware d)) = true →
  match rounds_nat n (ata_poll true) d with
  | (Some r, d') => later d d' ∧ (if decide (r = 0) then announcing d' else r_data (regs_of (hardware d')) = [])
  | (None, d') => later d d' ∧ (r_data (regs_of (hardware d')) = [] ∨
      ∀ k, (k < n)%nat → ¬ answered (Nat.iter k status_poll (hardware d)))
  end.
Proof.
  revert d. induction n as [|n IH]; intros d Hb Hm; [split; [done|right; lia]|].
  cbn [rounds_nat]. unfold mbind, M_bind. pose proof (ata_poll_drive true d Hb) as H.
  destruct (ata_poll true d) as [r d1]. destruct H as (H1 & Hb1 & H3 & H4 & Er & H5).
  set (v := status_of (hardware d)) in *.
  assert (r_data (regs_of (hardware d)) ≠ [] → Z.testbit v 0 = false ∧ Z.testbit v 5 = false ∧
    (busy v = true ∨ announces v = true)) as Hw by (intros Hne; by apply drive_working).
  destruct r as [r|].
  - split; [done|]. case_decide as Hr0.
    + subst r. apply H4. by apply verdict_announces.
    + destruct (decide (r_data (regs_of (hardware d)) = [])) as [E|Hne]; [by apply (later_empty d)|].
      destruct (Hw Hne) as (A & B & C). by destruct Hr0; apply (working_verdict v).
  - specialize (IH d1 Hb1 ltac:(by rewrite (later_master d))).
    destruct (rounds_nat n (ata_poll true) d1) as [[r|] d2]; destruct IH as [G1 G2];
      (split; [by etransitivity|]); [done|].
    destruct G2 as [?|G2]; [by left|].
    destruct (decide (r_data (regs_of (hardware d)) = [])) as [E|Hne].
    { left. by apply (later_empty d1), (later_empty d). }
    right. intros [|k] Hk.
    + cbn [Nat.iter]. intros [?|Ha]; [done|]. destruct (Hw Hne) as (A & B & _).
      by rewrite (announces_verdict v) in Er.
    + rewrite Nat.iter_succ_r, <- (H5 eq_refl). apply G2. lia.
Qed.

Lemma ata_wait_data d r d' : io_base d = ATA_PRIMARY_IO → selects_master (regs_of (hardware d)) = true →
  ata_wait true d = (r, d') →
  later d d' ∧ (if decide (r = 0) then announcing d' else r_data (regs_of (hardware d')) = []) ∧
  (prompt (hardware d) → r_data (regs_of (hardware d)) ≠ [] → r = 0).
Proof.
  intros Hb Hm. unfold ata_wait. destruct (ata_delay_drive d Hb) as (Hd & _ & _).
  assert (io_base (ata_delay d) = ATA_PRIMARY_IO) as Hb1
    by (rewrite <- Hb; apply (ata_delay_config d)).
  assert (selects_master (regs_of (hardware (ata_delay d))) = true) as Hm1 by (by rewrite (later_master d)).
  rewrite rounds_spec.
  assert (prompt (hardware d) → r_data (regs_of (hardware d)) ≠ [] →
    fst (rounds_nat (Pos.to_nat 1000000) (ata_poll true) (ata_delay d)) = Some 0) as Hp.
  { intros Hpr Hdata. pose proof (ata_poll_drive true (ata_delay d) Hb1) as Hpoll.
    destruct (ata_poll true (ata_delay d)) as [r1 d1] eqn:E1. destruct Hpoll as (_ & _ & _ & _ & E & _).
    destruct Hd as [(_ & _ & Hpr1) [E'|[? _]]]; [|done].
    rewrite (prompt_status (hardware (ata_delay d))), decide_False in E by (rewrite ?E'; auto).
    subst r1. rewrite <- rounds_spec. by rewrite (rounds_first _ _ _ 0 d1). }
  pose proof (positive_nat_Z 1000000) as En. set (n := Pos.to_nat 1000000) in *. clearbody n.
  pose proof (polls_data n (ata_delay d) Hb1 Hm1) as Hr.
  destruct (rounds_nat n (ata_poll true) (ata_delay d)) as [[r1|] d1]; cbn [fst] in Hp; destruct Hr as [H1 H2].
  - intros [= <- <-]. split; [by etransitivity|split; [done|]]. intros A B. specialize (Hp A B). congruence.
  - pose proof (ata_fail_spec ATA_PIO_ETIMEOUT d1 ltac:(done)) as (E1 & _ & E3).
    intros E. rewrite E in E1, E3. cbn [fst snd] in *. subst r. rewrite decide_False by done.
    assert (r_data (regs_of (hardware d1)) = []) as He.
    { destruct H2 as [?|H2]; [done|].
      destruct (decide (r_data (regs_of (hardware (ata_delay d))) = [])) as [He|Hne]; [by apply (later_empty (ata_delay d))|].
      destruct (drive_done (hardware (ata_delay d)) Hm1 Hne) as (k & Hk & Ha). by destruct (H2 k ltac:(lia)). }
    unfold later, same_data in *. rewrite E3. split; [|split; [done|]].
    + change (later d d1). etransitivity; [exact Hd|exact H1].
    + intros A B. by specialize (Hp A B).
Qed.

(** *** Registers and data *)

Lemma reg_out_config reg v d : same_config d (reg_out reg v d) ∧ same_flags d (reg_out reg v d).
Proof. done. Qed.

Lemma reg_out_hardware reg v d : io_base d = ATA_PRIMARY_IO → 2 ≤ reg ≤ 7 → 0 ≤ v < 2 ^ 8 →
  hardware (reg_out reg v d) = out8 (0x1F0 + reg) v (hardware d).
Proof.
  intros Hb Hreg Hv. unfold reg_out, outb. cbn [hardware with_hardware].
  rewrite Hb. change ATA_PRIMARY_IO with 0x1F0. by rewrite !(u16_small), u8_small by (try apply u16_range; lia).
Qed.

Lemma reg_inw_drive d : io_base d = ATA_PRIMARY_IO →
  let '(w, d') := reg_inw ATA_REG_DATA d in
  same_config d d' ∧ same_flags d d' ∧ same_data d d' ∧ 0 ≤ w < 2 ^ 16 ∧
  (announcing d → w = u16 (nthZ (r_data (regs_of (hardware d))) 0) ∧
     regs_of (hardware d') = with_data (drop 1 (r_data (regs_of (hardware d)))) (regs_of (hardware d)) ∧
     (lenZ (r_data (regs_of (hardware d'))) mod 256 ≠ 0 → announcing d')).
Proof.
  intros Hb. unfold reg_inw, inw. rewrite Hb. change (u16 (u16 (ATA_PRIMARY_IO + ATA_REG_DATA))) with 0x1F0.
  pose proof (drive_data (hardware d)) as H. destruct (in16 0x1F0 (hardware d)) as [w p].
  destruct H as (H1 & H4). unfold same_data, announcing. cbn [hardware with_hardware].
  split; [done|]. split; [done|]. split; [done|]. split; [apply u16_range|].
  intros Ha. destruct (H4 Ha) as (-> & H5 & H6). done.
Qed.

Lemma word_bytes_spec l j : 0 ≤ j →
  nthZ (word_bytes l) (2 * j) = u8 (nthZ l j) ∧ nthZ (word_bytes l) (2 * j + 1) = u8 (nthZ l j ≫ 8).
Proof.
  revert j. induction l as [|w l IH]; intros j Hj.
  { rewrite !(nthZ_ge []) by (unfold lenZ; cbn; lia). done. }
  change (word_bytes (w :: l)) with (u8 w :: u8 (w ≫ 8) :: word_bytes l).
  destruct (decide (j = 0)) as [->|Hne]; [done|].
  destruct (IH (j - 1) ltac:(lia)) as [E1 E2].
  assert (∀ i x, 0 ≤ i → nthZ (u8 w :: u8 (w ≫ 8) :: x) (i + 2) = nthZ x i) as Hcc.
  { intros i x Hi. replace (i + 2) with (i + 1 + 1) by lia. by rewrite !nthZ_cons_S by lia. }
  assert (nthZ (w :: l) j = nthZ l (j - 1)) as ->.
  { replace j with (j - 1 + 1) at 1 by lia. apply nthZ_cons_S. lia. }
  replace (2 * j) with (2 * (j - 1) + 2) by lia.
  replace (2 * (j - 1) + 2 + 1) with (2 * (j - 1) + 1 + 2) by lia. by rewrite !Hcc by lia.
Qed.

(** After [j] of the announced words [l]. *)
Definition drained d (l : list Z) (j : Z) (d' : ata P) : Prop :=
  same_config d d' ∧ same_flags d d' ∧ same_data d d' ∧
  regs_of (hardware d') = with_data (drop (Z.to_nat j) l) (regs_of (hardware d)) ∧ (j < lenZ l → announcing d').

Lemma drained_step d l j d' : io_base d = ATA_PRIMARY_IO → lenZ l = 256 →
  0 ≤ j < lenZ l → drained d l j d' →
  let '(w, d'') := reg_inw ATA_REG_DATA d' in w = u16 (nthZ l j) ∧ drained d l (j + 1) d''.
Proof.
  intros Hb Hl Hj (H1 & H2 & H3 & H4 & H5). assert (io_base d' = ATA_PRIMARY_IO) as Hb'
    by (rewrite <- Hb; apply H1).
  pose proof (reg_inw_drive d' Hb') as H. destruct (reg_inw ATA_REG_DATA d') as [w d''].
  destruct H as (G1 & G2 & G3 & _ & G4). destruct (G4 (H5 ltac:(lia))) as (-> & G5 & G6).
  rewrite H4 in G5 |- *. cbn [r_data with_data] in *. split; [rewrite nthZ_drop by lia; do 2 f_equal; lia|].
  rewrite drop_drop in G5. replace (Z.to_nat j + 1)%nat with (Z.to_nat (j + 1)) in G5 by lia.
  split; [by etransitivity|]. split; [by etransitivity|]. split; [by etransitivity|].
  split; [exact G5|]. intros Hlt. apply G6. rewrite G5. cbn [r_data with_data].
  unfold lenZ in *. rewrite length_drop. replace (Z.of_nat (length l - Z.to_nat (j + 1))) with (255 - j) by lia.
  rewrite Z.mod_small by lia. lia.
Qed.

(** The words of a sector are stored at the start of the buffer. *)
Lemma store_words_spec d l buf :
  io_base d = ATA_PRIMARY_IO → announcing d → r_data (regs_of (hardware d)) = l →
  lenZ l = 256 → Forall (λ w, 0 ≤ w < 2 ^ 16) l → 512 ≤ lenZ buf →
  let '(_, (buf', d')) := store_words (buf, d) in
  drained d l 256 d' ∧ lenZ buf' = lenZ buf ∧ (bytes buf → bytes buf') ∧
  ∀ i, nthZ buf' i = if decide (0 ≤ i < 512) then nthZ (word_bytes l) i else nthZ buf i.
Proof.
  intros Hb Ha Hd Hl Hw Hbuf. unfold store_words.
  pose proof (for_loop_ind (λ j '(buf', d'), drained d l j d' ∧ lenZ buf' = lenZ buf ∧
    (bytes buf → bytes buf') ∧
    ∀ i, nthZ buf' i = if decide (0 ≤ i < 2 * j) then nthZ (word_bytes l) i else nthZ buf i) 0 256
    (λ i '(buffer, d), let '(w, d) := reg_inw ATA_REG_DATA d in
      (setZ (setZ buffer (2 * i) (u8 w)) (2 * i + 1) (u8 (w ≫ 8)), d)) (buf, d) ltac:(lia)) as H.
  destruct (for_loop _ _ _ (buf, d)) as [buf' d'].
  change 512 with (2 * 256). apply H; clear H buf' d'.
  - split; [|split; [done|split; [done|]]].
    + split; [reflexivity|]. split; [reflexivity|]. split; [reflexivity|]. split; [|done].
      rewrite <- Hd. by destruct (regs_of (hardware d)).
    + intros i. by rewrite decide_False by lia.
  - intros j [b1 d1] Hj (Hdr & E1 & E2 & E3). pose proof (drained_step d l j d1 Hb Hl ltac:(lia) Hdr) as Hs.
    destruct (reg_inw ATA_REG_DATA d1) as [w d2]. destruct Hs as [-> Hs].
    assert (0 ≤ nthZ l j < 2 ^ 16) as Hr.
    { unfold nthZ. rewrite (proj2 (Z.ltb_ge j 0)), nth_lookup by lia.
      destruct (l !! Z.to_nat j) eqn:E; simpl; [|lia]. by apply (Forall_lookup_1 _ _ _ _ Hw E). }
    rewrite u16_small by done. split; [done|].
    assert (lenZ (setZ b1 (2 * j) (u8 (nthZ l j))) = lenZ b1) as El by (apply lenZ_setZ; lia).
    split; [rewrite !lenZ_setZ; lia|].
    split; [intros Hby; apply setZ_bytes; [apply setZ_bytes; [by apply E2|apply u8_range]|apply u8_range]|].
    intros i. destruct (word_bytes_spec l j ltac:(lia)) as [W1 W2].
    destruct (decide (i = 2 * j + 1)) as [->|Hne].
    { rewrite nthZ_setZ_eq, decide_True by lia. by rewrite W2. }
    rewrite nthZ_setZ_ne by lia. destruct (decide (i = 2 * j)) as [->|Hne2].
    { rewrite nthZ_setZ_eq, decide_True by lia. by rewrite W1. }
    rewrite nthZ_setZ_ne, E3 by lia. repeat case_decide; try lia; done.
Qed.

(** One register of a quiet drive. *)
Lemma quiet_register reg v d : io_base d = ATA_PRIMARY_IO → 2 ≤ reg ≤ 5 → 0 ≤ v < 2 ^ 8 → quiet (hardware d) →
  let d' := reg_out reg v d in
  same_data d d' ∧ regs_of (hardware d') = register_write (0x1F0 + reg) v (regs_of (hardware d)) ∧
  quiet (hardware d') ∧ io_base d' = ATA_PRIMARY_IO.
Proof.
  intros Hb Hreg Hv Hq d'. subst d'. unfold same_data. rewrite reg_out_hardware by lia.
  destruct (drive_register (0x1F0 + reg) v (hardware d) ltac:(lia) Hq) as (H1 & H2 & H3). done.
Qed.

(** A command, as the drive sees it. *)
Lemma ata_command_drive count l0 l1 l2 cmd l d :
  io_base d = ATA_PRIMARY_IO → 0 ≤ count < 2 ^ 8 → 0 ≤ l0 < 2 ^ 8 → 0 ≤ l1 < 2 ^ 8 →
  0 ≤ l2 < 2 ^ 8 → 0 ≤ cmd < 2 ^ 8 → quiet (hardware d) →
  let r := mk_regs (r_select (regs_of (hardware d))) count l0 l1 l2 [] in
  command_data (sectors_of (hardware d)) (identity_of (hardware d)) cmd r = Some l →
  let d' := ata_command count l0 l1 l2 cmd d in
  same_config d d' ∧ same_flags d d' ∧ same_data d d' ∧
  (regs_of (hardware d') = with_data l r ∨
   ¬ prompt (hardware d) ∧ regs_of (hardware d') = with_data [] r).
Proof.
  intros Hb Hc H0 H1 H2 Hcmd Hq r Hl. cbv zeta. split; [done|split; [done|]]. unfold ata_command.
  unfold ATA_REG_SECCOUNT0, ATA_REG_LBA0, ATA_REG_LBA1, ATA_REG_LBA2, ATA_REG_COMMAND.
  pose proof (proj2 Hq) as Hd.
  destruct (quiet_register 2 count d Hb ltac:(lia) Hc Hq) as (C1 & D1 & Q1 & Hb1).
  set (d1 := reg_out 2 count d) in *. clearbody d1.
  destruct (quiet_register 3 l0 d1 Hb1 ltac:(lia) H0 Q1) as (C2 & D2 & Q2 & Hb2).
  set (d2 := reg_out 3 l0 d1) in *. clearbody d2.
  destruct (quiet_register 4 l1 d2 Hb2 ltac:(lia) H1 Q2) as (C3 & D3 & Q3 & Hb3).
  set (d3 := reg_out 4 l1 d2) in *. clearbody d3.
  destruct (quiet_register 5 l2 d3 Hb3 ltac:(lia) H2 Q3) as (C4 & D4 & Q4 & Hb4).
  set (d4 := reg_out 5 l2 d3) in *. clearbody d4.
  assert (same_data d d4) as C by (by do 3 (etransitivity; [eassumption|])). pose proof C as (E1 & E2 & E3).
  assert (regs_of (hardware d4) = r) as Er.
  { rewrite D4, D3, D2, D1. unfold r. rewrite <- Hd. done. }
  unfold same_data. rewrite reg_out_hardware by lia.
  destruct (drive_command cmd (hardware d4) l Q4) as (G1 & G2); [by rewrite E1, E2, Er|].
  split; [change (same_data d (with_hardware (out8 (0x1F0 + 7) cmd (hardware d4)) d4)); by etransitivity|].
  rewrite Er in G2. destruct G2 as [?|[? ?]]; [by left|right]. split; [by intros ?%E3|done].
Qed.

Lemma lor_select k : 0 ≤ k < 16 → u8 (0xE0 .| k) mod 2 ^ 4 = k.
Proof.
  intros Hk. change 0xE0 with (14 * 2 ^ 4). rewrite lor_disjoint_add by lia. rewrite u8_small by lia.
  rewrite Z.add_comm, Z.mod_add by lia. by apply Z.mod_small.
Qed.

(** The address the driver writes is the number of the sector. *)
Lemma lba_sector n count data : 0 ≤ n ≤ 0x0FFFFFFF →
  lba (mk_regs (u8 (0xE0 .| ((n ≫ 24) .& 0x0F))) count (u8 n) (u8 (n ≫ 8)) (u8 (n ≫ 16)) data) = n.
Proof.
  intros Hn. unfold lba. cbn [r_select r_lba0 r_lba1 r_lba2]. rewrite !shiftr_div by lia.
  rewrite (land_mask _ 0x0F 4) by lia. rewrite lor_select by (apply Z.mod_pos_bound; lia).
  unfold u8. dlia.
Qed.

Lemma select_bits k : 0 ≤ k < 16 → Z.testbit (u8 (0xE0 .| k)) 4 = false ∧ Z.testbit (u8 (0xE0 .| k)) 6 = true.
Proof.
  intros Hk. rewrite !testbit_u8, !Z.lor_spec by lia.
  assert (∀ i, 4 ≤ i → Z.testbit k i = false) as H.
  { intros i Hi. apply Z.bits_above_log2; [lia|]. destruct (decide (k = 0)) as [->|]; [change (0 < i); lia|].
    apply Z.log2_lt_pow2; [lia|]. pose proof (Z.pow_le_mono_r 2 4 i). lia. }
  by rewrite !H by lia.
Qed.

Lemma sector_high n : 0 ≤ (n ≫ 24) .& 0x0F < 16.
Proof. rewrite (land_mask _ 0x0F 4) by lia. apply Z.mod_pos_bound. lia. Qed.

Lemma select_master n r :
  selects_master (register_write 0x1F6 (u8 (0xE0 .| ((n ≫ 24) .& 0x0F))) r) = true.
Proof.
  unfold selects_master, register_write. cbn [Z.eqb Pos.eqb r_select].
  by destruct (select_bits _ (sector_high n)) as [-> _].
Qed.

(** The command for one sector, addressed by its number. *)
Lemma read_command f i n data : 0 ≤ n ≤ 0x0FFFFFFF →
  command_data f i ATA_CMD_READ_SECTORS
    (mk_regs (u8 (0xE0 .| ((n ≫ 24) .& 0x0F))) 1 (u8 n) (u8 (n ≫ 8)) (u8 (n ≫ 16)) data) = Some (f n).
Proof.
  intros Hn. unfold command_data, selects_master, lba_mode. cbn [r_select].
  destruct (select_bits _ (sector_high n)) as [-> ->]. cbn [negb].
  change (ATA_CMD_READ_SECTORS =? ATA_CMD_IDENTIFY) with false.
  change (ATA_CMD_READ_SECTORS =? ATA_CMD_READ_SECTORS) with true. cbn [andb].
  unfold transfer_count. cbn [r_count]. change (1 =? 0) with false. cbv iota.
  change (range 0 1) with [0]. cbn. rewrite lba_sector by done. by rewrite Z.add_0_r, app_nil_r.
Qed.

(** The failures of the driver. *)
Definition failure (r : Z) : Prop :=
  r = ATA_PIO_ENODEV ∨ r = ATA_PIO_ESTATUS ∨ r = ATA_PIO_ETIMEOUT ∨ r = ATA_PIO_EDRQ.

Lemma ata_wait_failure dr d r d' : ata_wait dr d = (r, d') → r ≠ 0 → failure r.
Proof.
  intros E Hr. unfold failure.
  destruct (ata_wait_outcome dr d r d' E) as (_ & [(k & _ & _ & Hv)|[-> _]]); [|tauto].
  unfold verdict in Hv. case_bool_decide; [injection Hv as <-; tauto|].
  destruct (Z.testbit _ 0 || Z.testbit _ 5)%bool; [injection Hv as <-; tauto|].
  destruct (_ && _)%bool; [injection Hv as <-; done|done].
Qed.

(** What a read leaves: the contents of the sector, or the buffer as it was with the
    error recorded. *)
Definition read_outcome (n : Z) (buf : list Z) d (r : Z) (buf' : list Z) (d' : ata P) : Prop :=
  (r = 0 ∧ present d = true ∧ present d' = true ∧ last_error d' = 0 ∧
     lenZ buf' = lenZ buf ∧ (bytes buf → bytes buf') ∧
     ∀ i, nthZ buf' i =
       if decide (0 ≤ i < 512) then nthZ (word_bytes (sectors_of (hardware d) n)) i else nthZ buf i) ∨
  (failure r ∧ buf' = buf ∧ last_error d' = r ∧
     present d' = if decide (r = ATA_PIO_ENODEV) then false else present d).

Lemma failed_outcome n buf d r d1 d' :
  same_config d d1 → same_flags d d1 → failure r → recorded r d1 d' →
  read_outcome n buf d r buf d'.
Proof.
  intros _ [F1 _] Hf (_ & _ & H). right. split; [done|split; [done|]].
  destruct H as [-> ->]; [by destruct Hf as [->|[->|[->| ->]]]|]. by rewrite F1.
Qed.

(** A failure ends an attempt. *)
Lemma failure_nonzero r : failure r → r ≠ 0.
Proof. by intros [->|[->|[->| ->]]]. Qed.

Lemma idle_settled d d' : same_flags d d' → present d = true → ata_idle d → later d d' → ata_idle d'.
Proof. intros _ Hp Hi Hl _. apply (later_settled d); auto. Qed.

Lemma transfer_spec n buf d r buf' d' :
  io_base d = ATA_PRIMARY_IO → announcing d → present d = true → selects_master (regs_of (hardware d)) = true →
  r_data (regs_of (hardware d)) = sectors_of (hardware d) n → 512 ≤ lenZ buf →
  ata_transfer buf d = (r, buf', d') →
  same_config d d' ∧ same_data d d' ∧ read_outcome n buf d r buf' d' ∧ ata_idle d' ∧ r = 0.
Proof.
  intros Hb Ha Hpres Hm Hdata Hbuf. unfold ata_transfer.
  destruct (reg_in_drive ATA_REG_STATUS d Hb) as (H1 & _ & H2 & H3); [by left|].
  destruct (H3 eq_refl) as [H4 _]. destruct (H2 Ha) as [Ha1 Er].
  destruct (reg_in_config ATA_REG_STATUS d) as [Hc Hf].
  destruct (reg_in ATA_REG_STATUS d) as [v d1]. cbn [fst snd] in *.
  destruct H1 as [Hs1 _]. pose proof Hs1 as (E1 & _ & E3).
  destruct (sectors_words (hardware d) n) as [Hl Hw].
  assert (sectors_of (hardware d) n ≠ []) as Hne by (intros E; by rewrite E in Hl).
  destruct (drive_working (hardware d) Hm ltac:(by rewrite Hdata)) as (B0 & B5 & _).
  assert (negb ((v .& (ATA_SR_ERR .| ATA_SR_DF)) =? 0) = false ∧ ((v .& ATA_SR_DRQ) =? 0) = false) as [-> ->].
  { pose proof (land_two_bits v 0 5 ltac:(lia) ltac:(lia)) as E.
    change (1 ≪ 0 .| 1 ≪ 5) with (ATA_SR_ERR .| ATA_SR_DF) in E. rewrite E.
    pose proof (land_bit v 3 ltac:(lia)) as E'. change (1 ≪ 3) with ATA_SR_DRQ in E'.
    rewrite H4, !testbit_u8, B0, B5 by lia. split; [done|]. rewrite H4, testbit_u8 in E' by lia.
    unfold announcing, announces in Ha. apply andb_prop in Ha as [_ Ha]. rewrite Ha in E'.
    by apply negb_true_iff in E'. }
  assert (io_base d1 = ATA_PRIMARY_IO) as Hb1 by (rewrite <- Hb; apply Hc).
  pose proof (store_words_spec d1 (sectors_of (hardware d) n) buf Hb1 Ha1 ltac:(by rewrite Er)
    ltac:(unfold lenZ; lia) Hw Hbuf) as Hst.
  destruct (store_words (buf, d1)) as [_ [buf1 d2]].
  destruct Hst as ((G1 & G2 & G3 & GR & _) & G4 & G5 & G6). intros [= <- <- <-].
  split; [etransitivity; [exact Hc|exact G1]|]. split; [etransitivity; [exact Hs1|exact G3]|].
  split; [|split; [|done]].
  - left. split; [done|split; [done|]]. destruct Hf as [Hf _]. destruct G2 as [G2 _].
    cbn [present last_error with_last_error]. split; [congruence|split; [done|]]. done.
  - intros _. unfold settled. cbn [hardware with_last_error]. rewrite GR, Er. split; [done|].
    cbn [r_data with_data]. apply drop_ge. rewrite Hl. lia.
Qed.

(** The device object over a wait. *)
Lemma wait_spec dr d d1 r d2 :
  same_config d d1 → same_flags d d1 → ata_wait dr d1 = (r, d2) →
  same_config d d2 ∧
  if r =? 0 then same_flags d d2 else failure r ∧ last_error d2 = r ∧ recorded r d d2.
Proof.
  intros C1 F1 E. destruct (ata_wait_outcome dr d1 r d2 E) as (R & _). pose proof R as (C2 & F2 & F2').
  split; [by etransitivity|]. destruct (Z.eqb_spec r 0) as [->|Hne].
  - etransitivity; [exact F1|by apply F2].
  - split; [by apply (ata_wait_failure _ _ _ _ E)|]. split; [by apply F2'|].
    by apply (recorded_after r d d1).
Qed.

(** The device register of a drive that is quiet. *)
Lemma select_drive v d : io_base d = ATA_PRIMARY_IO → 0 ≤ v < 2 ^ 8 → quiet (hardware d) →
  let d' := reg_out ATA_REG_HDDEVSEL v d in
  same_data d d' ∧ regs_of (hardware d') = register_write 0x1F6 v (regs_of (hardware d)) ∧
  r_data (regs_of (hardware d')) = [].
Proof.
  intros Hb Hv Hq d'. subst d'. unfold same_data. rewrite (reg_out_hardware ATA_REG_HDDEVSEL) by done.
  destruct (drive_device v (hardware d) Hq) as (H1 & H2). split; [exact H1|split; [exact H2|]].
  change (0x1F0 + ATA_REG_HDDEVSEL) with 0x1F6. rewrite H2. exact (proj2 Hq).
Qed.

(** A command to the master, and the wait for its data [l]. *)
Lemma command_wait count l0 l1 l2 cmd l d r d' :
  io_base d = ATA_PRIMARY_IO → 0 ≤ count < 2 ^ 8 → 0 ≤ l0 < 2 ^ 8 → 0 ≤ l1 < 2 ^ 8 →
  0 ≤ l2 < 2 ^ 8 → 0 ≤ cmd < 2 ^ 8 → quiet (hardware d) → selects_master (regs_of (hardware d)) = true →
  command_data (sectors_of (hardware d)) (identity_of (hardware d)) cmd
    (mk_regs (r_select (regs_of (hardware d))) count l0 l1 l2 []) = Some l → l ≠ [] →
  ata_wait true (ata_command count l0 l1 l2 cmd d) = (r, d') →
  same_data d d' ∧ selects_master (regs_of (hardware d')) = true ∧ (prompt (hardware d) → r = 0) ∧
  if decide (r = 0) then announcing d' ∧ r_data (regs_of (hardware d')) = l
  else r_data (regs_of (hardware d')) = [].
Proof.
  intros Hb Hc H0 H1 H2 Hcmd Hq Hm Hl Hne E.
  destruct (ata_command_drive count l0 l1 l2 cmd l d Hb Hc H0 H1 H2 Hcmd Hq Hl) as (C1 & _ & S1 & R1).
  set (d1 := ata_command _ _ _ _ _ d) in *. clearbody d1.
  assert (io_base d1 = ATA_PRIMARY_IO) as Hb1 by (rewrite <- Hb; apply C1).
  assert (selects_master (regs_of (hardware d1)) = true) as Hm1 by (by destruct R1 as [->|[_ ->]]).
  destruct (ata_wait_data d1 r d' Hb1 Hm1 E) as (L & A & Hp).
  split; [etransitivity; [exact S1|apply L]|]. split; [by rewrite (later_master d1)|]. split.
  - intros Hpr. destruct R1 as [R1|[? _]]; [|done]. apply Hp; [by apply S1|]. by rewrite R1.
  - case_decide as Hr; [|done]. split; [done|]. apply drive_announces in A.
    destruct L as [_ [E'|[_ E']]]; rewrite E' in *; [|done]. destruct R1 as [R1|[_ R1]]; rewrite R1 in *; done.
Qed.

Lemma ata_request_spec n d r d' :
  io_base d = ATA_PRIMARY_IO → drive_select d = 0xE0 → 0 ≤ n ≤ 0x0FFFFFFF → settled (hardware d) →
  ata_request n d = (r, d') →
  same_config d d' ∧ same_data d d' ∧ (prompt (hardware d) → r = None) ∧
  selects_master (regs_of (hardware d')) = true ∧
  match r with
  | None => same_flags d d' ∧ announcing d' ∧
      r_data (regs_of (hardware d')) = sectors_of (hardware d) n
  | Some e => failure e ∧ recorded e d d' ∧ r_data (regs_of (hardware d')) = []
  end.
Proof.
  intros Hb Hsel Hn [Hm He]. unfold ata_request.
  destruct (ata_wait false d) as [r1 d1] eqn:E1.
  destruct (wait_spec false d d r1 d1) as (C1 & W1); try done.
  destruct (ata_wait_idle d r1 d1 Hb He E1) as (L1 & Q1 & P1).
  destruct (later_settled d d1 L1 (conj Hm He)) as [Hm1 He1].
  destruct (Z.eqb_spec r1 0) as [->|Hr1]; cbn [negb]; cycle 1.
  { destruct W1 as (H1 & H2 & H3). rewrite H2. intros [= <- <-]. split_and!; try done; [apply L1|].
    intros Hp. by rewrite (P1 Hp Hm) in Hr1. }
  specialize (Q1 eq_refl). assert (drive_select d1 = 0xE0) as -> by (rewrite <- Hsel; apply C1).
  assert (io_base d1 = ATA_PRIMARY_IO) as Hb1 by (rewrite <- Hb; apply C1).
  destruct (select_drive (u8 (0xE0 .| ((n ≫ 24) .& 0x0F))) d1 Hb1 (u8_range _) Q1) as (S2 & R2 & He2).
  destruct (reg_out_config ATA_REG_HDDEVSEL (u8 (0xE0 .| ((n ≫ 24) .& 0x0F))) d1) as [C2 F2].
  set (d2 := reg_out ATA_REG_HDDEVSEL _ d1) in *. clearbody d2.
  assert (io_base d2 = ATA_PRIMARY_IO) as Hb2 by (rewrite <- Hb1; apply C2).
  assert (same_data d d2) as S02 by (etransitivity; [apply L1|done]).
  assert (selects_master (regs_of (hardware d2)) = true) as Hm2 by (rewrite R2; apply select_master).
  destruct (ata_wait false d2) as [r3 d3] eqn:E3.
  destruct (wait_spec false d d2 r3 d3) as (C3 & W3); try done; try by etransitivity.
  destruct (ata_wait_idle d2 r3 d3 Hb2 He2 E3) as (L3 & Q3 & P3).
  destruct (later_settled d2 d3 L3 (conj Hm2 He2)) as [Hm3 He3].
  assert (same_data d d3) as S03 by (etransitivity; [done|apply L3]).
  destruct (Z.eqb_spec r3 0) as [->|Hr3]; cbn [negb]; cycle 1.
  { destruct W3 as (H1 & H2 & H3). rewrite H2. intros [= <- <-]. split_and!; try done.
    intros Hp. rewrite P3 in Hr3; [done|by apply S02|done]. }
  specialize (Q3 eq_refl). assert (io_base d3 = ATA_PRIMARY_IO) as Hb3 by (rewrite <- Hb; apply C3).
  destruct (ata_wait true _) as [r5 d5] eqn:E5.
  destruct (command_wait 1 (u8 n) (u8 (n ≫ 8)) (u8 (n ≫ 16)) ATA_CMD_READ_SECTORS (sectors_of (hardware d) n) d3 r5 d5 Hb3 (conj Z.le_0_1 eq_refl : 0 ≤ 1 < 2 ^ 8)
    (u8_range _) (u8_range _) (u8_range _) ltac:(done) Q3 Hm3) as (S5 & Hm5 & P5 & A5); [| |exact E5|].
  { rewrite (later_select d2 d3 L3), R2.
    change (r_select (register_write 0x1F6 ?v ?r)) with v. rewrite read_command by done.
    by destruct S03 as [-> _]. }
  { intros E. destruct (sectors_words (hardware d) n) as [Hl _]. by rewrite E in Hl. }
  destruct (wait_spec true d (ata_command 1 (u8 n) (u8 (n ≫ 8)) (u8 (n ≫ 16)) ATA_CMD_READ_SECTORS d3) r5 d5)
    as (C5 & W5); [exact C3|exact W3|exact E5|].
  assert (same_data d d5) as S05 by (by etransitivity).
  destruct (Z.eqb_spec r5 0) as [->|Hr5]; cbn [negb].
  - intros [= <- <-]. destruct A5 as [A5 D5]. by split_and!.
  - rewrite decide_False in A5 by done. destruct W5 as (H1 & H2 & H3). rewrite H2. intros [= <- <-].
    split_and!; try done. intros Hp. rewrite P5 in Hr5; [done|by apply S03].
Qed.

(** [ata_pio_read_sector] on a device that has been set up. *)
Lemma ata_read_spec d n buf r buf' d' :
  ata_ready d → ata_idle d → 0 ≤ n → 512 ≤ lenZ buf → ata_pio_read_sector n buf d = (r, buf', d') →
  (r = ATA_PIO_EINVAL ∧ 0x0FFFFFFF < n ∧ buf' = buf ∧ d' = d) ∨
  (n ≤ 0x0FFFFFFF ∧ same_config d d' ∧ same_data d d' ∧ read_outcome n buf d r buf' d' ∧ ata_idle d' ∧
   (prompt (hardware d) → present d = true → r = 0)).
Proof.
  intros (Hb & Hsel & Hctx & Hsz & _) Hi Hn Hbuf. unfold ata_pio_read_sector.
  rewrite Hsz, Hctx. cbn [negb orb Z.eqb Pos.eqb].
  destruct (Z.ltb_spec 0x0FFFFFFF n); [intros [= <- <- <-]; by left|]. intros E. right.
  split; [done|]. revert E. destruct (present d) eqn:Hpres; cbn [negb]; cycle 1.
  { pose proof (ata_fail_spec ATA_PIO_ENODEV d ltac:(done)) as (F1 & F2 & F3).
    destruct (ata_fail ATA_PIO_ENODEV d) as [r1 d1]. cbn [fst snd] in *. intros [= <- <- <-]. subst r1.
    split; [apply F2|]. split; [unfold same_data; by rewrite F3|].
    split; [apply (failed_outcome n buf d _ d); [done|done|by left|done]|]. split; [|done].
    destruct F2 as (_ & _ & F2). destruct (F2 ltac:(done)) as [_ F4].
    rewrite decide_True in F4 by done. unfold ata_idle. by rewrite F4. }
  destruct (ata_request n d) as [r1 d1] eqn:E1.
  destruct (ata_request_spec n d r1 d1 Hb Hsel ltac:(lia) (Hi Hpres) E1) as (C1 & S1 & P1 & Hm1 & H1).
  destruct r1 as [r1|].
  { destruct H1 as (H1 & H2 & H3). intros [= <- <- <-]. split_and!; try done.
    - by apply (failed_outcome n buf d r1 d).
    - intros Hp. by specialize (P1 Hp). }
  destruct H1 as (F1 & A1 & Hdata). intros E.
  assert (sectors_of (hardware d1) n = sectors_of (hardware d) n) as Esec by (by destruct S1 as [-> _]).
  assert (present d1 = true) as Hp1 by (rewrite <- Hpres; apply F1).
  destruct (transfer_spec n buf d1 r buf' d') as (T1 & T2 & T3 & T4 & T5); try done.
  - rewrite <- Hb. apply C1.
  - by rewrite Hdata.
  - split; [by etransitivity|]. split; [by etransitivity|].
    split; [|done]. unfold read_outcome in *. destruct F1 as [F1 _]. by rewrite F1, Esec in T3.
Qed.

Lemma read_words_spec d l :
  io_base d = ATA_PRIMARY_IO → announcing d → r_data (regs_of (hardware d)) = l → lenZ l = 256 →
  Forall (λ w, 0 ≤ w < 2 ^ 16) l →
  let '(words, d') := read_words d in words = l ∧ drained d l 256 d'.
Proof.
  intros Hb Ha Hd Hl Hw. unfold read_words.
  pose proof (for_loop_ind (λ j '(words, d'), words = take (Z.to_nat j) l ∧ drained d l j d') 0 256
    (λ _ '(words, d), let '(w, d) := reg_inw ATA_REG_DATA d in (words ++ [w], d)) ([], d)
    ltac:(lia)) as H.
  destruct (for_loop _ _ _ ([], d)) as [words d'].
  assert (l = take (Z.to_nat 256) l) as El by (by rewrite take_ge by (unfold lenZ in *; lia)).
  rewrite El at 1. apply H; clear H words d'.
  - split; [done|]. split; [reflexivity|]. split; [reflexivity|]. split; [reflexivity|]. split; [|done].
    rewrite <- Hd. by destruct (regs_of (hardware d)).
  - intros j [words d1] Hj [-> Hdr]. pose proof (drained_step d l j d1 Hb Hl ltac:(lia) Hdr) as Hs.
    destruct (reg_inw ATA_REG_DATA d1) as [w d2]. destruct Hs as [-> Hs]. split; [|done].
    destruct (lookup_lt_is_Some_2 l (Z.to_nat j)) as [x Hx]; [unfold lenZ in *; lia|].
    rewrite (nthZ_lookup l j x Hx), u16_small by (lia || by apply (Forall_lookup_1 _ _ _ _ Hw Hx)).
    replace (Z.to_nat (j + 1)) with (S (Z.to_nat j)) by lia. by rewrite (take_S_r _ _ _ Hx).
Qed.


Lemma ata_ready_config d d' : ata_ready d → same_config d d' → ata_ready d'.
Proof.
  unfold ata_ready, same_config. intros (H1 & H2 & H3 & H4 & H5 & H6) (E1 & E2 & E3 & E4 & E5 & E6).
  by rewrite E1, E2, E3, E4, E5, E6.
Qed.


(** What probing the drive leaves. *)
Definition probed d d' : Prop :=
  ata_ready d' ∧ ata_idle d' ∧ same_data d d' ∧
  (present d' = true ∧ last_error d' = 0 ∧
     block_sector_count d' = Z.min (capacity (identity_of (hardware d))) 0x10000000 ∨
   present d' = false ∧ failure (last_error d') ∧ block_sector_count d' = 0) ∧
  (prompt (hardware d) → present d' = true).

(** The identity: the last steps of [ata_pio_init]. *)
Lemma identified d d4 d5 (words : list Z) :
  (words, d5) = read_words d4 → ata_ready d4 → block_sector_count d4 = 0 → announcing d4 →
  same_data d d4 → selects_master (regs_of (hardware d4)) = true →
  r_data (regs_of (hardware d4)) = identity_of (hardware d) →
  let sectors := nthZ words 60 .| u32 (nthZ words 61 ≪ 16) in
  probed d (with_last_error 0 (with_present true
    (if negb (sectors =? 0)
     then with_sector_count (if 0x10000000 <? sectors then 0x10000000 else sectors) d5 else d5))).
Proof.
  intros Ew Hr Hc Ha Hs Hm Hd sectors. destruct (identity_words (hardware d)) as [Hl Hw].
  pose proof (read_words_spec d4 (identity_of (hardware d)) (proj1 Hr) Ha Hd
    ltac:(unfold lenZ; lia) Hw) as H.
  rewrite <- Ew in H. destruct H as [-> (C & F & S & R & _)].
  assert (settled (hardware d5)) as Hset.
  { unfold settled. rewrite R. split; [done|]. cbn [r_data with_data]. apply drop_ge. rewrite Hl. lia. }
  assert (∀ k, 0 ≤ nthZ (identity_of (hardware d)) k < 2 ^ 16) as Hrange.
  { intros k. unfold nthZ. case_if; [lia|]. rewrite nth_lookup.
    destruct (_ !! Z.to_nat k) eqn:E; simpl; [|lia]. by apply (Forall_lookup_1 _ _ _ _ Hw E). }
  pose proof (Hrange 60). pose proof (Hrange 61).
  assert (sectors = capacity (identity_of (hardware d))) as Es.
  { subst sectors. unfold capacity. rewrite shiftl_mul, u32_small by lia.
    rewrite Z.lor_comm, lor_disjoint_add by lia. lia. }
  clearbody sectors. pose proof (ata_ready_config _ _ Hr C) as Hr5. unfold capacity in Es.
  assert (same_data d d5) as Hs5 by (by etransitivity).
  assert (block_sector_count d5 = 0) as Hc5 by (rewrite <- Hc; apply C).
  unfold probed, capacity. rewrite <- Es.
  destruct Hr5 as (H1 & H2 & H3 & H4 & H5 & H6).
  destruct (Z.eqb_spec sectors 0) as [E0|E0]; cbn [negb].
  - split; [done|]. split; [by intros _|]. split; [done|]. split; [left|done]. cbn. rewrite Hc5. split_and!; try done. lia.
  - split; [unfold ata_ready; cbn; split_and!; try done; destruct (Z.ltb_spec 0x10000000 sectors); lia|].
    split; [by intros _|]. split; [done|]. split; [left|done]. cbn. split_and!; try done.
    destruct (Z.ltb_spec 0x10000000 sectors); lia.
Qed.

(** A probe that ends early. *)
Lemma not_probed d d' r :
  ata_ready d' → same_data d d' → present d' = false → last_error d' = r → failure r →
  block_sector_count d' = 0 → (prompt (hardware d) → False) → probed d d'.
Proof.
  intros H1 H2 H3 H4 H5 H6 H7. split; [done|]. split; [unfold ata_idle; by rewrite H3|]. split; [done|]. split; [|intros Hp; by destruct (H7 Hp)].
  right. by rewrite H4.
Qed.

Lemma ata_pio_init_spec d : quiet (hardware d) → probed d (ata_pio_init d).
Proof.
  intros Hq0. unfold ata_pio_init.
  set (d0 := mk_ata 512 0 true true ATA_PRIMARY_IO 0xE0 false ATA_PIO_ENODEV (hardware d)).
  assert (ata_ready d0) as Hr0 by (unfold ata_ready; cbn; split_and!; done || lia).
  destruct (select_drive (drive_select d0) d0 eq_refl ltac:(done) Hq0) as (S1 & R1 & He1).
  destruct (reg_out_config ATA_REG_HDDEVSEL (drive_select d0) d0) as [C1 F1].
  set (d1 := reg_out ATA_REG_HDDEVSEL _ d0) in *. clearbody d1.
  assert (settled (hardware d1)) as Hset1 by (split; [by rewrite R1|done]).
  assert (same_data d d1) as S01 by exact S1. pose proof (ata_ready_config _ _ Hr0 C1) as Hr1.
  destruct (ata_delay_config d1) as [C2 F2]. destruct (ata_delay_drive d1 (proj1 Hr1)) as [L2 _].
  set (d2 := ata_delay d1) in *. clearbody d2. pose proof (ata_ready_config _ _ Hr1 C2) as Hr2.
  destruct (reg_in_drive ATA_REG_STATUS d2 (proj1 Hr2)) as (L3 & _ & _ & E3); [by left|].
  destruct (E3 eq_refl) as [E3' _]. clear E3.
  destruct (reg_in_config ATA_REG_STATUS d2) as [C3 F3]. unfold ata_status.
  destruct (reg_in ATA_REG_STATUS d2) as [v d3]. cbn [fst snd] in *.
  pose proof (ata_ready_config _ _ Hr2 C3) as Hr3.
  assert (same_data d d2) as S02 by (etransitivity; [exact S01|apply L2]).
  assert (same_data d d3) as S03 by (etransitivity; [exact S02|apply L3]).
  pose proof (later_settled _ _ L2 Hset1) as Hset2. pose proof (later_settled _ _ L3 Hset2) as [Hm3 He3].
  assert (same_config d0 d3) as C03 by (etransitivity; [exact C1|]; by etransitivity).
  assert (same_flags d0 d3) as F03 by (etransitivity; [exact F1|]; by etransitivity).
  assert (block_sector_count d3 = 0) as Hc3 by (destruct C03 as (_ & -> & _); done).
  assert (present d3 = false) as Hp3 by (destruct F03 as [-> _]; done).
  destruct ((v =? 0) || (v =? 0xFF))%bool eqn:Ev.
  { apply (not_probed d _ ATA_PIO_ENODEV); try done; [by left|]. intros Hp.
    assert (prompt (hardware d2)) as Hp2 by (by apply S02).
    rewrite E3', (prompt_status _ Hp2), decide_True in Ev by apply Hset2. done. }
  destruct (ata_wait false d3) as [r4 d4] eqn:E4.
  destruct (wait_spec false d3 d3 r4 d4) as (C4 & W4); try done.
  destruct (ata_wait_idle d3 r4 d4 (proj1 Hr3) He3 E4) as (L4 & Q4 & P4).
  pose proof (ata_ready_config _ _ Hr3 C4) as Hr4. assert (same_data d d4) as S04 by (etransitivity; [exact S03|apply L4]).
  assert (block_sector_count d4 = 0) as Hc4 by (rewrite <- Hc3; apply C4).
  destruct (r4 =? 0) eqn:Er4; cbn [negb]; cycle 1.
  { destruct W4 as (H1 & H2 & H3). apply (not_probed d d4 r4); try done.
    - destruct H3 as (_ & _ & H3). apply Z.eqb_neq in Er4. destruct (H3 Er4) as [_ ->]. by rewrite Hp3; case_decide.
    - intros Hp. rewrite P4 in Er4; [done|by apply S03|done]. }
  apply Z.eqb_eq in Er4. assert (present d4 = false) as Hp4 by (rewrite <- Hp3; apply W4).
  destruct (later_settled _ _ L4 (conj Hm3 He3)) as [Hm4 _].
  set (d5 := ata_command 0 0 0 0 ATA_CMD_IDENTIFY d4).
  destruct (ata_wait true d5) as [r6 d6] eqn:E6.
  destruct (command_wait 0 0 0 0 ATA_CMD_IDENTIFY (identity_of (hardware d)) d4 r6 d6 (proj1 Hr4))
    as (S6 & Hm6 & P6 & A6); try done; [by apply Q4| | |].
  { unfold command_data. assert (selects_master (mk_regs (r_select (regs_of (hardware d4))) 0 0 0 0 []) = true)
      as -> by exact Hm4. cbn [negb]. change (ATA_CMD_IDENTIFY =? ATA_CMD_IDENTIFY) with true. cbv iota.
    by destruct S04 as (_ & -> & _). }
  { destruct (identity_words (hardware d)) as [Hl _]. intros E. by rewrite E in Hl. }
  destruct (wait_spec true d4 d5 r6 d6) as (C6 & W6); [done|done|done|].
  pose proof (ata_ready_config _ _ Hr4 C6) as Hr6. assert (same_data d d6) as S06 by (by etransitivity).
  assert (block_sector_count d6 = 0) as Hc6 by (destruct C6 as (_ & -> & _); done).
  destruct (Z.eqb_spec r6 0) as [->|Er6]; cbn [negb]; cycle 1.
  { destruct W6 as (H1 & H2 & H3). apply (not_probed d d6 r6); try done.
    - destruct H3 as (_ & _ & H3). destruct (H3 Er6) as [_ ->]. by rewrite Hp4; case_decide.
    - intros Hp. rewrite P6 in Er6; [done|by apply S04]. }
  destruct A6 as [A6 D6]. destruct (read_words d6) as [words d7] eqn:E7.
  by apply (identified d d6 d7 words).
Qed.
End drive.

(** ** The driver as a block device *)

#[global] Instance ata_device {P} {IO : Ports P} : BlockDevice (ata P) := {|
  sector_size d := u32 (block_sector_size d);
  sector_count d := u32 (block_sector_count d);
  has_read_sector := block_read;
  driver_read n := ata_pio_read_sector (u32 n);
|}.

Section interface.
Context {P : Type} {IO : Ports P} {AD : AtaDrive P}.
Implicit Types (d : ata P).

(** Sector [n] of the drive as the block layer sees it. *)
Definition ata_contents d (n : Z) : list Z :=
  sector_block (sectors_of (hardware d) (u32 n)) (u32 (block_sector_size d)).
Definition ata_readable d (n : Z) : Prop :=
  prompt (hardware d) ∧ present d = true ∧ u32 n ≤ 0x0FFFFFFF.

Lemma sector_block_bytes l n : bytes (sector_block l n).
Proof.
  unfold sector_block. apply Forall_fmap, Forall_forall. intros i Hi.
  apply elem_of_range in Hi. cbn.
  destruct (word_bytes_spec l (i / 2) ltac:(apply Z.div_pos; lia)) as [E1 E2].
  destruct (decide (i mod 2 = 0)).
  - replace i with (2 * (i / 2)) by dlia. rewrite E1. apply u8_range.
  - replace i with (2 * (i / 2) + 1) by dlia. rewrite E2. apply u8_range.
Qed.

Lemma sector_block_nth l n i : 0 ≤ i < n → nthZ (sector_block l n) i = nthZ (word_bytes l) i.
Proof.
  intros Hi. unfold sector_block. apply nthZ_lookup; [|lia]. rewrite list_lookup_fmap_Some.
  exists i. split; [done|]. unfold range. rewrite Z.sub_0_r.
  assert (∀ (m k : nat) a, (k < m)%nat → count_up m a !! k = Some (a + Z.of_nat k)) as H.
  { induction m as [|m IH]; intros [|k] a Hk; [lia|lia|cbn; f_equal; lia|].
    cbn [count_up]. change ((a :: count_up m (a + 1)) !! S k) with (count_up m (a + 1) !! k).
    rewrite IH by lia. f_equal. lia. }
  rewrite H by lia. f_equal. lia.
Qed.

Lemma sector_block_length l n : 0 ≤ n → lenZ (sector_block l n) = n.
Proof. intros Hn. unfold lenZ, sector_block. rewrite length_fmap, Block.length_range. lia. Qed.

(** Reading through the interface. *)
Lemma ata_device_read n buf d r buf' d' :
  driver_read n buf d = (r, buf', d') → ata_ok d → sector_size d ≤ lenZ buf →
  (r = ATA_PIO_EINVAL ∧ 0x0FFFFFFF < u32 n ∧ buf' = buf ∧ d' = d) ∨
  (u32 n ≤ 0x0FFFFFFF ∧ same_config d d' ∧ same_data d d' ∧ read_outcome (u32 n) buf d r buf' d' ∧
   ata_idle d' ∧
   (prompt (hardware d) → present d = true → r = 0)).
Proof.
  cbn [driver_read sector_size ata_device]. intros E [Hr Hi] Hl.
  assert (block_sector_size d = 512) as Hs by apply Hr. rewrite Hs in Hl.
  apply (ata_read_spec d (u32 n) buf r buf' d' Hr Hi); [apply u32_range|done|done].
Qed.

(** Operations of other devices leave a drive quiet, or settled. *)
Definition undisturbed (p p' : P) : Prop := (quiet p → quiet p') ∧ (settled p → settled p').
Definition elsewhere (port : Z) : Prop := 0 ≤ port < 2 ^ 16 ∧ ¬ (0x1F0 ≤ port ≤ 0x1F7) ∧ port ≠ 0x3F6.

#[export] Instance undisturbed_preorder : PreOrder undisturbed.
Proof. split; [by split|]. intros p1 p2 p3 [H1 H2] [H3 H4]. split; auto. Qed.

Lemma outb_undisturbed port v p : elsewhere port → undisturbed p (outb port v p).
Proof.
  intros (Hp & H1 & H2). unfold outb. rewrite u16_small by lia.
  destruct (drive_elsewhere port p H1 H2 (out8 port (u8 v) p)) as (_ & Er & Hq); [right; by eexists|].
  split; [done|]. unfold settled. by rewrite Er.
Qed.

Lemma inb_undisturbed port p v p' : elsewhere port → inb port p = (v, p') → undisturbed p p'.
Proof.
  intros (Hp & H1 & H2). unfold inb. rewrite u16_small by lia.
  destruct (drive_elsewhere port p H1 H2 (snd (in8 port p))) as (_ & Er & Hq); [by left|].
  destruct (in8 port p) as [w q]. cbn [snd] in *. intros [= _ <-]. split; [done|]. unfold settled. by rewrite Er.
Qed.

#[global, program] Instance ata_device_spec : BlockDeviceSpec (ata P) := {|
  device_ok := ata_ok;
  contents := ata_contents;
  readable := ata_readable;
|}.
Next Obligation. intros d n. apply sector_block_bytes. Qed.
Next Obligation. intros d n. apply sector_block_length, u32_range. Qed.
Next Obligation. intros d. apply u32_range. Qed.
Next Obligation. intros d. apply u32_range. Qed.
Next Obligation.
  intros n buf d r buf' d' E Hr Hb Hl.
  destruct (ata_device_read n buf d r buf' d' E Hr Hl) as [(_ & _ & -> & ->)|(_ & C & S & O & I & Hp)]; [done|].
  split; [split; [apply (ata_ready_config d); [apply Hr|done]|done]|]. pose proof S as (S1 & _ & S3).
  assert (lenZ buf' = lenZ buf ∧ bytes buf') as [L B].
  { destruct O as [(_ & _ & _ & _ & L & B & _)|(_ & -> & _)]; [by split; [|apply B]|done]. }
  cbn [sector_size sector_count has_read_sector ata_device].
  split; [by destruct C as (-> & _)|]. split; [by destruct C as (_ & -> & _)|].
  split; [by destruct C as (_ & _ & -> & _)|].
  split; [unfold ata_contents; rewrite S1; by destruct C as (-> & _)|].
  split; [|done]. intros k (H1 & H2 & H3). split; [by apply S3|split; [|done]].
  specialize (Hp H1 H2). destruct O as [(_ & _ & O & _)|([->|[->|[->| ->]]] & _)]; done.
Qed.
Next Obligation.
  intros n buf d buf' d' E Hr Hb Hl i Hi.
  destruct (ata_device_read n buf d 0 buf' d' E Hr Hl) as [(? & _)|(_ & _ & _ & O & _)]; [done|].
  destruct O as [(_ & _ & _ & _ & _ & _ & O)|([|[|[|]]] & _)]; [|done..].
  cbn [sector_size ata_device] in Hi. unfold ata_contents. rewrite sector_block_nth, O by done.
  rewrite decide_True; [done|]. assert (block_sector_size d = 512) as Hs by apply Hr.
  rewrite Hs, u32_small in Hi by lia. lia.
Qed.
Next Obligation.
  intros n buf d Hr (H1 & H2 & H3) Hb Hl.
  destruct (driver_read n buf d) as [[r buf'] d'] eqn:E. cbn.
  destruct (ata_device_read n buf d r buf' d' E Hr Hl) as [(_ & ? & _)|(_ & _ & _ & _ & _ & Hp)]; [lia|].
  by apply Hp.
Qed.
End interface.

(** ** Properties *)

(** C36. Whatever the hardware answers, [ata_wait] ends after at most a million polls:
    with the verdict on the first status that decides, all earlier ones being
    undecided, or with a timeout when none does; a failure is recorded in
    [last_error], and only a missing device clears [present]. *)
Theorem ata_wait_correct {P} {IO : Ports P} dr (d : ata P) r d' :
  ata_wait dr d = (r, d') →
  let st k := nth_status (u16 (io_base d + ATA_REG_STATUS)) k (hardware (ata_delay d)) in
  recorded r d d' ∧
  ((∃ k, Z.of_nat k < 1000000 ∧ (∀ j, (j < k)%nat → verdict dr (st j) = None) ∧
      verdict dr (st k) = Some r) ∨
   (r = ATA_PIO_ETIMEOUT ∧ ∀ j, Z.of_nat j < 1000000 → verdict dr (st j) = None)).
Proof. apply ata_wait_outcome. Qed.


(** C37. On a drive the boot loader left quiet, [ata_pio_init] sets the device up; either
    the primary master was found, with the capacity it reports, limited to the 28 bits of
    the commands, and is selected and idle, or it was not, with the reason recorded; a
    drive that answers promptly is found.  No sector is changed. *)
Theorem ata_pio_init_correct {P} {IO : Ports P} {AD : AtaDrive P} (d : ata P) :
  quiet (hardware d) →
  let d' := ata_pio_init d in
  ata_ready d' ∧ ata_idle d' ∧ same_data d d' ∧
  (present d' = true ∧ last_error d' = 0 ∧
     block_sector_count d' = Z.min (capacity (identity_of (hardware d))) 0x10000000 ∨
   present d' = false ∧ failure (last_error d') ∧ block_sector_count d' = 0) ∧
  (prompt (hardware d) → present d' = true).
Proof. apply ata_pio_init_spec. Qed.

(** ** Instances: a prompt drive whose sector [n] is 256 times the word [n] *)

Definition simple_sector (n : Z) : list Z := replicate 256 (u16 n).
Definition simple_identity : list Z := replicate 60 0 ++ [1000] ++ replicate 195 0.
Definition simple_status (r : ata_regs) : Z := if decide (r_data r = []) then 0x50 else 0x58.

(** It takes registers and commands when it has no data to transfer. *)
Definition simple_write (port v : Z) (r : ata_regs) : ata_regs :=
  if decide (r_data r = []) then
    if port =? 0x1F7 then default r ((λ l, with_data l r) <$> command_data simple_sector simple_identity v r)
    else register_write port v r
  else r.

#[global] Instance simple_ports : Ports ata_regs := {|
  in8 port r := (simple_status r, r);
  in16 _ r := (nthZ (r_data r) 0, with_data (drop 1 (r_data r)) r);
  in32 _ r := (0, r);
  out8 := simple_write;
  out32 _ _ r := r;
|}.

Lemma simple_announces r : r_data r ≠ [] → announces (simple_status r) = true.
Proof. intros H. unfold simple_status. by rewrite decide_False. Qed.

Lemma simple_quiet r : r_data r = [] → busy (simple_status r) = false ∧ r_data r = [].
Proof. intros H. unfold simple_status. by rewrite decide_True. Qed.

Lemma simple_outside port v r : ¬ (0x1F0 ≤ port ≤ 0x1F7) → simple_write port v r = r.
Proof.
  intros H. unfold simple_write, register_write. repeat (rewrite (proj2 (Z.eqb_neq port _)) by lia).
  by case_decide.
Qed.

#[global, program] Instance simple_drive : AtaDrive ata_regs := {|
  sectors_of _ := simple_sector;
  identity_of _ := simple_identity;
  regs_of r := r;
  status_of := simple_status;
  prompt _ := True;
|}.
Next Obligation.
  intros p n. split; [apply length_replicate|]. apply Forall_replicate, u16_range.
Qed.
Next Obligation.
  intros p. split; [done|]. unfold simple_identity. rewrite !Forall_app, Forall_singleton.
  split; [apply Forall_replicate; lia|]. split; [lia|apply Forall_replicate; lia].
Qed.
Next Obligation.
  intros port v r Hport [_ Hq]. cbn [out8 simple_ports]. unfold simple_write.
  rewrite decide_True, (proj2 (Z.eqb_neq port _)) by (done || lia). split; [done|split; [done|]].
  apply simple_quiet. unfold register_write. by repeat case_match.
Qed.
Next Obligation. intros v r [_ Hq]. cbn [out8 simple_ports]. unfold simple_write. by rewrite decide_True. Qed.
Next Obligation.
  intros v r l [_ Hq] El. cbn [out8 simple_ports]. unfold simple_write.
  rewrite decide_True by done. change (0x1F7 =? 0x1F7) with true. cbv iota. rewrite El. split; [done|by left].
Qed.
Next Obligation. intros port r _. cbn. split; [done|split; [done|split; [done|by left]]]. Qed.
Next Obligation. done. Qed.
Next Obligation.
  intros r. cbn [in16 simple_ports]. split; [done|]. intros _. split; [done|split; [done|]].
  intros H. apply simple_announces. intros E. by rewrite E in H.
Qed.
Next Obligation. intros r. cbn. unfold simple_status. by case_decide. Qed.
Next Obligation.
  intros r _ H. cbn in *. unfold simple_status. rewrite decide_False by done. split; [done|split; [done|by right]].
Qed.
Next Obligation. intros r _ H. exists O. split; [lia|]. right. by apply simple_announces. Qed.
Next Obligation.
  intros port r Hp _ p' [->|[v ->]]; cbn [in8 out8 simple_ports snd]; [done|]. by rewrite simple_outside.
Qed.
Next Obligation. done. Qed.

Definition simple_ata : ata ata_regs :=
  mk_ata 512 1000 true true ATA_PRIMARY_IO 0xE0 true 0 (mk_regs 0xE0 0 0 0 0 []).



Lemma ata_wait_correct_witness :
  let '(r, d') := ata_wait false simple_ata in r = 0 ∧ recorded r simple_ata d'.
Proof.
  destruct (ata_wait false simple_ata) as [r d'] eqn:E. split.
  - assert (fst (ata_wait false simple_ata) = 0) as E0 by (vm_compute; reflexivity). by rewrite E in E0.
  - apply (ata_wait_correct false simple_ata r d' E).
Defined.


(** The drive is found, with 1000 sectors. *)
Lemma ata_pio_init_correct_witness :
  present (ata_pio_init simple_ata) = true ∧ block_sector_count (ata_pio_init simple_ata) = 1000.
Proof.
  assert (quiet (hardware simple_ata)) as Hq by (by apply simple_quiet).
  pose proof (ata_pio_init_correct simple_ata Hq) as H. cbv zeta in H.
  generalize dependent (ata_pio_init simple_ata). intros d H.
  destruct H as (_ & _ & _ & [(H1 & _ & H2)|(H1 & _)] & H3).
  - split; [exact H1|]. rewrite H2. vm_compute. reflexivity.
  - rewrite H3 in H1 by exact I. discriminate H1.
Defined.
End Ata.
