(* ===== verification/Gdt.v ===== *)
(** The segment descriptors and the task state segment, [memory/gdt.c] and
    [memory/gdt.asm], and the descriptors as the processor reads them. *)

From S2P Require Import Prelude.

Module Gdt.

(** ** Definitions *)

Record gdt_entry := mk_entry {
  limit_low : Z;
  base_low : Z;
  base_middle : Z;
  access : Z;
  granularity : Z;
  base_high : Z;
}.

Record gdt_ptr := mk_gdt_ptr { limit : Z; base : Z }.

(** [struct task_state_segment], its members in order. *)
Record task_state_segment := mk_tss {
  previous : Z; esp0 : Z; ss0 : Z; esp1 : Z; ss1 : Z; esp2 : Z; ss2 : Z; cr3 : Z; eip : Z;
  eflags : Z; eax : Z; ecx : Z; edx : Z; ebx : Z; esp : Z; ebp : Z; esi : Z; edi : Z;
  es : Z; cs : Z; ss : Z; ds : Z; fs : Z; gs : Z; ldt : Z; trap : Z; iomap_base : Z;
}.
Definition sizeof_tss : Z := 25 * 4 + 2 * 2.
Definition zero_tss : task_state_segment :=
  mk_tss 0 0 0 0 0 0 0 0 0 0 0 0 0 0 0 0 0 0 0 0 0 0 0 0 0 0 0.

(** The registers of the processor that [gdt_flush] loads. *)
Record segment_registers := mk_segments {
  gdtr_loaded : gdt_ptr;
  reg_cs : Z; reg_ds : Z; reg_es : Z; reg_fs : Z; reg_gs : Z; reg_ss : Z; reg_tr : Z;
}.

Record tables := mk_tables {
  gdt : list gdt_entry;
  gdtr : gdt_ptr;
  tss : task_state_segment;
  segments : segment_registers;
}.

(** Where the linker puts [gdt], [tss] and [tss_stack]. *)
Section code.
Variable gdt_address tss_address tss_stack : Z.

Definition set_entry (index base limit access granularity : Z) (t : tables) : tables :=
  let e := mk_entry (u16 (limit .& 0xffff)) (u16 (base .& 0xffff)) (u8 ((base ≫ 16) .& 0xff))
    access (u8 ((limit ≫ 16) .& 0x0f) .| (granularity .& 0xf0)) (u8 ((base ≫ 24) .& 0xff)) in
  mk_tables (<[Z.to_nat index := e]> (gdt t)) (gdtr t) (tss t) (segments t).

Definition with_tss (s : task_state_segment) (t : tables) : tables :=
  mk_tables (gdt t) (gdtr t) s (segments t).
Definition with_gdtr (g : gdt_ptr) (t : tables) : tables :=
  mk_tables (gdt t) g (tss t) (segments t).

(** What [ltr] does to the descriptor of the task state segment: it marks it busy, bit 1
    of the type. *)
Definition mark_busy (e : gdt_entry) : gdt_entry :=
  mk_entry (limit_low e) (base_low e) (base_middle e) (access e .| 2) (granularity e) (base_high e).

(** [memory/gdt.asm]: [lgdt], the data segments and the stack segment, [ltr], and
    the far jump. *)
Definition gdt_flush (t : tables) : tables :=
  mk_tables (alter mark_busy (Z.to_nat (0x28 / 8)) (gdt t)) (gdtr t) (tss t)
    (mk_segments (gdtr t) 0x08 0x10 0x10 0x10 0x10 0x10 0x28).

(** [(struct task_state_segment){0}] with [esp0], [ss0] and [iomap_base] set. *)
Definition initial_tss : task_state_segment :=
  mk_tss 0 (u32 (tss_stack + 4096)) 0x10 0 0 0 0 0 0 0 0 0 0 0 0 0 0 0 0 0 0 0 0 0 0 0 sizeof_tss.

Definition init_GDT (t : tables) : tables :=
  let t := set_entry 0 0 0 0 0 t in
  let t := set_entry 1 0 0xffffffff 0x9a 0xcf t in
  let t := set_entry 2 0 0xffffffff 0x92 0xcf t in
  let t := set_entry 3 0 0xffffffff 0xfa 0xcf t in
  let t := set_entry 4 0 0xffffffff 0xf2 0xcf t in
  let t := with_tss initial_tss t in
  let t := set_entry 5 tss_address (sizeof_tss - 1) 0x89 0x00 t in
  let t := with_gdtr (mk_gdt_ptr (u16 (6 * 8 - 1)) gdt_address) t in
  gdt_flush t.

Definition tss_set_kernel_stack (stack_top : Z) (t : tables) : tables :=
  let s := tss t in
  with_tss (mk_tss (previous s) stack_top (ss0 s) (esp1 s) (ss1 s) (esp2 s) (ss2 s) (cr3 s) (eip s)
    (eflags s) (eax s) (ecx s) (edx s) (ebx s) (esp s) (ebp s) (esi s) (edi s)
    (es s) (cs s) (ss s) (ds s) (fs s) (gs s) (ldt s) (trap s) (iomap_base s)) t.

End code.

(** ** Specification

    A descriptor as the processor reads it: eight bytes of memory, one number. *)

Definition descriptor (e : gdt_entry) : Z :=
  le_value (le_bytes 2 (limit_low e) ++ le_bytes 2 (base_low e) ++
    [base_middle e; access e; granularity e; base_high e]).

Record segment := mk_segment {
  seg_base : Z;
  seg_limit : Z;        (* the last byte offset *)
  seg_type : Z;
  seg_system : bool;    (* not a code or data segment *)
  seg_dpl : Z;
  seg_present : bool;
  seg_32bit : bool;
}.

Definition decode (d : Z) : segment :=
  let l := d mod 2 ^ 16 + d / 2 ^ 48 mod 2 ^ 4 * 2 ^ 16 in
  mk_segment (d / 2 ^ 16 mod 2 ^ 24 + d / 2 ^ 56 mod 2 ^ 8 * 2 ^ 24)
    (if Z.testbit d 55 then l * 4096 + 4095 else l)
    (d / 2 ^ 40 mod 2 ^ 4) (negb (Z.testbit d 44)) (d / 2 ^ 45 mod 2 ^ 2) (Z.testbit d 47)
    (Z.testbit d 54).

(** The descriptor a selector names in the table. *)
Definition segment_at (t : tables) (selector : Z) : option segment :=
  decode ∘ descriptor <$> gdt t !! Z.to_nat (selector / 8).

(** The ring a selector asks for. *)
Definition ring (selector : Z) : Z := selector mod 4.

(** Flat segments: all of the 4 GiB. *)
Definition flat (type dpl : Z) : segment := mk_segment 0 (2 ^ 32 - 1) type false dpl true true.
Definition CODE : Z := 0xA.
Definition DATA : Z := 0x2.
Definition BUSY_TSS32 : Z := 0xB.

(** ** Lemmas *)

(** The high half of a byte. *)
Lemma land_high_nibble g : 0 ≤ g < 2 ^ 8 → g .& 0xf0 = g / 2 ^ 4 * 2 ^ 4.
Proof.
  intros Hg.
  assert (forallb (λ g, (g .& 0xf0) =? g / 2 ^ 4 * 2 ^ 4) (range 0 256) = true) as H
    by (vm_compute; reflexivity).
  rewrite forallb_forall in H. apply Z.eqb_eq, H, list_elem_of_In, elem_of_range. lia.
Qed.

(** The descriptor as one sum. *)
Lemma descriptor_sum b l a g :
  0 ≤ b < 2 ^ 32 → 0 ≤ l < 2 ^ 32 → 0 ≤ a < 2 ^ 8 → 0 ≤ g < 2 ^ 8 →
  let e := mk_entry (u16 (l .& 0xffff)) (u16 (b .& 0xffff)) (u8 ((b ≫ 16) .& 0xff))
    a (u8 ((l ≫ 16) .& 0x0f) .| (g .& 0xf0)) (u8 ((b ≫ 24) .& 0xff)) in
  descriptor e = l mod 2 ^ 16 + b mod 2 ^ 24 * 2 ^ 16 + a * 2 ^ 40 +
    l / 2 ^ 16 mod 2 ^ 4 * 2 ^ 48 + g / 2 ^ 4 * 2 ^ 52 + b / 2 ^ 24 * 2 ^ 56.
Proof.
  intros Hb Hl Ha Hg. cbv zeta. unfold descriptor.
  cbn [limit_low base_low base_middle access granularity base_high].
  rewrite (land_mask l 0xffff 16), (land_mask b 0xffff 16), !(land_mask _ 0xff 8),
    (land_mask _ 0x0f 4) by (lia || done).
  rewrite !shiftr_div, land_high_nibble by lia.
  rewrite (u8_small (_ mod 2 ^ 4)) by dlia.
  rewrite Z.lor_comm, lor_disjoint_add by dlia.
  cbn [le_bytes app le_value]. unfold u8, u16. dlia.
Qed.

Lemma testbit_mod d n : 0 ≤ n → Z.testbit d n = negb (d / 2 ^ n mod 2 =? 0).
Proof.
  intros. rewrite Z.testbit_odd, Z.shiftr_div_pow2, Zmod_odd by lia. by destruct Z.odd.
Qed.

(** What [set_entry] writes is read back by the processor. *)
Lemma set_entry_spec i b l a g t :
  0 ≤ b < 2 ^ 32 → 0 ≤ l < 2 ^ 32 → 0 ≤ a < 2 ^ 8 → 0 ≤ g < 2 ^ 8 →
  ∃ e, gdt (set_entry i b l a g t) = <[Z.to_nat i := e]> (gdt t) ∧
    decode (descriptor e) = mk_segment b
      (if Z.testbit g 7 then l mod 2 ^ 20 * 4096 + 4095 else l mod 2 ^ 20)
      (a mod 2 ^ 4) (negb (Z.testbit a 4)) (a / 2 ^ 5 mod 2 ^ 2) (Z.testbit a 7) (Z.testbit g 6).
Proof.
  intros Hb Hl Ha Hg. eexists. split; [done|].
  pose proof (descriptor_sum b l a g Hb Hl Ha Hg) as E. cbv zeta in E. rewrite E. clear E.
  unfold decode. cbv zeta. rewrite !testbit_mod by lia.
  set (d := _ + b / 2 ^ 24 * 2 ^ 56).
  assert (d mod 2 ^ 16 = l mod 2 ^ 16) as -> by (subst d; dlia).
  assert (d / 2 ^ 48 mod 2 ^ 4 = l / 2 ^ 16 mod 2 ^ 4) as -> by (subst d; dlia).
  assert (d / 2 ^ 16 mod 2 ^ 24 = b mod 2 ^ 24) as -> by (subst d; dlia).
  assert (d / 2 ^ 56 mod 2 ^ 8 = b / 2 ^ 24) as -> by (subst d; dlia).
  assert (d / 2 ^ 40 mod 2 ^ 4 = a mod 2 ^ 4) as -> by (subst d; dlia).
  assert (d / 2 ^ 45 mod 2 ^ 2 = a / 2 ^ 5 mod 2 ^ 2) as -> by (subst d; dlia).
  assert (d / 2 ^ 44 mod 2 = a / 2 ^ 4 mod 2) as -> by (subst d; dlia).
  assert (d / 2 ^ 47 mod 2 = a / 2 ^ 7 mod 2) as -> by (subst d; dlia).
  assert (d / 2 ^ 54 mod 2 = g / 2 ^ 6 mod 2) as -> by (subst d; dlia).
  assert (d / 2 ^ 55 mod 2 = g / 2 ^ 7 mod 2) as -> by (subst d; dlia).
  assert (l mod 2 ^ 16 + l / 2 ^ 16 mod 2 ^ 4 * 2 ^ 16 = l mod 2 ^ 20) as -> by dlia.
  assert (b mod 2 ^ 24 + b / 2 ^ 24 * 2 ^ 24 = b) as -> by dlia. done.
Qed.

Lemma set_entry_others i b l a g t :
  length (gdt (set_entry i b l a g t)) = length (gdt t) ∧ tss (set_entry i b l a g t) = tss t.
Proof. split; [apply length_insert|done]. Qed.

(** Descriptor [i] after an entry was written. *)
Lemma set_entry_lookup i j b l a g t :
  0 ≤ b < 2 ^ 32 → 0 ≤ l < 2 ^ 32 → 0 ≤ a < 2 ^ 8 → 0 ≤ g < 2 ^ 8 → 0 ≤ i → 0 ≤ j < Z.of_nat (length (gdt t)) →
  decode ∘ descriptor <$> gdt (set_entry i b l a g t) !! Z.to_nat j =
  if decide (i = j) then Some (mk_segment b
      (if Z.testbit g 7 then l mod 2 ^ 20 * 4096 + 4095 else l mod 2 ^ 20)
      (a mod 2 ^ 4) (negb (Z.testbit a 4)) (a / 2 ^ 5 mod 2 ^ 2) (Z.testbit a 7) (Z.testbit g 6))
  else decode ∘ descriptor <$> gdt t !! Z.to_nat j.
Proof.
  intros Hb Hl Ha Hg Hi Hj. destruct (set_entry_spec i b l a g t Hb Hl Ha Hg) as (e & -> & E).
  case_decide as Hij.
  - subst j. rewrite list_lookup_insert_eq by lia.
    change (Some (decode (descriptor e)) = Some (mk_segment b
      (if Z.testbit g 7 then l mod 2 ^ 20 * 4096 + 4095 else l mod 2 ^ 20)
      (a mod 2 ^ 4) (negb (Z.testbit a 4)) (a / 2 ^ 5 mod 2 ^ 2) (Z.testbit a 7) (Z.testbit g 6))).
    by rewrite E.
  - rewrite list_lookup_insert_ne by lia. done.
Qed.

(** [ltr] on an entry just written. *)
Lemma mark_busy_entry i b l a g t : 0 ≤ i < Z.of_nat (length (gdt t)) →
  alter mark_busy (Z.to_nat i) (gdt (set_entry i b l a g t)) = gdt (set_entry i b l (a .| 2) g t).
Proof.
  intros Hi. unfold set_entry. cbn [gdt]. apply list_eq. intros j. rewrite list_lookup_alter.
  destruct (decide (Z.to_nat i = j)) as [Ej|Hne]; [subst j|by rewrite !list_lookup_insert_ne by done].
  by rewrite !list_lookup_insert_eq by lia.
Qed.

(** The descriptors [init_GDT] writes. *)
Lemma init_GDT_lookup ga ta ts t j :
  length (gdt t) = 6%nat → 0 ≤ ta < 2 ^ 32 → 0 ≤ j < 6 →
  decode ∘ descriptor <$> gdt (init_GDT ga ta ts t) !! Z.to_nat j = Some (
    if decide (j = 0) then mk_segment 0 0 0 true 0 false false
    else if decide (j = 1) then flat CODE 0
    else if decide (j = 2) then flat DATA 0
    else if decide (j = 3) then flat CODE 3
    else if decide (j = 4) then flat DATA 3
    else mk_segment ta 103 BUSY_TSS32 true 0 true false).
Proof.
  intros Hl Ht Hj. change (gdt (init_GDT ga ta ts t)) with
    (alter mark_busy (Z.to_nat 5) (gdt (set_entry 5 ta 103 0x89 0x00 (set_entry 4 0 0xffffffff 0xf2 0xcf (set_entry 3 0 0xffffffff 0xfa 0xcf
      (set_entry 2 0 0xffffffff 0x92 0xcf (set_entry 1 0 0xffffffff 0x9a 0xcf (set_entry 0 0 0 0 0 t)))))))).
  rewrite (mark_busy_entry 5 ta 103 0x89 0x00) by (rewrite ?(proj1 (set_entry_others _ _ _ _ _ _)); lia).
  change (0x89 .| 2) with 0x8B.
  do 6 (rewrite set_entry_lookup by (rewrite ?(proj1 (set_entry_others _ _ _ _ _ _)); lia)).
  repeat case_decide; (done || lia).
Qed.

(** ** Properties *)

(** C38. After [init_GDT] the selectors the kernel uses name what it means them to
    name: 0x08 and 0x10 flat code and data of ring 0, 0x1B and 0x23 flat code and data
    of ring 3, with the requested ring equal to the descriptor's, 0x28 the task state
    segment, exactly its 104 bytes, now busy; selector 0 names nothing present.  The segment
    registers hold these selectors, the ring-0 stack of the task state segment is the
    one reserved for it until [tss_set_kernel_stack] sets another, which changes
    nothing else, and the I/O map lies outside the segment, so ring 3 has no ports. *)
Theorem init_GDT_correct gdt_address tss_address tss_stack top (t : tables) :
  length (gdt t) = 6%nat → 0 ≤ tss_address < 2 ^ 32 → 0 ≤ tss_stack < 2 ^ 32 - 4096 →
  let t1 := init_GDT gdt_address tss_address tss_stack t in
  let t2 := tss_set_kernel_stack top t1 in
  segment_at t2 0x08 = Some (flat CODE (ring 0x08)) ∧ segment_at t2 0x10 = Some (flat DATA (ring 0x10)) ∧
  segment_at t2 0x1B = Some (flat CODE (ring 0x1B)) ∧ segment_at t2 0x23 = Some (flat DATA (ring 0x23)) ∧
  ring 0x08 = 0 ∧ ring 0x10 = 0 ∧ ring 0x1B = 3 ∧ ring 0x23 = 3 ∧
  segment_at t2 0x28 = Some (mk_segment tss_address 103 BUSY_TSS32 true 0 true false) ∧
  seg_present <$> segment_at t2 0 = Some false ∧
  segments t2 = mk_segments (mk_gdt_ptr (6 * 8 - 1) gdt_address) 0x08 0x10 0x10 0x10 0x10 0x10 0x28 ∧
  ss0 (tss t2) = 0x10 ∧ esp0 (tss t1) = tss_stack + 4096 ∧ esp0 (tss t2) = top ∧
  103 < iomap_base (tss t2).
Proof.
  intros Hl Ht Hs. cbv zeta.
  assert (∀ sel, segment_at (tss_set_kernel_stack top (init_GDT gdt_address tss_address tss_stack t)) sel
    = segment_at (init_GDT gdt_address tss_address tss_stack t) sel) as E by done.
  rewrite !E. clear E. unfold segment_at.
  change (0x08 / 8) with 1. change (0x10 / 8) with 2. change (0x1B / 8) with 3.
  change (0x23 / 8) with 4. change (0x28 / 8) with 5. change (0 / 8) with 0.
  rewrite !init_GDT_lookup by (done || lia).
  repeat (split; [done|]). split; [apply u32_small; lia|done].
Qed.

Lemma init_GDT_correct_witness :
  let t := mk_tables (replicate 6 (mk_entry 0 0 0 0 0 0)) (mk_gdt_ptr 0 0) zero_tss
    (mk_segments (mk_gdt_ptr 0 0) 0 0 0 0 0 0 0) in
  segment_at (tss_set_kernel_stack 0x200000 (init_GDT 0x120000 0x121000 0x122000 t)) 0x1B =
    Some (flat CODE 3).
Proof.
  apply (init_GDT_correct 0x120000 0x121000 0x122000 0x200000
    (mk_tables (replicate 6 (mk_entry 0 0 0 0 0 0)) (mk_gdt_ptr 0 0) zero_tss
      (mk_segments (mk_gdt_ptr 0 0) 0 0 0 0 0 0 0))); [done|lia|lia].
Defined.
End Gdt.
