(* ===== verification/Cpu.v ===== *)
(** Interrupt entry and return, [cpu/idt.asm]: the frame that the processor and the
    stubs build, and the path by which a frame is resumed, with what becomes of the general
    registers and of the data segment registers. *)

From S2P Require Import Prelude Memory Interfaces Paging Process Gdt.

Module Cpu.
Import Paging Process.

(** ** Definitions *)

(** The selectors in the data segment registers. *)
Record data_segments := mk_data { ds : Z; es : Z; fs : Z; gs : Z }.

(** The registers of the processor. *)
Record cpu := mk_cpu {
  eax : Z; ebx : Z; ecx : Z; edx : Z; esi : Z; edi : Z; ebp : Z; esp : Z;
  eip : Z; eflags : Z; cs : Z; ss : Z; data : data_segments;
}.

Definition with_esp (v : Z) (c : cpu) : cpu :=
  mk_cpu (eax c) (ebx c) (ecx c) (edx c) (esi c) (edi c) (ebp c) v (eip c) (eflags c) (cs c) (ss c)
    (data c).
Definition with_ss (v : Z) (c : cpu) : cpu :=
  mk_cpu (eax c) (ebx c) (ecx c) (edx c) (esi c) (edi c) (ebp c) (esp c) (eip c) (eflags c) (cs c) v
    (data c).
Definition with_code (i f s : Z) (c : cpu) : cpu :=
  mk_cpu (eax c) (ebx c) (ecx c) (edx c) (esi c) (edi c) (ebp c) (esp c) i f s (ss c) (data c).

(** Code of another ring than the kernel's is interrupted. *)
Definition from_user (c : cpu) : bool := negb ((cs c .& 3) =? 0).

Definition push (v : Z) (s : cpu * mem) : cpu * mem :=
  let '(c, m) := s in
  let a := esp c -u 4 in
  (with_esp a c, store32 m a v).

(** What the processor does when it takes an interrupt: it changes to the kernel
    stack of the task state segment if the interrupted code is not the kernel's, and
    pushes where that code stands, and an error code with some exceptions; the gate
    closes interrupts, bit 9 of the flags, and gives the handler. *)
Definition take_interrupt (esp0 handler : Z) (error : option Z) (s : cpu * mem) : cpu * mem :=
  let c := fst s in
  let s := if from_user c then push (esp c) (push (ss c) (with_ss 0x10 (with_esp esp0 c), snd s)) else s in
  let s := push (eflags c) s in
  let s := push (cs c) s in
  let s := push (eip c) s in
  let '(c', m) := match error with Some e => push e s | None => s end in
  (with_code handler (Z.land (eflags c) (Z.lnot 0x200)) 0x08 c', m).

(** The exceptions with an error code, the stubs made by [ISR_ERROR]. *)
Definition has_error_code (vector : Z) : bool :=
  (vector =? 8) || (vector =? 10) || (vector =? 11) || (vector =? 12) || (vector =? 13) ||
  (vector =? 14) || (vector =? 17).

(** [isr_stub_n]. *)
Definition isr_stub (vector : Z) (s : cpu * mem) : cpu * mem :=
  let s := if has_error_code vector then s else push 0 s in
  push vector s.

Definition pusha (s : cpu * mem) : cpu * mem :=
  let c := fst s in
  push (edi c) (push (esi c) (push (ebp c) (push (esp c) (push (ebx c) (push (edx c)
    (push (ecx c) (push (eax c) s))))))).

(** [isr_common] up to the call of [isr_common_handler]: the argument is the stack
    pointer after [pusha]. *)
Definition isr_enter (s : cpu * mem) : Z * (cpu * mem) :=
  let s := pusha s in
  (esp (fst s), push (esp (fst s)) s).

(** In the table of [init_GDT], the segments open to ring 3 are those of the selectors
    0x18 and 0x20, whatever their requested ring; every other selector in a data segment
    register is replaced by 0 when the processor leaves for ring 3. *)
Definition leave_ring0 (selector : Z) : Z :=
  if (selector / 4 =? 0x18 / 4) || (selector / 4 =? 0x20 / 4) then selector else 0.
Definition clear_privileged (d : data_segments) : data_segments :=
  mk_data (leave_ring0 (ds d)) (leave_ring0 (es d)) (leave_ring0 (fs d)) (leave_ring0 (gs d)).
Definition with_data (d : data_segments) (c : cpu) : cpu :=
  mk_cpu (eax c) (ebx c) (ecx c) (edx c) (esi c) (edi c) (ebp c) (esp c) (eip c) (eflags c) (cs c) (ss c) d.

(** [iretd] from ring 0: to another ring with a stack pointer and segment, and without
    the data segments of ring 0; to the same with all of its segments. *)
Definition iretd (s : cpu * mem) : cpu :=
  let '(c, m) := s in
  let c' := with_code (load32 m (esp c)) (load32 m (esp c + 8)) (u16 (load32 m (esp c + 4))) c in
  if from_user c' then
    with_data (clear_privileged (data c))
      (with_ss (u16 (load32 m (esp c + 16))) (with_esp (load32 m (esp c + 12)) c'))
  else with_esp (esp c +u 12) c'.

(** The registers that [popa] at [frame] and the load of [edi] behind it leave, the
    stack pointer past the error code; the data segments [g] stay. *)
Definition popa (frame : Z) (g : data_segments) (m : mem) : cpu :=
  mk_cpu (load32 m (frame + c_eax)) (load32 m (frame + c_ebx)) (load32 m (frame + c_ecx))
    (load32 m (frame + c_edx)) (load32 m (frame + c_esi)) (load32 m (frame + 32 - 20))
    (load32 m (frame + c_ebp)) (frame +u 32 +u 8) 0 0 0x08 0x10 g.

Section code.
Context {S : Type}.

(** [isr_common] from the return of [isr_common_handler], which gave [frame], on;
    [directory] is [scheduler_next_directory], [g] what the data segment registers hold:
    neither entry nor return saves or loads them. *)
Definition isr_return (frame directory : Z) (g : data_segments) (v : vm S) : cpu * vm S :=
  let v := if directory =? 0 then v else load_page_directory directory v in
  let m := ram v in
  let c := popa frame g m in
  if negb ((load8 m (esp c + 4) .& 3) =? 0) then (iretd (c, m), v)
  else
    let a := load32 m (esp c) in
    let b := load32 m (esp c + 4) in
    let f := load32 m (esp c + 8) in
    let d := edi c +u 8 in
    let m := store32 m d a in
    let m := store32 m (d + 4) b in
    let m := store32 m (d + 8) f in
    let c := mk_cpu a b f (edx c) (esi c) d (ebp c) d (eip c) (eflags c) (cs c) (ss c) (data c) in
    (iretd (c, m), with_ram m v).

End code.

(** An interrupt from the running code [c] to the call of the handler: the frame,
    and the state of processor and memory. *)
Definition interrupt (esp0 handler vector error : Z) (c : cpu) (m : mem) : Z * (cpu * mem) :=
  isr_enter (isr_stub vector
    (take_interrupt esp0 handler (if has_error_code vector then Some error else None) (c, m))).

(** ** Specification *)

Record cpu_ok (c : cpu) : Prop := {
  ok_eax : 0 ≤ eax c < 2 ^ 32; ok_ebx : 0 ≤ ebx c < 2 ^ 32; ok_ecx : 0 ≤ ecx c < 2 ^ 32;
  ok_edx : 0 ≤ edx c < 2 ^ 32; ok_esi : 0 ≤ esi c < 2 ^ 32; ok_edi : 0 ≤ edi c < 2 ^ 32;
  ok_ebp : 0 ≤ ebp c < 2 ^ 32; ok_esp : 0 ≤ esp c < 2 ^ 32; ok_eip : 0 ≤ eip c < 2 ^ 32;
  ok_eflags : 0 ≤ eflags c < 2 ^ 32; ok_cs : 0 ≤ cs c < 2 ^ 16; ok_ss : 0 ≤ ss c < 2 ^ 16;
}.

(** The frame is built below [stack_top]. *)
Definition stack_top (esp0 : Z) (c : cpu) : Z := if from_user c then esp0 else esp c.
Definition frame_length (c : cpu) : Z := if from_user c then 15 else 13.
Definition frame_address (esp0 : Z) (c : cpu) : Z := stack_top esp0 c - 4 * frame_length c.

(** The words of the frame. *)
Definition frame_words (esp0 vector error : Z) (c : cpu) : list Z :=
  [edi c; esi c; ebp c; frame_address esp0 c + 32; ebx c; edx c; ecx c; eax c; vector;
   if has_error_code vector then error else 0; eip c; cs c; eflags c] ++
  (if from_user c then [esp c; ss c] else []).

(** The registers with which the code interrupted at [c] goes on, when its frame
    holds [a] for [eax], and the data segments are [g] at the return. *)
Definition resumed (esp0 a : Z) (g : data_segments) (c : cpu) : cpu :=
  if from_user c then
    mk_cpu a (ebx c) (ecx c) (edx c) (esi c) (frame_address esp0 c + 32) (ebp c) (esp c)
      (eip c) (eflags c) (cs c) (ss c) (clear_privileged g)
  else
    mk_cpu (eip c) (cs c) (eflags c) (edx c) (esi c) (esp c - 12) (ebp c) (esp c)
      (eip c) (eflags c) (cs c) (ss c) g.

(** A selector that ring 0 can write through: that of the flat data segment of ring 0 or
    of ring 3. *)
Definition writable_selector (s : Z) : bool := (s / 4 =? 0x10 / 4) || (s / 4 =? 0x20 / 4).

(** Compiled code reaches its variables through [ds] and [es]. *)
Definition usable (g : data_segments) : bool := writable_selector (ds g) && writable_selector (es g).

(** ** Lemmas *)

(** A push below the top of a stack. *)
Lemma push_spec v c m :
  4 ≤ esp c < 2 ^ 32 → push v (c, m) = (with_esp (esp c - 4) c, store32 m (esp c - 4) v).
Proof. intros. unfold push. by rewrite u32_small by lia. Qed.

(** Memory after pushing the words of [l], the last first. *)
Fixpoint pushed (m : mem) (top : Z) (l : list Z) : mem :=
  match l with
  | [] => m
  | v :: l => store32 (pushed m top l) (top - 4 * lenZ (v :: l)) v
  end.

Lemma lenZ_cons v l : lenZ (v :: l) = 1 + lenZ l.
Proof. unfold lenZ. cbn. lia. Qed.

Lemma pushed_spec m top l :
  Forall (λ v, 0 ≤ v < 2 ^ 32) l →
  same_outside (top - 4 * lenZ l) (4 * lenZ l) m (pushed m top l) ∧
  (mem_bytes m → mem_bytes (pushed m top l)) ∧
  ∀ j, 0 ≤ j < lenZ l → load32 (pushed m top l) (top - 4 * lenZ l + 4 * j) = nthZ l j.
Proof.
  induction 1 as [|v l Hv _ (IH1 & IH2 & IH3)]; cbn [pushed].
  - split; [done|split; [done|]]. unfold lenZ. cbn. lia.
  - rewrite lenZ_cons. pose proof (lenZ_nonneg l). split; [|split].
    + intros b Hb. rewrite load8_store32_out by lia. apply IH1. lia.
    + intros Hm. by apply store32_mem_bytes, IH2.
    + intros j Hj. destruct (decide (j = 0)) as [->|].
      * rewrite Z.mul_0_r, Z.add_0_r, load32_store32_eq. by apply u32_small.
      * rewrite load32_store32_ne by lia. replace j with (j - 1 + 1) at 2 by lia.
        rewrite nthZ_cons_S by lia. rewrite <- IH3 by lia. f_equal. lia.
Qed.

(** One more word. *)
Lemma push_pushed v c m top l :
  esp c = top - 4 * lenZ l → 4 * lenZ l + 4 ≤ top < 2 ^ 32 →
  push v (c, pushed m top l) = (with_esp (top - 4 * lenZ (v :: l)) c, pushed m top (v :: l)).
Proof.
  intros E H. pose proof (lenZ_nonneg l). rewrite push_spec by lia. cbn [pushed]. rewrite lenZ_cons, E.
  by replace (top - 4 * lenZ l - 4) with (top - 4 * (1 + lenZ l)) by lia.
Qed.

(** Runs a sequence of pushes below [t]. *)
Ltac push_words m t :=
  repeat (rewrite (push_pushed _ _ m t) by
      first [reflexivity | assumption | cbn [esp with_esp with_ss with_code]; unfold lenZ; cbn [length]; lia];
    cbn [fst snd eax ebx ecx edx esi edi ebp esp eip eflags cs ss data with_esp with_ss with_code]).

(** The words the processor, then the stub, then [pusha] push. *)
Definition processor_words (error : option Z) (c : cpu) : list Z :=
  from_option (λ e, [e]) [] error ++ [eip c; cs c; eflags c] ++ (if from_user c then [esp c; ss c] else []).

Lemma take_interrupt_spec esp0 handler error c m :
  64 ≤ stack_top esp0 c < 2 ^ 32 →
  let l := processor_words error c in
  ∃ c', take_interrupt esp0 handler error (c, m) = (c', pushed m (stack_top esp0 c) l) ∧
    esp c' = stack_top esp0 c - 4 * lenZ l ∧
    eax c' = eax c ∧ ebx c' = ebx c ∧ ecx c' = ecx c ∧ edx c' = edx c ∧ esi c' = esi c ∧
    edi c' = edi c ∧ ebp c' = ebp c ∧ data c' = data c.
Proof.
  intros Ht. cbv zeta. unfold take_interrupt, processor_words, stack_top in *. cbn [fst snd].
  destruct (from_user c) eqn:Eu.
  - change (with_ss 16 (with_esp esp0 c), m) with (with_ss 16 (with_esp esp0 c), pushed m esp0 []).
    push_words m esp0. destruct error; cbn [from_option app]; push_words m esp0; by eexists.
  - change (c, m) with (c, pushed m (esp c) []).
    push_words m (esp c). destruct error; cbn [from_option app]; push_words m (esp c); by eexists.
Qed.

Lemma with_esp_twice a b c : with_esp a (with_esp b c) = with_esp a c.
Proof. done. Qed.

Lemma pusha_spec c m t l :
  esp c = t - 4 * lenZ l → 4 * lenZ l + 32 ≤ t < 2 ^ 32 →
  pusha (c, pushed m t l) = (with_esp (t - 4 * (8 + lenZ l)) c,
    pushed m t ([edi c; esi c; ebp c; esp c; ebx c; edx c; ecx c; eax c] ++ l)).
Proof.
  intros E Ht. pose proof (lenZ_nonneg l). unfold pusha. cbn [fst app].
  repeat rewrite (push_pushed _ _ m t) by (cbn [esp with_esp]; rewrite ?lenZ_cons; lia).
  rewrite !lenZ_cons, !with_esp_twice. by replace (8 + lenZ l) with
    (1 + (1 + (1 + (1 + (1 + (1 + (1 + (1 + lenZ l)))))))) by lia.
Qed.

(** The frame that entry builds. *)
Lemma interrupt_spec esp0 handler vector error c m :
  64 ≤ stack_top esp0 c < 2 ^ 32 →
  let l := frame_words esp0 vector error c in
  let frame := frame_address esp0 c in
  ∃ c', interrupt esp0 handler vector error c m =
    (frame, (c', store32 (pushed m (stack_top esp0 c) l) (frame - 4) frame)) ∧
    lenZ l = frame_length c ∧ data c' = data c.
Proof.
  intros Ht. cbv zeta.
  assert (lenZ (frame_words esp0 vector error c) = frame_length c) as Hlen.
  { unfold frame_words, frame_length. by destruct (from_user c). }
  unfold interrupt.
  destruct (take_interrupt_spec esp0 handler (if has_error_code vector then Some error else None) c m Ht)
    as (c1 & -> & E1 & Eax & Ebx & Ecx & Edx & Esi & Edi & Ebp & Edata).
  set (T := stack_top esp0 c) in *. set (l1 := processor_words _ c) in *.
  set (l2 := vector :: (if has_error_code vector then error else 0) :: [eip c; cs c; eflags c] ++
    (if from_user c then [esp c; ss c] else [])).
  assert (lenZ l2 = frame_length c - 8) as E2.
  { subst l2. unfold frame_length. by destruct (from_user c). }
  assert (frame_length c = 15 ∨ frame_length c = 13) as Hfl.
  { unfold frame_length. destruct (from_user c); auto. }
  assert (isr_stub vector (c1, pushed m T l1) = (with_esp (T - 4 * lenZ l2) c1, pushed m T l2)) as ->.
  { unfold isr_stub. subst l1 l2. unfold processor_words in *. cbv zeta.
    destruct (has_error_code vector), (from_user c); cbn [from_option app] in *; push_words m T; done. }
  unfold isr_enter. rewrite pusha_spec by (cbn [esp with_esp]; lia).
  cbn [fst]. rewrite push_spec by (cbn [esp with_esp]; lia).
  cbn [esp with_esp eax ebx ecx edx esi edi ebp]. rewrite Eax, Ebx, Ecx, Edx, Esi, Edi, Ebp.
  assert (T - 4 * (8 + lenZ l2) = frame_address esp0 c) as Ef.
  { unfold frame_address. fold T. lia. }
  assert (T - 4 * lenZ l2 = frame_address esp0 c + 32) as Ef' by lia.
  rewrite Ef, Ef'. eexists. split; [done|split; [exact Hlen|exact Edata]].
Qed.

Lemma land_3 x : x .& 3 = x mod 2 ^ 2.
Proof. by apply (land_mask x 3 2). Qed.

(** The ring in the low byte of the code segment's word. *)
Lemma load8_ring m a : mem_bytes m → load8 m a .& 3 = load32 m a .& 3.
Proof.
  intros Hm. rewrite !land_3. unfold load32. cbn [le_value].
  pose proof (Hm a). unfold is_byte in *. dlia.
Qed.

(** The two rules on selectors say what the table of [init_GDT] says. *)
Lemma selectors_spec ga ta ts t s :
  length (Gdt.gdt t) = 6%nat → 0 ≤ ta < 2 ^ 32 → 0 ≤ s < 48 → Z.testbit s 2 = false →
  let segment := Gdt.segment_at (Gdt.init_GDT ga ta ts t) s in
  leave_ring0 s = (if bool_decide (Gdt.seg_dpl <$> segment = Some 3) then s else 0) ∧
  (writable_selector s = true ↔ ∃ dpl, segment = Some (Gdt.flat Gdt.DATA dpl)).
Proof.
  intros Hl Ht Hs Hti. cbv zeta. unfold Gdt.segment_at.
  assert (0 ≤ s / 8 < 6) as Hi by dlia. rewrite Gdt.init_GDT_lookup by done.
  assert (s / 4 = 2 * (s / 8)) as E4.
  { rewrite Gdt.testbit_mod in Hti by lia. apply negb_false_iff, Z.eqb_eq in Hti. dlia. }
  unfold leave_ring0, writable_selector. rewrite E4.
  assert (s / 8 = 0 ∨ s / 8 = 1 ∨ s / 8 = 2 ∨ s / 8 = 3 ∨ s / 8 = 4 ∨ s / 8 = 5) as Hc by lia.
  destruct_or! Hc; rewrite Hc; (split; [done|]).
  all: split; [intros Hw; try done; by eexists|intros [dpl Hd]; try done; by injection Hd].
Qed.

Section return_path.
Context {S : Type}.
Implicit Types (v : vm S).

(** Resuming a frame of code outside the kernel. *)
Lemma isr_return_user f d g v :
  mem_bytes (ram v) → 0 ≤ f < 2 ^ 32 - 64 → negb ((load32 (ram v) (f + 44) .& 3) =? 0) = true →
  load32 (ram v) (f + 44) < 2 ^ 16 → load32 (ram v) (f + 56) < 2 ^ 16 →
  let w j := load32 (ram v) (f + 4 * j) in
  isr_return f d g v = (mk_cpu (w 7) (w 4) (w 6) (w 5) (w 1) (w 3) (w 2) (w 13) (w 10) (w 12) (w 11) (w 14)
      (clear_privileged g),
    if d =? 0 then v else load_page_directory d v).
Proof.
  intros Hm Hf Hu Hcs Hss. cbv zeta. unfold isr_return.
  set (v' := if d =? 0 then v else _). assert (ram v' = ram v) as E by (subst v'; by case_match).
  pose proof (load32_range _ (f + 44) Hm). pose proof (load32_range _ (f + 56) Hm).
  unfold popa. cbn [esp eip eflags edx esi ebp cs ss edi data]. rewrite E, !(u32_small (f + 32)), !(u32_small (f + 32 + 8)) by lia.
  replace (f + 32 + 8 + 4) with (f + 44) by lia. rewrite load8_ring, Hu by done.
  unfold iretd. cbn [esp]. unfold from_user. cbn [cs with_code].
  replace (f + 32 + 8 + 4) with (f + 44) by lia. rewrite u16_small, Hu by lia.
  unfold with_data, with_ss, with_esp, with_code. cbn [eax ebx ecx edx esi edi ebp esp eip eflags cs ss data].
  replace (f + 32 + 8 + 16) with (f + 56) by lia. rewrite u16_small by lia.
  unfold c_eax, c_ebx, c_ecx, c_edx, c_esi, c_ebp. f_equal; f_equal; try done; try lia; f_equal; lia.
Qed.

(** Resuming a frame of the kernel: where it stood is written back to its stack. *)
Lemma isr_return_kernel f d g v :
  mem_bytes (ram v) → 0 ≤ f < 2 ^ 32 - 64 → negb ((load32 (ram v) (f + 44) .& 3) =? 0) = false →
  load32 (ram v) (f + 44) < 2 ^ 16 → load32 (ram v) (f + 12) < 2 ^ 32 - 20 →
  let w j := load32 (ram v) (f + 4 * j) in
  ∃ m', isr_return f d g v = (mk_cpu (w 10) (w 11) (w 12) (w 5) (w 1) (w 3 + 8) (w 2) (w 3 + 20)
      (w 10) (w 12) (w 11) 0x10 g, with_ram m' (if d =? 0 then v else load_page_directory d v)) ∧
    mem_bytes m' ∧ same_outside (w 3 + 8) 12 (ram v) m' ∧
    load32 m' (w 3 + 8) = w 10 ∧ load32 m' (w 3 + 12) = w 11 ∧ load32 m' (w 3 + 16) = w 12.
Proof.
  intros Hm Hf Hu Hcs Hsp. cbv zeta. unfold isr_return.
  set (v' := if d =? 0 then v else _). assert (ram v' = ram v) as E by (subst v'; by case_match).
  pose proof (load32_range _ (f + 44) Hm). pose proof (load32_range _ (f + 12) Hm).
  unfold popa. cbn [esp eip eflags edx esi ebp cs ss edi data]. rewrite E, !(u32_small (f + 32)), (u32_small (f + 32 + 8)) by lia.
  replace (f + 32 + 8 + 4) with (f + 44) by lia. rewrite load8_ring, Hu by done.
  replace (f + 32 + 8 + 8) with (f + 48) by lia. replace (f + 32 + 8) with (f + 40) by lia.
  replace (f + 32 - 20) with (f + 12) by lia.
  change (4 * 3) with 12. change (4 * 10) with 40. change (4 * 11) with 44. change (4 * 12) with 48.
  change (4 * 5) with 20. change (4 * 1) with 4. change (4 * 2) with 8.
  set (w3 := load32 (ram v) (f + 12)) in *. rewrite (u32_small (w3 + 8)) by lia.
  pose proof (load32_range _ (f + 40) Hm) as Ha. pose proof (load32_range _ (f + 48) Hm) as Hc.
  set (a := load32 (ram v) (f + 40)) in *. set (b := load32 (ram v) (f + 44)) in *.
  set (w12 := load32 (ram v) (f + 48)) in *.
  set (m' := store32 _ (w3 + 8 + 8) w12).
  assert (load32 m' (w3 + 8) = a) as E1.
  { subst m'. rewrite !load32_store32_ne, load32_store32_eq by lia. by apply u32_small. }
  assert (load32 m' (w3 + 8 + 4) = b) as E2.
  { subst m'. rewrite load32_store32_ne, load32_store32_eq by lia. apply u32_small. lia. }
  assert (load32 m' (w3 + 8 + 8) = w12) as E3.
  { subst m'. rewrite load32_store32_eq. by apply u32_small. }
  exists m'. split; [|split; [|split; [|split; [|split]]]].
  - f_equal. unfold iretd. cbn [esp]. rewrite E1, E2, E3. unfold from_user. cbn [cs with_code].
    rewrite u16_small, Hu by lia. unfold with_esp, with_code.
    cbn [eax ebx ecx edx esi edi ebp esp eip eflags cs ss data]. rewrite u32_small by lia.
    unfold c_edx, c_esi, c_ebp. f_equal; try done; try lia; f_equal; lia.
  - subst m'. by repeat apply store32_mem_bytes.
  - intros x Hx. subst m'. by rewrite !load8_store32_out by lia.
  - exact E1.
  - rewrite <- E2. f_equal. lia.
  - rewrite <- E3. f_equal. lia.
Qed.

End return_path.

(** The memory after entry. *)
Lemma entry_memory esp0 vector error c m :
  cpu_ok c → 0 ≤ vector < 2 ^ 32 → 0 ≤ error < 2 ^ 32 → mem_bytes m → 64 ≤ stack_top esp0 c < 2 ^ 32 →
  let frame := frame_address esp0 c in
  let l := frame_words esp0 vector error c in
  let m1 := store32 (pushed m (stack_top esp0 c) l) (frame - 4) frame in
  mem_bytes m1 ∧ same_outside (frame - 4) (4 * frame_length c + 4) m m1 ∧
  ∀ j, 0 ≤ j < frame_length c → load32 m1 (frame + 4 * j) = nthZ l j.
Proof.
  intros Hc Hv He Hm Ht. cbv zeta. set (frame := frame_address esp0 c). set (l := frame_words _ _ _ _).
  assert (lenZ l = frame_length c) as Hlen.
  { subst l. unfold frame_words, frame_length. by destruct (from_user c). }
  assert (0 ≤ frame + 32 < 2 ^ 32) as Hframe.
  { subst frame. unfold frame_address, frame_length. destruct (from_user c); lia. }
  assert (Forall (λ v, 0 ≤ v < 2 ^ 32) l) as Hw.
  { subst l. unfold frame_words. fold frame. destruct Hc.
    rewrite Forall_app. split; [|destruct (from_user c)]; repeat constructor; try lia; destruct (has_error_code vector); lia. }
  destruct (pushed_spec m (stack_top esp0 c) l Hw) as (H1 & H2 & H3). rewrite Hlen in *.
  change (stack_top esp0 c - 4 * frame_length c) with frame in *.
  assert (0 ≤ frame_length c) by (unfold frame_length; destruct (from_user c); lia).
  split; [auto with levos|split].
  - intros b Hb. rewrite load8_store32_out by lia. apply H1. lia.
  - intros j Hj. rewrite load32_store32_ne by lia. by apply H3.
Qed.


(** ** Properties *)

(** C8. Entry and return: an interrupt leaves its frame on the kernel stack, 15 words
    for user code and 13 for the kernel's own, and touches no memory but the words of
    the frame and the one below, and no data segment register.  Resuming it, in place or
    from a copy elsewhere and however much later, goes on with the interrupted code where
    it stood, with its stack, flags, [ebp], [esi] and [edx], and for user code with [ebx],
    [ecx] and the [eax] of the frame.  What is not restored: [edi] always, and [eax],
    [ebx] and [ecx] of kernel code, which the return path uses for itself; and the data
    segment registers, which are those [g] of the code that ran before the return, and
    for user code without the selectors of ring 0, which the processor replaces by 0. *)
Theorem interrupt_return_correct {S} esp0 handler vector error (c : cpu) (m : mem) f d g (v : vm S) :
  cpu_ok c → 0 ≤ vector < 2 ^ 32 → 0 ≤ error < 2 ^ 32 → mem_bytes m →
  64 ≤ stack_top esp0 c < 2 ^ 32 - 64 → (from_user c = false → ss c = 0x10) →
  let '(frame, (c1, m1)) := interrupt esp0 handler vector error c m in
  frame = stack_top esp0 c - 4 * frame_length c ∧ data c1 = data c ∧
  same_outside (frame - 4) (4 * frame_length c + 4) m m1 ∧
  load32 m1 (frame + c_vector) = vector ∧
  (mem_bytes (ram v) → 0 ≤ f < 2 ^ 32 - 64 →
   (∀ j, 0 ≤ j < frame_length c → j ≠ 7 → load32 (ram v) (f + 4 * j) = load32 m1 (frame + 4 * j)) →
   let '(c', v') := isr_return f d g v in
   c' = resumed esp0 (load32 (ram v) (f + c_eax)) g c ∧
   cr3 v' = (if d =? 0 then cr3 v else d) ∧ frames v' = frames v ∧
   if from_user c then ram v' = ram v
   else same_outside (esp c - 12) 12 (ram v) (ram v') ∧ load32 (ram v') (esp c - 12) = eip c ∧
     load32 (ram v') (esp c - 8) = cs c ∧ load32 (ram v') (esp c - 4) = eflags c).
Proof.
  intros Hc Hv He Hm Ht Hss.
  destruct (interrupt_spec esp0 handler vector error c m ltac:(lia)) as (c1 & -> & Hlen & Hdata).
  destruct (entry_memory esp0 vector error c m Hc Hv He Hm ltac:(lia)) as (Hb1 & Hs1 & Hw1).
  set (m1 := store32 _ _ _) in *. set (frame := frame_address esp0 c) in *.
  assert (8 < frame_length c) as Hfl by (unfold frame_length; destruct (from_user c); lia).
  split; [done|]. split; [done|]. split; [done|]. split.
  { change (frame + c_vector) with (frame + 4 * 8). rewrite Hw1 by lia. done. }
  intros Hb Hf Hj.
  assert (∀ j, 0 ≤ j < frame_length c → j ≠ 7 →
    load32 (ram v) (f + 4 * j) = nthZ (frame_words esp0 vector error c) j) as E.
  { intros j ? ?. by rewrite Hj, Hw1. }
  clear Hj Hw1. unfold frame_length, frame_words, resumed, from_user, stack_top in *.
  destruct Hc. fold (from_user c) in *. destruct (from_user c) eqn:Eu; unfold from_user in Eu.
  - assert (load32 (ram v) (f + 44) = cs c) as E11 by (apply (E 11); lia).
    assert (load32 (ram v) (f + 56) = ss c) as E14 by (apply (E 14); lia).
    rewrite isr_return_user by (rewrite ?E11, ?E14; done || lia). rewrite (E 4), (E 6), (E 5), (E 1), (E 3), (E 2), (E 13),
      (E 10), (E 12), (E 11), (E 14) by lia.
    split; [done|]. by destruct (d =? 0).
  - assert (load32 (ram v) (f + 44) = cs c) as E11 by (apply (E 11); lia).
    assert (load32 (ram v) (f + 12) = frame + 32) as E3 by (apply (E 3); lia).
    destruct (isr_return_kernel f d g v Hb Hf) as (m' & -> & Hb' & Hs' & H10 & H11 & H12);
      [by rewrite E11|by rewrite E11; lia| |].
    { rewrite E3. subst frame. unfold frame_address, frame_length, stack_top, from_user. rewrite Eu. lia. }
    rewrite (E 3) in * by lia.
    assert (nthZ (frame_words esp0 vector error c) 3 = esp c - 20) as E3'.
    { change (frame_address esp0 c + 32 = esp c - 20).
      unfold frame_address, frame_length, stack_top, from_user. rewrite Eu. lia. }
    unfold frame_words, from_user in *. rewrite Eu in *. rewrite E3' in *.
    rewrite (E 10), (E 11), (E 12), (E 5), (E 1), (E 2) in * by lia.
    replace (esp c - 20 + 8) with (esp c - 12) in * by lia.
    replace (esp c - 20 + 12) with (esp c - 8) in * by lia.
    replace (esp c - 20 + 16) with (esp c - 4) in * by lia.
    replace (esp c - 20 + 20) with (esp c) in * by lia.
    rewrite (Hss eq_refl). split; [done|]. destruct (d =? 0); done.
Qed.


(** A system call of a user program: [edi], which was 6, comes back as a kernel address,
    and [es], which still held the selector of the kernel, as 0. *)
Lemma interrupt_return_correct_witness :
  let c := mk_cpu 1 2 3 4 5 6 7 0x7FFFF0 0x400010 0x202 0x1B 0x23 (mk_data 0x23 0x10 0 0) in
  let '(frame, (c1, m1)) := interrupt 0x134000 0x101000 0x80 0 c ∅ in
  fst (isr_return frame 0 (data c1) (mk_vm m1 tt 0 true [])) =
    mk_cpu 1 2 3 4 5 0x133FE4 7 0x7FFFF0 0x400010 0x202 0x1B 0x23 (mk_data 0x23 0 0 0).
Proof.
  intros c. assert (cpu_ok c) as Hc by (split; cbn; lia).
  destruct (interrupt_spec 0x134000 0x101000 0x80 0 c ∅) as (c1 & E & _ & Ed); [by split; vm_compute|].
  destruct (entry_memory 0x134000 0x80 0 c ∅ Hc ltac:(lia) ltac:(lia) empty_mem_bytes ltac:(by split; vm_compute))
    as (Hb & _ & Hw).
  set (m1 := store32 _ _ _) in *.
  pose proof (interrupt_return_correct 0x134000 0x101000 0x80 0 c ∅ (frame_address 0x134000 c) 0 (data c)
    (mk_vm m1 tt 0 true []) Hc ltac:(lia) ltac:(lia) empty_mem_bytes ltac:(by split; vm_compute) ltac:(done)) as H.
  rewrite E in *. destruct H as (_ & _ & _ & _ & H). rewrite Ed.
  specialize (H Hb ltac:(by split; vm_compute) ltac:(done)).
  destruct (isr_return _ _ _ _) as [c' v']. destruct H as (-> & _).
  pose proof (Hw 7 ltac:(by split; vm_compute)) as Hw7. unfold c_eax. cbn [ram].
  change (frame_address 0x134000 c + 28) with (frame_address 0x134000 c + 4 * 7). rewrite Hw7. done.
Defined.
End Cpu.
