(* ===== verification/State.v ===== *)
(** The state of the running kernel: the static variables of its components, put
    together, and the hardware behind the ports. *)

From stdpp Require Import strings.
From S2P Require Import Prelude Memory Interfaces Paging Process Scheduler Terminal Keyboard Cpu.

Module State.
Import Paging Process Scheduler Terminal Keyboard.

(** The characters of a string literal of the source. *)
Definition text (s : string) : list Z :=
  (λ c, Z.of_N (Ascii.N_of_ascii c)) <$> String.list_ascii_of_string s.

(** [ticks] is the variable of [cpu/timer.c].  Of the processor: [interrupt_flag] is what
    [cli] and [sti] change in its flags, [selectors] its data segment registers. *)
Record kernel (S P : Type) := mk_kernel {
  scheduling : sched S;
  ticks : Z;
  console : terminal;
  keys : keyboard;
  ports : P;
  interrupt_flag : bool;
  selectors : Cpu.data_segments;
}.
Arguments mk_kernel {S P}.
Arguments scheduling {S P}.
Arguments ticks {S P}.
Arguments console {S P}.
Arguments keys {S P}.
Arguments ports {S P}.
Arguments interrupt_flag {S P}.
Arguments selectors {S P}.

Section updates.
Context {S P : Type}.
Implicit Types (k : kernel S P).

Definition with_scheduling (s : sched S) k : kernel S P :=
  mk_kernel s (ticks k) (console k) (keys k) (ports k) (interrupt_flag k) (selectors k).
Definition with_ticks (n : Z) k : kernel S P :=
  mk_kernel (scheduling k) n (console k) (keys k) (ports k) (interrupt_flag k) (selectors k).
Definition with_console (t : terminal) k : kernel S P :=
  mk_kernel (scheduling k) (ticks k) t (keys k) (ports k) (interrupt_flag k) (selectors k).
Definition with_keys (b : keyboard) k : kernel S P :=
  mk_kernel (scheduling k) (ticks k) (console k) b (ports k) (interrupt_flag k) (selectors k).
Definition with_ports (p : P) k : kernel S P :=
  mk_kernel (scheduling k) (ticks k) (console k) (keys k) p (interrupt_flag k) (selectors k).
Definition with_interrupt_flag (b : bool) k : kernel S P :=
  mk_kernel (scheduling k) (ticks k) (console k) (keys k) (ports k) b (selectors k).

Definition with_selectors (g : Cpu.data_segments) k : kernel S P :=
  mk_kernel (scheduling k) (ticks k) (console k) (keys k) (ports k) (interrupt_flag k) g.

(** The processes of the state, and its memory. *)
Definition procs k : psys S := system (scheduling k).
Definition with_procs (p : psys S) k : kernel S P := with_scheduling (with_system p (scheduling k)) k.
Definition kmem k : mem := memory (procs k).
Definition with_kmem (m : mem) k : kernel S P := with_procs (with_memory m (procs k)) k.

End updates.
End State.
