(* ===== verification/Timer.v ===== *)
(** The timer, [cpu/timer.c]: the programming of the timer chip and the handler of
    its interrupt. *)

From S2P Require Import Prelude Memory Interfaces Paging Process Scheduler Io State.

Module Timer.
Import Paging Process Scheduler Io State.

(** ** Definitions *)

Section code.
Context {S P : Type} {PA : PageAllocator S} {KI : KernelImage} {IO : Ports P}.

(** The divisor for a frequency. *)
Definition timer_divisor (frequency : Z) : Z :=
  let frequency := if frequency =? 0 then 100 else frequency in
  let divisor := 1193180 / frequency in
  if divisor =? 0 then 1 else divisor.

Definition timer_init (frequency : Z) (p : P) : P :=
  let divisor := timer_divisor frequency in
  let p := outb 0x43 0x36 p in
  let p := outb 0x40 (u8 (divisor .& 0xff)) p in
  let p := outb 0x40 (u8 ((divisor ≫ 8) .& 0xff)) p in
  let '(mask, p) := inb 0x21 p in
  outb 0x21 (u8 (Z.land mask (Z.lnot 1))) p.

Definition timer_handler (ctx : Z) (k : kernel S P) : Z * kernel S P :=
  let k := with_ticks (ticks k +u 1) k in
  let '(ctx, s) := scheduler_tick ctx (scheduling k) in
  (ctx, with_scheduling s k).

Definition timer_ticks (k : kernel S P) : Z := ticks k.
End code.

(** ** Lemmas *)

Section lemmas.
Context {P : Type} {IO : Ports P} {PC : PcChips P}.

(** The divisor has 21 bits; the chip takes the low 16, and counts 2^16 for 0. *)
Definition divisor_loaded (f : Z) : Z :=
  let d := timer_divisor f mod 2 ^ 16 in if d =? 0 then 2 ^ 16 else d.

Lemma timer_divisor_range f : 0 ≤ f < 2 ^ 32 → 1 ≤ timer_divisor f < 2 ^ 21.
Proof.
  intros Hf. unfold timer_divisor. cbv zeta.
  destruct (Z.eqb_spec f 0) as [->|Hf0]; [done|].
  assert (0 ≤ 1193180 / f ≤ 1193180) as Hd.
  { split; [apply Z.div_pos; lia|]. apply Z.div_le_upper_bound; nia. }
  destruct (Z.eqb_spec (1193180 / f) 0); lia.
Qed.

(** The chips after [timer_init]: mode 3 with the divisor, line 0 enabled. *)
Lemma timer_init_chips f p :
  0 ≤ f < 2 ^ 32 → 0 ≤ mask (master (chips_of p)) < 2 ^ 8 → expects (master (chips_of p)) = OCW1 →
  let c := chips_of p in
  chips_of (timer_init f p) = mk_chips
    (mk_pic OCW1 (base (master c)) (cascade (master c)) (ready (master c))
       (Z.land (mask (master c)) (Z.lnot 1)) (in_service (master c)))
    (slave c) (mk_pit 3 None (divisor_loaded f)).
Proof.
  intros Hf Hm Ho. pose proof (timer_divisor_range f Hf) as Hd. cbv zeta. unfold timer_init. cbv zeta.
  set (d := timer_divisor f) in *. rewrite (land_mask d 0xff 8), (land_mask (d ≫ 8) 0xff 8) by (done || lia).
  rewrite shiftr_div by lia.
  set (p1 := outb 0x43 0x36 p). set (p2 := outb 0x40 (u8 (d mod 2 ^ 8)) p1).
  set (p3 := outb 0x40 _ p2).
  assert (chips_of p3 = mk_chips (master (chips_of p)) (slave (chips_of p))
    (mk_pit 3 None (divisor_loaded f))) as E3.
  { subst p3 p2 p1. rewrite !chips_outb by (apply u8_range || lia).
    unfold chip_write. cbn -[Z.modulo Z.div u8]. f_equal. f_equal.
    rewrite !u8_small by (apply Z.mod_pos_bound; lia). unfold divisor_loaded. fold d.
    change (pit_control 54 _) with (mk_pit 3 None (reload (timer (chips_of p)))).
    unfold pit_data. cbn [low_byte pit_mode].
    assert (d mod 2 ^ 8 + d / 2 ^ 8 mod 2 ^ 8 * 2 ^ 8 = d mod 2 ^ 16) as -> by dlia. done. }
  pose proof (chips_read_mask p3) as Er. rewrite E3 in Er. specialize (Er Hm). cbn in Er.
  pose proof (chips_inb 0x21 p3) as Ei. destruct (inb 0x21 p3) as [m p4]. cbn in Er, Ei. subst m.
  assert (0 ≤ Z.land (mask (master (chips_of p))) (Z.lnot 1) < 2 ^ 8) as Hr.
  { rewrite <- (Z.mod_small (mask _) (2 ^ 8)) by done. rewrite <- Z.land_ones, <- Z.land_assoc, (Z.land_comm (Z.ones 8)), Z.land_assoc, Z.land_ones by lia.
    apply Z.mod_pos_bound. lia. }
  rewrite (u8_small _ Hr), chips_outb, Ei, E3 by (done || lia).
  unfold chip_write. cbn -[Z.land Z.lnot]. unfold pic_data. by rewrite Ho.
Qed.
End lemmas.
End Timer.
