(* ===== verification/Syscall.v ===== *)
(** System calls, [syscall.c]: the dispatch on the number in the frame, and the write
    call, which reads the memory of user code. *)

From S2P Require Import Prelude Memory Interfaces Paging Process Scheduler Terminal Keyboard Cpu State.

Module Syscall.
Import Paging Process Scheduler Terminal State.

(** ** Definitions *)

Definition SYS_WRITE : Z := 1.
Definition SYS_GETPID : Z := 2.
Definition SYS_YIELD : Z := 3.
Definition SYS_EXIT : Z := 4.
Definition STDOUT_FD : Z := 1.
Definition MAX_WRITE_SIZE : Z := 256.

(** How a handler ends: with the frame to resume, by raising the timer's interrupt
    itself, which it does not return from, or never. *)
Inductive outcome :=
| Resumes (frame : Z)
| RaisesTimer
| Halts.

Section code.
Context {S P : Type} {PA : PageAllocator S} {KI : KernelImage}.
Implicit Types (k : kernel S P).

(** The byte the kernel reads at a virtual address in the directory in use; [None] is
    a page fault. *)
Definition read_virtual (m : mem) (directory va : Z) : option Z :=
  (λ t, load8 m (physical t)) <$> walk m directory va.

(** The loop over the text; [None] when it faults. *)
Definition write_text (address length : Z) k : option (kernel S P) :=
  let '(fault, t) := for_exit 0 length (λ i t,
    match read_virtual (kmem k) (cr3 (machine (procs k))) (address +u i) with
    | Some c => (None, putchar (i8 c) t)
    | None => (Some (), t)
    end) (console k) in
  match fault with Some _ => None | None => Some (with_console t k) end.

(** [None] when the text cannot be read or the range check does not end. *)
Definition syscall_write (fd address length : Z) k : option (Z * kernel S P) :=
  match current (procs k) with
  | None => Some (-1, k)
  | Some c =>
      if negb (is_user c) || negb (fd =? STDOUT_FD) || (MAX_WRITE_SIZE <? length) then Some (-1, k)
      else
        match user_range_valid (kmem k) (directory c) address length with
        | None => None
        | Some false => Some (-1, k)
        | Some true => (λ k, (i32 length, k)) <$> write_text address length k
        end
  end.

(** [process/process.c]: the end of the running process; the interrupt it raises then
    is taken on its own stack. *)
Definition process_exit k : outcome * kernel S P :=
  (RaisesTimer, with_procs (process_terminate_current (procs k)) k).

(** [context->eax = v] *)
Definition set_eax (ctx v : Z) k : kernel S P := with_kmem (store32 (kmem k) (ctx + c_eax) (u32 v)) k.

Definition syscall_dispatch (ctx : Z) k : option (outcome * kernel S P) :=
  let number := load32 (kmem k) (ctx + c_eax) in
  if number =? SYS_WRITE then
    (λ '(r, k), (Resumes ctx, set_eax ctx r k)) <$>
      syscall_write (load32 (kmem k) (ctx + c_ebx)) (load32 (kmem k) (ctx + c_ecx))
        (load32 (kmem k) (ctx + c_edx)) k
  else if number =? SYS_GETPID then
    Some (Resumes ctx, set_eax ctx (match current (procs k) with None => 0 | Some c => pid c end) k)
  else if number =? SYS_YIELD then
    let k := set_eax ctx 0 k in
    let '(next, s) := scheduler_yield ctx (scheduling k) in
    Some (Resumes next, with_scheduling s k)
  else if number =? SYS_EXIT then Some (process_exit k)
  else Some (Resumes ctx, set_eax ctx (-1) k).

End code.

(** ** Specification *)

(** The characters user code has at [address]. *)
Definition user_text (m : mem) (directory address length : Z) : list Z :=
  (λ i, i8 (default 0 (read_virtual m directory (address + i)))) <$> range 0 length.

(** A write that the running process may do. *)
Definition may_write {S P} (k : kernel S P) (fd address length : Z) : Prop :=
  ∃ c, current (procs k) = Some c ∧ is_user c = true ∧ fd = 1 ∧ length ≤ 256 ∧ directory c ≠ 0 ∧
    address < user_limit ∧ address + length ≤ user_limit ∧
    ∀ va, address ≤ va < address + length → user_readable (kmem k) (directory c) va.

(** ** Lemmas *)

Section lemmas.
Context {S P : Type} {PA : PageAllocator S} {KI : KernelImage}.
Implicit Types (k : kernel S P).

Lemma write_text_spec address length k :
  0 ≤ address → 0 ≤ length → address + length < 2 ^ 32 →
  (∀ va, address ≤ va < address + length → user_readable (kmem k) (cr3 (machine (procs k))) va) →
  write_text address length k = Some (with_console
    (put_all (user_text (kmem k) (cr3 (machine (procs k))) address length) (console k)) k).
Proof.
  intros Ha Hl Hsum Hr. unfold write_text. set (m := kmem k) in *. set (d := cr3 _) in *.
  assert (∀ n i t, 0 ≤ i → i + Z.of_nat n ≤ length →
    exit_loop (count_up n i) (λ i t, match read_virtual m d (address +u i) with
      | Some c => (None, putchar (i8 c) t) | None => (Some (), t) end) t =
    (None, put_all ((λ i, i8 (default 0 (read_virtual m d (address + i)))) <$> count_up n i) t)) as H.
  { induction n as [|n IH]; intros i t Hi Hn; [done|]. cbn [count_up exit_loop].
    unfold mbind, M_bind. rewrite u32_small by lia.
    destruct (Hr (address + i) ltac:(lia)) as (w & Ew & _).
    assert (read_virtual m d (address + i) = Some (load8 m (physical w))) as E.
    { unfold read_virtual. by rewrite Ew. }
    rewrite E. cbv iota. rewrite IH by lia. cbn [fmap list_fmap]. unfold put_all. cbn [foldl].
    rewrite E. done. }
  unfold for_exit, range. rewrite H by lia. done.
Qed.

Lemma syscall_write_spec fd address length k c :
  mem_bytes (kmem k) → 0 ≤ address < 2 ^ 32 → 0 ≤ length < 2 ^ 32 →
  current (procs k) = Some c → cr3 (machine (procs k)) = directory c →
  (may_write k fd address length ∧ syscall_write fd address length k = Some (length, with_console
     (put_all (user_text (kmem k) (directory c) address length) (console k)) k)) ∨
  (¬ may_write k fd address length ∧ syscall_write fd address length k = Some (-1, k)).
Proof.
  intros Hm Ha Hl Ec Ed. unfold syscall_write. rewrite Ec.
  destruct (is_user c) eqn:Eu; cbn [negb orb]; cycle 1.
  { right. split; [|done]. intros (c' & ? & ? & _). congruence. }
  unfold STDOUT_FD, MAX_WRITE_SIZE.
  destruct (Z.eqb_spec fd 1) as [->|Hfd]; cbn [negb orb]; cycle 1.
  { right. split; [|done]. intros (c' & _ & _ & ? & _). congruence. }
  destruct (Z.ltb_spec 256 length) as [Hlen|Hlen].
  { right. split; [|done]. intros (c' & _ & _ & _ & ? & _). lia. }
  destruct (user_range_valid_spec (kmem k) Hm (directory c) address length Ha Hl) as (b & -> & Hb).
  destruct b.
  - left. destruct (proj1 Hb eq_refl) as (Hd & Hlim & Hsum & Hr). split; [by exists c|].
    rewrite write_text_spec; [|lia|lia|unfold user_limit in *; lia|by rewrite Ed].
    rewrite Ed, i32_small by lia. done.
  - right. split; [|done]. intros (c' & Ec' & _ & _ & _ & Hd & Hlim & Hsum & Hr).
    assert (c' = c) as -> by congruence. by discriminate (proj2 Hb ltac:(done)).
Qed.
End lemmas.

(** ** Properties *)

(** C7. The write call never faults and always ends.  It writes exactly when the
    running process is a user process, the descriptor is 1, and all of the at most 256
    bytes lie below the limit in pages user code may read, and then what appears is
    those bytes, read through the address space of the process; otherwise it changes
    nothing and fails.  So no byte reaches the screen that the process could not have
    read itself. *)
Theorem syscall_write_correct {S P} fd address length (k : kernel S P) c :
  mem_bytes (kmem k) → 0 ≤ address < 2 ^ 32 → 0 ≤ length < 2 ^ 32 →
  current (procs k) = Some c → cr3 (machine (procs k)) = directory c →
  (may_write k fd address length ∧ syscall_write fd address length k = Some (length, with_console
     (put_all (user_text (kmem k) (directory c) address length) (console k)) k)) ∨
  (¬ may_write k fd address length ∧ syscall_write fd address length k = Some (-1, k)).
Proof. apply syscall_write_spec. Qed.

(** ** Instances: a user process with the pages 0x400000 and 0x401000 of
    [user_memory] writes two bytes across their border. *)

Definition small_user : kernel unit unit :=
  mk_kernel (mk_sched (mk_psys (mk_vm user_memory tt 0x1000 true [])
      [mk_process 1 PROCESS_RUNNING 0x1000 0x5000 0x5FC4 0 0 false true 0x300000 0x301000] 2
      (Some 0) 0 0) 0 0)
    0 empty_screen Keyboard.idle tt false (Cpu.mk_data 0x10 0x10 0x10 0x10).

Lemma small_may_write : may_write small_user 1 0x400FFF 2.
Proof.
  eexists. split; [reflexivity|]. do 2 (split; [done|]). do 4 (split; [done|]).
  intros va Hva. assert (va = 0x400FFF ∨ va = 0x401000) as [-> | ->] by lia.
  all: eexists; split; [vm_compute; reflexivity|done].
Qed.

Lemma syscall_write_correct_witness : ∃ k', syscall_write 1 0x400FFF 2 small_user = Some (2, k').
Proof.
  assert (mem_bytes (kmem small_user)) as Hm.
  { change (mem_bytes user_memory). unfold user_memory. auto with levos. }
  destruct (syscall_write_correct 1 0x400FFF 2 small_user _ Hm ltac:(lia) ltac:(lia) eq_refl eq_refl)
    as [[_ E]|[H _]]; [by eexists|]. by destruct (H small_may_write).
Defined.
End Syscall.
