(* ===== verification/Interrupts.v ===== *)
(** Interrupts, [cpu/interrupts.c]: the interrupt descriptor table, and the common
    handler. *)

From stdpp Require Import strings.
From S2P Require Import Prelude Memory Interfaces Pmm Paging Process Scheduler Io Terminal Keyboard.
From S2P Require Import State Timer Cpu Syscall.

Module Interrupts.
Import Paging Process Scheduler Io Terminal Keyboard State Timer Syscall.

(** ** Definitions *)

Record IDTEntry := mk_gate {
  lower_offset : Z;
  selector : Z;
  zero : Z;
  type_attributes : Z;
  higher_offset : Z;
}.
Record IDTR := mk_idtr { limit : Z; base : Z }.

(** The tables, and the table the processor uses. *)
Record idt := mk_idt { IDT : list IDTEntry; idtr : IDTR; loaded : IDTR }.

Definition IDT_GATETYPE_INTERRUPTGATE32 : Z := 0xE.
Definition IDT_RING0 : Z := 0x0.
Definition IDT_RING3 : Z := 0x3.
Definition IDT_PRESENT : Z := 0x1.
Definition IDT_TYPE_ATTRIBUTES (gate_type privilege present : Z) : Z :=
  (present ≪ 7) .| (privilege ≪ 5) .| (gate_type .& 0xF).

Definition gate_for (offset i : Z) : IDTEntry :=
  mk_gate (u16 (offset .& 0xFFFF)) 0x08 0
    (IDT_TYPE_ATTRIBUTES IDT_GATETYPE_INTERRUPTGATE32
       (if i =? 0x80 then IDT_RING3 else IDT_RING0) IDT_PRESENT)
    (u16 ((offset ≫ 16) .& 0xFFFF)).

(** [cpu/idt.asm] *)
Definition idt_load (t : idt) : idt := mk_idt (IDT t) (idtr t) (idtr t).

Section code.
Context {S P : Type} {PA : PageAllocator S} {KI : KernelImage} {IO : Ports P}.
Implicit Types (k : kernel S P).

(** [isr_table] holds the addresses of the stubs, [idt_address] is that of the table. *)
Definition init_IDT (isr_table : Z → Z) (idt_address : Z) (s : idt * kernel S P) : idt * kernel S P :=
  let '(t, k) := s in
  let k := with_interrupt_flag false k in
  let gates := for_loop 0 256 (λ i l, <[Z.to_nat i := gate_for (isr_table i) i]> l) (IDT t) in
  let t := mk_idt gates (mk_idtr (u16 (256 * 8 - 1)) idt_address) (loaded t) in
  let t := idt_load t in
  (t, with_console (print (text "IDT successfully loaded!" ++ [10]) GREEN (console k)) k).

Definition handle_timer (ctx : Z) k : outcome * kernel S P :=
  let '(next, k) := timer_handler ctx k in
  (Resumes next, with_ports (end_interrupt 0 (ports k)) k).

Definition handle_keyboard (ctx : Z) k : outcome * kernel S P :=
  let '(b, p) := keyboard_irq (keys k, ports k) in
  (Resumes ctx, with_ports (end_interrupt 1 p) (with_keys b k)).

(** An exception stops the machine. *)
Definition handle_exception (vector : Z) k : outcome * kernel S P :=
  let k := with_interrupt_flag false k in
  let t := print (10 :: text "CPU exception: ") RED (console k) in
  let t := print_number vector t in
  let t := print (10 :: text "System halted." ++ [10]) RED t in
  (Halts, with_console t k).

Definition isr_common_handler (ctx : Z) k : option (outcome * kernel S P) :=
  let k := with_scheduling (with_next_directory 0 (scheduling k)) k in
  let vector := load32 (kmem k) (ctx + c_vector) in
  if vector =? 0x20 then Some (handle_timer ctx k)
  else if vector =? 0x21 then Some (handle_keyboard ctx k)
  else if vector =? 0x80 then syscall_dispatch ctx k
  else if (0x20 <=? vector) && (vector <=? 0x2f) then
    Some (Resumes ctx, with_ports (end_interrupt (vector - 0x20) (ports k)) k)
  else if vector <? 32 then Some (handle_exception vector k)
  else Some (Resumes ctx, k).

End code.

(** ** Specification *)

(** A gate as the processor reads it: eight bytes, one number. *)
Definition gate_descriptor (g : IDTEntry) : Z :=
  le_value (le_bytes 2 (lower_offset g) ++ le_bytes 2 (selector g) ++
    [zero g; type_attributes g] ++ le_bytes 2 (higher_offset g)).

Record gate := mk_gate_meaning {
  gate_offset : Z; gate_selector : Z; gate_type : Z; gate_system : bool; gate_dpl : Z; gate_present : bool;
}.
Definition decode_gate (d : Z) : gate :=
  mk_gate_meaning (d mod 2 ^ 16 + d / 2 ^ 48 mod 2 ^ 16 * 2 ^ 16) (d / 2 ^ 16 mod 2 ^ 16)
    (d / 2 ^ 40 mod 2 ^ 4) (negb (Z.testbit d 44)) (d / 2 ^ 45 mod 2 ^ 2) (Z.testbit d 47).

(** An interrupt gate of 32 bits to ring 0 code, open to rings up to [dpl]. *)
Definition interrupt_gate (offset dpl : Z) : gate := mk_gate_meaning offset 0x08 0xE true dpl true.

(** ** Lemmas *)

Lemma gate_for_spec offset i :
  0 ≤ offset < 2 ^ 32 →
  decode_gate (gate_descriptor (gate_for offset i)) =
    interrupt_gate offset (if i =? 0x80 then 3 else 0).
Proof.
  intros Ho. unfold gate_descriptor, gate_for. cbn [lower_offset selector zero type_attributes higher_offset].
  rewrite !(land_mask _ 0xFFFF 16), shiftr_div by (lia || done).
  set (ta := IDT_TYPE_ATTRIBUTES _ _ _).
  assert (le_value (le_bytes 2 (u16 (offset mod 2 ^ 16)) ++ le_bytes 2 8 ++ [0; ta] ++
    le_bytes 2 (u16 ((offset / 2 ^ 16) mod 2 ^ 16))) =
    offset mod 2 ^ 16 + 8 * 2 ^ 16 + ta * 2 ^ 40 + offset / 2 ^ 16 * 2 ^ 48) as ->.
  { cbn [le_bytes app le_value]. unfold u16. dlia. }
  unfold decode_gate, interrupt_gate. rewrite !Z.testbit_odd, !Z.shiftr_div_pow2 by lia.
  assert (ta = 0x8E + (if i =? 0x80 then 0x60 else 0)) as ->.
  { subst ta. by destruct (i =? 0x80). }
  set (e := if i =? 0x80 then 0x60 else 0).
  assert (e = 0x60 ∧ (if i =? 0x80 then 3 else 0) = 3 ∨ e = 0 ∧ (if i =? 0x80 then 3 else 0) = 0) as He.
  { subst e. destruct (i =? 0x80); auto. }
  set (d := _ + offset / 2 ^ 16 * 2 ^ 48). f_equal.
  - subst d. dlia.
  - subst d. dlia.
  - subst d. dlia.
  - assert (d / 2 ^ 44 = 2 * (d / 2 ^ 45)) as -> by (subst d; dlia). by rewrite Z.odd_mul.
  - subst d. dlia.
  - assert (d / 2 ^ 47 = 2 * (d / 2 ^ 48) + 1) as -> by (subst d; dlia).
    by rewrite Z.odd_add, Z.odd_mul.
Qed.

(** The gates [init_IDT] writes. *)
Lemma gates_spec (f : Z → IDTEntry) l n i :
  0 ≤ n ≤ Z.of_nat (length l) → 0 ≤ i < n →
  for_loop 0 n (λ i l, <[Z.to_nat i := f i]> l) l !! Z.to_nat i = Some (f i).
Proof.
  intros Hn Hi.
  assert (length (for_loop 0 n (λ i l, <[Z.to_nat i := f i]> l) l) = length l ∧
    ∀ i, 0 ≤ i < n → for_loop 0 n (λ i l, <[Z.to_nat i := f i]> l) l !! Z.to_nat i = Some (f i)) as [_ H];
    [|by apply H].
  apply (for_loop_ind (λ k l', length l' = length l ∧ ∀ i, 0 ≤ i < k → l' !! Z.to_nat i = Some (f i)));
    [lia|split; [done|lia]|].
  intros j l' Hj [E IH]. split; [by rewrite length_insert|]. intros x Hx.
  destruct (decide (x = j)) as [->|].
  - rewrite list_lookup_insert_eq by lia. done.
  - rewrite list_lookup_insert_ne by lia. apply IH. lia.
Qed.

(** [init_keyboard] enables line 1. *)
Lemma init_keyboard_chips {P} {IO : Ports P} {PC : PcChips P} b (p : P) :
  0 ≤ mask (master (chips_of p)) < 2 ^ 8 → expects (master (chips_of p)) = OCW1 →
  let c := chips_of p in
  chips_of (snd (init_keyboard (b, p))) = mk_chips
    (mk_pic OCW1 (Io.base (master c)) (cascade (master c)) (ready (master c))
       (u8 (Z.land (mask (master c)) (Z.lnot 2))) (in_service (master c)))
    (slave c) (timer c).
Proof.
  intros Hm Ho. cbv zeta. unfold init_keyboard.
  pose proof (chips_read_mask p Hm) as Er. pose proof (chips_inb 0x21 p) as Ei.
  destruct (inb 0x21 p) as [v p']. cbn [fst snd] in *. subst v. change (1 ≪ 1) with 2.
  rewrite chips_outb, Ei by (apply u8_range || lia).
  unfold chip_write. change (0x21 =? 0x20) with false. change (0x21 =? 0x21) with true. cbv iota.
  unfold pic_data. by rewrite Ho.
Qed.

(** ** Properties *)

(** C39. The interrupt set-up of [kernel_main]: the gate of every vector leads to its
    stub through ring-0 code with interrupts closed, and only that of 0x80 is open to
    ring 3; the two controllers are initialised with the vectors from 0x20 and 0x28,
    and after [timer_init] and [init_keyboard], whatever happens in between that
    leaves them alone, exactly the lines of the timer and of the keyboard are open;
    the timer divides its clock by 1193180 / frequency. *)
Theorem interrupt_setup_correct {S P} {IO : Ports P} {PC : PcChips P} isr_table idt_address frequency
    t b (k : kernel S P) (p : P) :
  length (IDT t) = 256%nat → (∀ i, 0 ≤ isr_table i < 2 ^ 32) → 19 ≤ frequency ≤ 1193180 →
  chips_of p = chips_of (timer_init frequency (picremap (ports k))) →
  let '(t', k') := init_IDT isr_table idt_address (t, k) in
  let c := chips_of (snd (init_keyboard (b, p))) in
  (∀ v, 0 ≤ v < 256 → decode_gate ∘ gate_descriptor <$> IDT t' !! Z.to_nat v =
     Some (interrupt_gate (isr_table v) (if v =? 0x80 then 3 else 0))) ∧
  loaded t' = mk_idtr (256 * 8 - 1) idt_address ∧ interrupt_flag k' = false ∧
  ready (master c) = true ∧ Io.base (master c) = 0x20 ∧ ready (slave c) = true ∧ Io.base (slave c) = 0x28 ∧
  cascade (master c) = 1 ≪ cascade (slave c) ∧
  (∀ line, 0 ≤ line < 8 → Z.testbit (mask (master c)) line = false ↔ line = 0 ∨ line = 1) ∧
  (∀ line, 0 ≤ line < 8 → Z.testbit (mask (slave c)) line = true) ∧
  in_service (master c) = 0 ∧ in_service (slave c) = 0 ∧
  pit_mode (Io.timer c) = 3 ∧ reload (Io.timer c) = 1193180 / frequency.
Proof.
  intros Hl Ht Hf Hp. unfold init_IDT. cbv zeta.
  assert (divisor_loaded frequency = 1193180 / frequency) as Ed.
  { assert (1 ≤ 1193180 / frequency < 2 ^ 16) as Hd.
    { split; [apply Z.div_le_lower_bound; lia|apply Z.div_lt_upper_bound; lia]. }
    unfold divisor_loaded, timer_divisor. cbv zeta.
    rewrite (proj2 (Z.eqb_neq frequency 0)) by lia. rewrite (proj2 (Z.eqb_neq (1193180 / frequency) 0)) by lia.
    rewrite Z.mod_small by lia. by rewrite (proj2 (Z.eqb_neq (1193180 / frequency) 0)) by lia. }
  assert (chips_of p = mk_chips (mk_pic OCW1 0x20 4 true 0xFC 0) (mk_pic OCW1 0x28 2 true 0xFF 0)
    (mk_pit 3 None (1193180 / frequency))) as E.
  { rewrite Hp, timer_init_chips by (rewrite ?picremap_chips; cbn [master mask expects]; done || lia).
    rewrite picremap_chips, Ed. done. }
  rewrite init_keyboard_chips by (rewrite E; cbn [master mask expects]; done || lia). rewrite E.
  split; [|split; [done|split; [done|]]].
  { intros v Hv. cbn [IDT idt_load]. rewrite gates_spec by lia.
    change (Some (decode_gate (gate_descriptor (gate_for (isr_table v) v))) =
      Some (interrupt_gate (isr_table v) (if v =? 0x80 then 3 else 0))).
    by rewrite gate_for_spec. }
  do 5 (split; [done|]). split; [|split; [|done]].
  all: intros line Hline; assert (line = 0 ∨ line = 1 ∨ line = 2 ∨ line = 3 ∨ line = 4 ∨ line = 5 ∨
    line = 6 ∨ line = 7) as Hc by lia.
  - destruct_or! Hc; subst line; vm_compute; (split; [intros; auto; discriminate|intros [|]; auto; discriminate]).
  - by destruct_or! Hc; subst line.
Qed.

Lemma interrupt_setup_correct_witness :
  let p := timer_init 100 (picremap power_on) in
  let c := chips_of (snd (init_keyboard (idle, p))) in
  Io.base (master c) = 0x20 ∧ reload (Io.timer c) = 11931.
Proof.
  pose proof (interrupt_setup_correct (λ i, 0x101000 + i mod 256) 0x120000 100
    (mk_idt (replicate 256 (mk_gate 0 0 0 0 0)) (mk_idtr 0 0) (mk_idtr 0 0)) idle
    (mk_kernel (S := unit) (mk_sched (mk_psys (mk_vm ∅ tt 0 false []) [] 1 None 0 0) 0 0) 0 empty_screen idle
      power_on true (Cpu.mk_data 0x10 0x10 0x10 0x10)) (timer_init 100 (picremap power_on)) eq_refl
    ltac:(intros i; pose proof (Z.mod_pos_bound i 256); lia) ltac:(lia) eq_refl) as H.
  cbv zeta. unfold init_IDT in H.
  destruct H as (_ & _ & _ & _ & H1 & _ & _ & _ & _ & _ & _ & _ & _ & H2).
  split; [exact H1|]. rewrite H2. reflexivity.
Defined.
End Interrupts.
