(* ===== verification/Steps.v ===== *)
(** The kernel between boot and power off: running code, kernel or user, computes and
    is interrupted; an interrupt builds its frame, the common handler runs, and a frame
    is resumed.  The invariant of these steps, for the components together. *)

From S2P Require Import Prelude Memory Interfaces Pmm Paging Process Scheduler Spaces Frames.
From S2P Require Import Io Terminal Keyboard Cpu State Timer Syscall Interrupts.

Module Steps.
Import Paging Process Scheduler Spaces Frames Terminal Keyboard State Timer Syscall Interrupts.

(** ** Specification *)

(** Code that can be running: user code if the running process is one, or else kernel
    code, with a stack at its home that does not meet the saved context of the process. *)
Record may_run {S P} {KI : KernelImage} (k : kernel S P) (c : Cpu.cpu) : Prop := {
  mr_cpu : Cpu.cpu_ok c;
  mr_data : Cpu.data c = selectors k;
  mr_code : ∃ r, running (procs k) = Some r ∧
    if user_runs (procs k) r then Cpu.from_user c = true
    else Cpu.from_user c = false ∧ Cpu.ss c = 0x10 ∧ 64 ≤ Cpu.esp c < 2 ^ 32 - 64 ∧
      home (procs k) r (Cpu.esp c - 56) 56 ∧ apart_from_context (procs k) r (Cpu.esp c - 52);
}.

(** The call of the handler: its first access to a variable needs a data segment.  Without
    one the processor raises an exception, whose handler starts with such an access. *)
Definition handle {S P} {PA : PageAllocator S} {KI : KernelImage} {IO : Ports P} (ctx : Z) (k : kernel S P)
    : option (outcome * kernel S P) :=
  if Cpu.usable (selectors k) then isr_common_handler ctx k else None.

(** What follows the handler: the frame it gave is resumed in the address space it
    published; a process that ended raises the timer interrupt instead. *)
Inductive resume {S P} (k : kernel S P) : outcome → kernel S P → Prop :=
| resume_frame f c v :
    Cpu.isr_return f (scheduler_next_directory (scheduling k)) (selectors k) (machine (procs k)) = (c, v) →
    resume k (Resumes f) (with_selectors (Cpu.data c) (with_procs (with_machine v (procs k)) k))
| resume_exit : resume k RaisesTimer k.

(** What user code may load into a data segment register: nothing, or a segment of ring 3. *)
Definition loadable (old new : Z) : Prop := new = old ∨ new / 4 = 0 ∨ new / 4 = 0x18 / 4 ∨ new / 4 = 0x20 / 4.
Definition user_loads (g g' : Cpu.data_segments) : Prop :=
  loadable (Cpu.ds g) (Cpu.ds g') ∧ loadable (Cpu.es g) (Cpu.es g') ∧
  loadable (Cpu.fs g) (Cpu.fs g') ∧ loadable (Cpu.gs g) (Cpu.gs g').

Inductive kstep {S P} {PA : PageAllocator S} {KI : KernelImage} {IO : Ports P}
    : kernel S P → kernel S P → Prop :=
| kstep_compute m' k : computes_safely (procs k) m' → kstep k (with_kmem m' k)
| kstep_user m' k : user_code (cr3 (machine (procs k))) (kmem k) m' → kstep k (with_kmem m' k)
| kstep_load g r k : running (procs k) = Some r → user_runs (procs k) r = true →
    user_loads (selectors k) g → kstep k (with_selectors g k)
| kstep_console o k : kstep k (with_console (perform o (console k)) k)
| kstep_getchar k : kstep k (with_keys (snd (keyboard_getchar (keys k))) k)
| kstep_ports p k : kstep k (with_ports p k)
| kstep_flag b k : kstep k (with_interrupt_flag b k)
| kstep_create entry argument r p k :
    current_alive (procs k) = true → next_pid (procs k) < 2 ^ 31 →
    process_create entry argument (procs k) = (r, p) → kstep k (with_procs p k)
| kstep_create_user image size r p k :
    current_alive (procs k) = true → next_pid (procs k) < 2 ^ 31 → 0 ≤ size < 2 ^ 32 →
    process_create_user image size (procs k) = (r, p) → kstep k (with_procs p k)
| kstep_interrupt c handler vector error ctx c1 m1 o k1 k2 k :
    may_run k c → 0 ≤ vector < 256 → 0 ≤ error < 2 ^ 32 →
    Cpu.interrupt (tss_esp0 (procs k)) handler vector error c (kmem k) = (ctx, (c1, m1)) →
    handle ctx (with_kmem m1 k) = Some (o, k1) → resume k1 o k2 → kstep k k2.

Inductive kreachable {S P} {PA : PageAllocator S} {KI : KernelImage} {IO : Ports P}
    (k0 : kernel S P) : kernel S P → Prop :=
| kreachable_start : kreachable k0 k0
| kreachable_step k k' : kreachable k0 k → kstep k k' → kreachable k0 k'.

(** The invariant: that of the processes, of the screen and of the keyboard; the task
    state segment has the kernel stack of the running process, and the directory in
    use is its own; the saved frames fit; kernel code has data segments. *)
Record kernel_ok {S P} {PA : PageAllocator S} {PAS : PageAllocatorSpec S} {KI : KernelImage}
    (n : Z) (k : kernel S P) : Prop := {
  ko_system : safe n (procs k);
  ko_pages : n < 2 ^ 20;
  ko_low : stacks_low (procs k);
  ko_frames : frames_ok (procs k);
  ko_selectors r : running (procs k) = Some r → user_runs (procs k) r = false → Cpu.usable (selectors k) = true;
  ko_stack : tss_esp0 (procs k) = process_kernel_stack_top (current (procs k));
  ko_space : ∃ c, current (procs k) = Some c ∧ cr3 (machine (procs k)) = directory c;
  ko_screen : screen_ok (console k);
  ko_keys : keyboard_ok (keys k);
  ko_ticks : 0 ≤ ticks k < 2 ^ 32;
}.

(** The same between the handler and the return: the directory of the running process
    is in use or published. *)
Record handled {S P} {PA : PageAllocator S} {PAS : PageAllocatorSpec S} {KI : KernelImage}
    (n : Z) (k : kernel S P) : Prop := {
  ha_system : safe n (procs k);
  ha_pages : n < 2 ^ 20;
  ha_low : stacks_low (procs k);
  ha_frames : frames_ok (procs k);
  ha_selectors : Cpu.usable (selectors k) = true;
  ha_stack : tss_esp0 (procs k) = process_kernel_stack_top (current (procs k));
  ha_space : ∃ c, current (procs k) = Some c ∧ directory c =
    if scheduler_next_directory (scheduling k) =? 0 then cr3 (machine (procs k))
    else scheduler_next_directory (scheduling k);
  ha_screen : screen_ok (console k);
  ha_keys : keyboard_ok (keys k);
  ha_ticks : 0 ≤ ticks k < 2 ^ 32;
}.

(** The frame at [ctx] belongs to the process that runs, and can be saved. *)
Definition in_hand {S P} {KI : KernelImage} (ctx : Z) (k : kernel S P) : Prop :=
  own_memory (procs k) ctx 52 ∧ 0 ≤ ctx < 2 ^ 32 - 64 ∧
  ∃ r, running (procs k) = Some r ∧ frame_fits (procs k) r ctx ∧ apart_from_context (procs k) r ctx.

(** ** Lemmas *)

Section lemmas.
Context {S P : Type} {PA : PageAllocator S} {PAS : PageAllocatorSpec S}.
Context {KI : KernelImage} {KIO : KernelImageOk} {IO : Ports P}.
Implicit Types (p : psys S) (k : kernel S P).

(** *** Entry *)

(** Entry writes in memory of the running code only, and leaves a frame that fits. *)
Lemma entry_ok n c handler vector error ctx c1 m1 k :
  kernel_ok n k → may_run k c → 0 ≤ vector < 256 → 0 ≤ error < 2 ^ 32 →
  Cpu.interrupt (tss_esp0 (procs k)) handler vector error c (kmem k) = (ctx, (c1, m1)) →
  computes_safely (procs k) m1 ∧ in_hand ctx (with_kmem m1 k) ∧ load32 m1 (ctx + c_vector) = vector.
Proof.
  intros Hk [Hc _ (r & Er & Hkc)] Hv He E. destruct (ko_system _ _ Hk) as (F & Hr & Ht & Hsp).
  destruct (table_running _ _ _ Ht Er) as [Hrb Hru].
  destruct (context_home (procs k) F r Ht (ko_low _ _ Hk) Hrb Hru) as (Hown & Htop & Hrange).
  assert (tss_esp0 (procs k) = context (slot (procs k) r) + 60) as Etss.
  { rewrite (ko_stack _ _ Hk), <- Htop. unfold current. by rewrite Er. }
  assert (64 ≤ Cpu.stack_top (tss_esp0 (procs k)) c < 2 ^ 32 ∧
    Cpu.frame_address (tss_esp0 (procs k)) c < 2 ^ 32 - 64 ∧
    home (procs k) r (Cpu.frame_address (tss_esp0 (procs k)) c - 4) (4 * Cpu.frame_length c + 4) ∧
    apart_from_context (procs k) r (Cpu.frame_address (tss_esp0 (procs k)) c) ∧
    13 ≤ Cpu.frame_length c ≤ 15) as (Hst & Hfa & Hs & Hap & Hfl).
  { unfold Cpu.frame_address, Cpu.stack_top, Cpu.frame_length, apart_from_context in *.
    destruct (user_runs (procs k) r).
    - rewrite Hkc. split; [lia|split; [lia|split; [|lia]]]. apply (home_sub _ _ _ _ _ _ Hown); lia.
    - destruct Hkc as (-> & _ & ? & Ho & Hap). split; [lia|split; [lia|split; [|lia]]].
      apply (home_sub _ _ _ _ _ _ Ho); lia. }
  pose proof (kr_bytes _ _ _ Hr) as Hb.
  destruct (Cpu.interrupt_spec (tss_esp0 (procs k)) handler vector error c (kmem k) ltac:(lia))
    as (c1' & E' & _).
  destruct (Cpu.entry_memory (tss_esp0 (procs k)) vector error c (kmem k) Hc ltac:(lia) He Hb ltac:(lia))
    as (Hb1 & Hs1 & Hw). cbv zeta in *. rewrite E' in E. injection E as <- _ <-.
  set (frame := Cpu.frame_address _ c) in *. set (m1 := store32 _ _ _) in *.
  assert (own_memory (procs k) (frame - 4) (4 * Cpu.frame_length c + 4)) as Ho
    by (apply (home_own _ F r); done || lia).
  split; [by eapply own_computes; [apply Hr|exact Ho|exact Hb1|exact Hs1]|]. split; [split; [|split]|].
  - apply (own_memory_ext (procs k)); [done|done|]. apply (own_memory_sub _ _ _ _ _ Ho); lia.
  - unfold home in Hs. pose proof bootstrap_stack_place. case_decide; [lia|].
    destruct (tk_slot _ _ Ht r ltac:(lia) Hru) as (q & Eq & ? & _). rewrite Eq in Hs.
    pose proof page_directory_place. lia.
  - exists r. split; [done|split; [|done]].
    unfold frame_fits. change (user_runs (procs (with_kmem m1 k)) r) with (user_runs (procs k) r).
    change (memory (procs (with_kmem m1 k))) with m1. cbv zeta.
    assert (load32 m1 (frame + c_cs) = Cpu.cs c) as -> by (change c_cs with (4 * 11); by rewrite Hw by lia).
    assert (load32 m1 (frame + c_esp) = frame + 32) as ->
      by (change c_esp with (4 * 3); by rewrite Hw by lia).
    split; [apply Hc|]. destruct (user_runs (procs k) r).
    + unfold Cpu.frame_length, Cpu.from_user in *. destruct (Cpu.cs c .& 3 =? 0) eqn:E3; [done|].
      apply Z.eqb_neq in E3. split; [done|]. change c_user_ss with (4 * 14).
      rewrite Hw by (cbn; lia). unfold Cpu.frame_words, Cpu.from_user. apply Z.eqb_neq in E3. rewrite E3. apply Hc.
    + destruct Hkc as (Hu & _ & ? & Hh & _). unfold Cpu.from_user in Hu.
      destruct (Z.eqb_spec (Cpu.cs c .& 3) 0) as [E3|]; [|done].
      assert (frame = Cpu.esp c - 52) as ->.
      { subst frame. unfold Cpu.frame_address, Cpu.stack_top, Cpu.frame_length, Cpu.from_user. by rewrite E3. }
      split; [done|split; [lia|]]. apply (home_ext (procs k)); [done|]. apply (home_sub _ _ _ _ _ _ Hh); lia.
  - unfold c_vector. change 32 with (4 * 8). by rewrite Hw by lia.
Qed.

(** *** Creating processes *)

(** The address space, the running process and the task state segment stay. *)
Definition stays p p' : Prop :=
  cr3 (machine p') = cr3 (machine p) ∧ running p' = running p ∧ tss_esp0 p' = tss_esp0 p ∧
  current p' = current p ∧ (stacks_low p → stacks_low p') ∧ (frames_ok p → frames_ok p').

Lemma create_directory_cr3 (v : vm S) : cr3 (snd (create_page_directory v)) = cr3 v.
Proof. unfold create_page_directory. destruct (pa_allocate _). by destruct (_ =? 0). Qed.

Lemma table_for_cr3 d di mode (v : vm S) : cr3 (snd (table_for d di mode v)) = cr3 v.
Proof.
  unfold table_for. destruct (negb _); [by destruct (is_user_mode mode)|].
  destruct (pa_allocate _). by destruct (_ =? 0).
Qed.

Lemma map_page_in_cr3 d va pa mode (v : vm S) : cr3 (map_page_in d va pa mode v) = cr3 v.
Proof.
  unfold map_page_in. pose proof (table_for_cr3 d ((va ≫ 22) .& 0x3ff) mode v) as E.
  destruct (table_for _ _ _ v) as [[t|] v']; [|done]. cbn [snd] in E. by destruct (d =? page_directory).
Qed.

Lemma allocate_cr3 p : cr3 (machine (snd (allocate_frame p))) = cr3 (machine p).
Proof. unfold allocate_frame. by destruct (pa_allocate _). Qed.

Lemma new_directory_cr3 p : cr3 (machine (snd (new_directory p))) = cr3 (machine p).
Proof.
  unfold new_directory. pose proof (create_directory_cr3 (machine p)). by destruct (create_page_directory _).
Qed.

Lemma create_in_slot_cr3 entry argument i p :
  cr3 (machine (snd (create_in_slot entry argument i p))) = cr3 (machine p).
Proof.
  unfold create_in_slot. pose proof (allocate_cr3 p) as E1. destruct (allocate_frame p) as [a p1].
  pose proof (new_directory_cr3 p1) as E2. destruct (new_directory p1) as [b p2]. cbn [snd] in *.
  rewrite E1 in E2. destruct (_ || _); [by destruct (negb _)|exact E2].
Qed.

Lemma create_user_in_slot_cr3 image size i p :
  cr3 (machine (snd (create_user_in_slot image size i p))) = cr3 (machine p).
Proof.
  unfold create_user_in_slot. pose proof (allocate_cr3 p) as E1. destruct (allocate_frame p) as [a p1].
  pose proof (allocate_cr3 p1) as E2. destruct (allocate_frame p1) as [b p2].
  pose proof (allocate_cr3 p2) as E3. destruct (allocate_frame p2) as [c p3].
  pose proof (new_directory_cr3 p3) as E4. destruct (new_directory p3) as [d p4]. cbn [snd] in *.
  rewrite E3, E2, E1 in E4. destruct (_ || _ || _ || _).
  - unfold release_if_taken. by destruct (negb _), (negb _), (negb _).
  - cbv zeta. cbn [snd].
    change (cr3 (map_page_in d (USER_STACK_TOP - 4096) c 85
      (map_page_in d USER_CODE_ADDRESS b 85 (machine p4))) = cr3 (machine p)).
    by rewrite !map_page_in_cr3.
Qed.

Lemma stays_unchanged p p' n F : unchanged p p' n F → stays p p'.
Proof.
  intros (_ & Em & E1 & E2 & _ & E3 & _ & E4). split; [done|split; [done|split; [done|split; [|split]]]].
  - unfold current, slot. by rewrite E2, E3.
  - unfold stacks_low, slot. by rewrite E2.
  - by apply frames_ext.
Qed.

(** A new process in a slot that was free. *)
Lemma stays_insert p p' F i x q ps :
  table_ok p F → above_kernel F → current_alive p = true → first_reusable p i →
  cr3 (machine p') = cr3 (machine p) → same_rest p p' →
  processes p' = <[Z.to_nat i := x]> (processes p) →
  (∀ y, y ∈ ps → y ∈ F ∨ y = shared_table / 4096) → same_outside_pages ps (memory p) (memory p') →
  stack_base x = q * 4096 → q < 2 ^ 20 - 1 →
  (slot p' i = x → frame_fits p' i (context x)) → stays p p'.
Proof.
  intros Ht Hab Ha Hfi Ec (E1 & _ & E2) Ep Hps Ho Es Hk Hfit. pose proof Hfi as (Hi & Hre & _).
  assert (∀ j, 0 ≤ j < 16 → slot p' j = if decide (i = j) then x else slot p j) as Eslot.
  { intros j Hj. transitivity (slot (set_slot i x p) j); [unfold slot; by rewrite Ep|].
    apply slot_set_slot; [apply Ht|lia|lia]. }
  assert (slot p' i = x) as Enew by (by rewrite Eslot, decide_True by lia).
  destruct (tk_running _ _ Ht) as (r & Er & Hr & Hst). split; [done|split; [done|split; [done|split; [|split]]]].
  - unfold current. rewrite E1, Er. cbn. rewrite Eslot, decide_False; [done| |done].
    intros ->. unfold current_alive, current in Ha. rewrite Er in Ha. cbn in Ha.
    unfold reusable in Hre. destruct (state (slot p r)); destruct Hst; done.
  - intros Hl j Hj. rewrite Eslot by lia. case_decide; [lia|by apply Hl].
  - apply (frames_insert p p' F i x ps Ht Hab Hfi E1 Ep Hps Ho). rewrite Enew. by apply Hfit.
Qed.

Lemma create_stays n entry argument p p' r :
  system_ok n p → n < 2 ^ 20 → current_alive p = true → next_pid p < 2 ^ 31 →
  process_create entry argument p = (r, p') → stays p p'.
Proof.
  intros (F & Hr & Ht) Hn Ha Hp E. pose proof (tk_next _ _ Ht).
  destruct (decide (entry = 0)) as [->|He]; [by injection E as _ <-|].
  destruct (process_create_cases entry argument p He) as [[_ Ec]|(i & Hi & Ec)]; rewrite Ec in E.
  { by injection E as _ <-. }
  pose proof (create_in_slot_cr3 entry argument i p) as Ecr.
  destruct (create_in_slot_spec entry argument i p n F Hr ltac:(lia))
    as (s' & [(_ & E' & Hu)|(k & q & E' & [Hk _] & [Hq _] & Ep & _ & Hs & _ & Ho & Hc & _)]);
    rewrite E' in E, Ecr; injection E as _ <-; [by apply (stays_unchanged p s' n F)|].
  pose proof (pages_range _ _ _ _ (kr_pages _ _ _ Hr) Hk). pose proof (proj1 Hi).
  eapply (stays_insert p s' F i _ k ({[k]} ∪ {[q]})); try done; [apply Hr| |lia|].
  - intros y Hy. left. set_solver.
  - intros Es. cbn [context]. apply kernel_frame_fits; unfold user_runs; rewrite ?Es; done || lia.
Qed.

Lemma create_user_stays n image sz p p' r :
  system_ok n p → n < 2 ^ 20 → current_alive p = true → next_pid p < 2 ^ 31 → 0 ≤ sz < 2 ^ 32 →
  process_create_user image sz p = (r, p') → stays p p'.
Proof.
  intros (F & Hr & Ht) Hn Ha Hp Hsz E. pose proof (tk_next _ _ Ht).
  destruct image as [image|]; [|by injection E as _ <-].
  destruct (decide (0 < sz ≤ 4096)) as [Hs|Hs]; cycle 1.
  { unfold process_create_user in E.
    destruct (Z.eqb_spec sz 0), (Z.ltb_spec 4096 sz); cbn [orb] in E; try (by injection E as _ <-); lia. }
  destruct (process_create_user_cases image sz p Hs) as [[_ Ec]|(i & Hi & Ec)]; rewrite Ec in E.
  { by injection E as _ <-. }
  pose proof (create_user_in_slot_cr3 image sz i p) as Ecr.
  destruct (decide (size F < 4)%nat) as [Hf|Hf].
  { destruct (create_user_scarce image sz i p n F Hr Hf) as (s' & E' & Hu).
    rewrite E' in E. injection E as _ <-. by apply (stays_unchanged p s' n F). }
  destruct (create_user_success image sz i p n F Hr ltac:(lia) ltac:(lia) ltac:(lia))
    as (s' & k & q & u & t & E' & Hc).
  rewrite E' in E, Ecr. injection E as _ <-.
  pose proof (uc_stack _ _ _ _ _ _ _ _ _ _ _ Hc) as [Hk _].
  pose proof (uc_code _ _ _ _ _ _ _ _ _ _ _ Hc) as [Hq _].
  pose proof (uc_directory _ _ _ _ _ _ _ _ _ _ _ Hc) as [Htd _].
  pose proof (pages_range _ _ _ _ (kr_pages _ _ _ Hr) Hk).
  eapply (stays_insert p s' F i _ k ({[k]} ∪ {[q]} ∪ {[t]} ∪ {[shared_table / 4096]})); try done;
    [apply Hr|apply Hc|apply Hc| |apply Hc|done|lia|].
  - intros y. rewrite !elem_of_union, !elem_of_singleton.
    intros [[[-> | ->] | ->] | ->]; [left|left|left|by right]; set_solver.
  - intros Es. cbn [context]. apply user_frame_fits; [unfold user_runs; by rewrite Es|apply Hc].
Qed.

(** *** The handler *)

Lemma kernel_handled n k : kernel_ok n k → Cpu.usable (selectors k) = true →
  handled n (with_scheduling (with_next_directory 0 (scheduling k)) k).
Proof.
  intros [H1 H2 H3 H3' _ H4 (c & H5 & H5') H6 H7 H8] Hu. split; try done.
  exists c. split; [done|]. by rewrite <- H5'.
Qed.

(** A change of memory by the running code. *)
Lemma computes_ok n k m' : kernel_ok n k → computes_safely (procs k) m' → kernel_ok n (with_kmem m' k).
Proof. intros [] Hc. split; try done; [by apply safe_compute|]. by apply frames_computes, Hc. Qed.

Lemma computes_handled n k m' : handled n k → computes_safely (procs k) m' → handled n (with_kmem m' k).
Proof. intros [] Hc. split; try done; [by apply safe_compute|]. by apply frames_computes, Hc. Qed.

Lemma set_eax_handled n ctx v k :
  handled n k → in_hand ctx k → handled n (set_eax ctx v k) ∧ in_hand ctx (set_eax ctx v k).
Proof.
  intros Hk (Ho & Hc & r & Er & Hf & Ha). destruct (ha_system _ _ Hk) as (F & Hr & Ht & _). split.
  - apply computes_handled; [done|]. eapply own_computes; [apply Hr| | |apply same_outside_store32].
    + apply (own_memory_sub _ _ _ _ _ Ho); unfold c_eax; lia.
    + apply store32_mem_bytes, Hr.
  - split; [by apply (own_memory_ext (procs k))|split; [done|]]. exists r. split; [done|split; [|done]].
    apply (frame_fits_ext (procs k) _ r ctx); [done|done|..|done];
      apply load32_store32_ne; unfold c_cs, c_esp, c_eax, c_user_ss; lia.
Qed.

(** The frame at [f] is one of the process that runs. *)
Definition resumable (f : Z) k : Prop :=
  0 ≤ f < 2 ^ 32 - 64 ∧ ∃ r, running (procs k) = Some r ∧ frame_fits (procs k) r f.

Lemma in_hand_resumable ctx k : in_hand ctx k → resumable ctx k.
Proof. intros (_ & Hc & r & Er & Hf & _). split; [done|by exists r]. Qed.

(** Scheduling from a frame of the running code. *)
Lemma schedule_handled n ctx k f s' :
  handled n k → scheduler_next_directory (scheduling k) = 0 → in_hand ctx k →
  schedule ctx (scheduling k) = (f, s') → handled n (with_scheduling s' k) ∧ resumable f (with_scheduling s' k).
Proof.
  intros Hk Hd ((_ & Ho & _) & Hctx & r & Er & Hfit & Hap) E.
  destruct Hk as [Hsys Hn Hlow Hframes Hsel Htss (c & Ec & Edir) Hscr Hkey Htk].
  rewrite Hd in Edir. cbn in Edir.
  destruct (frames_schedule n (scheduling k) ctx f s' r Hsys Hlow Hframes Er Hfit Hap Hctx E) as (Hf' & Hrange & Hres).
  split; [|done].
  pose proof (safe_schedule n ctx f _ _ Hsys E) as Hok.
  destruct Hsys as (F & Hr & Ht & _).
  destruct (schedule_cases n (scheduling k) F r ctx Hr Ht Er) as [[_ E']|(i & m' & _ & Hi & _ & E')];
    rewrite E' in E; clear E'.
  { injection E as _ <-. split; try done. by exists c. }
  cbv zeta in E. destruct (next_in_turn_range _ _ _ Hi) as [Hib Hir].
  pose proof (runnable_used _ _ Hir) as Hiu.
  set (p := make_running i (with_memory m' (system (scheduling k)))) in E.
  change (system (scheduling k)) with (procs k) in *.
  assert (length (processes (with_memory m' (procs k))) = 16%nat) as Hlen by apply Ht.
  assert (system s' = p ∧ scheduler_next_directory s' =
    if context (slot (procs k) i) =? ctx then 0 else directory (slot (procs k) i)) as [Ep Edn].
  { destruct (_ =? ctx); by injection E as _ <-. }
  assert (current p = Some (with_state PROCESS_RUNNING (slot (procs k) i))) as Ecur.
  { change (current p) with (Some (slot p i)). subst p.
    by rewrite make_running_slot, decide_True by (done || lia). }
  split; try done.
  - intros j Hj. change (procs (with_scheduling s' k)) with (system s'). rewrite Ep. subst p.
    rewrite make_running_slot by (done || lia). case_decide as Hij; [|by apply Hlow].
    intros _. subst j. by apply Hlow.
  - change (procs (with_scheduling s' k)) with (system s'). rewrite Ep, Ecur. subst p.
    rewrite make_running_tss by done. done.
  - change (procs (with_scheduling s' k)) with (system s').
    change (scheduling (with_scheduling s' k)) with s'. rewrite Ep, Ecur, Edn. eexists. split; [done|].
    change (cr3 (machine p)) with (cr3 (machine (procs k))).
    cbn [directory with_state]. destruct (Z.eqb_spec (context (slot (procs k) i)) ctx) as [Ectx|Hne].
    + assert (i = r) as ->.
      { destruct (decide (i = r)); [done|].
        destruct (Ho i Hib ltac:(congruence) Hiu) as [?|?]; lia. }
      cbn. rewrite <- Edir. unfold current in Ec. rewrite Er in Ec. by injection Ec as <-.
    + assert (directory (slot (procs k) i) ≠ 0) as Hdne.
      { destruct (decide (i = 0)) as [->|Hi0].
        - destruct (tk_bootstrap _ _ Ht) as (_ & _ & _ & -> & _). pose proof page_directory_place. lia.
        - by destruct (tk_slot _ _ Ht i ltac:(lia) Hiu) as (? & _ & _ & _ & _ & _ & ? & _). }
      by rewrite (proj2 (Z.eqb_neq _ _) Hdne).
Qed.

(** What a handler returns: a state in which the processes are as they must be when the
    frame is resumed; a process that ended publishes no directory. *)
Definition good_end n (o : outcome) k : Prop :=
  handled n k ∧ (o = RaisesTimer → scheduler_next_directory (scheduling k) = 0) ∧
  ∀ f, o = Resumes f → resumable f k.

Lemma good_resumes n ctx k : handled n k → in_hand ctx k → good_end n (Resumes ctx) k.
Proof. intros Hk Hc. split; [done|split; [done|]]. intros f [= <-]. by apply in_hand_resumable. Qed.

Lemma set_eax_good n ctx v k : handled n k → in_hand ctx k → good_end n (Resumes ctx) (set_eax ctx v k).
Proof. intros Hk Hc. destruct (set_eax_handled n ctx v k Hk Hc). by apply good_resumes. Qed.

Lemma timer_good n ctx k :
  handled n k → scheduler_next_directory (scheduling k) = 0 → in_hand ctx k →
  let '(o, k1) := handle_timer ctx k in good_end n o k1.
Proof.
  intros Hk Hd Ho. unfold handle_timer, timer_handler, scheduler_tick.
  cbn [scheduling with_ticks].
  destruct (schedule ctx (count_quantum (scheduling k))) as [f s'] eqn:E.
  set (k' := mk_kernel (count_quantum (scheduling k)) (ticks k +u 1) (console k) (keys k) (ports k)
    (interrupt_flag k) (selectors k)).
  assert (handled n k') as Hk'.
  { destruct Hk. split; try done. apply u32_range. }
  destruct (schedule_handled n ctx k' f s' Hk' Hd Ho E) as [H' Hf].
  split; [by destruct H'|split; [done|]]. by intros ? [= <-].
Qed.

Lemma console_handled n k t : handled n k → screen_ok t → handled n (with_console t k).
Proof. intros [] Ht. by split. Qed.

(** The end of the running process; it still runs, in its own address space. *)
Lemma terminate_handled n k :
  handled n k → handled n (with_procs (process_terminate_current (procs k)) k).
Proof.
  intros Hk. destruct (ha_system _ _ Hk) as (F & Hr & Ht & _).
  destruct Hk as [Hsys Hn Hlow Hframes Hsel Htss (c & Ec & Edir) Hscr Hkey Htk].
  pose proof (safe_terminate n (procs k) Hsys) as Hsys'.
  destruct (tk_running _ _ Ht) as (r & Er & Hrb & _).
  destruct (table_running _ _ _ Ht Er) as [_ Hu].
  assert (∀ j, 0 ≤ j < 16 → ∃ st, slot (process_terminate_current (procs k)) j =
    with_state st (slot (procs k) j) ∧ (state (slot (procs k) j) = PROCESS_UNUSED → st = PROCESS_UNUSED))
    as Hslot.
  { intros j Hj. unfold process_terminate_current. rewrite Er.
    destruct (bootstrap (slot (procs k) r)).
    - exists (state (slot (procs k) j)). split; [by destruct (slot (procs k) j)|done].
    - rewrite slot_set_slot by (done || lia || apply Ht). case_decide as Hjr.
      + subst j. by exists PROCESS_ZOMBIE.
      + exists (state (slot (procs k) j)). split; [by destruct (slot (procs k) j)|done]. }
  assert (running (process_terminate_current (procs k)) = Some r ∧
    tss_esp0 (process_terminate_current (procs k)) = tss_esp0 (procs k) ∧
    cr3 (machine (process_terminate_current (procs k))) = cr3 (machine (procs k))) as (Er' & Et' & Ecr').
  { unfold process_terminate_current. rewrite Er. by destruct (bootstrap _). }
  destruct (Hslot r Hrb) as (st & Est & _).
  assert (current (process_terminate_current (procs k)) = Some (with_state st c)) as Ec'.
  { unfold current in *. rewrite Er'. rewrite Er in Ec. injection Ec as <-. cbn. by rewrite Est. }
  split; try done.
  + intros j Hj. change (procs (with_procs (process_terminate_current (procs k)) k))
      with (process_terminate_current (procs k)).
    destruct (Hslot j ltac:(lia)) as (stj & -> & Hst). intros Hju. apply (Hlow j Hj).
    intros Hx. by apply Hju, Hst.
  + by apply (frames_terminate _ F).
  + change (procs (with_procs (process_terminate_current (procs k)) k))
      with (process_terminate_current (procs k)). rewrite Et', Htss, Ec', Ec. done.
  + change (procs (with_procs (process_terminate_current (procs k)) k))
      with (process_terminate_current (procs k)). rewrite Ec', Ecr'. by eexists.
Qed.

Lemma syscall_good n ctx k :
  handled n k → scheduler_next_directory (scheduling k) = 0 → in_hand ctx k →
  ∃ o k1, syscall_dispatch ctx k = Some (o, k1) ∧ good_end n o k1.
Proof.
  intros Hk Hd Ho. destruct (ha_system _ _ Hk) as (F & Hr & Ht & _).
  pose proof (kr_bytes _ _ _ Hr) as Hb. unfold syscall_dispatch. cbv zeta.
  destruct (_ =? SYS_WRITE); [|destruct (_ =? SYS_GETPID); [|destruct (_ =? SYS_YIELD); [|destruct (_ =? SYS_EXIT)]]].
  - destruct (ha_space _ _ Hk) as (c & Ec & Ed). rewrite Hd in Ed. cbn in Ed.
    destruct (syscall_write_spec (load32 (kmem k) (ctx + c_ebx)) (load32 (kmem k) (ctx + c_ecx))
      (load32 (kmem k) (ctx + c_edx)) k c Hb (load32_range _ _ Hb) (load32_range _ _ Hb) Ec (eq_sym Ed))
      as [[_ ->]|[_ ->]]; cbn [fmap option_fmap option_map]; do 2 eexists; (split; [done|]).
    + apply set_eax_good; [|done]. apply console_handled; [done|]. apply put_all_screen, Hk.
    + by apply set_eax_good.
  - do 2 eexists. split; [done|]. by apply set_eax_good.
  - destruct (set_eax_handled n ctx 0 k Hk Ho) as [Hk' Ho']. unfold scheduler_yield.
    destruct (schedule ctx (scheduling (set_eax ctx 0 k))) as [f s'] eqn:E.
    do 2 eexists. split; [done|]. destruct (schedule_handled n ctx _ f s' Hk' Hd Ho' E) as [H1 H2].
    split; [done|split; [done|]]. by intros ? [= <-].
  - do 2 eexists. split; [done|]. split; [by apply terminate_handled|done].
  - do 2 eexists. split; [done|]. by apply set_eax_good.
Qed.

Lemma handler_good n ctx k :
  kernel_ok n k → Cpu.usable (selectors k) = true → in_hand ctx k →
  ∃ o k1, handle ctx k = Some (o, k1) ∧ good_end n o k1.
Proof.
  intros Hk0 Hus Ho. unfold handle. rewrite Hus. unfold isr_common_handler.
  pose proof (kernel_handled n k Hk0 Hus) as Hk.
  set (k' := with_scheduling _ k) in *. cbv zeta.
  assert (scheduler_next_directory (scheduling k') = 0) as Hd by done.
  assert (in_hand ctx k') as Ho' by done. clearbody k'. clear Hk0 Ho.
  set (vector := load32 (kmem k') (ctx + c_vector)).
  destruct (vector =? 0x20).
  { pose proof (timer_good n ctx k' Hk Hd Ho') as H. destruct (handle_timer ctx k') as [o k1].
    by exists o, k1. }
  destruct (vector =? 0x21).
  { unfold handle_keyboard, keyboard_irq, Io.inb. destruct (in8 _ (ports k')) as [v q].
    eexists (Resumes ctx), _. split; [reflexivity|]. apply good_resumes; [|done].
    destruct Hk. split; try done. pose proof (u8_range v).
    apply (handle_scancode_spec (u8 v) (keys k')); [lia|done]. }
  destruct (vector =? 0x80); [by apply syscall_good|].
  destruct (_ && _).
  { do 2 eexists. split; [done|]. apply good_resumes; [by destruct Hk|done]. }
  destruct (vector <? 32); do 2 eexists; (split; [done|]); [|by apply good_resumes].
  split; [|done]. unfold handle_exception. apply console_handled; [by destruct Hk|].
  apply print_screen, print_number_screen, print_screen, Hk.
Qed.

(** The return path: what it writes, it writes at the home of the code it returns to; the
    data segments stay for kernel code, and user code loses those of ring 0. *)
Lemma isr_return_safe n f d g c v' k :
  handled n k → resumable f k → Cpu.isr_return f d g (machine (procs k)) = (c, v') →
  v' = with_ram (ram v') (if d =? 0 then machine (procs k) else load_page_directory d (machine (procs k))) ∧
  computes_safely (procs k) (ram v') ∧
  ∀ r, running (procs k) = Some r →
    Cpu.data c = if user_runs (procs k) r then Cpu.clear_privileged g else g.
Proof.
  intros Hk (Hf & r & Er & Hcs & Hfit) E. destruct (ha_system _ _ Hk) as (F & Hr & Ht & Hsp).
  change (load32 (memory (procs k)) (f + c_cs)) with (load32 (ram (machine (procs k))) (f + 44)) in *.
  pose proof (computes_safely_refl _ F n Hr) as Hrefl. pose proof (kr_bytes _ _ _ Hr) as Hb.
  destruct (user_runs (procs k) r) eqn:Eu.
  - destruct Hfit as [Hring Hss].
    rewrite Cpu.isr_return_user in E; [|done|done|by apply negb_true_iff, Z.eqb_neq|done|exact Hss].
    assert (∀ w : vm S, w = with_ram (ram w) w) as Hid by (by intros []).
    injection E as <- <-. split; [apply Hid|]. split; [by destruct (d =? 0)|]. intros r' Er'.
    assert (r' = r) as -> by congruence. by rewrite Eu.
  - destruct Hfit as (Hring & Hsaved & Hh).
    destruct (Cpu.isr_return_kernel f d g (machine (procs k)) Hb Hf) as (m' & E' & Hb' & Hs' & _);
      [by rewrite Hring|exact Hcs|exact Hsaved|]. rewrite E' in E. injection E as <- <-.
    split; [done|]. split.
    + eapply own_computes; [apply Hr|by apply (home_own _ F r _ 12)|exact Hb'|exact Hs'].
    + intros r' Er'. assert (r' = r) as -> by congruence. by rewrite Eu.
Qed.

(** The two kinds of resumption. *)
Lemma resume_segments n f k1 k2 r :
  handled n k1 → resumable f k1 → resume k1 (Resumes f) k2 → running (procs k1) = Some r →
  running (procs k2) = Some r ∧ processes (procs k2) = processes (procs k1) ∧
  selectors k2 = if user_runs (procs k1) r then Cpu.clear_privileged (selectors k1) else selectors k1.
Proof.
  intros Hk Hf Hs Er. inversion Hs as [f' c v E|]; subst.
  destruct (isr_return_safe n f _ _ c v k1 Hk Hf E) as (_ & _ & Hdata). by rewrite <- (Hdata r Er).
Qed.

Lemma resume_ok n o k1 k2 : good_end n o k1 → resume k1 o k2 → kernel_ok n k2.
Proof.
  intros (Hk & Hr & Hf) Hs. pose proof Hk as [Hsys Hn Hlow Hframes Hsel Htss (c & Ec & Ed) Hscr Hkey Htk].
  destruct Hs as [f c' v E|].
  - destruct (isr_return_safe n f _ _ c' v k1 Hk (Hf f eq_refl) E) as (Ev & Hc & Hdata).
    pose proof (safe_compute n (procs k1) (ram v) Hsys Hc) as (F & [Hp Hb Hd Ha] & Ht & Hsp).
    assert (frames v = frames (machine (procs k1)) ∧ cr3 v =
      if scheduler_next_directory (scheduling k1) =? 0 then cr3 (machine (procs k1))
      else scheduler_next_directory (scheduling k1)) as [Ef Ecr].
    { rewrite Ev. by destruct (_ =? 0). }
    split; try done.
    + exists F. split; [|split; [by apply (table_ok_ext (with_memory (ram v) (procs k1)))|]]; cycle 1.
      { by apply (spaces_ext (with_memory (ram v) (procs k1))). }
      split; [by cbn; rewrite Ef|done|done|done].
    + apply (frames_ext (with_memory (ram v) (procs k1))); [done|done|done|]. by apply frames_computes, Hc.
    + intros r Er Eu. change (Cpu.usable (Cpu.data c') = true). rewrite (Hdata r Er).
      change (user_runs (procs k1) r = false) in Eu. by rewrite Eu.
    + exists c. split; [done|]. rewrite Ed. exact Ecr.
  - split; try done. exists c. split; [done|]. rewrite Ed, (Hr eq_refl). done.
Qed.

(** The directory in use is that of the running process. *)
Lemma current_space n k : kernel_ok n k → space_directory (procs k) (cr3 (machine (procs k))).
Proof.
  intros [(F & _ & Ht & _) _ _ _ _ _ (c & Ec & ->) _ _ _]. destruct (tk_running _ _ Ht) as (r & Er & Hb & _).
  destruct (table_running _ _ _ Ht Er) as [_ Hu]. unfold current in Ec. rewrite Er in Ec. injection Ec as <-.
  destruct (decide (r = 0)) as [->|Hr0].
  - left. apply (tk_bootstrap _ _ Ht).
  - right. exists r. split; [split; [lia|done]|done].
Qed.

(** Creation keeps it. *)
Lemma stays_ok n k p : kernel_ok n k → safe n p → stays (procs k) p → kernel_ok n (with_procs p k).
Proof.
  intros [_ Hp Hl Hf Hsel Ht (c & Ec & Ed) ???] Hs (E1 & E2 & E3 & E4 & E5 & E6).
  split; try done; change (procs (with_procs p k)) with p; [by apply E5|by apply E6| |by rewrite E3, E4|].
  - intros r Er Eu. rewrite E2 in Er. apply (Hsel r Er). unfold user_runs in *.
    assert (slot (procs k) r = slot p r) as -> by (unfold current in E4; rewrite E2, Er in E4; by injection E4).
    done.
  - exists c. by rewrite E4, E1.
Qed.

(** Every step keeps the invariant. *)
Lemma kstep_ok n k k' : kernel_ok n k → kstep k k' → kernel_ok n k'.
Proof.
  intros Hk Hs. destruct Hs as [m' k Hc|m' k Hc|g r k Er Eu Hg|o k|k|p k|b k|e a r p k Ha Hn E
    |img sz r p k Ha Hn Hsz E|c h vec err ctx c1 m1 o k1 k2 k Hrun Hv He E Eh Hres].
  - by apply computes_ok.
  - apply computes_ok; [done|]. apply (user_code_safe n _ _ _ (ko_system _ _ Hk) (current_space n k Hk) Hc).
  - destruct Hk. split; try done. intros r' Er' Eu'. change (running (procs k) = Some r') in Er'.
    change (user_runs (procs k) r' = false) in Eu'. congruence.
  - destruct Hk. split; try done. by apply perform_spec.
  - destruct Hk. split; try done. pose proof (getchar_spec (keys k) ko_keys0) as H.
    cbn [keys with_keys]. destruct (keyboard_getchar (keys k)). apply H.
  - by destruct Hk.
  - by destruct Hk.
  - apply (stays_ok n k p Hk); [apply (safe_create n e a _ _ r (ko_system _ _ Hk)); try done; apply Hk|].
    apply (create_stays n e a _ _ r (safe_system _ _ (ko_system _ _ Hk))); try done. apply Hk.
  - apply (stays_ok n k p Hk); [apply (safe_create_user n img sz _ _ r (ko_system _ _ Hk)); try done; apply Hk|].
    apply (create_user_stays n img sz _ _ r (safe_system _ _ (ko_system _ _ Hk))); try done. apply Hk.
  - destruct (entry_ok n c h vec err ctx c1 m1 k Hk Hrun Hv He E) as (Hc & Ho & _).
    assert (Cpu.usable (selectors k) = true) as Hus.
    { unfold handle in Eh. change (selectors (with_kmem m1 k)) with (selectors k) in Eh.
      by destruct (Cpu.usable (selectors k)). }
    destruct (handler_good n ctx (with_kmem m1 k) (computes_ok n k m1 Hk Hc) Hus Ho) as (o' & k1' & E' & Hg).
    assert (o' = o ∧ k1' = k1) as [-> ->] by (split; congruence). by apply (resume_ok n o k1).
Qed.

Lemma kreachable_ok n k0 k : kernel_ok n k0 → kreachable k0 k → kernel_ok n k.
Proof. intros H0 Hr. induction Hr as [|k k' _ IH Hs]; [done|]. by apply (kstep_ok n k). Qed.
End lemmas.
End Steps.
