(* ===== verification/Shell.v ===== *)
(** The shell, [shell/shell.c]: the line editor, the splitting of the command line and
    the commands, on the file system of the ATA driver. *)

From stdpp Require Import strings.
From S2P Require Import Prelude Interfaces Io Block Ata Fat32 Fat32Volume Fat32Files Terminal State.

Module Shell.
Import Io Ata Fat32 Fat32Volume Fat32Files Terminal State.

(** ** Definitions *)

Definition COMMAND_BUFFER_SIZE : Z := 128.
Definition COMMAND_SIZE : Z := 32.
Definition PARAMETER_SIZE : Z := 96.

(** The variables of the file and what they work on.  [shell_ata] is the object that
    [device] of [shell_fat32] points to, and the hardware behind the ports is the one
    that object drives: both are the device of [shell_fat32]. *)
Record shell (P : Type) := mk_shell {
  command_buffer : list Z;
  command : list Z;
  argument : list Z;
  command_length : Z;
  background : Z;
  shell_fat32 : fat32_fs (ata P);
  shell_fat32_status : fat32_result;
  cat_buffer : list Z;
  screen_of : terminal;
}.
Arguments mk_shell {P}.
Arguments command_buffer {P}.
Arguments command {P}.
Arguments argument {P}.
Arguments command_length {P}.
Arguments background {P}.
Arguments shell_fat32 {P}.
Arguments shell_fat32_status {P}.
Arguments cat_buffer {P}.
Arguments screen_of {P}.

(** *** Strings *)

(** The rest of an array behind its end reads as terminators. *)
Fixpoint strcmp (a b : list Z) : Z :=
  match a, b with
  | x :: a', y :: b' =>
      if negb (x =? 0) && negb (y =? 0) then if negb (x =? y) then 1 else strcmp a' b'
      else if x =? y then 0 else 1
  | x :: _, [] => if x =? 0 then 0 else 1
  | [], y :: _ => if y =? 0 then 0 else 1
  | [], [] => 0
  end.

(** The loops of [split_command]; [rest] is what is left of the input from [i] on. *)
Fixpoint skip_spaces (rest : list Z) : list Z :=
  match rest with
  | c :: rest' => if c =? 32 then skip_spaces rest' else rest
  | [] => []
  end.

Fixpoint copy_command (rest : list Z) (command : list Z) (command_index : Z) : list Z * list Z * Z :=
  match rest with
  | c :: rest' =>
      if negb (c =? 32) then
        if command_index <? COMMAND_SIZE - 1
        then copy_command rest' (setZ command command_index c) (command_index + 1)
        else copy_command rest' command command_index
      else (rest, command, command_index)
  | [] => ([], command, command_index)
  end.

Fixpoint copy_parameters (rest : list Z) (parameters : list Z) (parameter_index : Z) : list Z * Z :=
  match rest with
  | c :: rest' =>
      if parameter_index <? PARAMETER_SIZE - 1
      then copy_parameters rest' (setZ parameters parameter_index c) (parameter_index + 1)
      else copy_parameters rest' parameters parameter_index
  | [] => (parameters, parameter_index)
  end.

(** [length] is the global [command_length]; the results are [command] and [parameters]. *)
Definition split_command (length : Z) (input command parameters : list Z) : list Z * list Z :=
  let rest := take (Z.to_nat length) input in
  let rest := skip_spaces rest in
  let '(rest, command, command_index) := copy_command rest command 0 in
  let command := setZ command command_index 0 in
  let rest := skip_spaces rest in
  let '(parameters, parameter_index) := copy_parameters rest parameters 0 in
  (command, setZ parameters parameter_index 0).

Section code.
Context {P : Type} {IO : Ports P}.
Implicit Types (s : shell P).

Definition with_line (b : list Z) (n : Z) s : shell P :=
  mk_shell b (command s) (argument s) n (background s) (shell_fat32 s) (shell_fat32_status s)
    (cat_buffer s) (screen_of s).
Definition with_words (c a : list Z) s : shell P :=
  mk_shell (command_buffer s) c a (command_length s) (background s) (shell_fat32 s)
    (shell_fat32_status s) (cat_buffer s) (screen_of s).
Definition with_fat32 (f : fat32_fs (ata P)) s : shell P :=
  mk_shell (command_buffer s) (command s) (argument s) (command_length s) (background s) f
    (shell_fat32_status s) (cat_buffer s) (screen_of s).
Definition with_status (r : fat32_result) s : shell P :=
  mk_shell (command_buffer s) (command s) (argument s) (command_length s) (background s)
    (shell_fat32 s) r (cat_buffer s) (screen_of s).
Definition with_cat_buffer (b : list Z) s : shell P :=
  mk_shell (command_buffer s) (command s) (argument s) (command_length s) (background s)
    (shell_fat32 s) (shell_fat32_status s) b (screen_of s).
Definition on_console (f : terminal → terminal) s : shell P :=
  mk_shell (command_buffer s) (command s) (argument s) (command_length s) (background s)
    (shell_fat32 s) (shell_fat32_status s) (cat_buffer s) (f (screen_of s)).

Definition shell_ata s : ata P := device (shell_fat32 s).
Definition with_ata (d : ata P) s : shell P :=
  with_fat32 (with_io d (sector_buffer (shell_fat32 s)) (shell_fat32 s)) s.

(** A port operation on the hardware. *)
Definition on_ports (f : P → P) s : shell P :=
  with_ata (with_hardware (f (hardware (shell_ata s))) (shell_ata s)) s.
Definition from_ports {A} (f : M P A) : M (shell P) A := λ s,
  let '(v, p) := f (hardware (shell_ata s)) in (v, with_ata (with_hardware p (shell_ata s)) s).

Definition shell_filesystem_init s : shell P :=
  let s := with_ata (ata_pio_init (shell_ata s)) s in
  if negb (ata_pio_is_present (Some (shell_ata s))) then with_status FAT32_EIO s
  else
    let '(r, f) := fat32_mount (Some (shell_ata s)) (shell_fat32 s) in
    with_status r (with_fat32 f s).

Definition filesystem_error (result : fat32_result) s : shell P :=
  let s := on_console (print (text "filesystem: ") RED) s in
  let s := on_console (print (text (fat32_result_string result)) YELLOW) s in
  if bool_decide (result = FAT32_EIO) then
    let s := on_console (print (text " (") YELLOW) s in
    let s := on_console (print (text (ata_pio_error_string (ata_pio_last_error (Some (shell_ata s))))) YELLOW) s in
    on_console (print (text ")") YELLOW) s
  else s.

Definition print_directory_entry (entry : dirent) (t : terminal) : Z * terminal :=
  let t := print (name entry) WHITE t in
  let t := if negb ((attributes entry .& 0x10) =? 0) then putchar 47 t else t in
  (0, putchar 10 t).

(** *** The commands *)

Definition banner : list Z :=
  text "----------------------------------LevShell 0.1----------------------------------".

Definition command_help s : shell P :=
  let s := on_console (print (text "Available commands:") YELLOW) s in
  let s := on_console (print (10 :: text "help -- this command") WHITE) s in
  let s := on_console (print (10 :: text "clear -- clears the screen") WHITE) s in
  let s := on_console (print (10 :: text "about -- shows information about this OS") WHITE) s in
  let s := on_console (print (10 :: text "ls [path] -- list a FAT32 directory") WHITE) s in
  let s := on_console (print (10 :: text "cat path -- print a FAT32 file") WHITE) s in
  let s := on_console (print (10 :: text "clock -- show current time") WHITE) s in
  let s := on_console (print (10 :: text "echo -- repeats your words") WHITE) s in
  on_console (print (10 :: text "memory -- shows memory size in Bytes" ++ [10]) WHITE) s.

Definition command_clear s : shell P :=
  let s := on_console (clear (background s)) s in
  on_console (print banner ((BLUE ≪ 4) .| WHITE)) s.

Definition read_clock (reg : Z) : M (shell P) Z := λ s,
  let s := on_ports (select_cmos_reg reg) s in from_ports read_cmos s.

Definition command_clock s : shell P :=
  let '(seconds, s) := read_clock 0x00 s in
  let '(minutes, s) := read_clock 0x02 s in
  let '(hours, s) := read_clock 0x04 s in
  let '(monthday, s) := read_clock 0x07 s in
  let '(month, s) := read_clock 0x08 s in
  let '(year, s) := read_clock 0x09 s in
  let '(century, s) := read_clock 0x32 s in
  let s := on_console (print (text "Year: ") YELLOW) s in
  let s := on_console (print_hex_byte century) s in
  let s := on_console (print_hex_byte year) s in
  let s := on_console (print (10 :: text "Date: ") YELLOW) s in
  let s := on_console (print_hex_byte month) s in
  let s := on_console (putchar 47) s in
  let s := on_console (print_hex_byte monthday) s in
  let s := on_console (print (10 :: text "Time: ") YELLOW) s in
  let s := on_console (print_hex_byte hours) s in
  let s := on_console (putchar 58) s in
  let s := on_console (print_hex_byte minutes) s in
  let s := on_console (putchar 58) s in
  let s := on_console (print_hex_byte seconds) s in
  on_console (putchar 10) s.

(** [address] is that of [get_cmos_memory_size]: the code does not call the function. *)
Definition command_memory (address : Z) s : shell P :=
  let memory := u32 address in
  let s := on_console (print (text "Available RAM: ") YELLOW) s in
  let s := on_console (print_number memory) s in
  on_console (print (text " Bytes" ++ [10]) GREEN) s.

Definition command_about s : shell P :=
  let s := on_console (print (text "--LevOS - Shell 0.1--") YELLOW) s in
  let s := on_console (print (10 :: text "Work in progress" ++ [10]) RED) s in
  let s := on_console (print (text ".") (WHITE ≪ 4)) s in
  let s := on_console (print (text ".") (RED ≪ 4)) s in
  let s := on_console (print (text ".") (YELLOW ≪ 4)) s in
  let s := on_console (print (text ".") (BLUE ≪ 4)) s in
  let s := on_console (print (text ".") (GREEN ≪ 4)) s in
  let s := on_console (print (text ".") (CYAN ≪ 4)) s in
  let s := on_console (print (text ".") (BROWN ≪ 4)) s in
  let s := on_console (print (10 :: text ".") (LIGHT_BLUE ≪ 4)) s in
  let s := on_console (print (text ".") (LIGHT_CYAN ≪ 4)) s in
  let s := on_console (print (text ".") (LIGHT_RED ≪ 4)) s in
  let s := on_console (print (text ".") (LIGHT_GREEN ≪ 4)) s in
  let s := on_console (print (text ".") (GRAY ≪ 4)) s in
  let s := on_console (print (text ".") (DARK_GRAY ≪ 4)) s in
  on_console (print (text "." ++ [10]) (LIGHT_PURPLE ≪ 4)) s.

Definition command_ls s : option (shell P) :=
  let path := if nthZ (argument s) 0 =? 0 then [47] else argument s in
  match fat32_list_directory (Some path) print_directory_entry (shell_fat32 s) (screen_of s) with
  | None => None
  | Some (result, (f, t)) =>
      let s := on_console (λ _, t) (with_fat32 f s) in
      Some (if bool_decide (result = FAT32_OK) then s else filesystem_error result s)
  end.

Definition command_cat s : option (shell P) :=
  if nthZ (argument s) 0 =? 0 then Some (on_console (print (text "cat: missing path") RED) s)
  else
    match fat32_read_file (Some (argument s)) (Some (cat_buffer s)) 32768 0 (shell_fat32 s) with
    | None => None
    | Some (result, bytes_read, buffer, f) =>
        let s := with_cat_buffer (default (cat_buffer s) buffer) (with_fat32 f s) in
        Some (if bool_decide (result = FAT32_OK)
              then on_console (for_loop 0 bytes_read (λ i, putchar (i8 (nthZ (cat_buffer s) i)))) s
              else filesystem_error result s)
    end.

(** [None] when the file system's loops do not end. *)
Definition process_command (memory_address : Z) s : option (shell P) :=
  let '(c, a) := split_command (command_length s) (command_buffer s) (command s) (argument s) in
  let s := with_words c a s in
  let s := on_console (putchar 10) s in
  if strcmp c (text "help") =? 0 then Some (command_help s)
  else if strcmp c (text "clear") =? 0 then Some (command_clear s)
  else if strcmp c (text "echo") =? 0 then Some (on_console (print a 0x0F) s)
  else if strcmp c (text "clock") =? 0 then Some (command_clock s)
  else if strcmp c (text "memory") =? 0 then Some (command_memory memory_address s)
  else if strcmp c (text "about") =? 0 then Some (command_about s)
  else if strcmp c (text "ls") =? 0 then command_ls s
  else if strcmp c (text "cat") =? 0 then command_cat s
  else
    let s := on_console (print (text "Unknown command: ") RED) s in
    Some (on_console (print c YELLOW) s).

(** *** The loop of the shell *)

Definition prompt s : shell P :=
  on_console (print (10 :: text "> ") ((background s ≪ 4) .| WHITE)) s.

(** What [shell] prints before its loop. *)
Definition shell_start s : shell P :=
  let s := on_console (print banner ((BLUE ≪ 4) .| WHITE)) s in
  let s :=
    if bool_decide (shell_fat32_status s = FAT32_OK) then s
    else
      let s := on_console (print (10 :: text "filesystem: ") RED) s in
      if negb (ata_pio_is_present (Some (shell_ata s))) then
        let s := on_console (print (text (ata_pio_error_string (ata_pio_last_error (Some (shell_ata s))))) YELLOW) s in
        on_console (print (text " (attach a hard disk image as the primary master)") YELLOW) s
      else on_console (print (text (fat32_result_string (shell_fat32_status s))) YELLOW) s in
  prompt s.

(** One round of the loop with the character [c] that [keyboard_getchar] gave; with 0
    the processor waits for the next interrupt. *)
Definition shell_key (memory_address : Z) (c : Z) s : option (shell P) :=
  if c =? 0 then Some s
  else if c =? 10 then
    let s := with_line (setZ (command_buffer s) (command_length s) 0) (command_length s) s in
    match process_command memory_address s with
    | None => None
    | Some s => Some (prompt (with_line (command_buffer s) 0 s))
    end
  else if c =? 8 then
    if 0 <? command_length s then
      let n := command_length s -u 1 in
      Some (on_console (putchar 8) (with_line (setZ (command_buffer s) n 0) n s))
    else Some s
  else if command_length s <? COMMAND_BUFFER_SIZE - 1 then
    Some (on_console (putchar c)
      (with_line (setZ (command_buffer s) (command_length s) c) (command_length s +u 1) s))
  else Some s.

(** The characters typed, one after the other. *)
Fixpoint shell_keys (memory_address : Z) (l : list Z) s : option (shell P) :=
  match l with
  | [] => Some s
  | c :: l => s ← shell_key memory_address c s; shell_keys memory_address l s
  end.

End code.

(** ** Specification *)

(** The first word of a line, and what follows the spaces behind it. *)
Fixpoint first_word (l : list Z) : list Z :=
  match l with
  | c :: l => if c =? 32 then [] else c :: first_word l
  | [] => []
  end.
Fixpoint behind_word (l : list Z) : list Z :=
  match l with
  | c :: l' => if c =? 32 then l else behind_word l'
  | [] => []
  end.
Definition line_command (l : list Z) : list Z := take 31 (first_word (skip_spaces l)).
Definition line_argument (l : list Z) : list Z := take 95 (skip_spaces (behind_word (skip_spaces l))).

(** [a] is an array of [n] characters that holds the string [l]. *)
Definition holds_string (n : Z) (a l : list Z) : Prop :=
  lenZ a = n ∧ ∃ junk, a = l ++ 0 :: junk.

Definition printable (c : Z) : Prop := 32 ≤ c < 127.

(** What [filesystem_error] prints; [code] is the driver's last error. *)
Definition error_report (r : fat32_result) (code : Z) (t : terminal) : terminal :=
  let t := print (text (fat32_result_string r)) YELLOW (print (text "filesystem: ") RED t) in
  if bool_decide (r = FAT32_EIO) then
    print (text ")") YELLOW (print (text (ata_pio_error_string code)) YELLOW (print (text " (") YELLOW t))
  else t.

(** The path names a file that [cat] can show. *)
Definition readable_file {P} {IO : Ports P} {AD : AtaDrive P} (fs : fat32_fs (ata P)) (path : list Z) : Prop :=
  volume_readable fs ∧ ∃ ws e, components path 0 ws ∧ resolves fs (root_cluster fs) ws e ∧
    ¬ is_directory e ∧ size e ≤ 32768 ∧
    (0 < size e → ∃ l, chain_for fs (first_cluster e) (size e) l ∧ lenZ l ≤ cluster_count fs).

(** The path leads to the file [e], in the clusters [l]. *)
Definition names_file {P} {IO : Ports P} {AD : AtaDrive P} (fs : fat32_fs (ata P)) (path : list Z)
    (e : dirent) (l : list Z) : Prop :=
  ∃ ws, components path 0 ws ∧ resolves fs (root_cluster fs) ws e ∧ ¬ is_directory e ∧
    size e ≤ 32768 ∧ (0 < size e → chain_for fs (first_cluster e) (size e) l).

(** The state of the shell: its arrays, the line inside its buffer, a screen, and a
    file system that is sound if it is mounted. *)
Record shell_ok {P} {IO : Ports P} {AD : AtaDrive P} (s : shell P) : Prop := {
  sh_buffer : lenZ (command_buffer s) = 128;
  sh_length : 0 ≤ command_length s ≤ 127;
  sh_command : lenZ (command s) = 32;
  sh_argument : lenZ (argument s) = 96;
  sh_cat : lenZ (cat_buffer s) = 32768;
  sh_screen : screen_ok (screen_of s);
  sh_volume : mounted (shell_fat32 s) = true → fs_ok (shell_fat32 s);
}.

(** ** Lemmas *)

Lemma setZ_take (l : list Z) i v : 0 ≤ i < lenZ l →
  take (Z.to_nat (i + 1)) (setZ l i v) = take (Z.to_nat i) l ++ [v].
Proof.
  intros Hi. rewrite setZ_in by lia. unfold lenZ in Hi.
  replace (Z.to_nat (i + 1)) with (Datatypes.S (Z.to_nat i)) by lia.
  rewrite (take_S_r _ _ v) by (apply list_lookup_insert_eq; lia).
  by rewrite take_insert_ge by lia.
Qed.

Lemma setZ_string n (a : list Z) i : lenZ a = n → 0 ≤ i < n →
  holds_string n (setZ a i 0) (take (Z.to_nat i) a).
Proof.
  intros Hl Hi. split; [by rewrite lenZ_setZ by lia|]. exists (drop (Z.to_nat (i + 1)) (setZ a i 0)).
  rewrite <- (take_drop (Z.to_nat (i + 1)) (setZ a i 0)) at 1. rewrite setZ_take by lia.
  by rewrite <- app_assoc.
Qed.

Lemma copy_command_spec rest command k :
  lenZ command = 32 → 0 ≤ k ≤ 31 →
  let '(rest', command', k') := copy_command rest command k in
  rest' = behind_word rest ∧ lenZ command' = 32 ∧ 0 ≤ k' ≤ 31 ∧
  take (Z.to_nat k') command' = take (Z.to_nat k) command ++ take (Z.to_nat (31 - k)) (first_word rest).
Proof.
  revert command k. induction rest as [|c rest IH]; intros command k Hl Hk; cbn [copy_command first_word behind_word].
  { rewrite take_nil, app_nil_r. done. }
  destruct (Z.eqb_spec c 32) as [->|Hc]; cbn [negb].
  { rewrite take_nil, app_nil_r. done. }
  unfold COMMAND_SIZE. destruct (Z.ltb_spec k (32 - 1)).
  - pose proof (IH (setZ command k c) (k + 1)) as IH'. rewrite lenZ_setZ in IH' by lia.
    specialize (IH' Hl ltac:(lia)). destruct (copy_command rest (setZ command k c) (k + 1)) as [[r' c'] k'].
    destruct IH' as (-> & H2 & H3 & H4). split; [done|split; [done|split; [done|]]].
    rewrite H4, setZ_take by lia. replace (Z.to_nat (31 - k)) with (Datatypes.S (Z.to_nat (31 - (k + 1)))) by lia.
    by rewrite <- app_assoc.
  - pose proof (IH command k Hl Hk) as IH'. destruct (copy_command rest command k) as [[r' c'] k'].
    destruct IH' as (-> & H2 & H3 & H4). split; [done|split; [done|split; [done|]]].
    rewrite H4. by replace (Z.to_nat (31 - k)) with 0%nat by lia.
Qed.

Lemma copy_parameters_spec rest parameters k :
  lenZ parameters = 96 → 0 ≤ k ≤ 95 →
  let '(parameters', k') := copy_parameters rest parameters k in
  lenZ parameters' = 96 ∧ 0 ≤ k' ≤ 95 ∧
  take (Z.to_nat k') parameters' = take (Z.to_nat k) parameters ++ take (Z.to_nat (95 - k)) rest.
Proof.
  revert parameters k. induction rest as [|c rest IH]; intros parameters k Hl Hk; cbn [copy_parameters].
  { rewrite take_nil, app_nil_r. done. }
  unfold PARAMETER_SIZE. destruct (Z.ltb_spec k (96 - 1)).
  - pose proof (IH (setZ parameters k c) (k + 1)) as IH'. rewrite lenZ_setZ in IH' by lia.
    specialize (IH' Hl ltac:(lia)). destruct (copy_parameters rest (setZ parameters k c) (k + 1)) as [p' k'].
    destruct IH' as (H2 & H3 & H4). split; [done|split; [done|]].
    rewrite H4, setZ_take by lia. replace (Z.to_nat (95 - k)) with (Datatypes.S (Z.to_nat (95 - (k + 1)))) by lia.
    by rewrite <- app_assoc.
  - pose proof (IH parameters k Hl Hk) as IH'. destruct (copy_parameters rest parameters k) as [p' k'].
    destruct IH' as (H2 & H3 & H4). split; [done|split; [done|]].
    rewrite H4. by replace (Z.to_nat (95 - k)) with 0%nat by lia.
Qed.

(** [split_command] stays inside its arrays and finds the words of the line. *)
Lemma split_command_spec n input command parameters :
  lenZ command = 32 → lenZ parameters = 96 →
  let l := take (Z.to_nat n) input in
  let '(c, a) := split_command n input command parameters in
  holds_string 32 c (line_command l) ∧ holds_string 96 a (line_argument l).
Proof.
  intros Hc Hp. cbv zeta. unfold split_command, line_command, line_argument.
  set (l := skip_spaces _).
  pose proof (copy_command_spec l command 0 Hc ltac:(lia)) as H1.
  destruct (copy_command l command 0) as [[rest c'] k]. destruct H1 as (-> & H2 & H3 & H4).
  pose proof (copy_parameters_spec (skip_spaces (behind_word l)) parameters 0 Hp ltac:(lia)) as H5.
  destruct (copy_parameters _ parameters 0) as [p' j]. destruct H5 as (H6 & H7 & H8).
  assert (take (Z.to_nat k) c' = take 31 (first_word l)) as <- by exact H4.
  assert (take (Z.to_nat j) p' = take 95 (skip_spaces (behind_word l))) as <- by exact H8.
  split; apply setZ_string; lia.
Qed.

Lemma strcmp_string n a l w : holds_string n a l → Forall (λ c, c ≠ 0) l → Forall (λ c, c ≠ 0) w →
  strcmp a w = if decide (l = w) then 0 else 1.
Proof.
  intros [_ [junk ->]] Hl Hw. revert w Hw. induction Hl as [|c l Hc Hl IH]; intros w Hw; cbn [app strcmp].
  - destruct Hw as [|d w Hd Hw]; [done|]. by destruct d.
  - destruct Hw as [|d w Hd Hw]; cbn [strcmp].
    + by rewrite (proj2 (Z.eqb_neq c 0)) by done.
    + rewrite (proj2 (Z.eqb_neq c 0)), (proj2 (Z.eqb_neq d 0)) by done. cbn [negb andb].
      destruct (Z.eqb_spec c d) as [->|Hne]; cbn [negb].
      * rewrite IH by done. repeat case_decide; congruence.
      * rewrite decide_False by congruence. done.
Qed.

Section lemmas.
Context {P : Type} {IO : Ports P} {AD : AtaDrive P}.
Implicit Types (s : shell P).

Lemma on_console_ok f s :
  (∀ t, screen_ok t → screen_ok (f t)) → shell_ok s → shell_ok (on_console f s).
Proof. intros Hf []. split; try done. by apply Hf. Qed.

(** A file system whose device went through operations of other hardware. *)
Lemma hardware_fs_ok (p : P) (f : fat32_fs (ata P)) :
  (settled (hardware (device f)) → settled p) →
  fs_ok f → fs_ok (with_io (with_hardware p (device f)) (sector_buffer f) f).
Proof.
  intros Hp [H1 [H2 Hi] H3 H4 H5 H6 H7 H8 H9 H10 H11 H12]. split; try done.
  split; [exact H2|]. intros Hd. by apply Hp, Hi.
Qed.

Lemma on_ports_ok f s :
  (settled (hardware (shell_ata s)) → settled (f (hardware (shell_ata s)))) →
  shell_ok s → shell_ok (on_ports f s).
Proof. intros Hf []. split; try done. intros Hm. by apply hardware_fs_ok, sh_volume0. Qed.

Lemma from_ports_ok {A} (f : M P A) s :
  (settled (hardware (shell_ata s)) → settled (snd (f (hardware (shell_ata s))))) →
  shell_ok s → shell_ok (snd (from_ports f s)).
Proof.
  intros Hf []. unfold from_ports. destruct (f _) as [v p]. split; try done.
  intros Hm. by apply hardware_fs_ok, sh_volume0.
Qed.

Lemma read_clock_ok reg s : shell_ok s →
  shell_ok (snd (read_clock reg s)) ∧ command_length (snd (read_clock reg s)) = command_length s.
Proof.
  intros Hs. split.
  { apply from_ports_ok.
    - unfold read_cmos. destruct (inb 0x71 _) as [v p] eqn:E. apply (inb_undisturbed 0x71 _ v p); [|done].
      unfold elsewhere. lia.
    - apply on_ports_ok; [|done]. apply (outb_undisturbed 0x70). unfold elsewhere. lia. }
  unfold read_clock, from_ports. by destruct (read_cmos _).
Qed.

Lemma filesystem_error_ok r s : shell_ok s → shell_ok (filesystem_error r s).
Proof.
  intros Hs. unfold filesystem_error. destruct (bool_decide _);
  repeat (apply on_console_ok; [auto with levos|]); done.
Qed.

Lemma print_directory_entry_ok e t : screen_ok t → screen_ok (snd (print_directory_entry e t)).
Proof. intros Ht. unfold print_directory_entry. cbn [snd]. destruct (negb _); auto with levos. Qed.

Lemma command_help_ok s : shell_ok s → shell_ok (command_help s).
Proof. intros Hs. unfold command_help. by repeat (apply on_console_ok; [auto with levos|]). Qed.

Lemma command_clear_ok s : shell_ok s → shell_ok (command_clear s).
Proof. intros Hs. unfold command_clear. by repeat (apply on_console_ok; [auto with levos|]). Qed.

Lemma command_memory_ok a s : shell_ok s → shell_ok (command_memory a s).
Proof. intros Hs. unfold command_memory. by repeat (apply on_console_ok; [auto with levos|]). Qed.

Lemma command_about_ok s : shell_ok s → shell_ok (command_about s).
Proof. intros Hs. unfold command_about. by repeat (apply on_console_ok; [auto with levos|]). Qed.

Lemma command_clock_ok s : shell_ok s →
  shell_ok (command_clock s) ∧ command_length (command_clock s) = command_length s.
Proof.
  intros Hs. unfold command_clock. generalize (eq_refl (command_length s)).
  generalize (command_length s) at 1 3. intros n Hn.
  do 7 (match goal with |- context [read_clock ?r ?x] =>
    destruct (read_clock_ok r x Hs) as [Hs' Hn']; clear Hs; rewrite <- Hn in Hn'; clear Hn;
    destruct (read_clock r x) as [? ?]; cbn [snd] in Hs', Hn'; rename Hs' into Hs;
    symmetry in Hn'; rename Hn' into Hn end).
  split; [by repeat (apply on_console_ok; [auto with levos|])|done].
Qed.

Lemma command_ls_ok s : shell_ok s → ∃ s', command_ls s = Some s' ∧ shell_ok s' ∧
  command_length s' = command_length s.
Proof.
  intros Hs. unfold command_ls. set (path := if nthZ _ 0 =? 0 then _ else _). clearbody path.
  destruct (list_directory_safe print_directory_entry screen_ok (Some path) (shell_fat32 s) (screen_of s)
    print_directory_entry_ok (sh_screen _ Hs) (sh_volume _ Hs)) as (r & f & t & -> & Ht & Hf).
  assert (shell_ok (on_console (λ _, t) (with_fat32 f s))) as Hs' by (by destruct Hs).
  eexists. split; [done|]. destruct (bool_decide (r = FAT32_OK)); [done|].
  split; [by apply filesystem_error_ok|]. unfold filesystem_error. by destruct (bool_decide _).
Qed.

Lemma for_putchar_ok (f : Z → Z) n t : screen_ok t → screen_ok (for_loop 0 n (λ i, putchar (f i)) t).
Proof.
  intros Ht. unfold for_loop. generalize (range 0 n). intros l. revert t Ht.
  induction l as [|i l IH]; intros t Ht; [done|]. by apply IH, putchar_screen.
Qed.

Lemma command_cat_ok s : shell_ok s → ∃ s', command_cat s = Some s' ∧ shell_ok s' ∧
  command_length s' = command_length s.
Proof.
  intros Hs. unfold command_cat. destruct (_ =? 0).
  { eexists. split; [done|]. split; [|done]. apply on_console_ok; [auto with levos|done]. }
  assert (∃ r n b f, fat32_read_file (Some (argument s)) (Some (cat_buffer s)) 32768 0 (shell_fat32 s) =
    Some (r, n, b, f) ∧ lenZ (default (cat_buffer s) b) = 32768 ∧ (mounted f = true → fs_ok f))
    as (r & n & b & f & -> & Hb & Hf).
  { destruct (mounted (shell_fat32 s)) eqn:Em; cycle 1.
    - unfold fat32_read_file. rewrite Em. cbn [negb]. do 4 eexists. split; [done|].
      split; [apply Hs|]. by rewrite Em.
    - pose proof (sh_volume _ Hs Em) as Hok. pose proof (ok_count _ Hok).
      destruct (read_file_total (Some (argument s)) (Some (cat_buffer s)) 32768 0 (shell_fat32 s)
        ltac:(lia)) as (r & n & b & f & E).
      assert (0 ≤ 32768 < 2 ^ 32) as Hcap by lia.
      assert (32768 ≤ lenZ (cat_buffer s)) as Hcat by (rewrite (sh_cat _ Hs); lia).
      destruct (read_file_spec _ _ _ _ _ _ _ _ _ Hok Hcap Hcat E)
        as (Hf & _ & _ & b' & -> & Hb & _).
      exists r, n, (Some b'), f. split; [exact E|]. split; [|done]. cbn. by rewrite Hb, (sh_cat _ Hs). }
  set (s1 := with_cat_buffer _ _). assert (shell_ok s1) as Hs1 by (by destruct Hs).
  eexists. split; [done|]. destruct (bool_decide (r = FAT32_OK)).
  - split; [|done]. apply on_console_ok; [|done]. intros t. apply for_putchar_ok.
  - split; [by apply filesystem_error_ok|]. unfold filesystem_error. by destruct (bool_decide _).
Qed.

Lemma process_command_ok a s : shell_ok s → ∃ s', process_command a s = Some s' ∧ shell_ok s' ∧
  command_length s' = command_length s.
Proof.
  intros Hs. unfold process_command.
  pose proof (split_command_spec (command_length s) (command_buffer s) (command s) (argument s)
    (sh_command _ Hs) (sh_argument _ Hs)) as H. cbv zeta in H.
  destruct (split_command _ _ _ _) as [c b]. destruct H as ([Hc _] & [Hb _]). cbv zeta.
  set (s1 := on_console (putchar 10) (with_words c b s)).
  assert (shell_ok s1) as Hs1.
  { apply on_console_ok; [auto with levos|]. by destruct Hs. }
  change (command_length s) with (command_length s1). clearbody s1. clear s Hs Hc Hb.
  destruct (_ =? 0); [eexists; split; [done|split; [by apply command_help_ok|done]]|].
  destruct (_ =? 0); [eexists; split; [done|split; [by apply command_clear_ok|done]]|].
  destruct (_ =? 0); [eexists; split; [done|split; [apply on_console_ok; [auto with levos|done]|done]]|].
  destruct (_ =? 0).
  { eexists. split; [done|]. by apply command_clock_ok. }
  destruct (_ =? 0); [eexists; split; [done|split; [by apply command_memory_ok|done]]|].
  destruct (_ =? 0); [eexists; split; [done|split; [by apply command_about_ok|done]]|].
  destruct (_ =? 0); [by apply command_ls_ok|].
  destruct (_ =? 0); [by apply command_cat_ok|].
  eexists. split; [done|]. split; [|done]. by do 2 (apply on_console_ok; [auto with levos|]).
Qed.

Lemma prompt_ok s : shell_ok s → shell_ok (prompt s).
Proof. intros Hs. apply on_console_ok; [auto with levos|done]. Qed.

Lemma with_line_ok b n s : shell_ok s → lenZ b = 128 → 0 ≤ n ≤ 127 → shell_ok (with_line b n s).
Proof. intros [] Hb Hn. by split. Qed.

Lemma shell_key_ok a c s : shell_ok s → ∃ s', shell_key a c s = Some s' ∧ shell_ok s'.
Proof.
  intros Hs. pose proof (sh_length _ Hs) as Hn. pose proof (sh_buffer _ Hs) as Hb. unfold shell_key.
  destruct (c =? 0); [by exists s|]. destruct (c =? 10).
  { set (s0 := with_line _ _ s). assert (shell_ok s0) as Hs0.
    { apply with_line_ok; [done|by rewrite lenZ_setZ by lia|done]. }
    destruct (process_command_ok a s0 Hs0) as (s1 & -> & Hs1 & _).
    eexists. split; [done|]. apply prompt_ok, with_line_ok; [done|apply Hs1|lia]. }
  destruct (c =? 8).
  { destruct (Z.ltb_spec 0 (command_length s)); [|by exists s]. rewrite u32_small by lia.
    eexists. split; [done|]. apply on_console_ok; [auto with levos|].
    apply with_line_ok; [done|by rewrite lenZ_setZ by lia|lia]. }
  unfold COMMAND_BUFFER_SIZE. destruct (Z.ltb_spec (command_length s) (128 - 1)); [|by exists s].
  rewrite u32_small by lia. eexists. split; [done|]. apply on_console_ok; [auto with levos|].
  apply with_line_ok; [done|by rewrite lenZ_setZ by lia|lia].
Qed.

Lemma shell_keys_ok a l s : shell_ok s → ∃ s', shell_keys a l s = Some s' ∧ shell_ok s'.
Proof.
  revert s. induction l as [|c l IH]; intros s Hs; [by exists s|]. cbn [shell_keys].
  destruct (shell_key_ok a c s Hs) as (s1 & -> & Hs1). by apply IH.
Qed.

(** The state before [shell_filesystem_init]. *)
Record shell_loaded s : Prop := {
  sl_buffer : lenZ (command_buffer s) = 128;
  sl_length : command_length s = 0;
  sl_command : lenZ (command s) = 32;
  sl_argument : lenZ (argument s) = 96;
  sl_cat : lenZ (cat_buffer s) = 32768;
  sl_screen : screen_ok (screen_of s);
  sl_mounted : mounted (shell_fat32 s) = false;
  sl_sector : bytes (sector_buffer (shell_fat32 s)) ∧
    lenZ (sector_buffer (shell_fat32 s)) = FAT32_MAX_SECTOR_SIZE;
  sl_drive : quiet (hardware (shell_ata s));
}.

Lemma shell_filesystem_init_ok s : shell_loaded s → shell_ok (shell_filesystem_init s).
Proof.
  intros []. unfold shell_filesystem_init.
  destruct (ata_pio_init_spec (shell_ata s) sl_drive0) as (Hready & Hidle & _).
  set (s1 := with_ata _ s). cbv zeta.
  assert (∀ f r, (mounted f = true → fs_ok f) → shell_ok (with_status r (with_fat32 f s1))) as Hok.
  { intros f r Hf. split; try done. cbn. lia. }
  assert (mounted (shell_fat32 s1) = true → fs_ok (shell_fat32 s1)) as Hno.
  { change (mounted (shell_fat32 s) = true → fs_ok (shell_fat32 s1)). by rewrite sl_mounted0. }
  destruct (negb _); [by apply (Hok (shell_fat32 s1))|].
  destruct (fat32_mount (Some (shell_ata s1)) (shell_fat32 s1)) as [r f] eqn:E. apply Hok.
  destruct sl_sector0 as [Hb Hl]. assert (device_ok (shell_ata s1)) as Hdev by (by split).
  destruct (fat32_mount_spec (shell_ata s1) (shell_fat32 s1) r f Hdev Hb Hl E)
    as [[_ ->]|[[_ ->]|(_ & ? & _)]]; [exact Hno|done|done].
Qed.

Lemma shell_start_ok s : shell_ok s → shell_ok (shell_start s).
Proof.
  intros Hs. unfold shell_start. cbv zeta. apply prompt_ok.
  destruct (bool_decide _); [apply on_console_ok; [auto with levos|done]|].
  destruct (negb _); by repeat (apply on_console_ok; [auto with levos|]).
Qed.

(** *** The path in the argument array *)

Lemma count_while_string f (l junk : list Z) :
  f 0 = false → count_while f (l ++ 0 :: junk) = count_while f l.
Proof.
  intros Hf. induction l as [|c l IH]; cbn [app count_while]; [by rewrite Hf|].
  by destruct (f c); rewrite ?IH.
Qed.

Lemma nthZ_string (l junk : list Z) i : i ≤ lenZ l → nthZ (l ++ 0 :: junk) i = nthZ l i.
Proof.
  intros Hi. destruct (decide (i = lenZ l)) as [->|]; [|by apply nthZ_app_l; lia].
  rewrite nthZ_app_r, Z.sub_diag by lia. by rewrite (nthZ_ge l) by lia.
Qed.

Lemma component_string (path junk : list Z) pos :
  0 ≤ pos ≤ lenZ path → component (path ++ 0 :: junk) pos = component path pos.
Proof.
  intros Hp. assert (∀ i, 0 ≤ i ≤ lenZ path →
    drop (Z.to_nat i) (path ++ 0 :: junk) = drop (Z.to_nat i) path ++ 0 :: junk) as Hd.
  { intros i Hi. unfold lenZ in Hi. apply drop_app_le. lia. }
  unfold component. rewrite Hd, count_while_string by done.
  set (p := pos + _). pose proof (count_while_range is_separator (drop (Z.to_nat pos) path)) as Hr.
  assert (lenZ (drop (Z.to_nat pos) path) = lenZ path - pos) as Hdl.
  { unfold lenZ in *. rewrite length_drop. lia. }
  assert (0 ≤ p ≤ lenZ path) as Hpp by (subst p; unfold lenZ in *; lia).
  rewrite nthZ_string by lia. destruct (_ =? 0); [done|]. rewrite Hd, count_while_string by done.
  pose proof (count_while_range (λ c, negb ((c =? 0) || is_separator c)) (drop (Z.to_nat p) path)) as Hn.
  set (n := count_while (λ c, negb ((c =? 0) || is_separator c)) (drop (Z.to_nat p) path)) in *.
  unfold FAT32_NAME_SIZE. destruct (Z.ltb_spec (13 - 1) n).
  - rewrite take_app_le by lia. done.
  - rewrite take_app_le by lia. done.
Qed.

Lemma components_string (path junk : list Z) pos ws :
  0 ≤ pos ≤ lenZ path → components (path ++ 0 :: junk) pos ws ↔ components path pos ws.
Proof.
  intros Hp. split; intros H; revert Hp.
  - remember (path ++ 0 :: junk) as a eqn:Ea.
    induction H as [pos p w Ec|pos p w ws Ec _ IH]; intros Hp; subst a;
      rewrite component_string in Ec by done; [by econstructor|].
    pose proof (component_advances path pos p w ltac:(lia) Ec).
    apply (components_cons _ _ p w); [exact Ec|]. apply IH; (done || lia).
  - induction H as [pos p w Ec|pos p w ws Ec _ IH]; intros Hp.
    + apply (components_end _ _ p w). rewrite component_string by done. exact Ec.
    + pose proof (component_advances path pos p w ltac:(lia) Ec).
      apply (components_cons _ _ p w); [by rewrite component_string by done|]. apply IH. lia.
Qed.

(** *** Typing a line *)

Lemma shell_keys_app a l l' s :
  shell_keys a (l ++ l') s = s' ← shell_keys a l s; shell_keys a l' s'.
Proof.
  revert s. induction l as [|c l IH]; intros s; [done|]. cbn [app shell_keys].
  destruct (shell_key a c s) as [s'|]; [|done]. apply IH.
Qed.

Lemma typed_line a l s :
  shell_ok s → Forall printable l → command_length s + lenZ l ≤ 127 →
  ∃ b, shell_keys a l s = Some (on_console (put_all l) (with_line b (command_length s + lenZ l) s)) ∧
    lenZ b = 128 ∧ take (Z.to_nat (command_length s + lenZ l)) b =
      take (Z.to_nat (command_length s)) (command_buffer s) ++ l.
Proof.
  intros Hs Hl. revert s Hs. induction Hl as [|c l Hc _ IH]; intros s Hs Hn.
  { exists (command_buffer s). change (lenZ []) with 0. rewrite Z.add_0_r, app_nil_r.
    split; [by destruct s|]. split; [apply Hs|done]. }
  assert (lenZ (c :: l) = 1 + lenZ l) as El by (unfold lenZ; cbn; lia). rewrite El in *.
  pose proof (lenZ_nonneg l). pose proof (sh_length _ Hs). pose proof (sh_buffer _ Hs).
  unfold printable in Hc. cbn [shell_keys]. unfold shell_key.
  rewrite (proj2 (Z.eqb_neq c 0)), (proj2 (Z.eqb_neq c 10)), (proj2 (Z.eqb_neq c 8)) by lia.
  unfold COMMAND_BUFFER_SIZE. rewrite (proj2 (Z.ltb_lt _ (128 - 1))) by lia. rewrite u32_small by lia.
  cbn [mbind option_bind].
  set (s1 := on_console (putchar c) _). assert (shell_ok s1) as Hs1.
  { apply on_console_ok; [auto with levos|]. apply with_line_ok; [done|by rewrite lenZ_setZ by lia|lia]. }
  assert (command_length s1 = command_length s + 1) as E1 by done.
  destruct (IH s1 Hs1 ltac:(lia)) as (b & -> & Hb & Hbt). exists b. rewrite E1 in *.
  replace (command_length s + 1 + lenZ l) with (command_length s + (1 + lenZ l)) in * by lia.
  split; [done|split; [done|]]. rewrite Hbt.
  change (command_buffer s1) with (setZ (command_buffer s) (command_length s) c).
  rewrite setZ_take by lia. by rewrite <- app_assoc.
Qed.

#[local] Opaque print.
Lemma filesystem_error_screen r s :
  filesystem_error r s = on_console (error_report r (ata_pio_last_error (Some (shell_ata s)))) s.
Proof. unfold filesystem_error, error_report. by destruct (bool_decide _). Qed.
#[local] Transparent print.

Lemma for_putchar (f g : Z → Z) n t : (∀ i, 0 ≤ i < n → f i = g i) →
  for_loop 0 n (λ i, putchar (f i)) t = put_all (g <$> range 0 n) t.
Proof.
  intros H. unfold for_loop, put_all.
  assert (∀ l t, Forall (λ i, 0 ≤ i < n) l →
    foldl (λ u i, putchar (f i) u) t l = foldl (λ t c, putchar c t) t (g <$> l)) as Hl.
  { induction l as [|i l IH]; intros t' Hf; [done|]. inversion_clear Hf. cbn. rewrite H by done. by apply IH. }
  apply Hl. apply Forall_forall. intros i Hi. by apply elem_of_range.
Qed.

(** What [cat] shows for a path in the argument array. *)
Lemma command_cat_spec path s :
  shell_ok s → mounted (shell_fat32 s) = true → holds_string 96 (argument s) path →
  Forall printable path → path ≠ [] →
  let fs := shell_fat32 s in
  ∃ s', command_cat s = Some s' ∧ same_volume fs (shell_fat32 s') ∧ background s' = background s ∧
    command_length s' = command_length s ∧
    ((∃ e l, names_file fs path e l ∧ screen_of s' =
        put_all ((λ k, i8 (file_byte fs l k)) <$> range 0 (size e)) (screen_of s)) ∨
     (∃ r, r ≠ FAT32_OK ∧ ¬ readable_file fs path ∧ screen_of s' =
        error_report r (ata_pio_last_error (Some (shell_ata s'))) (screen_of s))).
Proof.
  intros Hs Hm [_ [junk Ea]] Hp Hne fs. pose proof (sh_volume _ Hs Hm) as Hok. fold fs in Hok.
  pose proof (ok_count _ Hok). unfold command_cat.
  assert (nthZ (argument s) 0 ≠ 0) as H0.
  { rewrite Ea. destruct Hp as [|c l Hc _]; [done|]. unfold printable in Hc. change (c ≠ 0). lia. }
  rewrite (proj2 (Z.eqb_neq _ 0)) by done.
  assert (0 ≤ 32768 < 2 ^ 32) as Hcap by lia.
  assert (32768 ≤ lenZ (cat_buffer s)) as Hcat by (rewrite (sh_cat _ Hs); lia).
  assert (∀ ws, components (argument s) 0 ws ↔ components path 0 ws) as Hcs.
  { intros ws. rewrite Ea. apply components_string. pose proof (lenZ_nonneg path). lia. }
  destruct (read_file_total (Some (argument s)) (Some (cat_buffer s)) 32768 0 fs ltac:(lia))
    as (r & n & b & f & E). fold fs. rewrite E.
  destruct (read_file_spec _ _ _ _ _ _ _ _ _ Hok Hcap Hcat E) as (_ & Hv & _ & b' & -> & Hb & Hr).
  destruct (decide (r = FAT32_OK)) as [->|Hrn].
  - rewrite bool_decide_eq_true_2 by done. eexists. split; [done|].
    split; [exact Hv|split; [done|split; [done|]]]. left.
    destruct (Hr eq_refl) as (ws & e & l & H1 & H2 & H3 & -> & H5 & H6 & H7).
    exists e, l. split; [by exists ws; rewrite <- Hcs|].
    apply (for_putchar _ (λ k, i8 (file_byte fs l k))). intros i Hi. cbn. by rewrite H7, decide_True.
  - rewrite bool_decide_eq_false_2 by done. eexists. split; [done|].
    rewrite filesystem_error_screen. split; [exact Hv|split; [done|split; [done|]]]. right. exists r.
    split; [done|]. split; [|done]. intros (Hrd & ws & e & H1 & H2 & H3 & H4 & H5).
    destruct (read_file_complete fs (argument s) (cat_buffer s) 32768 0 ws e Hok Hrd Hcap Hcat
      (proj2 (Hcs ws) H1) H2 H5) as (b1 & f1 & E1).
    rewrite decide_False, decide_False in E1 by (done || lia). congruence.
Qed.

(** The words of the line "cat" and a path. *)
Lemma cat_line path :
  head path ≠ Some 32 → lenZ path ≤ 95 →
  line_command (text "cat " ++ path) = text "cat" ∧ line_argument (text "cat " ++ path) = path.
Proof.
  intros Hh Hl. split; [done|].
  change (line_argument (text "cat " ++ path)) with (take 95 (skip_spaces path)).
  assert (skip_spaces path = path) as ->.
  { destruct path as [|c path]; [done|]. cbn [skip_spaces]. destruct (Z.eqb_spec c 32) as [->|]; done. }
  apply take_ge. unfold lenZ in Hl. lia.
Qed.

(** The enter key behind such a line runs [cat]. *)
Lemma enter_cat address path s :
  shell_ok s → take (Z.to_nat (command_length s)) (command_buffer s) = text "cat " ++ path →
  head path ≠ Some 32 → lenZ path ≤ 95 →
  ∃ s1, shell_ok s1 ∧ holds_string 96 (argument s1) path ∧ shell_fat32 s1 = shell_fat32 s ∧
    background s1 = background s ∧ screen_of s1 = putchar 10 (screen_of s) ∧
    shell_key address 10 s = (λ s2, prompt (with_line (command_buffer s2) 0 s2)) <$> command_cat s1.
Proof.
  intros Hs Hline Hh Hl. pose proof (sh_length _ Hs). pose proof (sh_buffer _ Hs) as Hb.
  destruct (cat_line path Hh Hl) as [Ec Ea].
  unfold shell_key. change (10 =? 0) with false. change (10 =? 10) with true. cbv iota.
  set (s0 := with_line _ _ s). unfold process_command.
  assert (shell_ok s0) as Hs0.
  { apply with_line_ok; [done|by rewrite lenZ_setZ by lia|done]. }
  pose proof (split_command_spec (command_length s0) (command_buffer s0) (command s0) (argument s0)
    (sh_command _ Hs0) (sh_argument _ Hs0)) as H'. cbv zeta in H'.
  assert (take (Z.to_nat (command_length s0)) (command_buffer s0) = text "cat " ++ path) as El.
  { rewrite <- Hline. subst s0. cbn [command_length command_buffer with_line].
    rewrite setZ_in by lia. by rewrite take_insert_ge by lia. }
  rewrite El, Ec, Ea in H'. destruct (split_command _ _ _ _) as [c a]. destruct H' as [Hc Ha]. cbv zeta.
  set (s1 := on_console (putchar 10) (with_words c a s0)). exists s1.
  assert (shell_ok s1) as Hs1.
  { apply on_console_ok; [auto with levos|]. destruct Hc as [Hc _], Ha as [Ha' _]. by destruct Hs0. }
  split; [done|]. do 4 (split; [done|]).
  assert (∀ w, Forall (λ c, c ≠ 0) w → strcmp c w = if decide (text "cat" = w) then 0 else 1) as Hw.
  { intros w. apply (strcmp_string 32); [done|by repeat constructor]. }
  assert (strcmp c (text "help") = 1) as -> by (rewrite Hw by (by repeat constructor); reflexivity).
  assert (strcmp c (text "clear") = 1) as -> by (rewrite Hw by (by repeat constructor); reflexivity).
  assert (strcmp c (text "echo") = 1) as -> by (rewrite Hw by (by repeat constructor); reflexivity).
  assert (strcmp c (text "clock") = 1) as -> by (rewrite Hw by (by repeat constructor); reflexivity).
  assert (strcmp c (text "memory") = 1) as -> by (rewrite Hw by (by repeat constructor); reflexivity).
  assert (strcmp c (text "about") = 1) as -> by (rewrite Hw by (by repeat constructor); reflexivity).
  assert (strcmp c (text "ls") = 1) as -> by (rewrite Hw by (by repeat constructor); reflexivity).
  assert (strcmp c (text "cat") = 0) as -> by (rewrite Hw by (by repeat constructor); reflexivity).
  change (1 =? 0) with false. change (0 =? 0) with true. cbv iota. by destruct (command_cat s1).
Qed.
End lemmas.

(** ** Properties *)

Section properties.
Context {P : Type} {IO : Ports P} {AD : AtaDrive P}.
Implicit Types (s : shell P).

(** C18. The shell is safe: from the state the kernel is loaded in, whatever the drive
    holds and answers and whatever is typed, every command ends, the line stays inside
    its 127 characters, the cursor stays on the screen, the file system is sound whenever
    it is mounted, and no array is overrun: each has the size it was declared with, while
    a store outside an array would have lengthened it. *)
Theorem shell_safe address l s :
  shell_loaded s →
  ∃ s', shell_keys address l (shell_start (shell_filesystem_init s)) = Some s' ∧ shell_ok s'.
Proof. intros Hs. by apply shell_keys_ok, shell_start_ok, shell_filesystem_init_ok. Qed.

(** C11. Typing "cat", a space, a path and the enter key shows the file: the screen
    gets the echo of the line, then the bytes of the file that the path leads to on
    the drive, or, if the path names no file that can be read, the reason, and then
    the prompt; the line is empty again and the volume is as it was. *)
Theorem typed_cat_correct address path s :
  shell_ok s → mounted (shell_fat32 s) = true → command_length s = 0 →
  Forall printable path → head path ≠ Some 32 → 1 ≤ lenZ path ≤ 95 →
  let fs := shell_fat32 s in
  let line := text "cat " ++ path ++ [10] in
  let shown (out : terminal → terminal) :=
    print (10 :: text "> ") ((background s ≪ 4) .| WHITE) (out (put_all line (screen_of s))) in
  ∃ s', shell_keys address line s = Some s' ∧ shell_ok s' ∧ command_length s' = 0 ∧
    same_volume fs (shell_fat32 s') ∧
    ((∃ e l, names_file fs path e l ∧
        screen_of s' = shown (put_all ((λ k, i8 (file_byte fs l k)) <$> range 0 (size e)))) ∨
     (∃ r, r ≠ FAT32_OK ∧ ¬ readable_file fs path ∧
        screen_of s' = shown (error_report r (ata_pio_last_error (Some (shell_ata s')))))).
Proof.
  intros Hs Hm H0 Hp Hh Hlen fs line shown.
  destruct (shell_keys_ok address line s Hs) as (s' & E & Hs'). exists s'. split; [exact E|].
  split; [exact Hs'|]. subst line. rewrite app_assoc, shell_keys_app in E.
  assert (Forall printable (text "cat " ++ path)) as Hpr.
  { apply Forall_app. split; [|done]. repeat constructor; done. }
  assert (lenZ (text "cat " ++ path) = 4 + lenZ path) as El.
  { unfold lenZ. rewrite length_app. change (length (text "cat ")) with 4%nat. lia. }
  destruct (typed_line address (text "cat " ++ path) s Hs Hpr ltac:(lia)) as (b & E1 & Hb & Hbt).
  rewrite E1 in E. cbn [mbind option_bind shell_keys] in E. rewrite H0, El in *. cbn [Z.add] in *.
  set (s1 := on_console _ _) in E.
  assert (shell_ok s1) as Hs1.
  { apply on_console_ok; [auto with levos|]. apply with_line_ok; [done|done|lia]. }
  destruct (enter_cat address path s1 Hs1 Hbt Hh ltac:(lia)) as (s2 & Hs2 & Ha & Ef & Eb & Es & Ek).
  assert (path ≠ []) as Hne by (intros ->; unfold lenZ in Hlen; cbn [length] in Hlen; lia).
  destruct (command_cat_spec path s2 Hs2 ltac:(by rewrite Ef) Ha Hp Hne) as (s3 & E3 & Hv & Eb3 & _ & Hout).
  rewrite Ek, E3 in E. injection E as <-. rewrite Ef, Es in *.
  assert (putchar 10 (screen_of s1) = put_all (text "cat " ++ path ++ [10]) (screen_of s)) as Epre.
  { change (screen_of s1) with (put_all (text "cat " ++ path) (screen_of s)).
    rewrite (app_assoc (text "cat ")). unfold put_all at 2.
    by rewrite (foldl_app _ (text "cat " ++ path) [10]). }
  rewrite Epre in Hout. split; [done|split; [exact Hv|]].
  assert (background s3 = background s) as Ebg by (rewrite Eb3, Eb; done).
  assert (screen_of (prompt (with_line (command_buffer s3) 0 s3)) =
    print (10 :: text "> ") ((background s3 ≪ 4) .| WHITE) (screen_of s3)) as Hprompt by done.
  change (shell_fat32 s1) with fs in Hout, Hv.
  destruct Hout as [(e & l & He & Ho)|(r & Hr & Hn & Ho)]; [left; exists e, l|right; exists r].
  - split; [exact He|]. subst shown. cbv beta. rewrite <- Ebg, Hprompt, Ho. done.
  - split; [exact Hr|split; [exact Hn|]]. subst shown. cbv beta.
    change (shell_ata (prompt (with_line (command_buffer s3) 0 s3))) with (shell_ata s3).
    rewrite <- Ebg, Hprompt, Ho. done.
Qed.
End properties.

(** ** Instances: the drive of [Ata] before and after mounting a small volume on it *)

Definition simple_fs (m : bool) : fat32_fs (ata ata_regs) :=
  mk_fs simple_ata 0 512 1 32 32 1 33 100 2 (replicate 4096 0) m.
Definition simple_shell (m : bool) : shell ata_regs :=
  mk_shell (replicate 128 0) (replicate 32 0) (replicate 96 0) 0 0 (simple_fs m) FAT32_EBADFS
    (replicate (Z.to_nat 32768) 0) (mk_terminal (replicate 2000 0) 0 0).

Lemma replicate_bytes n : bytes (replicate n 0).
Proof. apply Forall_replicate. unfold is_byte. lia. Qed.
Lemma lenZ_replicate n (x : Z) : lenZ (replicate n x) = Z.of_nat n.
Proof. unfold lenZ. by rewrite length_replicate. Qed.

Lemma simple_loaded : shell_loaded (simple_shell false).
Proof.
  split; cbn [simple_shell simple_fs command_buffer command_length command argument cat_buffer screen_of
    shell_fat32 mounted sector_buffer]; rewrite ?lenZ_replicate; try done.
  - exact zero_screen_ok.
  - split; [apply replicate_bytes|done].
Qed.

Lemma simple_fs_ok : fs_ok (simple_fs true).
Proof.
  split; cbn [simple_fs device mounted sector_buffer bytes_per_sector sectors_per_cluster fat_start
    fat_sectors data_start cluster_count root_cluster volume_start]; try done; try lia.
  - rewrite lenZ_replicate. split; [apply replicate_bytes|done].
  - split; [done|split; [by vm_compute|]]. by exists 9.
  - split; [by vm_compute|]. right. vm_compute. congruence.
Qed.

Lemma simple_shell_ok : shell_ok (simple_shell true).
Proof.
  split; cbn [simple_shell command_buffer command_length command argument cat_buffer screen_of
    shell_fat32]; rewrite ?lenZ_replicate; try done; try lia.
  - exact zero_screen_ok.
  - intros _. exact simple_fs_ok.
Qed.

Lemma shell_safe_witness :
  ∃ s', shell_keys 0 (text "ls" ++ [10]) (shell_start (shell_filesystem_init (simple_shell false))) = Some s' ∧
    shell_ok s'.
Proof. apply (shell_safe 0 (text "ls" ++ [10]) (simple_shell false)). exact simple_loaded. Defined.

Lemma typed_cat_correct_witness :
  ∃ s', shell_keys 0 (text "cat " ++ text "A.TXT" ++ [10]) (simple_shell true) = Some s' ∧
    command_length s' = 0.
Proof.
  destruct (typed_cat_correct 0 (text "A.TXT") (simple_shell true) simple_shell_ok eq_refl eq_refl
    ltac:(by repeat constructor) ltac:(done) ltac:(by vm_compute)) as (s' & E & _ & H & _).
  exists s'. split; [exact E|exact H].
Defined.
End Shell.
