(* ===== verification/User.v ===== *)
(** The first user process, [process/user_test.c]: its image, the instructions in it as
    the processor executes them, and the system calls they make. *)

From stdpp Require Import strings.
From S2P Require Import Prelude Memory Interfaces Pmm Paging Process Scheduler Io Terminal Keyboard.
From S2P Require Import Cpu State Syscall Interrupts.

Module User.
Import Paging Process Scheduler Terminal State Syscall Interrupts.

(** ** Definitions *)

Definition user_test_image : list Z :=
  [0xb8; 0x01; 0x00; 0x00; 0x00;
   0xbb; 0x01; 0x00; 0x00; 0x00;
   0xb9; 0x20; 0x00; 0x40; 0x00;
   0xba; 0x13; 0x00; 0x00; 0x00;
   0xcd; 0x80;
   0xb8; 0x03; 0x00; 0x00; 0x00;
   0xcd; 0x80;
   0xeb; 0xf7;
   0x90] ++ text "Hello from ring 3!" ++ [10].

Definition user_test_create {S} {PA : PageAllocator S} {KI : KernelImage} (p : psys S) : Z * psys S :=
  process_create_user (Some user_test_image) (lenZ user_test_image) p.

(** ** Specification

    The processor on the instructions of the image: [mov r32, imm32] on the four
    registers the system calls use, [int imm8], [jmp rel8] and [nop] (the processor's
    manual). *)

Record user_registers := mk_user { u_eip : Z; u_eax : Z; u_ecx : Z; u_edx : Z; u_ebx : Z }.

Definition load_register (r v : Z) (u : user_registers) : user_registers :=
  if r =? 0 then mk_user (u_eip u) v (u_ecx u) (u_edx u) (u_ebx u)
  else if r =? 1 then mk_user (u_eip u) (u_eax u) v (u_edx u) (u_ebx u)
  else if r =? 2 then mk_user (u_eip u) (u_eax u) (u_ecx u) v (u_ebx u)
  else mk_user (u_eip u) (u_eax u) (u_ecx u) (u_edx u) v.
Definition at_eip (a : Z) (u : user_registers) : user_registers :=
  mk_user a (u_eax u) (u_ecx u) (u_edx u) (u_ebx u).

Section execution.
Variable fetch : Z → option Z.

(** The vector of an [int], and the registers after one instruction; [None] for a fault
    or any other instruction. *)
Definition execute (u : user_registers) : option (option Z * user_registers) :=
  op ← fetch (u_eip u);
  if op =? 0x90 then Some (None, at_eip (u_eip u +u 1) u)
  else
    b0 ← fetch (u_eip u +u 1);
    if op =? 0xcd then Some (Some b0, at_eip (u_eip u +u 2) u)
    else if op =? 0xeb then Some (None, at_eip (u_eip u +u 2 +u i8 b0) u)
    else if (0xb8 <=? op) && (op <=? 0xbb) then
      b1 ← fetch (u_eip u +u 2); b2 ← fetch (u_eip u +u 3); b3 ← fetch (u_eip u +u 4);
      Some (None, load_register (op - 0xb8) (le_value [b0; b1; b2; b3]) (at_eip (u_eip u +u 5) u))
    else None.

(** Up to the next [int], at most [n] instructions on. *)
Fixpoint to_interrupt (n : nat) (u : user_registers) : option (Z * user_registers) :=
  match n with
  | O => None
  | S n => r ← execute u;
      match r with (Some v, u) => Some (v, u) | (None, u) => to_interrupt n u end
  end.
End execution.

(** An address space has the image at the user code address, and user code may read it. *)
Definition image_mapped (m : mem) (directory : Z) : Prop :=
  ∀ j, 0 ≤ j < lenZ user_test_image → ∃ t,
    walk m directory (USER_CODE_ADDRESS + j) = Some t ∧ user t = true ∧
    load8 m (physical t) = nthZ user_test_image j.

(** The running process is [c] and has the image. *)
Definition has_image {S P} (k : kernel S P) (c : process) : Prop :=
  current (procs k) = Some c ∧ is_user c = true ∧ directory c ≠ 0 ∧
  cr3 (machine (procs k)) = directory c ∧ image_mapped (kmem k) (directory c).

(** The frame at [ctx] is that of interrupt [v] of code with the registers [u]. *)
Definition frame_of (m : mem) (ctx v : Z) (u : user_registers) : Prop :=
  load32 m (ctx + c_vector) = v ∧ load32 m (ctx + c_eax) = u_eax u ∧ load32 m (ctx + c_ebx) = u_ebx u ∧
  load32 m (ctx + c_ecx) = u_ecx u ∧ load32 m (ctx + c_edx) = u_edx u.

Definition hello : list Z := text "Hello from ring 3!" ++ [10].

(** ** Lemmas *)

Section lemmas.
Context {S P : Type} {PA : PageAllocator S} {KI : KernelImage} {IO : Ports P}.
Implicit Types (k : kernel S P).

Lemma fetch_image k c j :
  has_image k c → 0 ≤ j < 51 →
  read_virtual (kmem k) (directory c) (USER_CODE_ADDRESS + j) = Some (nthZ user_test_image j).
Proof.
  intros (_ & _ & _ & _ & H) Hj. destruct (H j Hj) as (t & Et & _ & El).
  unfold read_virtual. rewrite Et. cbn [fmap option_fmap option_map]. by rewrite El.
Qed.

Lemma user_message k c :
  has_image k c → user_text (kmem k) (directory c) 0x400020 19 = hello.
Proof.
  intros Hi. unfold user_text.
  assert (∀ n i, 0 ≤ i → i + Z.of_nat n ≤ 19 →
    (λ i, i8 (default 0 (read_virtual (kmem k) (directory c) (0x400020 + i)))) <$> count_up n i =
    (λ i, i8 (nthZ user_test_image (32 + i))) <$> count_up n i) as E.
  { induction n as [|n IH]; intros i Hi0 Hn; [done|]. cbn [count_up fmap list_fmap]. f_equal.
    - replace (0x400020 + i) with (USER_CODE_ADDRESS + (32 + i)) by (unfold USER_CODE_ADDRESS; lia).
      by rewrite (fetch_image k c) by (done || lia).
    - apply IH; lia. }
  unfold range. rewrite E by lia. reflexivity.
Qed.

(** What the bytes of the image alone do. *)
Definition image_fetch (a : Z) : option Z :=
  if (USER_CODE_ADDRESS <=? a) && (a <? USER_CODE_ADDRESS + 51)
  then Some (nthZ user_test_image (a - USER_CODE_ADDRESS)) else None.

Lemma execute_more (f g : Z → option Z) u r :
  (∀ a v, g a = Some v → f a = Some v) → execute g u = Some r → execute f u = Some r.
Proof.
  intros Hf. unfold execute. intros E.
  repeat match goal with
  | H : mbind _ _ = Some _ |- _ =>
      let x := fresh "x" in let Hx := fresh "Hx" in let H' := fresh "H'" in
      apply bind_Some in H as (x & Hx & H'); rewrite (Hf _ _ Hx); cbn [mbind option_bind]
  | H : (if ?b then _ else _) = Some _ |- _ => destruct b
  end; done.
Qed.

Lemma to_interrupt_more (f g : Z → option Z) n u r :
  (∀ a v, g a = Some v → f a = Some v) → to_interrupt g n u = Some r → to_interrupt f n u = Some r.
Proof.
  intros Hf. revert u. induction n as [|n IH]; intros u; [done|]. cbn [to_interrupt]. intros E.
  apply bind_Some in E as ([o u'] & E1 & E2). rewrite (execute_more f g u _ Hf E1).
  cbn [mbind option_bind]. destruct o; [done|by apply IH].
Qed.

Lemma image_fetch_memory k c a v :
  has_image k c → image_fetch a = Some v → read_virtual (kmem k) (directory c) a = Some v.
Proof.
  intros Hi. unfold image_fetch. destruct (Z.leb_spec USER_CODE_ADDRESS a); [|done].
  destruct (Z.ltb_spec a (USER_CODE_ADDRESS + 51)); [|done]. intros [= <-]. cbn [andb] in *.
  rewrite <- (fetch_image k c) by (done || lia). f_equal. lia.
Qed.

(** The image's handler side: the call it makes first prints its text. *)
Lemma hello_printed k c ctx u :
  mem_bytes (kmem k) → has_image k c → u_eax u = 1 → u_ebx u = 1 → u_ecx u = 0x400020 → u_edx u = 19 →
  frame_of (kmem k) ctx 0x80 u →
  let k0 := with_scheduling (with_next_directory 0 (scheduling k)) k in
  isr_common_handler ctx k =
    Some (Resumes ctx, set_eax ctx 19 (with_console (put_all hello (console k)) k0)).
Proof.
  intros Hm Hi E1 E2 E3 E4 (Fv & Fa & Fb & Fc & Fd) k0.
  destruct Hi as (Ec & Eu & Ed & Er & Hw) eqn:Hieq. clear Hieq.
  unfold isr_common_handler. fold k0. cbv zeta.
  change (kmem k0) with (kmem k). rewrite Fv. change (128 =? 32) with false. change (128 =? 33) with false.
  change (128 =? 128) with true. cbv iota. unfold syscall_dispatch. cbv zeta.
  change (kmem k0) with (kmem k). rewrite Fa, Fb, Fc, Fd, E1, E2, E3, E4. change (1 =? SYS_WRITE) with true. cbv iota.
  destruct (syscall_write_spec 1 0x400020 19 k0 c Hm ltac:(lia) ltac:(lia) Ec Er)
    as [[_ ->]|[Hno _]].
  - cbn [fmap option_fmap option_map]. change (kmem k0) with (kmem k). by rewrite (user_message k c Hi).
  - exfalso. apply Hno. exists c. do 3 (split; [done|]). split; [lia|]. split; [done|].
    unfold user_limit. split; [lia|split; [lia|]]. intros va Hva. change (kmem k0) with (kmem k).
    destruct (Hw (va - USER_CODE_ADDRESS)) as (t & Et & Hu & _).
    { change (lenZ user_test_image) with 51. unfold USER_CODE_ADDRESS. lia. }
    exists t. replace (USER_CODE_ADDRESS + (va - USER_CODE_ADDRESS)) with va in Et by lia. done.
Qed.
End lemmas.

(** ** Properties *)

(** C40. The user test process: from its entry, with any registers, its instructions
    reach the write call on its text, the kernel prints "Hello from ring 3!" and a line
    feed and returns 19, and from the instruction behind that call on the process does
    nothing but yield, again and again.  This is the handler as it is when it runs, with
    data segments it can use. *)
Theorem user_test_correct {S P} {PA : PageAllocator S} {KI : KernelImage} {IO : Ports P}
    (k : kernel S P) (c : process) ctx a x d b :
  mem_bytes (kmem k) → has_image k c →
  let fetch := read_virtual (kmem k) (directory c) in
  let call := mk_user 0x400016 1 0x400020 19 1 in
  to_interrupt fetch 5 (mk_user USER_CODE_ADDRESS a x d b) = Some (0x80, call) ∧
  (frame_of (kmem k) ctx 0x80 call → isr_common_handler ctx k =
     Some (Resumes ctx, set_eax ctx 19 (with_console (put_all hello (console k))
       (with_scheduling (with_next_directory 0 (scheduling k)) k)))) ∧
  (∀ e, e = 0x400016 ∨ e = 0x40001D → to_interrupt fetch 3 (mk_user e a x d b) =
     Some (0x80, mk_user 0x40001D SYS_YIELD x d b)).
Proof.
  intros Hm Hi fetch call.
  assert (∀ a v, image_fetch a = Some v → fetch a = Some v) as Hf.
  { intros. by apply (image_fetch_memory k c). }
  split; [|split].
  - by apply (to_interrupt_more _ image_fetch).
  - by apply (hello_printed k c).
  - intros e [-> | ->]; by apply (to_interrupt_more _ image_fetch).
Qed.

(** ** Instances: [user_memory] with the image in its code page and a frame of the
    first call at 0x5F00. *)

Definition hello_memory : mem :=
  Pmm.words (0x5F00 + c_ebx) [1; 19; 0x400020; 1; 0x80]
    (copy_bytes 0x300000 51 user_test_image user_memory).
Definition hello_process : process :=
  mk_process 1 PROCESS_RUNNING 0x1000 0x5000 0x5FC4 0 0 false true 0x300000 0x301000.
Definition hello_kernel : kernel Pmm.pmm Io.chips :=
  mk_kernel (mk_sched (mk_psys (mk_vm hello_memory Pmm.static_state 0x1000 true []) [hello_process] 2
    (Some 0) 0 0) 0 0) 0 empty_screen Keyboard.idle Io.power_on false
    (Cpu.mk_data 0x23 0x23 0 0).

Definition image_there (m : mem) (j : Z) : bool :=
  match walk m 0x1000 (USER_CODE_ADDRESS + j) with
  | Some t => user t && (load8 m (physical t) =? nthZ user_test_image j)
  | None => false
  end.

Lemma hello_image : has_image hello_kernel hello_process.
Proof.
  split; [done|split; [done|split; [done|split; [done|]]]]. intros j Hj.
  assert (forallb (image_there hello_memory) (range 0 51) = true) as H by (vm_compute; reflexivity).
  rewrite forallb_forall in H.
  specialize (H j ltac:(apply list_elem_of_In, elem_of_range; exact Hj)).
  unfold image_there in H. change (kmem hello_kernel) with hello_memory.
  change (directory hello_process) with 0x1000.
  destruct (walk hello_memory 0x1000 (USER_CODE_ADDRESS + j)) as [t|]; [|done].
  apply andb_prop in H as [H1 H2]. exists t. split; [done|split; [done|by apply Z.eqb_eq]].
Qed.

Lemma user_test_correct_witness :
  to_interrupt (read_virtual hello_memory 0x1000) 5 (mk_user USER_CODE_ADDRESS 7 7 7 7) =
    Some (0x80, mk_user 0x400016 1 0x400020 19 1) ∧
  ∃ k', isr_common_handler (KI := example_image) 0x5F00 hello_kernel = Some (Resumes 0x5F00, k').
Proof.
  assert (mem_bytes (kmem hello_kernel)) as Hm.
  { change (mem_bytes hello_memory). apply words_spec, copy_bytes_mem_bytes; [lia|].
    unfold user_memory. auto with levos. }
  destruct (user_test_correct (KI := example_image) hello_kernel hello_process 0x5F00 7 7 7 7 Hm hello_image)
    as (H1 & H2 & _).
  split; [exact H1|]. eexists. apply H2. repeat split; vm_compute; reflexivity.
Defined.
End User.
