(* ===== verification/Kernel.v ===== *)
(** [kernel.c]: the boot, and the running kernel that follows it. *)

From stdpp Require Import strings.
From S2P Require Import Prelude Memory Interfaces Pmm Paging Process Scheduler Spaces Frames Block Fat32 Fat32Volume.
From S2P Require Import Io Terminal Keyboard Ata Gdt Cpu State Timer Syscall Interrupts Steps Shell User.

Module Kernel.
Import Pmm Paging Process Scheduler Spaces Frames Io Terminal Keyboard Ata State Timer Syscall Interrupts Steps Shell User.

(** ** Definitions *)

(** All of the kernel: the state of [State], the two descriptor tables, and the shell.
    The shell has its own view of the screen and of the hardware; [on_shell] makes them
    those of the kernel before, and gives them back after. *)
Record boot (P : Type) := mk_boot {
  core : kernel pmm P;
  segments : Gdt.tables;
  gates : idt;
  the_shell : shell P;
}.
Arguments mk_boot {P}.
Arguments core {P}.
Arguments segments {P}.
Arguments gates {P}.
Arguments the_shell {P}.

(** Addresses of the linker that the boot uses beside those of [KernelImage]. *)
Record layout := mk_layout {
  gdt_address : Z; tss_address : Z; tss_stack : Z;
  idt_address : Z; isr_table : Z → Z;
}.

Section code.
Context {P : Type} {KI : KernelImage} {IO : Ports P}.
Implicit Types (b : boot P).

(** [esp0] of the task state segment is the [tss_esp0] of the processes, and the data
    segment registers are those of the segment tables. *)
Definition with_core (k : kernel pmm P) b : boot P :=
  mk_boot k (Gdt.tss_set_kernel_stack (tss_esp0 (procs k)) (segments b)) (gates b) (the_shell b).
Definition with_segments (t : Gdt.tables) b : boot P :=
  let r := Gdt.segments t in
  mk_boot (with_selectors (Cpu.mk_data (Gdt.reg_ds r) (Gdt.reg_es r) (Gdt.reg_fs r) (Gdt.reg_gs r))
      (with_procs (tss_set_kernel_stack (Gdt.esp0 (Gdt.tss t)) (procs (core b))) (core b)))
    t (gates b) (the_shell b).
Definition with_gates (t : idt) b : boot P := mk_boot (core b) (segments b) t (the_shell b).

Definition shell_view b : shell P :=
  on_console (λ _, console (core b)) (on_ports (λ _, ports (core b)) (the_shell b)).
Definition on_shell (f : shell P → shell P) b : boot P :=
  let s := f (shell_view b) in
  mk_boot (with_console (screen_of s) (with_ports (hardware (shell_ata s)) (core b)))
    (segments b) (gates b) s.

Definition enable_interrupts (k : kernel pmm P) : kernel pmm P := with_interrupt_flag true k.

(** The calls of [kernel_main], in its order. *)
Definition boot_terminal b : boot P :=
  let '(t, p) := terminal_init (console (core b), ports (core b)) in
  with_core (with_ports p (with_console t (core b))) b.

Definition boot_segments (l : layout) b : boot P :=
  with_segments (Gdt.init_GDT (gdt_address l) (tss_address l) (tss_stack l) (segments b)) b.

(** [None] when [pmm_init] does not return. *)
Definition boot_memory (fuel : nat) (multiboot_magic mb_addr : Z) b : option (boot P) :=
  let v := machine (procs (core b)) in
  f ← (if multiboot_magic =? 0x36d76289 then pmm_init fuel (ram v) kernel_end mb_addr (frames v)
       else pmm_init fuel (ram v) kernel_end 0 (frames v));
  let v := init_paging (with_frames f v) in
  Some (with_core (with_procs (with_machine v (procs (core b))) (core b)) b).

Definition boot_interrupts (l : layout) b : boot P :=
  let '(t, k) := init_IDT (isr_table l) (idt_address l) (gates b, core b) in
  let k := with_ports (picremap (ports k)) k in
  let k := with_ports (timer_init 100 (ports k)) k in
  with_gates t (with_core k b).

Definition boot_processes b : boot P :=
  let s := scheduler_init (scheduling (core b)) in
  let '(_, p) := user_test_create (system s) in
  with_core (with_scheduling (with_system p s) (core b)) b.

Definition boot_keyboard b : boot P :=
  let '(kb, p) := init_keyboard (keys (core b), ports (core b)) in
  with_core (with_ports p (with_keys kb (core b))) b.

(** The state in which [shell] begins to wait for keys. *)
Definition kernel_main (fuel : nat) (l : layout) (multiboot_magic mb_addr : Z) b : option (boot P) :=
  let b := boot_terminal b in
  let b := boot_segments l b in
  b ← boot_memory fuel multiboot_magic mb_addr b;
  let b := boot_interrupts l b in
  let b := boot_processes b in
  let b := on_shell shell_filesystem_init b in
  let b := boot_keyboard b in
  let b := with_core (enable_interrupts (core b)) b in
  Some (on_shell shell_start b).

End code.

(** ** Specification *)

(** The state the boot loader leaves: the image's variables have their initial values,
    memory and the screen hold anything, and so does the hardware, but that the drive is
    not busy with a command. *)
Record loaded {P} {IO : Ports P} {AD : AtaDrive P} (b : boot P) : Prop := {
  ld_memory : mem_bytes (kmem (core b));
  ld_pid : next_pid (procs (core b)) = 1;
  ld_ticks : ticks (core b) = 0;
  ld_video : lenZ (video (console (core b))) = SCREEN ∧
    Forall (λ v, 0 ≤ v < 2 ^ 16) (video (console (core b)));
  ld_keys : keyboard_ok (keys (core b));
  ld_shell : shell_loaded (on_ports (λ _, ports (core b)) (the_shell b));
}.

(** The address [kernel_main] gives to [pmm_init]. *)
Definition info_address (magic addr : Z) : Z := if magic =? 0x36d76289 then addr else 0.

(** ** Lemmas *)

Section lemmas.
Context {P : Type} {KI : KernelImage} {KIO : KernelImageOk} {IO : Ports P} {AD : AtaDrive P}.
Implicit Types (b : boot P).

(** *** The parts of the state, stage by stage *)

Lemma terminal_init_screen t (p : P) :
  lenZ (video t) = SCREEN → Forall (λ v, 0 ≤ v < 2 ^ 16) (video t) → screen_ok (fst (terminal_init (t, p))).
Proof. intros Hl Hc. unfold terminal_init. cbn [fst]. apply clear_screen. by split. Qed.


Lemma shell_view_loaded q b :
  shell_loaded (on_ports (λ _, q) (the_shell b)) → undisturbed q (ports (core b)) → screen_ok (console (core b)) →
  shell_loaded (shell_view b).
Proof. intros [? ? ? ? ? ? ? ? Hq] [Hu _] Hs. split; try done. by apply Hu. Qed.

Lemma shell_view_ok b :
  shell_ok (the_shell b) → undisturbed (hardware (shell_ata (the_shell b))) (ports (core b)) →
  screen_ok (console (core b)) → shell_ok (shell_view b).
Proof. intros Hs [_ Hu] Ht. unfold shell_view. apply on_console_ok; [done|]. by apply on_ports_ok. Qed.

(** The other devices the boot sets up. *)
Ltac elsewhere_step :=
  match goal with
  | |- undisturbed ?p (outb ?port ?v ?q) =>
      transitivity q; [|apply outb_undisturbed; unfold elsewhere, PIC1_COMMAND, PIC2_COMMAND, PIC1_DATA, PIC2_DATA, PIC1, PIC2; lia]
  | |- undisturbed ?p ?p => reflexivity
  end.

Lemma terminal_init_undisturbed t p : undisturbed p (snd (terminal_init (t, p))).
Proof. unfold terminal_init, disable_cursor. cbn [snd]. by repeat elsewhere_step. Qed.

Lemma picremap_undisturbed p : undisturbed p (picremap p).
Proof. unfold picremap. cbv zeta. by repeat elsewhere_step. Qed.

Lemma timer_init_undisturbed n p : undisturbed p (timer_init n p).
Proof.
  unfold timer_init. cbv zeta. destruct (inb 0x21 _) as [v q] eqn:E.
  apply inb_undisturbed in E; [|unfold elsewhere; lia]. elsewhere_step. etransitivity; [|exact E].
  by repeat elsewhere_step.
Qed.

Lemma init_keyboard_undisturbed kb p : undisturbed p (snd (init_keyboard (kb, p))).
Proof.
  unfold init_keyboard. destruct (inb 0x21 p) as [v q] eqn:E.
  apply inb_undisturbed in E; [|unfold elsewhere; lia]. cbn [snd]. by elsewhere_step.
Qed.

Lemma boot_terminal_spec b :
  lenZ (video (console (core b))) = SCREEN → Forall (λ v, 0 ≤ v < 2 ^ 16) (video (console (core b))) →
  screen_ok (console (core (boot_terminal b))) ∧ undisturbed (ports (core b)) (ports (core (boot_terminal b))).
Proof.
  intros Hl Hc. pose proof (terminal_init_screen _ (ports (core b)) Hl Hc) as H.
  pose proof (terminal_init_undisturbed (console (core b)) (ports (core b))) as Hu.
  unfold boot_terminal. by destruct (terminal_init _).
Qed.

(** The selectors of the kernel's data segments. *)
Definition kernel_selectors : Cpu.data_segments := Cpu.mk_data 0x10 0x10 0x10 0x10.

(** What the shell does leaves the rest of the kernel alone. *)
Lemma on_shell_core f b :
  scheduling (core (on_shell f b)) = scheduling (core b) ∧ ticks (core (on_shell f b)) = ticks (core b) ∧
  keys (core (on_shell f b)) = keys (core b) ∧
  interrupt_flag (core (on_shell f b)) = interrupt_flag (core b) ∧
  selectors (core (on_shell f b)) = selectors (core b) ∧
  ports (core (on_shell f b)) = hardware (shell_ata (the_shell (on_shell f b))) ∧ segments (on_shell f b) = segments b.
Proof. done. Qed.

Lemma boot_memory_spec fuel magic addr b b' :
  boot_memory fuel magic addr b = Some b' →
  ∃ f, pmm_init fuel (kmem (core b)) kernel_end (info_address magic addr)
      (frames (machine (procs (core b)))) = Some f ∧
    machine (procs (core b')) = init_paging (with_frames f (machine (procs (core b)))) ∧
    next_pid (procs (core b')) = next_pid (procs (core b)) ∧
    ticks (core b') = ticks (core b) ∧ console (core b') = console (core b) ∧
    keys (core b') = keys (core b) ∧ the_shell b' = the_shell b ∧ ports (core b') = ports (core b) ∧
    selectors (core b') = selectors (core b).
Proof.
  unfold boot_memory, info_address. cbv zeta. intros E.
  destruct (magic =? 0x36d76289); apply bind_Some in E as (f & Ef & E); injection E as <-; exists f; done.
Qed.

(** The frames [pmm_init] leaves, and paging over them. *)
Lemma boot_ready fuel m addr f (v : vm pmm) :
  0 ≤ addr → mem_bytes (ram v) → pmm_init fuel m kernel_end addr (frames v) = Some f →
  ∃ F, kernel_ready (init_paging (with_frames f v)) (pmm_total_pages f) F ∧
    Z.of_nat (size F) = pmm_free_pages f ∧ Paging.identity_words (ram (init_paging (with_frames f v))).
Proof.
  intros Ha Hm Hf. pose proof kernel_end_range. pose proof page_directory_place.
  assert (0 < kernel_end < 2 ^ 32) as Hk by lia.
  destruct (pmm_init_protects_kernel fuel m kernel_end addr (frames v) f Hk Ha Hf)
    as (n & F & Hp & Hc & Hab).
  destruct (init_paging_words (with_frames f v) Hm) as (Hb & Hd & Hi).
  pose proof (repr_highest _ _ _ (proj1 Hp)) as <-. exists F. split; [|done]. split; [done|done|done|].
  intros p Hin. apply Hab, Hin.
Qed.

Lemma kernel_ok_ext n (k k' : kernel pmm P) :
  kernel_ok n k → procs k' = procs k → selectors k' = selectors k → screen_ok (console k') → keyboard_ok (keys k') →
  0 ≤ ticks k' < 2 ^ 32 → kernel_ok n k'.
Proof.
  intros [H1 H2 H3 H4 H5 H6 H7 _ _ _] Ep Eg Hs Hk Ht. split; rewrite ?Ep, ?Eg; done.
Qed.

Lemma boot_interrupts_spec l b :
  screen_ok (console (core b)) →
  let b' := boot_interrupts l b in
  procs (core b') = procs (core b) ∧ ticks (core b') = ticks (core b) ∧
  keys (core b') = keys (core b) ∧ the_shell b' = the_shell b ∧ screen_ok (console (core b')) ∧
  undisturbed (ports (core b)) (ports (core b')) ∧ selectors (core b') = selectors (core b).
Proof.
  intros Hs b'. do 4 (split; [done|]). split; [|split; [|done]]; cycle 1.
  { transitivity (picremap (ports (core b))); [apply picremap_undisturbed|].
    exact (timer_init_undisturbed 100 (picremap (ports (core b)))). }
  change (console (core b')) with (print (text "IDT successfully loaded!" ++ [10]) GREEN (console (core b))).
  by apply print_screen.
Qed.

Lemma boot_processes_spec b :
  let b' := boot_processes b in
  procs (core b') = snd (user_test_create (process_system_init (procs (core b)))) ∧
  ticks (core b') = ticks (core b) ∧ keys (core b') = keys (core b) ∧
  the_shell b' = the_shell b ∧ console (core b') = console (core b) ∧ ports (core b') = ports (core b) ∧
  selectors (core b') = selectors (core b).
Proof.
  cbv zeta. unfold boot_processes. change (system (scheduler_init (scheduling (core b)))) with
    (process_system_init (procs (core b))). by destruct (user_test_create _).
Qed.

Lemma boot_keyboard_spec b :
  keyboard_ok (keys (core b)) →
  let b' := boot_keyboard b in
  procs (core b') = procs (core b) ∧ ticks (core b') = ticks (core b) ∧
  the_shell b' = the_shell b ∧ console (core b') = console (core b) ∧ keyboard_ok (keys (core b')) ∧
  undisturbed (ports (core b)) (ports (core b')) ∧ selectors (core b') = selectors (core b).
Proof.
  intros [H1 H2 H3]. cbv zeta. pose proof (init_keyboard_undisturbed (keys (core b)) (ports (core b))) as Hu.
  unfold boot_keyboard. unfold init_keyboard in *. by destruct (inb _ _).
Qed.

(** The processes after [scheduler_init] and [user_test_create]. *)
Lemma user_test_create_ok n F (p : psys pmm) (k : kernel pmm P) :
  kernel_ready (machine p) n F → Paging.identity_words (ram (machine p)) → next_pid p = 1 →
  cr3 (machine p) = page_directory → n < 2 ^ 20 → Cpu.usable (selectors k) = true →
  procs k = snd (user_test_create (process_system_init p)) →
  screen_ok (console k) → keyboard_ok (keys k) → 0 ≤ ticks k < 2 ^ 32 → kernel_ok n k.
Proof.
  intros Hr Hi Hp Hd Hn Hu Ek Hs Hb Ht.
  set (k0 := with_procs (process_system_init p) k).
  assert (kernel_ok n k0) as Hk0.
  { assert (∀ i, 1 ≤ i < 16 → slot (procs k0) i = unused_process) as Hun.
    { intros i Hir. unfold slot. cbn [procs k0 with_procs with_scheduling
        scheduling with_system system processes process_system_init tss_set_kernel_stack].
      replace (Z.to_nat i) with (Datatypes.S (Z.to_nat (i - 1))) by lia. cbn [nth].
      by rewrite nth_lookup, lookup_replicate_2 by lia. }
    split; try done.
    - apply (safe_init n F p); [done|lia|done].
    - intros i Hir. by rewrite Hun.
    - intros i Hir Hne. rewrite Hun; [done|]. destruct (decide (i = 0)) as [->|]; [done|lia].
    - eexists. split; [done|]. exact Hd. }
  destruct (user_test_create (process_system_init p)) as [r q] eqn:Eq. cbn [snd] in Ek.
  apply (kernel_ok_ext n (with_procs q k0)); [|done..].
  apply (kstep_ok n k0); [done|]. eapply kstep_create_user; [done| | |exact Eq].
  - change (next_pid p < 2 ^ 31). lia.
  - change (lenZ user_test_image) with 51. lia.
Qed.

(** With four free pages the first user process is made, in slot 1, and the kernel runs. *)
Definition user_process_made (p : psys pmm) : Prop :=
  let c := slot p 1 in
  running p = Some 0 ∧ is_user (slot p 0) = false ∧ state c = PROCESS_READY ∧ pid c = 1 ∧ is_user c = true ∧ directory c ≠ 0 ∧
  image_mapped (memory p) (directory c) ∧ context_at (memory p) (context c) user_frame ∧
  walk (memory p) (directory c) USER_CODE_ADDRESS = Some (mk_translation (user_code_base c) true true).

Lemma user_test_made n F (p : psys pmm) :
  kernel_ready (machine p) n F → next_pid p = 1 → (4 ≤ size F)%nat →
  user_process_made (snd (user_test_create (process_system_init p))).
Proof.
  intros Hr Hp Hf. set (p1 := process_system_init p).
  assert (first_reusable p1 1) as H1 by (split; [lia|split; [done|lia]]).
  pose proof (process_system_init_ready p n F Hr) as Hr1. fold p1 in Hr1.
  unfold user_test_create. change (lenZ user_test_image) with 51.
  destruct (process_create_user_cases user_test_image 51 p1 ltac:(lia)) as [[Hno _]|(i & Hi & ->)].
  { destruct H1 as (_ & H1 & _). by rewrite Hno in H1 by lia. }
  assert (i = 1) as ->.
  { destruct H1 as (Hx & Ht & _), Hi as (Hy & _ & Hn). destruct (decide (i = 1)); [done|].
    by rewrite Hn in Ht by lia. }
  destruct (create_user_success user_test_image 51 1 p1 n F Hr1 Hf ltac:(by change (next_pid p1) with (next_pid p); lia) ltac:(lia))
    as (s' & q & r & u & t & -> & Hc). cbn [snd].
  destruct (user_created_walk _ _ _ _ _ _ _ _ _ _ _ Hc) as [Hw _].
  pose proof (uc_directory _ _ _ _ _ _ _ _ _ _ _ Hc) as [Ht _].
  assert (slot s' 1 = mk_process 1 PROCESS_READY (t * 4096) (q * 4096) (q * 4096 + 4036) 0 0 false true
    (r * 4096) (u * 4096)) as Es.
  { unfold slot. rewrite (uc_slot _ _ _ _ _ _ _ _ _ _ _ Hc). change (next_pid p1) with (next_pid p).
    rewrite Hp. done. }
  unfold user_process_made. cbv zeta. rewrite Es. cbn [state pid is_user directory context user_code_base].
  split; [exact (proj1 (uc_rest _ _ _ _ _ _ _ _ _ _ _ Hc))|].
  split; [unfold slot; by rewrite (uc_slot _ _ _ _ _ _ _ _ _ _ _ Hc)|].
  do 3 (split; [done|]). split; [|split; [|split; [apply Hc|]]].
  - pose proof (pages_range _ _ _ t (kr_pages _ _ _ Hr) ltac:(set_solver)). lia.
  - intros j Hj. change (lenZ user_test_image) with 51 in Hj.
    exists (mk_translation (r * 4096 + j) true true). split; [apply Hw; lia|split; [done|]].
    cbn [physical]. rewrite (uc_image _ _ _ _ _ _ _ _ _ _ _ Hc) by lia.
    apply u8_small. apply nthZ_byte. apply Forall_fold_right. vm_compute. intuition congruence.
  - rewrite <- (Z.add_0_r USER_CODE_ADDRESS), Hw, Z.add_0_r by lia. done.
Qed.

(** The whole boot. *)
Lemma kernel_main_spec fuel l magic addr b f :
  loaded b → 0 ≤ addr →
  pmm_init fuel (kmem (core b)) kernel_end (info_address magic addr) (frames (machine (procs (core b)))) = Some f →
  ∃ b', kernel_main fuel l magic addr b = Some b' ∧ shell_ok (the_shell b') ∧
    interrupt_flag (core b') = true ∧ selectors (core b') = kernel_selectors ∧
    (pmm_total_pages f < 2 ^ 20 → kernel_ok (pmm_total_pages f) (core b')) ∧
    (4 ≤ pmm_free_pages f → user_process_made (procs (core b'))).
Proof.
  intros [Hm Hp Ht [Hv1 Hv2] Hk Hs] Ha Ef. unfold kernel_main.
  set (b0 := boot_segments l (boot_terminal b)).
  destruct (boot_terminal_spec b Hv1 Hv2) as [Hs0 Hu0].
  change (console (core (boot_terminal b))) with (console (core b0)) in Hs0.
  change (ports (core (boot_terminal b))) with (ports (core b0)) in Hu0.
  assert (selectors (core b0) = kernel_selectors) as Eg0 by done.
  destruct (boot_memory fuel magic addr b0) as [b1|] eqn:E1; cycle 1.
  { exfalso. unfold boot_memory in E1. cbv zeta in E1. unfold info_address in Ef.
    change (machine (procs (core b0))) with (machine (procs (core b))) in E1.
    change (ram (machine (procs (core b)))) with (kmem (core b)) in E1.
    destruct (magic =? 0x36d76289); by rewrite Ef in E1. }
  destruct (boot_memory_spec _ _ _ _ _ E1) as (f' & Ef' & Em & Ep & Et1 & Ec1 & Ek1 & Eh1 & Eq1 & Eg1).
  assert (f' = f) as -> by (change (kmem (core b0)) with (kmem (core b)) in Ef';
    change (frames (machine (procs (core b0)))) with (frames (machine (procs (core b)))) in Ef'; congruence).
  assert (0 ≤ info_address magic addr) as Hi by (unfold info_address; destruct (_ =? _); lia).
  destruct (boot_ready fuel (kmem (core b)) (info_address magic addr) f (machine (procs (core b))) Hi Hm Ef)
    as (F & Hr & Hfree & Hid).
  change (machine (procs (core b0))) with (machine (procs (core b))) in Em. rewrite <- Em in Hr, Hid.
  cbn [mbind option_bind]. cbv zeta.
  destruct (boot_interrupts_spec l b1 ltac:(by rewrite Ec1)) as (Ep2 & Et2 & Ek2 & Eh2 & Hs2 & Hu2 & Eg2).
  set (b2 := boot_interrupts l b1) in *. clearbody b2.
  destruct (boot_processes_spec b2) as (Ep3 & Et3 & Ek3 & Eh3 & Ec3 & Eq3 & Eg3).
  set (b3 := boot_processes b2) in *. clearbody b3.
  assert (shell_ok (the_shell (on_shell shell_filesystem_init b3))) as Hs4.
  { apply shell_filesystem_init_ok, (shell_view_loaded (ports (core b))); [by rewrite Eh3, Eh2, Eh1| |by rewrite Ec3].
    rewrite Eq3. etransitivity; [exact Hu0|]. by rewrite <- Eq1. }
  destruct (on_shell_core shell_filesystem_init b3) as (Eq4 & Et4 & Ek4 & _ & Eg4 & Eh4 & _).
  set (b4 := on_shell shell_filesystem_init b3) in *.
  assert (screen_ok (console (core b4))) as Hc4 by apply Hs4. clearbody b4.
  destruct (boot_keyboard_spec b4 ltac:(by rewrite Ek4, Ek3, Ek2, Ek1)) as (Ep5 & Et5 & Eh5 & Ec5 & Hk5 & Hu5 & Eg5).
  set (b5 := boot_keyboard b4) in *. clearbody b5.
  set (b6 := with_core (enable_interrupts (core b5)) b5).
  assert (shell_ok (the_shell (on_shell shell_start b6))) as Hs7.
  { apply shell_start_ok, shell_view_ok; change (the_shell b6) with (the_shell b5); rewrite ?Eh5; [done| |].
    - change (ports (core b6)) with (ports (core b5)). by rewrite <- Eh4.
    - change (console (core b6)) with (console (core b5)). by rewrite Ec5. }
  assert (selectors (core (on_shell shell_start b6)) = kernel_selectors) as Eg7.
  { change (selectors (core b5) = kernel_selectors). by rewrite Eg5, Eg4, Eg3, Eg2, Eg1. }
  assert (procs (core (on_shell shell_start b6)) =
    snd (user_test_create (process_system_init (procs (core b1))))) as Ep7.
  { change (procs (core (on_shell shell_start b6))) with (procs (core b5)). rewrite Ep5.
    unfold procs at 1. rewrite Eq4. fold (procs (core b3)). by rewrite Ep3, Ep2. }
  assert (next_pid (procs (core b1)) = 1) as Hp1 by (by rewrite Ep).
  eexists. split; [done|]. split; [done|split; [done|split; [exact Eg7|split]]].
  - intros Hn. eapply (user_test_create_ok _ F (procs (core b1))); try done.
    + by rewrite Em.
    + by rewrite Eg7.
    + apply Hs7.
    + change (ticks (core (on_shell shell_start b6))) with (ticks (core b5)).
      rewrite Et5, Et4, Et3, Et2, Et1. change (0 ≤ ticks (core b) < 2 ^ 32). lia.
  - intros H4. rewrite Ep7. eapply (user_test_made _ F); [done|done|lia].
Qed.

(** *** The first user process *)


(** The next process after the first one is that in slot 1. *)
Lemma next_is_first_user (p : psys pmm) F i :
  table_ok p F → runnable (slot p 1) = true → next_in_turn p 0 i → i = 1 ∧ ¬ alone p.
Proof.
  intros Ht H1 Hi. split.
  - destruct (next_in_turn_before p 0 i 1 Hi) as (d & Hd & ->); [lia|done|]. by replace d with 1 by lia.
  - intros [Hc _]. rewrite process_count_spec in Hc. change (range 0 16) with ([0; 1] ++ range 2 16) in Hc.
    pose proof (first_slot_runnable _ _ Ht) as H0.
    rewrite filter_app, length_app, filter_cons_True, filter_cons_True in Hc by done. cbn in Hc. lia.
Qed.

(** The first tick changes to it, and the segments of the kernel are gone. *)
Lemma first_tick n ctx (k : kernel pmm P) :
  kernel_ok n k → Cpu.usable (selectors k) = true → in_hand ctx k → load32 (kmem k) (ctx + c_vector) = 0x20 →
  running (procs k) = Some 0 → runnable (slot (procs k) 1) = true → is_user (slot (procs k) 1) = true →
  ∃ f k1, handle ctx k = Some (Resumes f, k1) ∧ ∀ k2, resume k1 (Resumes f) k2 →
    running (procs k2) = Some 1 ∧ user_runs (procs k2) 1 = true ∧
    selectors k2 = Cpu.clear_privileged (selectors k).
Proof.
  intros Hk Hus Ho Hv Er Hrun Huser.
  destruct (handler_good n ctx k Hk Hus Ho) as (o & k1 & E & Hend & _ & Hres).
  destruct (ko_system _ _ Hk) as (F & Hr & Ht & _).
  set (s := count_quantum (with_next_directory 0 (scheduling k))).
  destruct (schedule ctx s) as [f s'] eqn:Es.
  assert (o = Resumes f ∧ scheduling k1 = s' ∧ selectors k1 = selectors k) as (-> & Es1 & Eg).
  { unfold handle in E. rewrite Hus in E. unfold isr_common_handler in E. cbv zeta in E.
    change (kmem (with_scheduling _ k)) with (kmem k) in E. rewrite Hv in E. cbn [Z.eqb Pos.eqb] in E.
    unfold handle_timer, timer_handler, scheduler_tick in E. cbn [scheduling with_ticks with_scheduling] in E.
    fold s in E. rewrite Es in E. by injection E as <- <-. }
  assert (running (procs k1) = Some 1 ∧ user_runs (procs k1) 1 = true) as [Er1 Eu1].
  { unfold procs. rewrite Es1.
    destruct (schedule_cases n s F 0 ctx Hr Ht Er) as [[Hal _]|(i & m' & _ & Hi & _ & Es')].
    - destruct (process_next_cases (procs k) 0 Er ltac:(lia)) as [[Hn _]|(i & Hi & _)].
      + rewrite Hn in Hrun by lia. done.
      + by destruct (next_is_first_user (procs k) F i Ht Hrun Hi).
    - destruct (next_is_first_user (procs k) F i Ht Hrun Hi) as [-> _]. rewrite Es in Es'. cbv zeta in Es'.
      assert (system s' = make_running 1 (with_memory m' (procs k))) as ->
        by (by destruct (_ =? _); injection Es' as _ ->).
      split; [done|]. unfold user_runs. rewrite make_running_slot, decide_True by (done || lia || apply Ht).
      change (is_user (slot (procs k) 1) && true = true). by rewrite Huser. }
  exists f, k1. split; [exact E|]. intros k2 H2.
  destruct (resume_segments n f k1 k2 1 Hend (Hres f eq_refl) H2 Er1) as (E1 & E2 & E3).
  split; [done|]. rewrite Eu1, Eg in E3. split; [|done]. unfold user_runs, slot. rewrite E2. exact Eu1.
Qed.
End lemmas.

(** ** Properties *)


(** C2. User code is confined.  In every state of the running kernel, in the address space
    of the kernel or of any process: user code can reach the page at 0x400000 and the page
    below 0x800000 and nothing else; whatever it stores, only bytes mapped there change,
    which lie in code or stack pages of user processes, not necessarily its own, and so
    outside the kernel image, every kernel stack and every page directory; no translation
    changes, and the invariant of the kernel holds after it. *)
Theorem user_code_confined {S P} {PA : PageAllocator S} {PAS : PageAllocatorSpec S}
    {KI : KernelImage} {KIO : KernelImageOk} {IO : Ports P} n (k0 k : kernel S P) d m' :
  kernel_ok n k0 → kreachable k0 k → space_directory (procs k) d → user_code d (kmem k) m' →
  (∀ va, 0 ≤ va < 2 ^ 32 → user_readable (kmem k) d va → user_window va) ∧
  (∀ a, load8 m' a ≠ load8 (kmem k) a → user_byte (procs k) a ∧
     ∃ va t, user_window va ∧ walk (kmem k) d va = Some t ∧ user t = true ∧ writable t = true ∧
       physical t = a) ∧
  (∀ va, 0 ≤ va < 2 ^ 32 → walk m' d va = walk (kmem k) d va) ∧
  kernel_ok n (with_kmem m' k).
Proof.
  intros H0 Hr Hd Hu. pose proof (kreachable_ok n k0 k H0 Hr) as Hk. pose proof (ko_system _ _ Hk) as Hs.
  pose proof (user_code_safe n _ d m' Hs Hd Hu) as Hc. destruct (ko_system _ _ Hk) as (F & Hkr & _ & Hsp).
  pose proof (kr_dir _ _ _ Hkr) as Hdir. split; [|split; [|split]].
  - intros va Hva (t & Hw & Ht). apply (user_reach (procs k) F d va t Hdir Hsp Hd Hva Hw Ht).
  - by apply (user_code_bytes n).
  - intros va Hva. by apply (safe_walk (procs k) F).
  - by apply computes_ok.
Qed.

(** C35. The return to user code takes the data segments of the kernel.  After a boot with
    four free pages, let the first timer tick interrupt kernel code: its handler makes the
    first user process run, and the return to it leaves every data segment register null.
    Nothing loads them on the next entry, so the handler of the next interrupt of whatever
    kind and with whatever memory cannot reach its variables, unless the user code itself
    loads a segment first; [user_test_image] does not. *)
Theorem first_user_process_loses_segments {P} {KI : KernelImage} {KIO : KernelImageOk} {IO : Ports P}
    {AD : AtaDrive P} fuel l magic addr (b : boot P) f :
  loaded b → 0 ≤ addr →
  pmm_init fuel (kmem (core b)) kernel_end (info_address magic addr) (frames (machine (procs (core b)))) = Some f →
  pmm_total_pages f < 2 ^ 20 → 4 ≤ pmm_free_pages f →
  ∃ b', kernel_main fuel l magic addr b = Some b' ∧
    ∀ c handler error ctx c1 m1,
      may_run (core b') c → 0 ≤ error < 2 ^ 32 →
      Cpu.interrupt (tss_esp0 (procs (core b'))) handler 0x20 error c (kmem (core b')) = (ctx, (c1, m1)) →
      ∃ next k1, handle ctx (with_kmem m1 (core b')) = Some (Resumes next, k1) ∧
        ∀ k2, resume k1 (Resumes next) k2 →
          running (procs k2) = Some 1 ∧ user_runs (procs k2) 1 = true ∧
          selectors k2 = Cpu.mk_data 0 0 0 0 ∧ ∀ ctx' m', handle ctx' (with_kmem m' k2) = None.
Proof.
  intros Hb Ha Ef Hn Hfree.
  destruct (kernel_main_spec fuel l magic addr b f Hb Ha Ef) as (b' & E & _ & _ & Hg & Hk & Hu).
  exists b'. split; [exact E|]. intros c handler error ctx c1 m1 Hrun He Ei. specialize (Hk Hn).
  destruct (Hu Hfree) as (Er & _ & Hready & _ & Huser & _).
  destruct (entry_ok _ c handler 0x20 error ctx c1 m1 _ Hk Hrun ltac:(lia) He Ei) as (Hc & Ho & Hv).
  destruct (first_tick _ ctx (with_kmem m1 (core b')) (computes_ok _ _ m1 Hk Hc)) as (next & k1 & Eh & H);
    [by change (Cpu.usable (selectors (core b')) = true); rewrite Hg|exact Ho|exact Hv|exact Er| |exact Huser|].
  { change (runnable (slot (procs (core b')) 1) = true). unfold runnable. by rewrite Hready. }
  exists next, k1. split; [exact Eh|]. intros k2 H2. destruct (H k2 H2) as (E1 & E2 & E3).
  change (selectors (with_kmem m1 (core b'))) with (selectors (core b')) in E3. rewrite Hg in E3.
  split; [done|split; [done|split; [exact E3|]]]. intros ctx' m'. unfold handle.
  change (selectors (with_kmem m' k2)) with (selectors k2). by rewrite E3.
Qed.

(** ** Instances: a boot without boot information, on the machine of [Ata]'s drive. *)

Definition example_boot : boot ata_regs :=
  mk_boot
    (mk_kernel (mk_sched (mk_psys (mk_vm ∅ Pmm.static_state 0 false []) [] 1 None 0 0) 0 0) 0
       (mk_terminal (replicate 2000 0) 0 0) Keyboard.idle (hardware simple_ata) false (Cpu.mk_data 0 0 0 0))
    (Gdt.mk_tables (replicate 6 (Gdt.mk_entry 0 0 0 0 0 0)) (Gdt.mk_gdt_ptr 0 0) Gdt.zero_tss
       (Gdt.mk_segments (Gdt.mk_gdt_ptr 0 0) 0 0 0 0 0 0 0))
    (mk_idt (replicate 256 (mk_gate 0 0 0 0 0)) (mk_idtr 0 0) (mk_idtr 0 0)) (simple_shell false).
Definition example_layout : layout := mk_layout 0x140000 0x140100 0x141000 0x142000 (λ i, 0x100000 + 16 * i).

Lemma example_loaded : loaded example_boot.
Proof.
  split; [exact empty_mem_bytes|done|done| |exact idle_ok|exact simple_loaded].
  split; [done|]. apply Forall_replicate. lia.
Qed.

Lemma no_info_boot m ke a s :
  a = 0 → ke = 0x200000 → s = static_state → pmm_init 0 m ke a s = Some boot_state.
Proof. intros -> -> ->. apply pmm_init_no_info. Qed.

Lemma boot_totals : pmm_total_pages boot_state = 4096 ∧ 4 ≤ pmm_free_pages boot_state.
Proof.
  split; [exact (repr_highest _ _ _ (proj1 boot_state_pages))|]. unfold pmm_free_pages.
  rewrite (bits_count _ _ (repr_bits _ _ _ (proj1 boot_state_pages))).
  pose proof example_free_size. unfold example_free in *. lia.
Qed.


(** The kernel at its first timer interrupt, with the stack below the end of its image. *)
Definition example_code : Cpu.cpu :=
  Cpu.mk_cpu 1 2 3 4 5 6 7 0x1F0000 0x101234 0x202 0x08 0x10 kernel_selectors.

Lemma example_may_run (k : kernel pmm ata_regs) :
  kernel_ok (KI := example_image) 4096 k → running (procs k) = Some 0 → is_user (slot (procs k) 0) = false →
  selectors k = kernel_selectors → may_run (KI := example_image) k example_code.
Proof.
  intros Hk Er Hu Hg. destruct (ko_system _ _ Hk) as (F & _ & Ht & _).
  destruct (tk_bootstrap _ _ Ht) as (_ & _ & B2 & _ & _ & B3).
  split; [by split|by rewrite Hg|]. exists 0. split; [done|]. unfold user_runs. rewrite Hu. cbn [andb].
  split; [done|split; [done|split; [done|]]].
  unfold home, apart_from_context. rewrite decide_True, B2, B3 by done. cbn. lia.
Qed.

Lemma first_user_process_loses_segments_witness :
  ∃ (b' : boot ata_regs) (next : Z) (k1 k2 : kernel pmm ata_regs),
    kernel_main (KI := example_image) 0 example_layout 0 0x9000 example_boot = Some b' ∧
    may_run (KI := example_image) (core b') example_code ∧ resume k1 (Resumes next) k2 ∧
    selectors k2 = Cpu.mk_data 0 0 0 0 ∧ ∀ ctx m, handle (KI := example_image) ctx (with_kmem m k2) = None.
Proof.
  pose proof (no_info_boot _ _ _ _ eq_refl eq_refl eq_refl : pmm_init 0 (kmem (core example_boot))
    (@kernel_end example_image) (info_address 0 0x9000) (frames (machine (procs (core example_boot)))) = Some boot_state) as Ef.
  destruct boot_totals as [Hn H4].
  destruct (kernel_main_spec (KI := example_image) (KIO := example_image_ok) 0 example_layout 0 0x9000
    example_boot boot_state example_loaded ltac:(lia) Ef) as (b1 & E1 & _ & _ & Hg & Hk & Hu).
  destruct (first_user_process_loses_segments (KI := example_image) (KIO := example_image_ok) 0 example_layout 0
    0x9000 example_boot boot_state example_loaded ltac:(lia) Ef ltac:(lia) H4) as (b' & E & H).
  assert (b1 = b') as -> by congruence. rewrite Hn in Hk. destruct (Hu H4) as (Er & Hu0 & _).
  pose proof (example_may_run (core b') (Hk ltac:(lia)) Er Hu0 Hg) as Hrun.
  destruct (Cpu.interrupt (tss_esp0 (procs (core b'))) 0x100200 0x20 0 example_code (kmem (core b')))
    as [ctx [c1 m1]] eqn:Ei.
  destruct (H example_code 0x100200 0 ctx c1 m1 Hrun ltac:(lia) Ei) as (next & k1 & _ & H2).
  destruct (Cpu.isr_return next (scheduler_next_directory (scheduling k1)) (selectors k1) (machine (procs k1)))
    as [c2 v2] eqn:E2.
  pose proof (resume_frame k1 next c2 v2 E2) as Hres. destruct (H2 _ Hres) as (_ & _ & Hs & Hh).
  exists b', next, k1. eexists. split; [exact E|split; [exact Hrun|split; [exact Hres|split; [exact Hs|exact Hh]]]].
Defined.

(** The first user process overwrites its first instruction. *)
Lemma user_code_confined_witness :
  ∃ k : kernel pmm ata_regs, let c := slot (procs k) 1 in let m' := store8 (kmem k) (user_code_base c) 0x90 in
    kernel_ok (KI := example_image) 4096 k ∧ is_user c = true ∧
    user_readable (kmem k) (directory c) USER_CODE_ADDRESS ∧
    (∀ va, 0 ≤ va < 2 ^ 32 → user_readable (kmem k) (directory c) va → user_window va) ∧
    kernel_ok (KI := example_image) 4096 (with_kmem m' k).
Proof.
  assert (4096 < 2 ^ 20 ∧ 0 ≤ USER_CODE_ADDRESS < 2 ^ 32 ∧ is_byte 0x90) as (Hlt & Hva & Hbyte) by done.
  destruct (kernel_main_spec (KI := example_image) (KIO := example_image_ok) 0 example_layout 0 0x9000
    example_boot boot_state example_loaded ltac:(lia)
    (no_info_boot _ _ _ _ eq_refl eq_refl eq_refl)) as (b' & _ & _ & _ & _ & Hk & Hu).
  destruct boot_totals as [Hn H4]. rewrite Hn in Hk. specialize (Hk Hlt).
  destruct (Hu H4) as (_ & _ & Hst & _ & Hus & _ & _ & _ & Hw).
  exists (core b'). cbv zeta. split; [exact Hk|split; [exact Hus|split; [exact (ex_intro _ _ (conj Hw eq_refl))|]]].
  destruct (user_code_confined (KI := example_image) (KIO := example_image_ok) 4096 (core b') (core b')
    (directory (slot (procs (core b')) 1)) (store8 (kmem (core b')) (user_code_base (slot (procs (core b')) 1)) 0x90)
    Hk (kreachable_start _)) as (H1 & _ & _ & H2).
  - right. exists 1. split; [split; [lia|by rewrite Hst]|done].
  - exact (user_code_store _ _ USER_CODE_ADDRESS _ 0x90 Hva Hw Hbyte).
  - split; [exact H1|exact H2].
Defined.
End Kernel.
